(* ===== verification/_CoqProject ===== *)
-Q . S2P
Prelude.v
RateWindow.v
Protocol.v
Utf8.v
Validation.v
UAPolicy.v
World.v
Client.v
Pumps.v
Roster.v
Hosts.v
Playback.v
Limits.v
Identifiers.v
Members.v
Rooms.v
Lifecycle.v
RoomOk.v
Safety.v
Preserve.v
PreserveRooms.v
PreserveLife.v
Server.v
Steady.v
Replies.v
Reachable.v
Scenario.v
Store.v
Codec.v
UserAgents.v
Persistence.v
Flush.v
Restart.v
Texts.v
Conduct.v
Club.v
Refine.v
Tame.v
Expiry.v
Revived.v
Lifetime.v
Run.v
Workers.v
ToyJson.v
Guarantees.v
Witnesses.v
RestartWitness.v
ConductWitness.v
WorkersWitness.v
CodecWitness.v
RefineWitness.v
