(* ===== verification/Prelude.v ===== *)
(** Metroserver: a verification of the listening-room server.

    The program ([src/internal/server], started by [src/cmd/metroserver])
    keeps rooms in which people listen to music together.  A client connects
    over a WebSocket, creates a room or applies to one, and is approved by the
    room's host; the host controls playback and the queue, members suggest
    tracks.  A member who loses the connection keeps the seat and comes back
    with a session token.  An absent host is replaced, empty rooms are removed,
    limits hold per room, per connection and per source, and the state is
    flushed to a database so that a restart loses nobody.

    ** Files

    Each file models the part of the source named in its opening comment; the
    files between are the invariant and its proofs.

    - [Prelude]: record update, early returns, machine integers, time, and
      lemmas on lists and maps.  [RateWindow]: the counting window that message
      rates ([client.go]) and room creation ([server.go]) share.
    - [Protocol] ([protocol.go]): message types, features, payloads.  [Utf8],
      [Validation] ([validation.go]): Go strings as bytes, cleaning of input,
      the playback clock.  [UAPolicy] ([uapolicy.go]): tiers of clients.
    - [World]: clients, rooms, sessions and the server object as heaps of
      records shared by reference; [Env], what a handler reads from outside;
      [WireFormat], what the codec offers to the server.
    - [Client], [Pumps] ([client.go]): identity, features, the outbound queue
      with back pressure, broadcasts, the writer as a relation on frames.
      [Hosts] ([hosts.go]), [Playback] ([playback.go]), [Limits] and
      [Identifiers] ([server.go]: admission, and the strings of user IDs,
      suggestion IDs and tokens), [Members] and [Rooms] ([rooms.go]), [Lifecycle] ([lifecycle.go]),
      [Server] ([server.go]: admission, dispatch, pings, shutdown).  One
      definition per handler, with its guards in the order of the source; the
      pieces a handler is split into are composed again in the handler.
    - [Codec] ([codec.go]) over the interface [Protobuf], and its instance of
      [WireFormat]; [Store], the interface of the database; [UserAgents]
      ([useragents.go]); [Persistence] ([persistence.go]) over [Store] and
      [Json]; [Run] ([run.go]: start-up, and the two threads of a shutdown);
      [Workers]: the loops of [lifecycle.go] and [persistence.go] on a clock.
    - [Roster], [RoomOk], [Safety]: the invariant.  [roster_ok] relates the
      pointers of clients, rooms and sessions, [room_ok] is the state of one
      room, [world_ok] both.  [Preserve], [PreserveRooms], [PreserveLife]: every
      handler keeps it.  [Steady]: what no handler touches.  [Reachable]: the
      process as the relation [step] (an [event] or a round of expiry) and the
      invariant by induction on it.
      [Replies]: what a handler hands to the connection that called it.
      [Texts]: every handler keeps all stored text valid UTF-8.
      [Flush], [Restart], [Revived]: what flushing writes, what loading builds
      from it, and that what it builds satisfies the invariant.  [Lifetime]: a
      deployment, processes that follow each other on one database.
    - [Conduct], [Guarantees]: the promises of handlers and of all states.
      [Club]: the rooms as an abstract machine of seats, applicants and hosts,
      and what its actors can do; [Refine]: the server is an implementation
      of the machine, handler by handler.  [Tame], [Expiry]: a round of expiry
      among everything else, and who goes by an identifier meanwhile.
    - [Scenario], [ToyJson] and the files [...Witness(es)]: a concrete run, and
      instances of the interfaces that satisfy their laws.

    ** What the theorems show

    - In every state of a deployment, crashes and restarts included
      ([Guarantees]): user lists are the seats, a room has at most one host,
      client and room pointers agree, tokens are exactly the reserved seats,
      all limits hold, the accounts of connections are exact, no channel is
      sent to or closed twice, all text is valid UTF-8 whatever bytes clients
      send, and a numbered request is answered exactly once.
    - Membership ([Refine]): the server refines the machine of [Club]; seats are
      given only to founders and by hosts to applicants, and taken only by
      their holders, by hosts, from those who stay away, or with the room.
    - Expiry ([Expiry]): whatever comes between taking the tokens that ran out
      and visiting their rooms, the books agree at every moment.
    - Restarts ([Lifetime], [Run], [Restart], [Flush]): from any moment the
      server boots with the rooms and tokens of the last flush; a process told
      to stop ends only after its final save, and the next one has the rooms
      and seats of that moment; write-behind equals writing everything; an
      outage does not count against anybody.
    - Time ([Workers]): a crash loses at most one flush interval; absent hosts
      are relieved and overdue seats given up within one interval of the cleanup
      worker.
    - Handlers ([Conduct], [Playback], [Hosts]): who may do what and what it
      does; applicants who are approved are members, kicks are final, tokens
      bring their holders back and move to whoever presents them last, a
      reconnection that others interrupt takes the seat or changes nothing, absent
      hosts are replaced by the best deputy, seats that ran out are given up.
    - Connections and messages ([Pumps], [Client], [Codec]): the writer delivers
      what was accepted in order, broadcasting equals sending to each, encoding
      and decoding are inverse, the scan of hostile input ends and is exact.
    - Limits, identifiers, validation, policy and statistics ([Limits],
      [Identifiers], [Validation], [UAPolicy], [UserAgents]).

    ** How the code is represented

    Pointers are references into heaps, so that aliasing and pointer comparison
    are those of the source.  A handler is a function on worlds; it is atomic,
    as in the source its state changes happen under the locks of the room and
    the server.  [handleReconnect] is the exception: its claim, the replacement
    of a live connection and its second critical section ([finish_reconnect])
    are also steps of their own, between which anything may happen.  A round of
    a cleanup loop is one step; a round of expiry is also taken apart, in
    [Expiry], into taking the tokens and one visit per session.  The processes of the program interleave as steps of
    [step]: connections opening, messages, ends of connections, writers, the
    three cleanup loops, policy changes and shutdown.  Integers keep their
    width: wrap-around is written out, and [float64] values are the floats of
    the Standard Library.  Identifiers come from the environment and are new
    when drawn (user IDs carry the clock, tokens 256 random bits: they repeat
    only when these do, [identifiers_distinct]); room codes are checked for
    being taken, as in the source.  Maps are finite maps; where the source walks a
    map, the theorems hold for the order of the model and, where the outcome
    could depend on it, are proved for every order ([pickDeputy_best],
    [sort_by_unique]).

    The only recursion that is not structural is the scan of protobuf fields;
    it has the length of the input plus one as fuel, which is always enough
    since every round consumes a byte ([cardinality_exact]).

    [step] allows a round of a worker at any time.  [Workers] adds the clock: a
    worker acts when its ticker does, and time does not pass a tick that a
    running worker has yet to receive, which is how a worker that keeps up
    behaves; requests and handshakes happen at any moment in between.

    Interfaces stand for code that is not part of the sources, with laws that
    state its documented behaviour: [Protobuf] (the generated messages, the
    protobuf runtime and gzip), [Store] (bbolt), [Json] (encoding/json on valid
    UTF-8), [PolicyIO] (reading and decoding a policy file), [UnicodeTables].

    ** Not modelled

    The HTTP server and its timeouts, TLS, the delivery of signals, logging,
    deadlines of sockets and the health endpoint: they decide when a step
    happens, never what it does.  A worker that falls behind its ticker, whose
    ticks Go then drops.  Interleavings inside a handler other than
    reconnection, and inside a round of a worker other than expiry: where the
    source gives up its locks and takes them again, it checks again, and the
    model keeps these checks, but no other step comes between; one visit of an
    expiry looks its room up and enters it in one step.  A reconnection looks its room up and
    enters it in one step.  Errors of read-only transactions of the database,
    and closing it. *)

From stdpp Require Export base tactics option list strings gmap sets.
From Stdlib Require Export ZArith Lia.

#[global] Open Scope string_scope.
#[global] Open Scope list_scope.
#[global] Open Scope Z_scope.
#[global] Set Default Goal Selector "!".

(** * Record update

    Go assigns to one field of a struct at a time.  [r <| f := v |>] is the
    record [r] with field [f] replaced; the setter is derived from the eta
    expansion of the record, which every record below declares. *)

Class Eta (R : Type) := eta_of : R → R.
Class Updatable {R T : Type} (field : R → T) := update_field : (T → T) → R → R.

Ltac derive_setter field :=
  match type of field with
  | ?R → ?T =>
    let inst := constr:(_ : Eta R) in
    let body := eval red in inst in
    match eval pattern field in body with
    | ?ctx _ =>
      let s := constr:(fun (f : T → T) => ctx (fun r : R => f (field r))) in
      let s' := eval cbv beta in s in
      exact s'
    end
  end.

#[export] Hint Extern 0 (Updatable ?field) => (derive_setter field) : typeclass_instances.

Declare Scope go_scope.
Delimit Scope go_scope with go.
Notation "r <| f := v |>" := (update_field (field := f) (fun _ => v) r)
  (at level 1, f at level 9, left associativity, format "r  <| f  :=  v |>") : go_scope.
Notation "r <| f ::= g |>" := (update_field (field := f) g r)
  (at level 1, f at level 9, left associativity, format "r  <| f  ::=  g |>") : go_scope.
#[global] Open Scope go_scope.

(** * Early returns

    A handler of the server is a chain of checks, each answered with an error
    and a [return].  [refuse P by e in k] is [if P { e; return }; k] and
    [need x := o orelse e in k] is [x, ok := o; if !ok { e; return }; k]. *)

Notation "'refuse' P 'by' e 'in' k" := (if decide P then e else k)
  (at level 10, P at level 99, e at level 99, k at level 200,
   format "'[v' 'refuse'  P  'by'  e  'in' '/' k ']'") : go_scope.
Notation "'need' x ':=' o 'orelse' e 'in' k" :=
  (match o with Some x => k | None => e end)
  (at level 10, x pattern, o at level 99, e at level 99, k at level 200,
   format "'[v' 'need'  x  ':='  o  'orelse'  e  'in' '/' k ']'") : go_scope.

(** * Machine integers

    Go's [int64] and [uint64] arithmetic wraps around; the model keeps the
    values in [Z] and writes the wrap. *)

Definition int64_min : Z := - 2 ^ 63.
Definition int64_max : Z := 2 ^ 63 - 1.
Definition uint64_max : Z := 2 ^ 64 - 1.
Definition uint32_max : Z := 2 ^ 32 - 1.
Definition int64_wrap (z : Z) : Z := (z + 2 ^ 63) mod 2 ^ 64 - 2 ^ 63.
Definition uint64_wrap (z : Z) : Z := z mod 2 ^ 64.
Definition uint32_wrap (z : Z) : Z := z mod 2 ^ 32.

Definition is_int64 (z : Z) : Prop := int64_min ≤ z ≤ int64_max.
Definition is_uint64 (z : Z) : Prop := 0 ≤ z ≤ uint64_max.

Lemma int64_wrap_range z : is_int64 (int64_wrap z).
Proof.
  unfold is_int64, int64_min, int64_max, int64_wrap.
  pose proof (Z.mod_pos_bound (z + 2 ^ 63) (2 ^ 64)); lia.
Qed.

Lemma int64_wrap_id z : is_int64 z → int64_wrap z = z.
Proof.
  unfold is_int64, int64_min, int64_max, int64_wrap; intros.
  rewrite Z.mod_small; lia.
Qed.

Lemma uint64_wrap_range z : is_uint64 (uint64_wrap z).
Proof.
  unfold is_uint64, uint64_max, uint64_wrap.
  pose proof (Z.mod_pos_bound z (2 ^ 64)); lia.
Qed.

Lemma uint64_wrap_id z : is_uint64 z → uint64_wrap z = z.
Proof. unfold is_uint64, uint64_max, uint64_wrap; intros; apply Z.mod_small; lia. Qed.

(** * Time

    A [time.Time] is its number of nanoseconds since Go's zero time, so that
    the zero value is [0]; a [time.Duration] is an [int64] of nanoseconds.
    [Time.Sub] saturates at the ends of the range of a duration. *)

Definition Time := Z.
Definition Duration := Z.

Definition Nanosecond : Duration := 1.
Definition Millisecond : Duration := 1000000.
Definition Second : Duration := 1000 * Millisecond.
Definition Minute : Duration := 60 * Second.
Definition Hour : Duration := 60 * Minute.

Definition IsZero (t : Time) : Prop := t = 0.
#[export] Instance IsZero_dec t : Decision (IsZero t) := Z.eq_dec t 0.

Definition Sub (t u : Time) : Duration := Z.max int64_min (Z.min int64_max (t - u)).
Definition Milliseconds (d : Duration) : Z := Z.quot d Millisecond.

Lemma Sub_id t : Sub t t = 0.
Proof. unfold Sub, int64_min, int64_max; lia. Qed.

(** * Automation *)

Create HintDb metro.

(** Case analysis on every guard of a handler, innermost discriminee first. *)
Ltac split_guards :=
  repeat match goal with
    | |- context [decide ?P] => destruct (decide P)
    | |- context [match ?o with Some _ => _ | None => _ end] => destruct o eqn:?
    | |- context [if ?b then _ else _] => destruct b eqn:?
    end.

(** * Lists, options and maps *)

Lemma size_delete_le {A} (m : gmap string A) k : (size (delete k m) ≤ size m)%nat.
Proof.
  destruct (m !! k) eqn:E.
  - rewrite map_size_delete, E; lia.
  - by rewrite delete_id.
Qed.

Lemma size_insert_le {A} (m : gmap string A) k v : (size (<[k:=v]> m) ≤ S (size m))%nat.
Proof.
  rewrite map_size_insert. destruct (m !! k); cbn; lia.
Qed.

Lemma mjoin_cons {A} (x : list A) (xs : list (list A)) : mjoin (x :: xs) = x ++ mjoin xs.
Proof. done. Qed.

Lemma fmap_id_Forall {A} (f : A → A) (l : list A) : Forall (λ x, f x = x) l → f <$> l = l.
Proof. induction 1; cbn; congruence. Qed.

Lemma filter_id_Forall {A} (P : A → Prop) `{!∀ x, Decision (P x)} (l : list A) :
  Forall P l → filter P l = l.
Proof.
  induction 1 as [|x l Hx Hl IH]; [done|]. rewrite filter_cons_True by done. by f_equal.
Qed.
