(* ===== verification/RateWindow.v ===== *)
(** RateWindow: the fixed-window counter behind the server's rate limits.

    [Client.allowMessage] and [Server.allowRoomCreate] both count events in a
    window that restarts with the first event after it ran out.  This file is
    the abstract counter with its bound; the two components prove that they
    refine it. *)

From S2P Require Import Prelude.

Section Window.
Variables (span : Duration) (quota : Z).
Hypothesis span_pos : 0 < span < 2 ^ 62.
Hypothesis quota_pos : 0 < quota.

(** The current window, if any: its start and the events admitted in it. *)
Definition window := option (Z * Z).

Definition window_at (now : Time) (win : window) : Z * Z :=
  match win with
  | Some (start, n) => if decide (span ≤ Sub now start) then (now, 0) else (start, n)
  | None => (now, 0)
  end.
Definition window_step (now : Time) (win : window) : bool * window :=
  let cur := window_at now win in
  if decide (cur.2 < quota) then (true, Some (cur.1, cur.2 + 1)) else (false, Some cur).

Fixpoint window_admitted (ts : list Time) (win : window) : Z :=
  match ts with
  | [] => 0
  | t :: ts => let r := window_step t win in (if r.1 then 1 else 0) + window_admitted ts r.2
  end.

Definition window_ok (win : window) : Prop :=
  match win with Some (_, n) => 0 ≤ n ≤ quota | None => True end.

Lemma window_step_ok now win : window_ok win → window_ok (window_step now win).2.
Proof.
  intros Hok. unfold window_step, window_at.
  destruct win as [[start n]|]; cbn in *; repeat case_decide; cbn in *; lia.
Qed.

(** Within a window that started inside the stretch only the rest of its
    quota is admitted. *)
Lemma window_admitted_rest t0 ts start n :
  Forall (λ t, t0 ≤ t < t0 + span) ts → t0 ≤ start < t0 + span → 0 ≤ n ≤ quota →
  window_admitted ts (Some (start, n)) ≤ quota - n.
Proof.
  intros Hts. revert n. induction Hts as [|t ts Ht Hts IH]; intros n Hs Hn; cbn; [lia|].
  assert (¬ span ≤ Sub t start) by (unfold Sub, int64_min, int64_max; lia).
  unfold window_step, window_at. rewrite (decide_False (P := span ≤ _)) by done. cbn.
  case_decide; cbn; [pose proof (IH (n + 1) Hs ltac:(lia)); lia|by apply IH].
Qed.

Lemma window_admitted_bound t0 ts win :
  Forall (λ t, t0 ≤ t < t0 + span) ts → window_ok win →
  window_admitted ts win ≤ quota + match win with Some (_, n) => quota - n | None => 0 end.
Proof.
  intros Hts. revert win. induction Hts as [|t ts Ht Hts IH]; intros win Hok; cbn.
  { destruct win as [[start n]|]; cbn in *; lia. }
  assert (window_admitted ts (Some (t, 0 + 1)) ≤ quota - 1) as Hfresh
    by (apply (window_admitted_rest t0); [done|lia|lia]).
  unfold window_step, window_at. destruct win as [[start n]|]; cbn in *.
  - destruct (decide (span ≤ Sub t start)); cbn; [rewrite decide_True by lia; cbn; lia|].
    case_decide; cbn.
    + specialize (IH (Some (start, n + 1))). cbn in IH. lia.
    + specialize (IH (Some (start, n))). cbn in IH. lia.
  - rewrite decide_True by lia. cbn. lia.
Qed.

(** Any stretch shorter than the span admits at most two quotas. *)
Lemma window_two_quotas t0 ts win :
  Forall (λ t, t0 ≤ t < t0 + span) ts → window_ok win →
  window_admitted ts win ≤ 2 * quota.
Proof.
  intros Hts Hok. pose proof (window_admitted_bound t0 ts win Hts Hok).
  destruct win as [[start n]|]; cbn in *; lia.
Qed.

End Window.
