(* ===== verification/Protocol.v ===== *)
(** Protocol: the wire-level data of [src/internal/server/protocol.go].

    Message types, feature names and playback actions are the string constants
    of the source; each payload struct is a record whose fields carry a short
    prefix of the struct's name ([ti_ID] is [TrackInfo.ID]).  A [*T] field is
    an [option T]; a nil slice and an empty one are both [[]] (no code path
    produces a slice for which the difference is observable: decoded queues
    are non-nil exactly when they have an entry, and [append([]T(nil), q...)]
    of an empty [q] is nil).  [float64] volumes are the IEEE-754 values of
    [SpecFloat].  [Payload] is the set of dynamic types that travel in an
    [interface{}] payload. *)

From Stdlib Require Export Floats.SpecFloat.
From S2P Require Import Prelude.

(** ** Message types, features and actions *)

Definition MsgTypeCreateRoom : string := "create_room".
Definition MsgTypeJoinRoom : string := "join_room".
Definition MsgTypeLeaveRoom : string := "leave_room".
Definition MsgTypeApproveJoin : string := "approve_join".
Definition MsgTypeRejectJoin : string := "reject_join".
Definition MsgTypePlaybackAction : string := "playback_action".
Definition MsgTypeBufferReady : string := "buffer_ready".
Definition MsgTypeKickUser : string := "kick_user".
Definition MsgTypeTransferHost : string := "transfer_host".
Definition MsgTypePing : string := "ping".
Definition MsgTypeRequestSync : string := "request_sync".
Definition MsgTypeReconnect : string := "reconnect".
Definition MsgTypeSuggestTrack : string := "suggest_track".
Definition MsgTypeApproveSuggestion : string := "approve_suggestion".
Definition MsgTypeRejectSuggestion : string := "reject_suggestion".
Definition MsgTypeClientCapabilities : string := "client_capabilities".
Definition MsgTypeRoomCreated : string := "room_created".
Definition MsgTypeJoinRequest : string := "join_request".
Definition MsgTypeJoinApproved : string := "join_approved".
Definition MsgTypeJoinRejected : string := "join_rejected".
Definition MsgTypeUserJoined : string := "user_joined".
Definition MsgTypeUserLeft : string := "user_left".
Definition MsgTypeSyncPlayback : string := "sync_playback".
Definition MsgTypeBufferWait : string := "buffer_wait".
Definition MsgTypeBufferComplete : string := "buffer_complete".
Definition MsgTypeError : string := "error".
Definition MsgTypePong : string := "pong".
Definition MsgTypeHostChanged : string := "host_changed".
Definition MsgTypeKicked : string := "kicked".
Definition MsgTypeSyncState : string := "sync_state".
Definition MsgTypeReconnected : string := "reconnected".
Definition MsgTypeUserReconnected : string := "user_reconnected".
Definition MsgTypeUserDisconnected : string := "user_disconnected".
Definition MsgTypeSuggestionReceived : string := "suggestion_received".
Definition MsgTypeSuggestionApproved : string := "suggestion_approved".
Definition MsgTypeSuggestionRejected : string := "suggestion_rejected".
Definition MsgTypeServerCapabilities : string := "server_capabilities".
Definition MsgTypeAck : string := "ack".
Definition MsgTypeServerRestarting : string := "server_restarting".
Definition MsgTypeSuggestionSubmitted : string := "suggestion_submitted".

Definition FeatureRequestID : string := "request_id".
Definition FeatureOriginTag : string := "origin_tag".
Definition FeatureDriftReport : string := "drift_report".
Definition FeatureDesyncCanary : string := "desync_canary".
Definition FeatureServerRestarting : string := "server_restarting".
Definition FeatureSuggestionAck : string := "suggestion_ack".
Definition FeatureReplaceQueue : string := "replace_queue".
Definition FeatureHostSequence : string := "host_sequence".
Definition FeatureTrackRevision : string := "track_revision".
Definition FeatureUpdateTrack : string := "update_track".

Definition ActionPlay : string := "play".
Definition ActionPause : string := "pause".
Definition ActionSeek : string := "seek".
Definition ActionSkipNext : string := "skip_next".
Definition ActionSkipPrev : string := "skip_prev".
Definition ActionChangeTrack : string := "change_track".
Definition ActionQueueAdd : string := "queue_add".
Definition ActionQueueRemove : string := "queue_remove".
Definition ActionQueueClear : string := "queue_clear".
Definition ActionSyncQueue : string := "sync_queue".
Definition ActionSetVolume : string := "set_volume".
Definition ActionUpdateTrack : string := "update_track".

Definition serverFeatures : list string := [
  FeatureRequestID; FeatureOriginTag; FeatureDriftReport;
  FeatureDesyncCanary; FeatureServerRestarting; FeatureSuggestionAck;
  FeatureReplaceQueue; FeatureHostSequence; FeatureTrackRevision;
  FeatureUpdateTrack
].

(** ** Floating-point volumes *)

Definition float64_zero : spec_float := S754_zero false.
Definition float64_one : spec_float := S754_finite false 4503599627370496 (-52).

Definition IsNaN (x : spec_float) : bool :=
  match x with S754_nan => true | _ => false end.
Definition IsInf (x : spec_float) : bool :=
  match x with S754_infinity _ => true | _ => false end.

(** ** Structs *)

Record TrackInfo := mkTrackInfo {
  ti_ID : string;
  ti_Title : string;
  ti_Artist : string;
  ti_Album : string;
  ti_Duration : Z;
  ti_Thumbnail : string;
  ti_SuggestedBy : string
}.
#[export] Instance TrackInfo_eta : Eta TrackInfo := fun r =>
  mkTrackInfo (ti_ID r) (ti_Title r) (ti_Artist r) (ti_Album r) (ti_Duration r)
    (ti_Thumbnail r) (ti_SuggestedBy r).

Record UserInfo := mkUserInfo {
  ui_UserID : string;
  ui_Username : string;
  ui_IsHost : bool;
  ui_IsConnected : bool
}.
#[export] Instance UserInfo_eta : Eta UserInfo := fun r =>
  mkUserInfo (ui_UserID r) (ui_Username r) (ui_IsHost r) (ui_IsConnected r).

Record RoomState := mkRoomState {
  rs_RoomCode : string;
  rs_HostID : string;
  rs_Users : list UserInfo;
  rs_CurrentTrack : option TrackInfo;
  rs_IsPlaying : bool;
  rs_Position : Z;
  rs_LastUpdate : Z;
  rs_Volume : spec_float;
  rs_Queue : list TrackInfo;
  rs_Revision : Z;
  rs_QueueTitle : string
}.
#[export] Instance RoomState_eta : Eta RoomState := fun r =>
  mkRoomState (rs_RoomCode r) (rs_HostID r) (rs_Users r) (rs_CurrentTrack r)
    (rs_IsPlaying r) (rs_Position r) (rs_LastUpdate r) (rs_Volume r) (rs_Queue r)
    (rs_Revision r) (rs_QueueTitle r).

Record CreateRoomPayload := mkCreateRoomPayload {
  crp_Username : string
}.
#[export] Instance CreateRoomPayload_eta : Eta CreateRoomPayload := fun r =>
  mkCreateRoomPayload (crp_Username r).

Record RoomCreatedPayload := mkRoomCreatedPayload {
  rcp_RoomCode : string;
  rcp_UserID : string;
  rcp_SessionToken : string
}.

Record JoinRoomPayload := mkJoinRoomPayload {
  jrp_RoomCode : string;
  jrp_Username : string
}.
#[export] Instance JoinRoomPayload_eta : Eta JoinRoomPayload := fun r =>
  mkJoinRoomPayload (jrp_RoomCode r) (jrp_Username r).

Record JoinRequestPayload := mkJoinRequestPayload {
  jqp_UserID : string;
  jqp_Username : string
}.

Record ApproveJoinPayload := mkApproveJoinPayload {
  ajp_UserID : string
}.

Record RejectJoinPayload := mkRejectJoinPayload {
  rjp_UserID : string;
  rjp_Reason : string
}.

Record JoinApprovedPayload := mkJoinApprovedPayload {
  jap_RoomCode : string;
  jap_UserID : string;
  jap_SessionToken : string;
  jap_State : option RoomState
}.
#[export] Instance JoinApprovedPayload_eta : Eta JoinApprovedPayload := fun r =>
  mkJoinApprovedPayload (jap_RoomCode r) (jap_UserID r) (jap_SessionToken r) (jap_State
    r).

Record JoinRejectedPayload := mkJoinRejectedPayload {
  jdp_Reason : string
}.

Record UserJoinedPayload := mkUserJoinedPayload {
  ujp_UserID : string;
  ujp_Username : string
}.

Record UserLeftPayload := mkUserLeftPayload {
  ulp_UserID : string;
  ulp_Username : string
}.

Record PlaybackActionPayload := mkPlaybackActionPayload {
  pa_Action : string;
  pa_TrackID : string;
  pa_Position : Z;
  pa_TrackInfo : option TrackInfo;
  pa_InsertNext : bool;
  pa_Queue : list TrackInfo;
  pa_QueueTitle : string;
  pa_Volume : spec_float;
  pa_ServerTime : Z;
  pa_Revision : Z;
  pa_CapturedAtServerTime : Z;
  pa_ReplaceQueue : bool;
  pa_OriginUserID : string;
  pa_HostSequence : Z
}.
#[export] Instance PlaybackActionPayload_eta : Eta PlaybackActionPayload := fun r =>
  mkPlaybackActionPayload (pa_Action r) (pa_TrackID r) (pa_Position r) (pa_TrackInfo r)
    (pa_InsertNext r) (pa_Queue r) (pa_QueueTitle r) (pa_Volume r) (pa_ServerTime r)
    (pa_Revision r) (pa_CapturedAtServerTime r) (pa_ReplaceQueue r) (pa_OriginUserID r)
    (pa_HostSequence r).

Record PingPayload := mkPingPayload {
  ping_ClientTime : Z;
  ping_Sequence : Z;
  ping_HasPosition : bool;
  ping_TrackID : string;
  ping_Position : Z;
  ping_PositionCapturedAtServerTime : Z;
  ping_HasStateHash : bool;
  ping_StateHash : Z
}.

Record PongPayload := mkPongPayload {
  pong_ClientTime : Z;
  pong_ServerReceiveTime : Z;
  pong_ServerSendTime : Z;
  pong_Sequence : Z;
  pong_DriftValid : bool;
  pong_DriftMs : Z;
  pong_StateMismatch : bool
}.
#[export] Instance PongPayload_eta : Eta PongPayload := fun r =>
  mkPongPayload (pong_ClientTime r) (pong_ServerReceiveTime r) (pong_ServerSendTime r)
    (pong_Sequence r) (pong_DriftValid r) (pong_DriftMs r) (pong_StateMismatch r).

Record ServerRestartingPayload := mkServerRestartingPayload {
  srp_EtaMs : Z;
  srp_Reason : string
}.

Record SuggestionSubmittedPayload := mkSuggestionSubmittedPayload {
  ssp_SuggestionID : string;
  ssp_TrackInfo : option TrackInfo
}.

Record SuggestTrackPayload := mkSuggestTrackPayload {
  stp_TrackInfo : option TrackInfo
}.

Record SuggestionReceivedPayload := mkSuggestionReceivedPayload {
  sgr_SuggestionID : string;
  sgr_FromUserID : string;
  sgr_FromUsername : string;
  sgr_TrackInfo : option TrackInfo
}.

Record ApproveSuggestionPayload := mkApproveSuggestionPayload {
  asp_SuggestionID : string
}.

Record RejectSuggestionPayload := mkRejectSuggestionPayload {
  rsp_SuggestionID : string;
  rsp_Reason : string
}.

Record SuggestionApprovedPayload := mkSuggestionApprovedPayload {
  sga_SuggestionID : string;
  sga_TrackInfo : option TrackInfo
}.

Record SuggestionRejectedPayload := mkSuggestionRejectedPayload {
  sgj_SuggestionID : string;
  sgj_Reason : string
}.

Record BufferReadyPayload := mkBufferReadyPayload {
  brp_TrackID : string;
  brp_TrackRevision : Z
}.

Record BufferWaitPayload := mkBufferWaitPayload {
  bwp_TrackID : string;
  bwp_WaitingFor : list string
}.

Record BufferCompletePayload := mkBufferCompletePayload {
  bcp_TrackID : string
}.

Record ErrorPayload := mkErrorPayload {
  ep_Code : string;
  ep_Message : string
}.

Record KickUserPayload := mkKickUserPayload {
  kup_UserID : string;
  kup_Reason : string
}.

Record TransferHostPayload := mkTransferHostPayload {
  thp_NewHostID : string
}.

Record KickedPayload := mkKickedPayload {
  kp_Reason : string
}.

Record HostChangedPayload := mkHostChangedPayload {
  hcp_NewHostID : string;
  hcp_NewHostName : string
}.

Record SyncStatePayload := mkSyncStatePayload {
  ssy_CurrentTrack : option TrackInfo;
  ssy_IsPlaying : bool;
  ssy_Position : Z;
  ssy_LastUpdate : Z;
  ssy_Volume : spec_float;
  ssy_Queue : list TrackInfo;
  ssy_Revision : Z;
  ssy_QueueTitle : string
}.
#[export] Instance SyncStatePayload_eta : Eta SyncStatePayload := fun r =>
  mkSyncStatePayload (ssy_CurrentTrack r) (ssy_IsPlaying r) (ssy_Position r)
    (ssy_LastUpdate r) (ssy_Volume r) (ssy_Queue r) (ssy_Revision r) (ssy_QueueTitle r).

Record ReconnectPayload := mkReconnectPayload {
  rcn_SessionToken : string
}.

Record ClientCapabilitiesPayload := mkClientCapabilitiesPayload {
  ccp_SupportsProtobuf : bool;
  ccp_SupportsCompression : bool;
  ccp_ClientVersion : string;
  ccp_Features : list string
}.

Record ServerCapabilitiesPayload := mkServerCapabilitiesPayload {
  scp_SupportsProtobuf : bool;
  scp_SupportsCompression : bool;
  scp_ServerVersion : string;
  scp_Features : list string;
  scp_CanHost : bool
}.

Record ReconnectedPayload := mkReconnectedPayload {
  rcd_RoomCode : string;
  rcd_UserID : string;
  rcd_State : option RoomState;
  rcd_IsHost : bool
}.
#[export] Instance ReconnectedPayload_eta : Eta ReconnectedPayload := fun r =>
  mkReconnectedPayload (rcd_RoomCode r) (rcd_UserID r) (rcd_State r) (rcd_IsHost r).

Record UserReconnectedPayload := mkUserReconnectedPayload {
  urp_UserID : string;
  urp_Username : string
}.

Record UserDisconnectedPayload := mkUserDisconnectedPayload {
  udp_UserID : string;
  udp_Username : string
}.

(** ** Dynamic payloads *)

Inductive Payload :=
  | PCreateRoom (p : CreateRoomPayload)
  | PRoomCreated (p : RoomCreatedPayload)
  | PJoinRoom (p : JoinRoomPayload)
  | PJoinRequest (p : JoinRequestPayload)
  | PApproveJoin (p : ApproveJoinPayload)
  | PRejectJoin (p : RejectJoinPayload)
  | PJoinApproved (p : JoinApprovedPayload)
  | PJoinRejected (p : JoinRejectedPayload)
  | PUserJoined (p : UserJoinedPayload)
  | PUserLeft (p : UserLeftPayload)
  | PPlaybackAction (p : PlaybackActionPayload)
  | PPing (p : PingPayload)
  | PPong (p : PongPayload)
  | PServerRestarting (p : ServerRestartingPayload)
  | PSuggestionSubmitted (p : SuggestionSubmittedPayload)
  | PSuggestTrack (p : SuggestTrackPayload)
  | PSuggestionReceived (p : SuggestionReceivedPayload)
  | PApproveSuggestion (p : ApproveSuggestionPayload)
  | PRejectSuggestion (p : RejectSuggestionPayload)
  | PSuggestionApproved (p : SuggestionApprovedPayload)
  | PSuggestionRejected (p : SuggestionRejectedPayload)
  | PBufferReady (p : BufferReadyPayload)
  | PBufferWait (p : BufferWaitPayload)
  | PBufferComplete (p : BufferCompletePayload)
  | PError (p : ErrorPayload)
  | PKickUser (p : KickUserPayload)
  | PTransferHost (p : TransferHostPayload)
  | PKicked (p : KickedPayload)
  | PHostChanged (p : HostChangedPayload)
  | PSyncState (p : SyncStatePayload)
  | PReconnect (p : ReconnectPayload)
  | PClientCapabilities (p : ClientCapabilitiesPayload)
  | PServerCapabilities (p : ServerCapabilitiesPayload)
  | PReconnected (p : ReconnectedPayload)
  | PUserReconnected (p : UserReconnectedPayload)
  | PUserDisconnected (p : UserDisconnectedPayload)
  | PRoomState (state : RoomState).
