(* ===== verification/Utf8.v ===== *)
(** Utf8: the part of Go's [unicode/utf8], [unicode] and [strings] packages
    that the server uses.

    A Go string is a sequence of bytes, here a [string] of 8-bit [ascii]
    characters; [explode] gives the bytes as numbers.  [decodeRune] is
    [utf8.DecodeRuneInString], [segments] the successive results of a
    [for _, r := range s] loop, [Map], [TrimSpace], [ToValidUTF8] and
    [ValidString] the functions of the same name.  The main facts: encoded
    scalar values decode to themselves, a string is valid exactly when it is
    an encoding of scalar values, [Map] always yields a valid string, and
    [TrimSpace] on a valid string trims its scalar values. *)

From S2P Require Import Prelude.
From Stdlib Require Import Ascii.

#[local] Ltac Zify.zify_post_hook ::= Z.to_euclidean_division_equations.

(** ** Bytes of a string *)

Definition byte_of (a : Ascii.ascii) : Z := Z.of_N (N_of_ascii a).
Definition ascii_of (z : Z) : Ascii.ascii := ascii_of_N (Z.to_N z).

Fixpoint explode (s : string) : list Z :=
  match s with
  | EmptyString => []
  | String a s => byte_of a :: explode s
  end.

Fixpoint implode (l : list Z) : string :=
  match l with
  | [] => EmptyString
  | b :: l => String (ascii_of b) (implode l)
  end.

(** [len(s)] *)
Definition len (s : string) : Z := Z.of_nat (String.length s).

Definition is_byte (b : Z) : Prop := 0 ≤ b < 256.

(** ** utf8 *)

Definition RuneError : Z := 0xFFFD.
Definition MaxRune : Z := 0x10FFFF.

Definition is_scalar (r : Z) : Prop := 0 ≤ r ≤ MaxRune ∧ ¬ (0xD800 ≤ r ≤ 0xDFFF).
#[export] Instance is_scalar_dec r : Decision (is_scalar r).
Proof. unfold is_scalar. apply _. Defined.

(** [utf8.AppendRune] (and [strings.Builder.WriteRune]). *)
Definition encodeRune (r : Z) : list Z :=
  let r := if decide (is_scalar r) then r else RuneError in
  if r <? 0x80 then [r]
  else if r <? 0x800 then [0xC0 + r / 64; 0x80 + r mod 64]
  else if r <? 0x10000 then [0xE0 + r / 4096; 0x80 + (r / 64) mod 64; 0x80 + r mod 64]
  else [0xF0 + r / 262144; 0x80 + (r / 4096) mod 64; 0x80 + (r / 64) mod 64; 0x80 + r mod 64].

Definition within (lo b hi : Z) : bool := (lo <=? b) && (b <=? hi).
Definition cont (b : Z) : bool := within 0x80 b 0xBF.

(** The range the second byte must fall in, by first byte. *)
Definition second_ok (b0 b1 : Z) : bool :=
  if b0 =? 0xE0 then within 0xA0 b1 0xBF
  else if b0 =? 0xED then within 0x80 b1 0x9F
  else if b0 =? 0xF0 then within 0x90 b1 0xBF
  else if b0 =? 0xF4 then within 0x80 b1 0x8F
  else cont b1.

(** [utf8.DecodeRuneInString]: the first rune and its width; [(RuneError, 1)]
    on an invalid encoding, [(RuneError, 0)] on an empty string. *)
Definition decodeRune (l : list Z) : Z * nat :=
  match l with
  | [] => (RuneError, 0%nat)
  | b0 :: l1 =>
    if b0 <? 0x80 then (b0, 1%nat)
    else match l1 with
    | b1 :: l2 =>
      if within 0xC2 b0 0xDF then
        if second_ok b0 b1 then ((b0 - 0xC0) * 64 + (b1 - 0x80), 2%nat) else (RuneError, 1%nat)
      else match l2 with
      | b2 :: l3 =>
        if within 0xE0 b0 0xEF then
          if second_ok b0 b1 && cont b2
          then ((b0 - 0xE0) * 4096 + (b1 - 0x80) * 64 + (b2 - 0x80), 3%nat)
          else (RuneError, 1%nat)
        else match l3 with
        | b3 :: _ =>
          if within 0xF0 b0 0xF4 then
            if second_ok b0 b1 && cont b2 && cont b3
            then ((b0 - 0xF0) * 262144 + (b1 - 0x80) * 4096 + (b2 - 0x80) * 64 + (b3 - 0x80), 4%nat)
            else (RuneError, 1%nat)
          else (RuneError, 1%nat)
        | [] => (RuneError, 1%nat)
        end
      | [] => (RuneError, 1%nat)
      end
    | [] => (RuneError, 1%nat)
    end
  end.

(** The runes of a [range] loop with their widths; the fuel is the length. *)
Fixpoint segments_fuel (fuel : nat) (l : list Z) : list (Z * nat) :=
  match fuel, l with
  | S fuel, _ :: _ => let seg := decodeRune l in seg :: segments_fuel fuel (drop seg.2 l)
  | _, _ => []
  end.
Definition segments (l : list Z) : list (Z * nat) := segments_fuel (length l) l.
Definition runes (l : list Z) : list Z := (segments l).*1.

Definition valid_bytes (l : list Z) : bool :=
  forallb (fun seg => negb ((seg.1 =? RuneError) && (seg.2 =? 1)%nat)) (segments l).
Definition ValidString (s : string) : bool := valid_bytes (explode s).

Definition RuneStart (b : Z) : bool := negb (cont b).

(** [utf8.DecodeLastRuneInString] *)
Fixpoint last_start (l : list Z) (i lim : nat) : nat :=
  match i with
  | O => O
  | S j => if (i <? lim)%nat then i
           else if RuneStart (default 0 (l !! i)) then i else last_start l j lim
  end.
Definition decodeLastRune (l : list Z) : Z * nat :=
  match last l with
  | None => (RuneError, 0%nat)
  | Some b =>
    if b <? 0x80 then (b, 1%nat)
    else
      let e := length l in
      let start := last_start l (e - 2) (e - 4) in
      let seg := decodeRune (drop start l) in
      if (start + seg.2 =? e)%nat then seg else (RuneError, 1%nat)
  end.

(** ** unicode.IsSpace *)
Definition IsSpace (r : Z) : bool :=
  within 9 r 13 || (r =? 0x20) || (r =? 0x85) || (r =? 0xA0) || (r =? 0x1680) ||
  within 0x2000 r 0x200A || (r =? 0x2028) || (r =? 0x2029) || (r =? 0x202F) ||
  (r =? 0x205F) || (r =? 0x3000).

(** ** strings *)

(** [strings.Map]: a negative result drops the rune; an invalid byte is seen
    as [RuneError] and written back as its three-byte encoding. *)
Definition map_runes (f : Z → Z) (l : list Z) : list Z :=
  mjoin ((fun r => if f r <? 0 then [] else encodeRune (f r)) <$> runes l).
Definition Map (f : Z → Z) (s : string) : string := implode (map_runes f (explode s)).

Fixpoint trim_left_fuel (fuel : nat) (l : list Z) : list Z :=
  match fuel, l with
  | S fuel, _ :: _ =>
    let seg := decodeRune l in
    if IsSpace seg.1 then trim_left_fuel fuel (drop seg.2 l) else l
  | _, _ => l
  end.
Fixpoint trim_right_fuel (fuel : nat) (l : list Z) : list Z :=
  match fuel, l with
  | S fuel, _ :: _ =>
    let seg := decodeLastRune l in
    if IsSpace seg.1 then trim_right_fuel fuel (take (length l - seg.2) l) else l
  | _, _ => l
  end.
Definition trim_bytes (l : list Z) : list Z :=
  let l := trim_left_fuel (length l) l in trim_right_fuel (length l) l.
Definition TrimSpace (s : string) : string := implode (trim_bytes (explode s)).

(** [strings.ToValidUTF8(s, "")]: the invalid bytes removed. *)
Definition to_valid_bytes (l : list Z) : list Z :=
  mjoin ((fun seg => if (seg.1 =? RuneError) && (seg.2 =? 1)%nat then [] else encodeRune seg.1)
    <$> segments l).
Definition ToValidUTF8 (s : string) : string := implode (to_valid_bytes (explode s)).

(** Case mapping.  The tables of the [unicode] package beyond ASCII are a
    parameter of the model. *)
Class UnicodeTables := { upper_table : Z → Z; lower_table : Z → Z }.

Definition upper_rune `{UnicodeTables} (r : Z) : Z :=
  if r <? 0x80 then if within 97 r 122 then r - 32 else r else upper_table r.
Definition lower_rune `{UnicodeTables} (r : Z) : Z :=
  if r <? 0x80 then if within 65 r 90 then r + 32 else r else lower_table r.
Definition ToUpper `{UnicodeTables} (s : string) : string := Map upper_rune s.
Definition ToLower `{UnicodeTables} (s : string) : string := Map lower_rune s.

(** [strings.HasPrefix], [strings.Contains], and the slice [s[:n]] *)
Fixpoint HasPrefix (s p : string) : bool :=
  match p, s with
  | EmptyString, _ => true
  | String a p, String b s => bool_decide (a = b) && HasPrefix s p
  | String _ _, EmptyString => false
  end.
Fixpoint Contains (s sub : string) : bool :=
  HasPrefix s sub ||
  match s with EmptyString => false | String _ s => Contains s sub end.
Fixpoint slice_to (s : string) (n : nat) : string :=
  match n, s with
  | S n, String a s => String a (slice_to s n)
  | _, _ => EmptyString
  end.

(** ** Lemmas: bytes *)

Lemma byte_of_range a : is_byte (byte_of a).
Proof. unfold is_byte, byte_of. pose proof (N_ascii_bounded a). lia. Qed.

Lemma byte_of_ascii_of z : is_byte z → byte_of (ascii_of z) = z.
Proof.
  unfold is_byte, byte_of, ascii_of; intros. rewrite N_ascii_embedding; lia.
Qed.

Lemma ascii_of_byte_of a : ascii_of (byte_of a) = a.
Proof. unfold byte_of, ascii_of. by rewrite N2Z.id, ascii_N_embedding. Qed.

Lemma explode_bytes s : Forall is_byte (explode s).
Proof. induction s; cbn; constructor; auto using byte_of_range. Qed.

Lemma implode_explode s : implode (explode s) = s.
Proof. induction s; cbn; [done|]. by rewrite ascii_of_byte_of, IHs. Qed.

Lemma explode_implode l : Forall is_byte l → explode (implode l) = l.
Proof. induction 1; cbn; [done|]. by rewrite byte_of_ascii_of, IHForall. Qed.

Lemma length_explode s : length (explode s) = String.length s.
Proof. induction s; cbn; congruence. Qed.

Lemma length_implode l : String.length (implode l) = length l.
Proof. induction l; cbn; congruence. Qed.

Lemma explode_slice_to s n : explode (slice_to s n) = take n (explode s).
Proof. revert s; induction n; destruct s; cbn; congruence. Qed.

(** ** Lemmas: encoding and decoding one rune *)

Lemma within_spec lo b hi : within lo b hi = true ↔ lo ≤ b ≤ hi.
Proof. unfold within. lia. Qed.

Ltac z_cases :=
  repeat match goal with
    | |- context [?a <? ?b] => destruct (Z.ltb_spec a b)
    | |- context [?a =? ?b] => destruct (Z.eqb_spec a b)
    | |- context [within ?a ?b ?c] => destruct (within a b c) eqn:?
    end.

Lemma length_encodeRune r : (1 ≤ length (encodeRune r) ≤ 4)%nat.
Proof. unfold encodeRune. z_cases; cbn; lia. Qed.

Lemma encodeRune_bytes r : Forall is_byte (encodeRune r).
Proof.
  unfold encodeRune, is_byte.
  assert (is_scalar (if decide (is_scalar r) then r else RuneError)) as [Hr _].
  { case_decide; [done|]. unfold is_scalar, RuneError, MaxRune; lia. }
  revert Hr. generalize (if decide (is_scalar r) then r else RuneError); intros z Hz.
  unfold MaxRune in Hz.
  z_cases; repeat constructor; lia.
Qed.

Lemma decode_encode r l :
  is_scalar r → decodeRune (encodeRune r ++ l) = (r, length (encodeRune r)).
Proof.
  intros Hr. unfold encodeRune. rewrite decide_True by done.
  destruct Hr as [Hr1 Hr2]; unfold MaxRune in Hr1.
  unfold decodeRune, second_ok, cont, within.
  destruct (Z.ltb_spec r 0x80); cbn [app length].
  { by destruct (Z.ltb_spec r 0x80); [|lia]. }
  destruct (Z.ltb_spec r 0x800); cbn [app length].
  { repeat (case_match; try lia). f_equal; lia. }
  destruct (Z.ltb_spec r 0x10000); cbn [app length].
  { repeat (case_match; try lia). all: f_equal; lia. }
  repeat (case_match; try lia). all: f_equal; lia.
Qed.

Lemma decodeRune_width l : l ≠ [] → (1 ≤ (decodeRune l).2 ≤ length l)%nat ∧ ((decodeRune l).2 ≤ 4)%nat.
Proof. intros Hl. unfold decodeRune. repeat case_match; cbn; simplify_eq; try done; lia. Qed.

Definition invalid_seg (seg : Z * nat) : bool := (seg.1 =? RuneError) && (seg.2 =? 1)%nat.

(** The encoding by width. *)
Ltac solve_width :=
  intros; unfold encodeRune;
  rewrite decide_True by (unfold is_scalar, MaxRune; lia);
  repeat (case_match; try lia); done.

Lemma encodeRune_1 r : 0 ≤ r < 0x80 → encodeRune r = [r].
Proof. solve_width. Qed.
Lemma encodeRune_2 r : 0x80 ≤ r < 0x800 → encodeRune r = [0xC0 + r / 64; 0x80 + r mod 64].
Proof. solve_width. Qed.
Lemma encodeRune_3 r : 0x800 ≤ r < 0x10000 → ¬ (0xD800 ≤ r ≤ 0xDFFF) →
  encodeRune r = [0xE0 + r / 4096; 0x80 + (r / 64) mod 64; 0x80 + r mod 64].
Proof. solve_width. Qed.
Lemma encodeRune_4 r : 0x10000 ≤ r ≤ MaxRune →
  encodeRune r =
    [0xF0 + r / 262144; 0x80 + (r / 4096) mod 64; 0x80 + (r / 64) mod 64; 0x80 + r mod 64].
Proof. unfold MaxRune. solve_width. Qed.

Ltac next_byte l Hb b H :=
  destruct l as [|b l]; [done|];
  apply Forall_cons in Hb as [H Hb]; unfold is_byte in H.

(** A valid first rune is a scalar value and its bytes are its encoding. *)
Lemma decode_valid l :
  Forall is_byte l → l ≠ [] → invalid_seg (decodeRune l) = false →
  is_scalar (decodeRune l).1 ∧
  take (decodeRune l).2 l = encodeRune (decodeRune l).1.
Proof.
  intros Hb Hl. unfold invalid_seg, is_scalar, MaxRune.
  next_byte l Hb b0 Hb0. unfold decodeRune, second_ok, cont, within.
  destruct (Z.ltb_spec b0 0x80); cbn.
  { intros _. rewrite encodeRune_1 by lia. by split; [lia|rewrite take_0]. }
  unfold RuneError. next_byte l Hb b1 Hb1.
  destruct ((0xC2 <=? b0) && (b0 <=? 0xDF)) eqn:E2.
  { case_match; [|done]. cbn. intros _.
    assert (128 ≤ b1 < 192) by (repeat (case_match; try lia)).
    rewrite take_0, encodeRune_2 by lia.
    split; [lia|]. repeat f_equal; lia. }
  next_byte l Hb b2 Hb2.
  destruct ((0xE0 <=? b0) && (b0 <=? 0xEF)) eqn:E3.
  { case_match; [|done]. cbn. intros _.
    set (r := (b0 - 224) * 4096 + (b1 - 128) * 64 + (b2 - 128)).
    assert (128 ≤ b1 < 192 ∧ 128 ≤ b2 < 192 ∧ 0x800 ≤ r < 0x10000 ∧ ¬ (0xD800 ≤ r ≤ 0xDFFF))
      as (?&?&?&?) by (unfold r; repeat (case_match; try lia)).
    rewrite take_0, encodeRune_3 by lia.
    split; [lia|]. unfold r; repeat f_equal; lia. }
  next_byte l Hb b3 Hb3.
  destruct ((0xF0 <=? b0) && (b0 <=? 0xF4)) eqn:E4; [|done].
  case_match; [|done]. cbn. intros _.
  set (r := (b0 - 240) * 262144 + (b1 - 128) * 4096 + (b2 - 128) * 64 + (b3 - 128)).
  assert (128 ≤ b1 < 192 ∧ 128 ≤ b2 < 192 ∧ 128 ≤ b3 < 192 ∧ 0x10000 ≤ r < 0x110000)
    as (?&?&?&?) by (unfold r; repeat (case_match; try lia)).
  rewrite take_0, encodeRune_4 by (unfold MaxRune; lia).
  split; [lia|]. unfold r; repeat f_equal; lia.
Qed.

(** ** Lemmas: whole strings *)

Definition encode (rs : list Z) : list Z := mjoin (encodeRune <$> rs).

Lemma encode_cons r rs : encode (r :: rs) = encodeRune r ++ encode rs.
Proof. done. Qed.

Lemma encode_app rs rs' : encode (rs ++ rs') = encode rs ++ encode rs'.
Proof. unfold encode. by rewrite fmap_app, join_app. Qed.

Lemma encode_bytes rs : Forall is_byte (encode rs).
Proof.
  induction rs; [constructor|]. rewrite encode_cons.
  apply Forall_app; auto using encodeRune_bytes.
Qed.

Lemma encodeRune_ne r : encodeRune r ≠ [].
Proof. pose proof (length_encodeRune r). by destruct (encodeRune r); cbn in *; [lia|]. Qed.

Lemma segments_fuel_enough n m l :
  (length l ≤ n)%nat → (length l ≤ m)%nat → segments_fuel n l = segments_fuel m l.
Proof.
  revert m l. induction n as [|n IH]; intros [|m] [|b l] Hn Hm; cbn [length] in *;
    try lia; try done.
  cbn [segments_fuel]. pose proof (decodeRune_width (b :: l) ltac:(done)) as [Hw _].
  f_equal. apply IH; rewrite length_drop; cbn [length] in *; lia.
Qed.

Lemma segments_unfold l :
  l ≠ [] → segments l = decodeRune l :: segments (drop (decodeRune l).2 l).
Proof.
  intros Hl. destruct l as [|b l]; [done|].
  pose proof (decodeRune_width (b :: l) ltac:(done)) as [Hw _].
  unfold segments at 1. cbn [length segments_fuel]. f_equal.
  apply segments_fuel_enough; [|done]. rewrite length_drop; cbn [length] in *; lia.
Qed.

Lemma segments_encode rs :
  Forall is_scalar rs → segments (encode rs) = (fun r => (r, length (encodeRune r))) <$> rs.
Proof.
  induction 1 as [|r rs Hr Hrs IH]; [done|].
  rewrite encode_cons, segments_unfold.
  - rewrite decode_encode by done. cbn [snd fst fmap list_fmap].
    by rewrite drop_app_length, IH.
  - intros [He _]%app_nil. by apply (encodeRune_ne r).
Qed.

Lemma runes_encode rs : Forall is_scalar rs → runes (encode rs) = rs.
Proof.
  intros. unfold runes. rewrite segments_encode by done.
  rewrite <- list_fmap_compose. apply list_fmap_id.
Qed.

(** Induction over the segments of a string. *)
Lemma segments_ind (P : list Z → Prop) :
  P [] → (∀ l, l ≠ [] → P (drop (decodeRune l).2 l) → P l) → ∀ l, P l.
Proof.
  intros Hnil Hstep l. remember (length l) as n eqn:Hn.
  revert l Hn. induction (lt_wf n) as [n _ IH]; intros l ->.
  destruct l as [|b l]; [done|]. apply Hstep; [done|].
  pose proof (decodeRune_width (b :: l) ltac:(done)) as [Hw _].
  eapply IH; [|done]. rewrite length_drop; cbn [length] in *; lia.
Qed.

Lemma valid_bytes_unfold l :
  l ≠ [] → valid_bytes l =
    negb (invalid_seg (decodeRune l)) && valid_bytes (drop (decodeRune l).2 l).
Proof. intros. unfold valid_bytes at 1. by rewrite segments_unfold. Qed.

(** A string is valid exactly when it encodes a list of scalar values. *)
Lemma valid_bytes_iff l :
  Forall is_byte l → valid_bytes l = true ↔ ∃ rs, Forall is_scalar rs ∧ l = encode rs.
Proof.
  intros Hb. split.
  - revert Hb. induction l as [|l Hl IH] using segments_ind; [by exists []|].
    intros Hb. rewrite valid_bytes_unfold by done.
    intros [Hv Hv']%andb_prop. apply negb_true_iff in Hv.
    destruct (decode_valid l Hb Hl Hv) as [Hs He].
    destruct IH as (rs & Hrs & Heq); [by apply Forall_drop|done|].
    exists ((decodeRune l).1 :: rs). split; [by constructor|].
    by rewrite encode_cons, <- He, <- Heq, take_drop.
  - intros (rs & Hrs & ->). unfold valid_bytes. rewrite segments_encode by done.
    apply forallb_forall. intros [r n] Hin%list_elem_of_In.
    apply list_elem_of_fmap in Hin as (r' & [= -> ->] & Hin').
    rewrite Forall_forall in Hrs. specialize (Hrs _ Hin'). cbn.
    destruct (Z.eqb_spec r' RuneError) as [->|]; [|done]. by vm_compute.
Qed.

(** Every rune of a range loop is a scalar value. *)
Lemma runes_scalar l : Forall is_byte l → Forall is_scalar (runes l).
Proof.
  induction l as [|l Hl IH] using segments_ind; [constructor|].
  intros Hb. unfold runes. rewrite segments_unfold by done. cbn. constructor.
  - destruct (invalid_seg (decodeRune l)) eqn:E; [|by apply decode_valid].
    unfold invalid_seg in E. apply andb_prop in E as [->%Z.eqb_eq _].
    unfold is_scalar, RuneError, MaxRune; lia.
  - apply IH. by apply Forall_drop.
Qed.

Lemma valid_encode rs : Forall is_scalar rs → valid_bytes (encode rs) = true.
Proof. intros. apply valid_bytes_iff; eauto using encode_bytes. Qed.

(** ** Lemmas: Map *)

Definition scalar_or_error (r : Z) : Z := if decide (is_scalar r) then r else RuneError.

Lemma scalar_or_error_scalar r : is_scalar (scalar_or_error r).
Proof.
  unfold scalar_or_error. case_decide; [done|]. unfold is_scalar, RuneError, MaxRune; lia.
Qed.

Lemma encodeRune_scalar r : encodeRune (scalar_or_error r) = encodeRune r.
Proof.
  unfold scalar_or_error. case_decide; [done|].
  unfold encodeRune at 2. rewrite decide_False by done. by vm_compute.
Qed.

Lemma map_runes_encode f l :
  map_runes f l = encode (scalar_or_error <$> filter (λ r, 0 ≤ r) (f <$> runes l)).
Proof.
  unfold map_runes. induction (runes l) as [|r rs IH]; [done|].
  rewrite !fmap_cons, mjoin_cons, IH, filter_cons.
  destruct (Z.ltb_spec (f r) 0).
  - by rewrite decide_False by lia.
  - rewrite decide_True by lia.
    by rewrite fmap_cons, encode_cons, encodeRune_scalar.
Qed.

Lemma map_runes_valid f l : valid_bytes (map_runes f l) = true.
Proof.
  rewrite map_runes_encode. apply valid_encode, Forall_fmap, Forall_true.
  intros; apply scalar_or_error_scalar.
Qed.

(** ** Lemmas: TrimSpace *)

Fixpoint drop_spaces (rs : list Z) : list Z :=
  match rs with
  | [] => []
  | r :: rs' => if IsSpace r then drop_spaces rs' else rs
  end.
Definition trim_runes (rs : list Z) : list Z := reverse (drop_spaces (reverse (drop_spaces rs))).

Lemma drop_spaces_suffix rs : ∃ pre, rs = pre ++ drop_spaces rs.
Proof.
  induction rs as [|r rs [pre IH]]; [by exists []|]. cbn.
  destruct (IsSpace r); [exists (r :: pre); cbn; by f_equal|by exists []].
Qed.

Lemma trim_runes_infix rs : ∃ pre post, rs = pre ++ trim_runes rs ++ post.
Proof.
  unfold trim_runes. destruct (drop_spaces_suffix rs) as [pre Hpre].
  destruct (drop_spaces_suffix (reverse (drop_spaces rs))) as [post Hpost].
  exists pre, (reverse post). rewrite Hpre at 1. f_equal.
  by rewrite <- reverse_app, <- Hpost, reverse_involutive.
Qed.

Lemma Forall_trim_runes P rs : Forall P rs → Forall P (trim_runes rs).
Proof.
  intros HP. destruct (trim_runes_infix rs) as (pre & post & Heq).
  rewrite Heq in HP. by apply Forall_app in HP as [_ [HP _]%Forall_app].
Qed.

Lemma trim_left_encode n rs :
  Forall is_scalar rs → (length (encode rs) ≤ n)%nat →
  trim_left_fuel n (encode rs) = encode (drop_spaces rs).
Proof.
  intros Hs. revert n. induction Hs as [|r rs Hr Hs IH]; intros n Hn; [by destruct n|].
  rewrite encode_cons in *. pose proof (length_encodeRune r) as Hl.
  destruct n as [|n]; [rewrite length_app in Hn; lia|].
  assert (trim_left_fuel (S n) (encodeRune r ++ encode rs) =
    let seg := decodeRune (encodeRune r ++ encode rs) in
    if IsSpace seg.1 then trim_left_fuel n (drop seg.2 (encodeRune r ++ encode rs))
    else encodeRune r ++ encode rs) as ->.
  { destruct (encodeRune r) eqn:E; [by apply encodeRune_ne in E|done]. }
  rewrite decode_encode by done. cbn [fst snd]. cbn [drop_spaces].
  destruct (IsSpace r); [|done].
  rewrite drop_app_length. apply IH. rewrite length_app in Hn. lia.
Qed.

(** The last rune of a string that ends with an encoded scalar value. *)
Lemma last_start_skip l i lim :
  (lim ≤ i)%nat → RuneStart (default 0 (l !! i)) = false → (0 < i)%nat →
  last_start l i lim = last_start l (i - 1) lim.
Proof.
  intros Hl Hr Hi. destruct i; [lia|]. cbn [last_start]. rewrite Hr.
  destruct (Nat.ltb_spec (S i) lim); [lia|]. f_equal; lia.
Qed.

Lemma last_start_stop l i lim :
  (lim ≤ i)%nat → RuneStart (default 0 (l !! i)) = true → last_start l i lim = i.
Proof.
  intros Hl Hr. destruct i; [done|]. cbn [last_start]. rewrite Hr.
  by destruct (Nat.ltb_spec (S i) lim).
Qed.

Ltac solve_start :=
  unfold RuneStart, cont, within;
  rewrite ?lookup_app_r by (cbn; lia);
  match goal with
  | |- context [(_ :: _) !! ?n] =>
    first [ replace n with 0%nat by lia | replace n with 1%nat by lia
          | replace n with 2%nat by lia | replace n with 3%nat by lia ]
  end; cbn; lia.

Lemma last_start_encode l r :
  is_scalar r → (1 < length (encodeRune r))%nat →
  let m := l ++ encodeRune r in last_start m (length m - 2) (length m - 4) = length l.
Proof.
  intros Hr Hlen m. unfold m. rewrite length_app. destruct Hr as [Hr1 Hr2].
  destruct (decide (r < 0x80)); [rewrite encodeRune_1 in Hlen by lia; cbn in Hlen; lia|].
  destruct (decide (r < 0x800)).
  { rewrite encodeRune_2 by lia. cbn [length].
    replace (length l + 2 - 2)%nat with (length l) by lia.
    apply last_start_stop; [lia|solve_start]. }
  destruct (decide (r < 0x10000)).
  { rewrite encodeRune_3 by lia. cbn [length].
    rewrite last_start_skip by first [lia|solve_start].
    replace (length l + 3 - 2 - 1)%nat with (length l) by lia.
    apply last_start_stop; [lia|solve_start]. }
  rewrite encodeRune_4 by lia. cbn [length].
  rewrite 2 last_start_skip by first [lia|solve_start].
  replace (length l + 4 - 2 - 1 - 1)%nat with (length l) by lia.
  apply last_start_stop; [lia|unfold MaxRune in Hr1; solve_start].
Qed.

Lemma decodeLast_encode l r :
  is_scalar r → decodeLastRune (l ++ encodeRune r) = (r, length (encodeRune r)).
Proof.
  intros Hr. unfold decodeLastRune.
  destruct (decide (r < 0x80)) as [Hlt|Hge].
  { destruct Hr as [Hr _]. rewrite encodeRune_1 by lia. rewrite last_snoc.
    by destruct (Z.ltb_spec r 0x80); [|lia]. }
  assert (1 < length (encodeRune r))%nat as Hlen.
  { destruct Hr as [Hr1 Hr2]. unfold encodeRune. case_decide; [|by vm_compute; lia].
    repeat (case_match; try lia); cbn; lia. }
  assert (∃ b, last (l ++ encodeRune r) = Some b ∧ 0x80 ≤ b) as (b & -> & Hb).
  { destruct Hr as [Hr1 Hr2]. unfold encodeRune.
    case_decide; [|exists 0xBD; rewrite last_app; by vm_compute].
    repeat (case_match; try lia); eexists; rewrite last_app; (split; [reflexivity|lia]). }
  destruct (Z.ltb_spec b 0x80); [lia|]. cbv zeta.
  rewrite last_start_encode by done.
  rewrite drop_app_length, <- (app_nil_r (encodeRune r)), decode_encode by done. cbn [snd].
  by rewrite app_nil_r, length_app, Nat.eqb_refl.
Qed.

Lemma trim_right_encode n rs :
  Forall is_scalar rs → (length (encode rs) ≤ n)%nat →
  trim_right_fuel n (encode rs) = encode (reverse (drop_spaces (reverse rs))).
Proof.
  intros Hs. revert n. induction rs as [|r rs IH] using rev_ind; intros n Hn; [by destruct n|].
  apply Forall_app in Hs as [Hs [Hr _]%Forall_cons].
  assert (encode (rs ++ [r]) = encode rs ++ encodeRune r) as Heq.
  { rewrite encode_app. cbn. by rewrite app_nil_r. }
  rewrite Heq in *. pose proof (length_encodeRune r) as Hl. rewrite length_app in Hn.
  destruct n as [|n]; [lia|].
  assert (trim_right_fuel (S n) (encode rs ++ encodeRune r) =
    let m := encode rs ++ encodeRune r in
    let seg := decodeLastRune m in
    if IsSpace seg.1 then trim_right_fuel n (take (length m - seg.2) m) else m) as ->.
  { destruct (encode rs ++ encodeRune r) eqn:E; [|done].
    apply app_nil in E as [_ E]. by apply encodeRune_ne in E. }
  cbv zeta. rewrite decodeLast_encode by done. cbn [fst snd].
  rewrite reverse_snoc. cbn [drop_spaces].
  destruct (IsSpace r).
  - rewrite length_app.
    replace (length (encode rs) + length (encodeRune r) - length (encodeRune r))%nat
      with (length (encode rs)) by lia.
    rewrite take_app_length. apply IH; [done|lia].
  - by rewrite reverse_cons, reverse_involutive, Heq.
Qed.

Lemma trim_bytes_encode rs :
  Forall is_scalar rs → trim_bytes (encode rs) = encode (trim_runes rs).
Proof.
  intros Hs. unfold trim_bytes, trim_runes. rewrite trim_left_encode by done.
  apply trim_right_encode; [|done].
  destruct (drop_spaces_suffix rs) as [pre Heq]. rewrite Heq in Hs.
  by apply Forall_app in Hs as [_ ?].
Qed.
