(* ===== verification/Validation.v ===== *)
(** Validation: [src/internal/server/validation.go] and the limits of
    [src/internal/server/server.go] it uses.

    Input cleaning ([sanitizeString], [validTrackID], [sanitizeTrackInfo]) and
    the playback clock ([livePlaybackPosition], [cloneLiveRoomState]).  The
    theorems bound what cleaning lets through (valid UTF-8, no control
    characters, at most the given number of bytes), and show that a snapshot
    of the live state projects to the same position as the state itself. *)

From S2P Require Import Prelude Protocol Utf8.

(** ** Limits *)

Definition MaxUsernameLength : Z := 50.
Definition MaxRoomCodeLength : Z := 10.
Definition MaxTrackTitleLength : Z := 200.
Definition MaxTrackArtistLength : Z := 200.
Definition MaxTrackURLLength : Z := 2048.
Definition MaxTrackDuration : Z := 24 * 60 * 60 * 1000.
Definition MaxTrackIDLength : Z := 200.

(** ** The protocol clock *)

(** [Time.UnixMilli]; the zero time is 62135596800 seconds before the epoch. *)
Definition UnixMilli (t : Time) : Z := (t - 62135596800 * Second) / Millisecond.

Definition serverNowMs (clockBase now : Time) : Z :=
  UnixMilli clockBase + Milliseconds (Sub now clockBase).

(** ** Cleaning strings *)

Definition drop_control (r : Z) : Z :=
  if decide (r = 0 ∨ (r < 32 ∧ r ≠ 9 ∧ r ≠ 10 ∧ r ≠ 13)) then -1 else r.

(** The truncation loop of [sanitizeString]; at most four rounds. *)
Fixpoint cut_loop (rounds : nat) (s : string) (i maxLen : Z) : Z :=
  match rounds with
  | O => maxLen
  | S rounds =>
    if decide (0 < i ∧ maxLen - 4 < i) then
      if ValidString (slice_to s (Z.to_nat i)) then i else cut_loop rounds s (i - 1) maxLen
    else maxLen
  end.

Definition sanitizeString (s : string) (maxLen : Z) : string :=
  let s := Map drop_control s in
  let s := TrimSpace s in
  let s := if ValidString s then s else ToValidUTF8 s in
  if decide (maxLen < len s) then slice_to s (Z.to_nat (cut_loop 4 s maxLen maxLen)) else s.

Definition validTrackID (id : string) : bool :=
  if decide (id = "" ∨ MaxTrackIDLength < len id ∨ ValidString id = false) then false
  else forallb (fun r => negb (bool_decide (r < 32 ∨ r = 127))) (runes (explode id)).

(** [sanitizeTrackInfo] rewrites the track in place; [None] is its [false]
    result, reached before any field is written. *)
Definition sanitizeTrackInfo (track : TrackInfo) : option TrackInfo :=
  if validTrackID (ti_ID track) then
    let title := sanitizeString (ti_Title track) MaxTrackTitleLength in
    let track := track <| ti_Title := title |>
      <| ti_Artist := sanitizeString (ti_Artist track) MaxTrackArtistLength |>
      <| ti_Album := sanitizeString (ti_Album track) MaxTrackArtistLength |>
      <| ti_Thumbnail := sanitizeString (ti_Thumbnail track) MaxTrackURLLength |>
      <| ti_SuggestedBy := sanitizeString (ti_SuggestedBy track) MaxUsernameLength |> in
    let track := if decide (ti_Title track = "")
      then track <| ti_Title := sanitizeString (ti_ID track) MaxTrackTitleLength |> else track in
    Some (if decide (ti_Duration track < 0) then track <| ti_Duration := 0 |>
          else if decide (MaxTrackDuration < ti_Duration track)
          then track <| ti_Duration := MaxTrackDuration |> else track)
  else None.

(** ** Copies and the live position

    Values are immutable here, so a copy is the value itself. *)

Definition cloneTrackInfo (track : option TrackInfo) : option TrackInfo := track.
Definition cloneRoomState (state : RoomState) : RoomState := state.

Definition livePlaybackPosition (state : RoomState) (nowMs : Z) : Z :=
  let position := if decide (rs_Position state < 0) then 0 else rs_Position state in
  let position :=
    if decide (rs_IsPlaying state = true ∧ 0 < rs_LastUpdate state) then
      let elapsed := int64_wrap (nowMs - rs_LastUpdate state) in
      if decide (0 < elapsed) then int64_wrap (position + elapsed) else position
    else position in
  Z.min position MaxTrackDuration.

Definition cloneLiveRoomState (state : RoomState) (nowMs : Z) : RoomState :=
  cloneRoomState state
    <| rs_Position := livePlaybackPosition state nowMs |>
    <| rs_LastUpdate := nowMs |>.

(** ** Lemmas: sanitizeString *)

Lemma Map_valid f s : ∃ rs, Forall is_scalar rs ∧ explode (Map f s) = encode rs.
Proof.
  unfold Map. exists (scalar_or_error <$> filter (λ r, 0 ≤ r) (f <$> runes (explode s))).
  split.
  - apply Forall_fmap, Forall_true. intros; apply scalar_or_error_scalar.
  - rewrite map_runes_encode, explode_implode; auto using encode_bytes.
Qed.

Definition clean_rune (r : Z) : Prop := 32 ≤ r ∨ r = 9 ∨ r = 10 ∨ r = 13.

Lemma drop_control_clean r : 0 ≤ r → 0 ≤ drop_control r → clean_rune (drop_control r) ∧ drop_control r = r.
Proof. unfold drop_control, clean_rune. case_decide; lia. Qed.

(** What the first three steps of [sanitizeString] produce. *)
Lemma cleaned_runes s :
  ∃ rs, Forall is_scalar rs ∧ Forall clean_rune rs ∧
    explode (TrimSpace (Map drop_control s)) = encode (trim_runes rs).
Proof.
  pose proof (runes_scalar (explode s) (explode_bytes s)) as Hs.
  exists (scalar_or_error <$> filter (λ r, 0 ≤ r) (drop_control <$> runes (explode s))).
  assert (Forall is_scalar
    (scalar_or_error <$> filter (λ r, 0 ≤ r) (drop_control <$> runes (explode s)))) as Hsc.
  { apply Forall_fmap, Forall_true. intros; apply scalar_or_error_scalar. }
  split; [done|]. split.
  - apply Forall_fmap, Forall_forall. intros r [Hr Hin]%list_elem_of_filter.
    apply list_elem_of_fmap in Hin as (r' & -> & Hin).
    rewrite Forall_forall in Hs. specialize (Hs _ Hin).
    assert (0 ≤ r') by (unfold is_scalar in Hs; lia).
    destruct (drop_control_clean r') as [Hc Heq]; [done..|]. cbn. rewrite Heq in *.
    unfold scalar_or_error. by rewrite decide_True.
  - unfold TrimSpace, Map. rewrite map_runes_encode.
    rewrite (explode_implode (encode _)) by apply encode_bytes.
    rewrite trim_bytes_encode by done. apply explode_implode, encode_bytes.
Qed.

(** A prefix of a valid string of length between [n - 3] and [n] is valid. *)
Lemma boundary_near rs n :
  Forall is_scalar rs → (n ≤ length (encode rs))%nat →
  ∃ pre post, rs = pre ++ post ∧ (length (encode pre) ≤ n < length (encode pre) + 4)%nat.
Proof.
  intros Hs. revert n. induction Hs as [|r rs Hr Hs IH]; intros n Hn.
  { exists [], []. cbn in *. split; [done|]. lia. }
  pose proof (length_encodeRune r) as Hl. rewrite encode_cons, length_app in Hn.
  destruct (decide (n < length (encodeRune r))%nat).
  { exists [], (r :: rs). split; [done|]. cbn. lia. }
  destruct (IH (n - length (encodeRune r))%nat) as (pre & post & -> & Hpre); [lia|].
  exists (r :: pre), post. split; [done|]. rewrite encode_cons, length_app. lia.
Qed.

Lemma take_encode_prefix pre post : take (length (encode pre)) (encode (pre ++ post)) = encode pre.
Proof. by rewrite encode_app, take_app_length. Qed.

Lemma cut_loop_range k s i m :
  0 ≤ i ≤ m → 0 ≤ m → 0 ≤ cut_loop k s i m ≤ m.
Proof.
  revert i. induction k as [|k IH]; intros i Hi Hm; cbn; [lia|].
  case_decide; [|lia]. case_match; [lia|]. apply IH; lia.
Qed.

Lemma cut_loop_lower k s i m : m - 4 < cut_loop k s i m.
Proof.
  revert i. induction k as [|k IH]; intros i; cbn; [lia|].
  case_decide; [|lia]. case_match; [lia|]. apply IH.
Qed.

(** When a boundary lies within the rounds the loop still has, it stops on a
    valid prefix. *)
Lemma cut_loop_valid k s i m j :
  0 < j ≤ i → m - 4 < j → i - j < Z.of_nat k →
  ValidString (slice_to s (Z.to_nat j)) = true →
  ValidString (slice_to s (Z.to_nat (cut_loop k s i m))) = true.
Proof.
  revert i. induction k as [|k IH]; intros i Hj Hm Hk Hv; cbn; [lia|].
  rewrite decide_True by lia. case_match; [done|].
  apply IH; [|lia|lia|done]. destruct (decide (i = j)); [congruence|lia].
Qed.

Lemma ValidString_encode s rs :
  explode s = encode rs → Forall is_scalar rs → ValidString s = true.
Proof. intros H Hs. unfold ValidString. rewrite H. by apply valid_encode. Qed.

Lemma ValidString_inv s :
  ValidString s = true → ∃ rs, Forall is_scalar rs ∧ explode s = encode rs.
Proof. intros Hv. by apply valid_bytes_iff in Hv; [|apply explode_bytes]. Qed.

Lemma len_explode s : len s = Z.of_nat (length (explode s)).
Proof. unfold len. by rewrite length_explode. Qed.

(** An encoding that starts with another one encodes an extension of it. *)
Lemma encode_prefix rs rs' bs :
  Forall is_scalar rs → Forall is_scalar rs' → encode rs = encode rs' ++ bs →
  ∃ post, rs = rs' ++ post.
Proof.
  intros Hs Hs'. revert rs Hs. induction Hs' as [|r rs' Hr Hs' IH]; intros rs Hs Hbs.
  { by exists rs. }
  rewrite encode_cons, <- app_assoc in Hbs.
  destruct Hs as [|r0 rs Hr0 Hs].
  { symmetry in Hbs. apply app_nil in Hbs as [E _]. by apply encodeRune_ne in E. }
  rewrite encode_cons in Hbs.
  assert (r0 = r) as ->.
  { pose proof (decode_encode r0 (encode rs) Hr0) as H1.
    rewrite Hbs, decode_encode in H1 by done. congruence. }
  apply app_inv_head in Hbs. destruct (IH rs Hs Hbs) as [post ->]. by exists post.
Qed.

(** The shape of the result: a prefix, by whole runes, of the cleaned string. *)
Lemma sanitizeString_shape s maxLen :
  4 ≤ maxLen →
  ∃ rs pre post, Forall is_scalar rs ∧ Forall clean_rune rs ∧ trim_runes rs = pre ++ post ∧
    explode (sanitizeString s maxLen) = encode pre ∧ len (sanitizeString s maxLen) ≤ maxLen ∧
    (len (TrimSpace (Map drop_control s)) ≤ maxLen → post = []) ∧
    (maxLen < len (TrimSpace (Map drop_control s)) → maxLen - 4 < len (sanitizeString s maxLen)).
Proof.
  intros Hm. destruct (cleaned_runes s) as (rs & Hs & Hc & Heq).
  unfold sanitizeString. set (t := TrimSpace (Map drop_control s)) in *.
  pose proof (Forall_trim_runes _ _ Hs) as Hts.
  rewrite (ValidString_encode t (trim_runes rs)) by done.
  exists rs. case_decide as Hlen; [|exists (trim_runes rs), []; rewrite app_nil_r; lia || auto 10 with lia].
  rewrite len_explode, Heq in Hlen.
  destruct (boundary_near (trim_runes rs) (Z.to_nat maxLen)) as (p & q & Hpq & Hb); [done|lia|].
  set (j := Z.of_nat (length (encode p))).
  assert (ValidString (slice_to t (Z.to_nat (cut_loop 4 t maxLen maxLen))) = true) as Hv.
  { apply cut_loop_valid with j; unfold j; [lia..|].
    apply ValidString_encode with p.
    - rewrite explode_slice_to, Heq, Hpq, Nat2Z.id. apply take_encode_prefix.
    - rewrite Hpq in Hts. by apply Forall_app in Hts as [? _]. }
  pose proof (cut_loop_range 4 t maxLen maxLen ltac:(lia) ltac:(lia)) as Hr.
  destruct (ValidString_inv _ Hv) as (pre & Hpre & Hep).
  assert (encode (trim_runes rs) = encode pre ++
    drop (Z.to_nat (cut_loop 4 t maxLen maxLen)) (encode (trim_runes rs))) as Hsplit.
  { rewrite <- Hep, explode_slice_to, Heq. by rewrite take_drop. }
  destruct (encode_prefix _ _ _ Hts Hpre Hsplit) as [post Hpost].
  exists pre, post. split_and!; try done.
  - rewrite len_explode, explode_slice_to, length_take. lia.
  - rewrite len_explode, Heq. lia.
  - intros _. pose proof (cut_loop_lower 4 t maxLen maxLen).
    rewrite len_explode, explode_slice_to, length_take, Heq. lia.
Qed.

(** The kept runes are scalar values without control characters. *)
Lemma sanitizeString_runes s maxLen :
  4 ≤ maxLen → ∃ rs, explode (sanitizeString s maxLen) = encode rs ∧ Forall is_scalar rs ∧ Forall clean_rune rs.
Proof.
  intros Hm. destruct (sanitizeString_shape s maxLen Hm)
    as (rs & pre & post & Hs & Hc & Hsplit & Heq & _).
  pose proof (Forall_trim_runes _ _ Hs) as Hs'. pose proof (Forall_trim_runes _ _ Hc) as Hc'.
  rewrite Hsplit in Hs', Hc'. apply Forall_app in Hs' as [Hs' _]. apply Forall_app in Hc' as [Hc' _]. eauto.
Qed.

Lemma sanitizeString_valid s maxLen : 4 ≤ maxLen → ValidString (sanitizeString s maxLen) = true.
Proof. intros Hm. destruct (sanitizeString_runes s maxLen Hm) as (rs & ? & ? & _). by apply ValidString_encode with rs. Qed.

(** cleaned input is valid UTF-8, fits the limit and holds no control
    character other than tab, newline and carriage return. *)
Theorem sanitizeString_ok s maxLen :
  4 ≤ maxLen →
  ValidString (sanitizeString s maxLen) = true ∧
  len (sanitizeString s maxLen) ≤ maxLen ∧
  Forall clean_rune (runes (explode (sanitizeString s maxLen))).
Proof.
  intros Hm. destruct (sanitizeString_runes s maxLen Hm) as (rs & Heq & Hs & Hc).
  destruct (sanitizeString_shape s maxLen Hm) as (_ & _ & _ & _ & _ & _ & _ & Hlen & _).
  split_and!; [by apply sanitizeString_valid|done|]. by rewrite Heq, runes_encode.
Qed.

Lemma drop_control_id r : clean_rune r → drop_control r = r.
Proof. unfold clean_rune, drop_control. case_decide; lia. Qed.

(** A string that is already clean, trimmed and short is left alone. *)
Lemma sanitizeString_id s rs maxLen :
  explode s = encode rs → Forall is_scalar rs → Forall clean_rune rs →
  trim_runes rs = rs → len s ≤ maxLen → sanitizeString s maxLen = s.
Proof.
  intros Heq Hs Hc Ht Hlen.
  assert (Map drop_control s = s) as HM.
  { rewrite <- (implode_explode s) at 2. unfold Map. f_equal.
    rewrite map_runes_encode, Heq, runes_encode by done.
    assert (drop_control <$> rs = rs) as ->.
    { apply fmap_id_Forall. eauto using Forall_impl, drop_control_id. }
    rewrite filter_id_Forall by (eapply Forall_impl; [exact Hs|unfold is_scalar; lia]).
    f_equal. apply fmap_id_Forall. eapply Forall_impl; [exact Hs|].
    intros r Hr. unfold scalar_or_error. by rewrite decide_True. }
  assert (TrimSpace s = s) as HT.
  { rewrite <- (implode_explode s) at 2. unfold TrimSpace. f_equal.
    by rewrite Heq, trim_bytes_encode, Ht by done. }
  unfold sanitizeString. rewrite HM, HT, (ValidString_encode s rs) by done.
  by rewrite decide_False by lia.
Qed.

Lemma Forall_filter (P Q : Z → Prop) `{!∀ r, Decision (Q r)} rs : Forall P rs → Forall P (filter Q rs).
Proof. rewrite !Forall_forall. intros Hp x [_ Hx]%list_elem_of_filter. auto. Qed.

Lemma encode_filter_length (P : Z → Prop) `{!∀ r, Decision (P r)} rs :
  (length (encode (filter P rs)) ≤ length (encode rs))%nat.
Proof.
  induction rs as [|r rs IH]; [done|]. rewrite filter_cons. case_decide; rewrite !encode_cons, !length_app; lia.
Qed.

Lemma trim_runes_length rs : (length (encode (trim_runes rs)) ≤ length (encode rs))%nat.
Proof.
  destruct (trim_runes_infix rs) as (pre & post & Heq). rewrite Heq at 2. rewrite !encode_app, !length_app. lia.
Qed.

Lemma dropped_runes rs :
  Forall is_scalar rs →
  scalar_or_error <$> filter (λ r, 0 ≤ r) (drop_control <$> rs) = filter (λ r, drop_control r = r) rs.
Proof.
  induction 1 as [|r rs Hr Hs IH]; [done|]. rewrite fmap_cons, !filter_cons.
  assert (0 ≤ r) by (unfold is_scalar in Hr; lia).
  destruct (decide (drop_control r = r)) as [Hd|Hd].
  - rewrite Hd, decide_True, fmap_cons by done. f_equal; [|exact IH]. unfold scalar_or_error. by rewrite decide_True.
  - rewrite decide_False; [exact IH|]. unfold drop_control in *. case_decide; lia.
Qed.

(** Cleaning does not lengthen valid text. *)
Lemma sanitizeString_shrinks s maxLen : ValidString s = true → 0 ≤ maxLen → len (sanitizeString s maxLen) ≤ len s.
Proof.
  intros Hv Hm. destruct (ValidString_inv _ Hv) as (rs & Hs & Heq).
  assert (explode (TrimSpace (Map drop_control s)) = encode (trim_runes (filter (λ r, drop_control r = r) rs))) as Ht.
  { unfold TrimSpace, Map. rewrite map_runes_encode, Heq, runes_encode, dropped_runes by done.
    rewrite (explode_implode (encode _)) by apply encode_bytes.
    rewrite trim_bytes_encode by (by apply Forall_filter). apply explode_implode, encode_bytes. }
  assert (len (TrimSpace (Map drop_control s)) ≤ len s) as Hl.
  { rewrite !len_explode, Ht, Heq. pose proof (trim_runes_length (filter (λ r, drop_control r = r) rs)).
    pose proof (encode_filter_length (λ r, drop_control r = r) rs). lia. }
  unfold sanitizeString. rewrite (ValidString_encode _ _ Ht) by (by apply Forall_trim_runes, Forall_filter).
  case_decide; [|done]. rewrite len_explode, explode_slice_to, length_take. rewrite !len_explode in *. lia.
Qed.

Lemma drop_spaces_head r rs rest : drop_spaces rs = r :: rest → IsSpace r = false.
Proof. induction rs as [|x rs IH]; cbn; [done|]. destruct (IsSpace x) eqn:E; [done|congruence]. Qed.
Lemma trim_runes_head r rs rest : trim_runes rs = r :: rest → IsSpace r = false.
Proof.
  unfold trim_runes. intros Ht. destruct (drop_spaces_suffix (reverse (drop_spaces rs))) as [pre Hp].
  apply (f_equal reverse) in Hp. rewrite reverse_involutive, reverse_app, Ht in Hp. by eapply drop_spaces_head.
Qed.
Lemma trim_runes_nonempty r rs : IsSpace r = false → trim_runes (r :: rs) ≠ [].
Proof.
  intros Hr Ht. unfold trim_runes in Ht.
  assert (drop_spaces (r :: rs) = r :: rs) as E by (cbn; by rewrite Hr). rewrite E in Ht.
  apply (f_equal reverse) in Ht. rewrite reverse_involutive, reverse_nil, reverse_cons in Ht.
  revert Ht. generalize (reverse rs). intros l. induction l as [|x l IH]; cbn; [by rewrite Hr|].
  by destruct (IsSpace x).
Qed.

(** Text that survived cleaning once survives it again. *)
Lemma sanitizeString_again s maxLen :
  4 ≤ maxLen → sanitizeString (sanitizeString s maxLen) maxLen = "" → sanitizeString s maxLen = "".
Proof.
  intros Hm. destruct (sanitizeString_shape s maxLen Hm) as (rs & pre & post & Hs & Hc & Hsplit & Heq & Hl & _).
  set (t := sanitizeString s maxLen) in *. intros Hagain.
  destruct pre as [|r pre]; [by rewrite <- (implode_explode t), Heq|]. exfalso.
  pose proof (trim_runes_head _ _ _ Hsplit) as Hr.
  pose proof (Forall_trim_runes _ _ Hs) as Hs'. pose proof (Forall_trim_runes _ _ Hc) as Hc'.
  rewrite Hsplit in Hs', Hc'. apply Forall_app in Hs' as [Hs' _], Hc' as [Hc' _].
  assert (explode (TrimSpace (Map drop_control t)) = encode (trim_runes (r :: pre))) as Ht.
  { unfold TrimSpace, Map. rewrite map_runes_encode, Heq, runes_encode, dropped_runes by done.
    rewrite filter_id_Forall by (eapply Forall_impl; [exact Hc'|apply drop_control_id]).
    rewrite (explode_implode (encode _)) by apply encode_bytes.
    rewrite trim_bytes_encode by done. apply explode_implode, encode_bytes. }
  unfold sanitizeString in Hagain. rewrite (ValidString_encode _ _ Ht) in Hagain by (by apply Forall_trim_runes).
  rewrite decide_False in Hagain; last first.
  { rewrite len_explode, Ht. rewrite len_explode, Heq in Hl. pose proof (trim_runes_length (r :: pre)). lia. }
  rewrite Hagain in Ht. change (explode "") with (@nil Z) in Ht. destruct (trim_runes (r :: pre)) as [|x l] eqn:E; [by eapply trim_runes_nonempty|].
  rewrite encode_cons in Ht. symmetry in Ht. apply app_eq_nil in Ht as [Ht _]. by eapply encodeRune_ne.
Qed.

(** ** Lemmas: tracks *)

Lemma sanitizeString_len s maxLen : 4 ≤ maxLen → len (sanitizeString s maxLen) ≤ maxLen.
Proof. intros. by destruct (sanitizeString_shape s maxLen) as (?&?&?&?&?&?&?&?&?). Qed.

(** The bounds every stored track satisfies. *)
Record track_ok (t : TrackInfo) : Prop := {
  track_id_valid : validTrackID (ti_ID t) = true;
  track_title_len : len (ti_Title t) ≤ MaxTrackTitleLength;
  track_artist_len : len (ti_Artist t) ≤ MaxTrackArtistLength;
  track_album_len : len (ti_Album t) ≤ MaxTrackArtistLength;
  track_thumbnail_len : len (ti_Thumbnail t) ≤ MaxTrackURLLength;
  track_suggested_len : len (ti_SuggestedBy t) ≤ MaxUsernameLength;
  track_duration : 0 ≤ ti_Duration t ≤ MaxTrackDuration
}.

(** a track passes [sanitizeTrackInfo] exactly when its ID is valid; the ID
    is kept byte for byte and every other field is brought within its limit. *)
Theorem sanitizeTrackInfo_ok t :
  (is_Some (sanitizeTrackInfo t) ↔ validTrackID (ti_ID t) = true) ∧
  (∀ t', sanitizeTrackInfo t = Some t' → ti_ID t' = ti_ID t ∧ track_ok t').
Proof.
  unfold sanitizeTrackInfo. destruct (validTrackID (ti_ID t)) eqn:Hid.
  2: { split; [split; [by intros [? [=]]|done]|done]. }
  split; [split; eauto|]. intros t' Ht'. apply (inj Some) in Ht' as <-.
  assert (∀ s m, 4 ≤ m → len (sanitizeString s m) ≤ m) as Hs by apply sanitizeString_len.
  split; [by repeat case_decide|].
  split; repeat case_decide; cbn in *; try done; try lia;
    unfold MaxTrackTitleLength, MaxTrackArtistLength, MaxTrackURLLength, MaxUsernameLength;
    apply Hs; lia.
Qed.

(** ** Lemmas: the live position *)

(** The times for which the position arithmetic stays within [int64]: the
    protocol clock counts milliseconds since 1970. *)
Definition clock_range (ms : Z) : Prop := 0 ≤ ms < 2 ^ 62.

Definition position_ok (p : Z) : Prop := 0 ≤ p ≤ MaxTrackDuration.

Lemma livePlaybackPosition_eq state nowMs :
  position_ok (rs_Position state) → clock_range (rs_LastUpdate state) → clock_range nowMs →
  livePlaybackPosition state nowMs =
    Z.min MaxTrackDuration
      (rs_Position state +
       if decide (rs_IsPlaying state = true ∧ 0 < rs_LastUpdate state)
       then Z.max 0 (nowMs - rs_LastUpdate state) else 0).
Proof.
  unfold position_ok, clock_range, livePlaybackPosition, MaxTrackDuration; intros Hp Hl Hn.
  rewrite (decide_False (P := rs_Position state < 0)) by lia. case_decide; [|lia].
  rewrite int64_wrap_id by (unfold is_int64, int64_min, int64_max; lia).
  case_decide; [|lia].
  rewrite int64_wrap_id by (unfold is_int64, int64_min, int64_max; lia). lia.
Qed.

Lemma livePlaybackPosition_ok state nowMs :
  position_ok (rs_Position state) → clock_range (rs_LastUpdate state) → clock_range nowMs →
  position_ok (livePlaybackPosition state nowMs).
Proof.
  intros Hp Hl Hn. rewrite livePlaybackPosition_eq by done. revert Hp.
  unfold position_ok, MaxTrackDuration. case_decide; lia.
Qed.

(** C40: re-anchoring the state at [t1] does not change where playback is at a
    later [t2]: a client that extrapolates a snapshot agrees with the server. *)
Theorem live_snapshot_consistent state t1 t2 :
  position_ok (rs_Position state) → 0 < rs_LastUpdate state →
  rs_LastUpdate state ≤ t1 → t1 ≤ t2 → clock_range t2 →
  livePlaybackPosition (cloneLiveRoomState state t1) t2 = livePlaybackPosition state t2.
Proof.
  intros Hp H0 Hl H12 Hr. unfold clock_range in *.
  rewrite (livePlaybackPosition_eq (cloneLiveRoomState state t1)); unfold clock_range; cbn.
  - rewrite !livePlaybackPosition_eq by (done || (unfold clock_range; lia)).
    unfold position_ok in Hp. unfold MaxTrackDuration in *. repeat case_decide; intuition lia.
  - apply livePlaybackPosition_ok; unfold clock_range; first [done|lia].
  - lia.
  - lia.
Qed.

Lemma live_snapshot_consistent_witness :
  let st := mkRoomState "R" "h" [] None true 1000 5000 float64_one [] 0 "" in
  position_ok (rs_Position st) ∧
  livePlaybackPosition (cloneLiveRoomState st 6000) 9000 = livePlaybackPosition st 9000.
Proof.
  split; [unfold position_ok, MaxTrackDuration; cbn; lia|].
  apply live_snapshot_consistent; unfold position_ok, MaxTrackDuration, clock_range; cbn; lia.
Defined.

Lemma sanitizeString_ok_witness :
  (4 ≤ 5)%Z ∧ len (sanitizeString "  hello world" 5) ≤ 5 ∧ sanitizeString "  hello world" 5 = "hello".
Proof. split; [lia|]. split; [apply (sanitizeString_ok "  hello world" 5); lia|by vm_compute]. Defined.
