(* ===== verification/UAPolicy.v ===== *)
(** UAPolicy: [src/internal/server/uapolicy.go].

    The User-Agent policy decides the tier of a connection and rewrites what
    clients of the lower tiers are sent.  Reading the policy file is a
    parameter ([PolicyIO]); what the server makes of the parsed file, how it
    matches User-Agents and how it rewrites payloads are modelled in full.
    The theorems: blocking wins over rickrolling wins over adverts, a loaded
    policy never matches by an empty pattern, and rewriting only touches the
    queue title and, for rickrolled clients, inserts one track. *)

From S2P Require Import Prelude Protocol Utf8 Validation.

(** ** Tiers *)

Inductive uaTier := uaAllow | uaAdvert | uaRickroll | uaBlock.
#[export] Instance uaTier_eq_dec : EqDecision uaTier.
Proof. solve_decision. Defined.

Definition uaTier_String (t : uaTier) : string :=
  match t with
  | uaAllow => "allow"
  | uaAdvert => "advert"
  | uaRickroll => "rickroll"
  | uaBlock => "block"
  end.

(** The title is the UTF-8 text of the source; its two emoji code points and
    the dash are written as bytes. *)
Definition DefaultAdvertTitle : string :=
  (implode (encode [0x26A0; 0xFE0F]) +:+ " Unofficial client " +:+ implode (encode [0x2014]) +:+
   " get Metrolist: github.com/MetrolistGroup/Metrolist")%string.
Definition BlockedClientMessage : string :=
  "This client is not permitted on this server. Use Metrolist: github.com/MetrolistGroup/Metrolist".

Definition rickTrack : TrackInfo :=
  mkTrackInfo "dQw4w9WgXcQ" "Never Gonna Give You Up" "Rick Astley"
    "Whenever You Need Somebody" 213000
    "https://i.ytimg.com/vi/dQw4w9WgXcQ/hqdefault.jpg" "".

(** ** Policies *)

Record uaPolicy := mk_uaPolicy {
  up_block : list string;
  up_rickroll : list string;
  up_advert : list string;
  up_advertTitle : string
}.

Record uaPolicyFile := mk_uaPolicyFile {
  uf_Allow : list string;
  uf_Block : list string;
  uf_Rickroll : list string;
  uf_Advert : list string;
  uf_AdvertTitle : string
}.

Definition defaultUAPolicy : uaPolicy := mk_uaPolicy [] [] [] DefaultAdvertTitle.

Section Policy.
Context `{UnicodeTables}.

Fixpoint lowerPatterns (patterns : list string) : list string :=
  match patterns with
  | [] => []
  | pattern :: rest =>
    let pattern := ToLower (TrimSpace pattern) in
    if decide (pattern = "") then lowerPatterns rest else pattern :: lowerPatterns rest
  end.

(** The policy of a parsed file. *)
Definition policy_of_file (file : uaPolicyFile) : uaPolicy :=
  let title := sanitizeString (TrimSpace (uf_AdvertTitle file)) MaxTrackTitleLength in
  mk_uaPolicy (lowerPatterns (uf_Block file)) (lowerPatterns (uf_Rickroll file))
    (lowerPatterns (uf_Advert file))
    (if decide (title = "") then up_advertTitle defaultUAPolicy else title).

(** [os.ReadFile] and the strict JSON decoder: [decode_policy] fails on
    malformed input, yields [None] for [null], and reports whether anything
    follows the first value. *)
Class PolicyIO := {
  read_file : string → option string;
  decode_policy : string → option (option uaPolicyFile * bool)
}.

Definition loadUAPolicy `{PolicyIO} (path : string) : option uaPolicy :=
  if decide (path = "") then Some defaultUAPolicy
  else
    need data := read_file path orelse None in
    need parsed := decode_policy data orelse None in
    need file := parsed.1 orelse None in
    if parsed.2 then Some (policy_of_file file) else None.

Fixpoint uaMatches (userAgent : string) (patterns : list string) : bool :=
  match patterns with
  | [] => false
  | pattern :: rest => if Contains userAgent pattern then true else uaMatches userAgent rest
  end.

Definition resolve (p : option uaPolicy) (userAgent : string) : uaTier :=
  match p with
  | None => uaAllow
  | Some p =>
    let ua := ToLower userAgent in
    if uaMatches ua (up_block p) then uaBlock
    else if uaMatches ua (up_rickroll p) then uaRickroll
    else if uaMatches ua (up_advert p) then uaAdvert
    else uaAllow
  end.

End Policy.

(** ** Rewriting payloads *)

(** [hash/fnv] New32a *)
Definition fnv32a_write (hash : Z) (bytes : list Z) : Z :=
  foldl (λ h b, uint32_wrap (Z.lxor h b * 16777619)) hash bytes.
Definition queue_hash (queue : list TrackInfo) : Z :=
  foldl (λ h t, fnv32a_write (fnv32a_write h (explode (ti_ID t))) [0]) 2166136261 queue.

Definition withRick (queue : list TrackInfo) : list TrackInfo :=
  let at' := Z.to_nat (queue_hash queue mod uint32_wrap (Z.of_nat (length queue) + 1)) in
  take at' queue ++ [rickTrack] ++ drop at' queue.

Definition policyState (state : RoomState) (advertTitle : string) (rickroll : bool) : RoomState :=
  let rewritten := cloneRoomState state <| rs_QueueTitle := advertTitle |> in
  if rickroll then rewritten <| rs_Queue ::= withRick |> else rewritten.

Definition rewriteForUATier (tier : uaTier) (advertTitle : string) (payload : Payload) : Payload :=
  if decide (tier = uaAdvert ∨ tier = uaRickroll) then
    let rickroll := bool_decide (tier = uaRickroll) in
    match payload with
    | PPlaybackAction v =>
      let v := v <| pa_QueueTitle := advertTitle |> in
      PPlaybackAction
        (if decide (rickroll = true ∧ pa_Queue v ≠ []) then v <| pa_Queue ::= withRick |> else v)
    | PSyncState v =>
      let v := v <| ssy_QueueTitle := advertTitle |> in
      PSyncState (if rickroll then v <| ssy_Queue ::= withRick |> else v)
    | PRoomState v => PRoomState (policyState v advertTitle rickroll)
    | PJoinApproved v =>
      PJoinApproved (v <| jap_State := (λ st, policyState st advertTitle rickroll) <$> jap_State v |>)
    | PReconnected v =>
      PReconnected (v <| rcd_State := (λ st, policyState st advertTitle rickroll) <$> rcd_State v |>)
    | _ => payload
    end
  else payload.

(** ** Lemmas *)

Lemma uaMatches_iff ua ps : uaMatches ua ps = true ↔ ∃ p, p ∈ ps ∧ Contains ua p = true.
Proof.
  induction ps as [|p ps IH]; cbn.
  - split; [done|]. by intros (p & Hp%elem_of_nil & _).
  - setoid_rewrite elem_of_cons. destruct (Contains ua p) eqn:E; [naive_solver|].
    rewrite IH. naive_solver congruence.
Qed.

Lemma lowerPatterns_ne `{UnicodeTables} ps : "" ∉ lowerPatterns ps.
Proof. induction ps; cbn; [set_solver|]. case_decide; set_solver. Qed.

Lemma Contains_empty p : Contains "" p = true → p = "".
Proof. by destruct p. Qed.

(** the tier of a client is the strongest rule that names it: block before
    rickroll before advert, and normal service when no rule matches. *)
Theorem resolve_precedence `{UnicodeTables} p ua :
  let named ps := ∃ pat, pat ∈ ps ∧ Contains (ToLower ua) pat = true in
  (resolve (Some p) ua = uaBlock ↔ named (up_block p)) ∧
  (resolve (Some p) ua = uaRickroll ↔ ¬ named (up_block p) ∧ named (up_rickroll p)) ∧
  (resolve (Some p) ua = uaAdvert ↔
    ¬ named (up_block p) ∧ ¬ named (up_rickroll p) ∧ named (up_advert p)) ∧
  (resolve (Some p) ua = uaAllow ↔
    ¬ named (up_block p) ∧ ¬ named (up_rickroll p) ∧ ¬ named (up_advert p)).
Proof.
  cbv zeta. rewrite <- !uaMatches_iff. unfold resolve.
  destruct (uaMatches _ (up_block p)), (uaMatches _ (up_rickroll p)), (uaMatches _ (up_advert p));
    naive_solver.
Qed.

(** a policy read from a file has no empty pattern, so a client that sends
    no User-Agent always gets normal service. *)
Theorem loaded_policy_no_agent `{UnicodeTables} file :
  resolve (Some (policy_of_file file)) "" = uaAllow.
Proof.
  assert (∀ ps, uaMatches (ToLower "") (lowerPatterns ps) = false) as Hno.
  { intros ps. destruct (uaMatches _ _) eqn:E; [|done].
    apply uaMatches_iff in E as (p & Hin & ->%Contains_empty). by apply lowerPatterns_ne in Hin. }
  unfold resolve, policy_of_file; cbn [up_block up_rickroll up_advert]. by rewrite !Hno.
Qed.

Lemma withRick_split q : ∃ q1 q2, q = q1 ++ q2 ∧ withRick q = q1 ++ rickTrack :: q2.
Proof. unfold withRick. do 2 eexists. by split; [symmetry; apply take_drop|]. Qed.

(** The queue a client of some tier sees in place of [q]. *)
Definition queue_shown (tier : uaTier) (q q' : list TrackInfo) : Prop :=
  q' = q ∨ tier = uaRickroll ∧ ∃ q1 q2, q = q1 ++ q2 ∧ q' = q1 ++ rickTrack :: q2.

Lemma withRick_shown q : queue_shown uaRickroll q (withRick q).
Proof. right. split; [done|apply withRick_split]. Qed.

Lemma policyState_shown tier title st (Ht : tier = uaAdvert ∨ tier = uaRickroll) :
  ∃ q, policyState st title (bool_decide (tier = uaRickroll)) =
    st <| rs_QueueTitle := title |> <| rs_Queue := q |> ∧ queue_shown tier (rs_Queue st) q.
Proof.
  destruct Ht as [-> | ->]; cbn.
  - exists (rs_Queue st). split; [by destruct st|by left].
  - exists (withRick (rs_Queue st)). split; [by destruct st|apply withRick_shown].
Qed.

(** What rewriting may do to a payload: nothing, or replace its queue title and
    show its queue. *)
Definition rewritten (tier : uaTier) (title : string) (p p' : Payload) : Prop :=
  match p, p' with
  | PPlaybackAction v, PPlaybackAction v' => ∃ q,
      v' = v <| pa_QueueTitle := title |> <| pa_Queue := q |> ∧ queue_shown tier (pa_Queue v) q
  | PSyncState v, PSyncState v' => ∃ q,
      v' = v <| ssy_QueueTitle := title |> <| ssy_Queue := q |> ∧ queue_shown tier (ssy_Queue v) q
  | PRoomState st, PRoomState st' => ∃ q,
      st' = st <| rs_QueueTitle := title |> <| rs_Queue := q |> ∧ queue_shown tier (rs_Queue st) q
  | PJoinApproved v, PJoinApproved v' =>
      ∃ o, v' = v <| jap_State := o |> ∧ option_Forall2 (λ st st', ∃ q,
        st' = st <| rs_QueueTitle := title |> <| rs_Queue := q |> ∧ queue_shown tier (rs_Queue st) q)
        (jap_State v) o
  | PReconnected v, PReconnected v' =>
      ∃ o, v' = v <| rcd_State := o |> ∧ option_Forall2 (λ st st', ∃ q,
        st' = st <| rs_QueueTitle := title |> <| rs_Queue := q |> ∧ queue_shown tier (rs_Queue st) q)
        (rcd_State v) o
  | _, _ => p' = p
  end.

(** normal-service and blocked clients get the payload unchanged; for the
    other tiers only the queue title is replaced and, when rickrolled, one
    extra track is shown somewhere in the queue. *)
Theorem rewrite_only_queue tier title p :
  ((tier = uaAllow ∨ tier = uaBlock) → rewriteForUATier tier title p = p) ∧
  ((tier = uaAdvert ∨ tier = uaRickroll) → rewritten tier title p (rewriteForUATier tier title p)).
Proof.
  unfold rewriteForUATier. split; intros Ht.
  { rewrite decide_False; [done|]. by destruct Ht as [-> | ->]; intros [|]. }
  rewrite decide_True by done.
  destruct p; try done; cbn [rewritten].
  - eexists. split; [done|]. cbn. destruct (jap_State p); constructor. by apply policyState_shown.
  - destruct Ht as [-> | ->]; cbn.
    + exists (pa_Queue p). split; [by destruct p|by left].
    + case_decide as Hq; eexists; (split; [by destruct p|]); [apply withRick_shown|by left].
  - destruct Ht as [-> | ->]; cbn; eexists; (split; [by destruct p|]);
      [by left|apply withRick_shown].
  - eexists. split; [done|]. cbn. destruct (rcd_State p); constructor. by apply policyState_shown.
  - by apply policyState_shown.
Qed.
