(* ===== verification/World.v ===== *)
(** World: the state of a running server ([server.go], [client.go]).

    Go shares clients, rooms and sessions by pointer, and compares pointers
    ([room.Clients[id] != c], [s.sessions[token] != session]).  The model keeps
    that: a [*Client], [*Room] or [*Session] is a reference into one of the
    heaps of a [World], the maps of the source hold references, and an
    assignment through a pointer is an update of the heap.  No code stores a
    nil pointer in one of these maps, so a map value is a reference and the
    nil tests of the source are the absent case of a lookup.

    What the process reads from outside ([time.Now], the random generators) is
    an [Env] each operation receives; what [codec.go] offers to the rest of the
    server is the interface [WireFormat]. *)

From S2P Require Import Prelude Protocol Utf8 Validation UAPolicy.

Notation ClientRef := nat (only parsing).
Notation RoomRef := nat (only parsing).
Notation SessionRef := nat (only parsing).

(** ** Sessions, suggestions and notices *)

Record Session := mkSession {
  se_UserID : string;
  se_Username : string;
  se_RoomCode : string;
  se_IsHost : bool;
  se_DisconnectAt : Time;
  se_claimed : bool
}.
#[export] Instance Session_eta : Eta Session := fun r =>
  mkSession (se_UserID r) (se_Username r) (se_RoomCode r) (se_IsHost r) (se_DisconnectAt r)
    (se_claimed r).
#[export] Instance Session_inhabited : Inhabited Session := populate (mkSession "" "" "" false 0 false).

Record Suggestion := mkSuggestion {
  sg_ID : string;
  sg_FromUserID : string;
  sg_FromUsername : string;
  sg_Track : option TrackInfo
}.
#[export] Instance Suggestion_eta : Eta Suggestion := fun r =>
  mkSuggestion (sg_ID r) (sg_FromUserID r) (sg_FromUsername r) (sg_Track r).

Record pendingNotice := mk_pendingNotice { pn_MsgType : string; pn_Payload : Payload }.

(** ** Rooms *)

Record Room := mkRoom {
  Code : string;
  Host : option ClientRef;
  Clients : gmap string ClientRef;
  PendingJoins : gmap string ClientRef;
  PendingSuggestions : gmap string Suggestion;
  DisconnectedUsers : gmap string SessionRef;
  State : RoomState;
  HostDisconnectedAt : option Time;
  EmptySince : option Time;
  OwnerID : string;
  LastHostSequence : Z;
  TrackRevision : Z;
  PendingNotices : gmap string (list pendingNotice)
}.
#[export] Instance Room_eta : Eta Room := fun r =>
  mkRoom (Code r) (Host r) (Clients r) (PendingJoins r) (PendingSuggestions r)
    (DisconnectedUsers r) (State r) (HostDisconnectedAt r) (EmptySince r) (OwnerID r)
    (LastHostSequence r) (TrackRevision r) (PendingNotices r).

Definition empty_state : RoomState :=
  mkRoomState "" "" [] None false 0 0 float64_zero [] 0 "".
#[export] Instance Room_inhabited : Inhabited Room :=
  populate (mkRoom "" None ∅ ∅ ∅ ∅ empty_state None None "" 0 0 ∅).

(** ** Clients *)

Record queuedPong := mk_queuedPong { qp_payload : PongPayload; qp_requestID : Z }.

(** A buffered channel of bytes.  [ch_panicked] records the run-time panics of
    Go: closing a closed channel and sending on one. *)
Record Chan := mkChan { ch_buf : list string; ch_closed : bool; ch_panicked : bool }.
#[export] Instance Chan_eta : Eta Chan := fun r => mkChan (ch_buf r) (ch_closed r) (ch_panicked r).

Record Client := mkClient {
  c_id : string;
  c_username : string;
  c_sessionToken : string;
  c_room : option RoomRef;
  c_pendingRoom : option RoomRef;
  c_capabilitiesSet : bool;
  c_affiliationStarted : bool;
  c_ConnOpen : bool;
  c_Send : option Chan;
  c_closed : bool;
  c_rateWindowStart : Time;
  c_rateMessageCount : Z;
  c_lastSyncResponse : Time;
  c_uaTier : uaTier;
  c_policy : option uaPolicy;
  c_connectionSlot : bool;
  c_codec : option bool;
  c_pongs : option (list queuedPong);
  c_queuedBytes : Z;
  c_rateLimitNotified : bool;
  c_closeCode : Z;
  c_closeReason : string;
  c_source : string;
  c_features : option (gset string);
  c_requestID : Z;
  c_replied : bool;
  c_lastPingSent : Z;
  c_rttMs : Z
}.
#[export] Instance Client_eta : Eta Client := fun r =>
  mkClient (c_id r) (c_username r) (c_sessionToken r) (c_room r) (c_pendingRoom r)
    (c_capabilitiesSet r) (c_affiliationStarted r) (c_ConnOpen r) (c_Send r) (c_closed r)
    (c_rateWindowStart r) (c_rateMessageCount r) (c_lastSyncResponse r) (c_uaTier r)
    (c_policy r) (c_connectionSlot r) (c_codec r) (c_pongs r) (c_queuedBytes r)
    (c_rateLimitNotified r) (c_closeCode r) (c_closeReason r) (c_source r) (c_features r)
    (c_requestID r) (c_replied r) (c_lastPingSent r) (c_rttMs r).

Definition zero_client : Client :=
  mkClient "" "" "" None None false false false None false 0 0 0 uaAllow None false None None
    0 false 0 "" "" None 0 false 0 0.
#[export] Instance Client_inhabited : Inhabited Client := populate zero_client.

(** ** The server and the world *)

Record sourceWindow := mk_sourceWindow { sw_start : Time; sw_count : Z }.

Record Server := mkServer {
  rooms : gmap string RoomRef;
  sessions : gmap string SessionRef;
  clients : gset ClientRef;
  srv_uaPolicy : uaPolicy;
  connectionSlots : Z;
  startTime : Time;
  sources : gmap string Z;
  roomCreates : gmap string sourceWindow;
  stopped : bool;
  pumps : Z;
  shuttingDown : bool;
  persisted : gmap string string;
  lastFlush : Time
}.
#[export] Instance Server_eta : Eta Server := fun r =>
  mkServer (rooms r) (sessions r) (clients r) (srv_uaPolicy r) (connectionSlots r) (startTime r)
    (sources r) (roomCreates r) (stopped r) (pumps r) (shuttingDown r) (persisted r) (lastFlush r).

Record World := mkWorld {
  w_clients : gmap ClientRef Client;
  w_rooms : gmap RoomRef Room;
  w_sessions : gmap SessionRef Session;
  w_next : nat;
  w_srv : Server
}.
#[export] Instance World_eta : Eta World := fun r =>
  mkWorld (w_clients r) (w_rooms r) (w_sessions r) (w_next r) (w_srv r).

(** What one operation reads from its surroundings: the wall clock, the
    protocol clock, and the results of the generators should it call them. *)
Record Env := mkEnv {
  e_now : Time;
  e_nowMs : Z;
  e_userID : string;
  e_token : string;
  e_roomCode : nat → string;
  e_suggestionID : string
}.

(** ** Access through pointers *)

Definition getClient (c : ClientRef) (w : World) : Client := w_clients w !!! c.
Definition getRoom (r : RoomRef) (w : World) : Room := w_rooms w !!! r.
Definition getSession (s : SessionRef) (w : World) : Session := w_sessions w !!! s.

Definition setClient (c : ClientRef) (f : Client → Client) (w : World) : World :=
  w <| w_clients := <[c := f (getClient c w)]> (w_clients w) |>.
Definition setRoom (r : RoomRef) (f : Room → Room) (w : World) : World :=
  w <| w_rooms := <[r := f (getRoom r w)]> (w_rooms w) |>.
Definition setSession (s : SessionRef) (f : Session → Session) (w : World) : World :=
  w <| w_sessions := <[s := f (getSession s w)]> (w_sessions w) |>.
Definition setServer (f : Server → Server) (w : World) : World := w <| w_srv ::= f |>.

(** [&Room{...}] and [&Session{...}] *)
Definition newRoom (room : Room) (w : World) : RoomRef * World :=
  let r := w_next w in
  (r, w <| w_next := S r |> <| w_rooms := <[r := room]> (w_rooms w) |>).
Definition newSession (session : Session) (w : World) : SessionRef * World :=
  let s := w_next w in
  (s, w <| w_next := S s |> <| w_sessions := <[s := session]> (w_sessions w) |>).

(** ** The codec as the rest of the server sees it *)

Class WireFormat := {
  (** [MessageCodec.encodeProtobuf]: compression flag, type, payload, request ID *)
  encodeProtobuf : bool → string → option Payload → Z → option string;
  (** [fromProtoMessage]: message type and payload bytes *)
  fromProtoMessage : string → string → option Payload;
  (** [MessageCodec.decodeProtobuf]: type, payload and request ID; on failure,
      the request ID and whether the message was too large *)
  decodeProtobuf : string → (string * string * Z) + (Z * bool)
}.

(** ** Lemmas: reads after writes *)

Section ReadWrite.
Implicit Types (w : World).

Lemma getClient_setClient c c' f w :
  getClient c (setClient c' f w) = if decide (c = c') then f (getClient c w) else getClient c w.
Proof.
  unfold getClient, setClient; cbn. case_decide as E.
  - subst. by rewrite lookup_total_insert_eq.
  - by rewrite lookup_total_insert_ne.
Qed.
Lemma getRoom_setRoom r r' f w :
  getRoom r (setRoom r' f w) = if decide (r = r') then f (getRoom r w) else getRoom r w.
Proof.
  unfold getRoom, setRoom; cbn. case_decide as E.
  - subst. by rewrite lookup_total_insert_eq.
  - by rewrite lookup_total_insert_ne.
Qed.
Lemma getSession_setSession s s' f w :
  getSession s (setSession s' f w) = if decide (s = s') then f (getSession s w) else getSession s w.
Proof.
  unfold getSession, setSession; cbn. case_decide as E.
  - subst. by rewrite lookup_total_insert_eq.
  - by rewrite lookup_total_insert_ne.
Qed.

Lemma getClient_setClient_eq c f w : getClient c (setClient c f w) = f (getClient c w).
Proof. by rewrite getClient_setClient, decide_True. Qed.
Lemma getRoom_setRoom_eq r f w : getRoom r (setRoom r f w) = f (getRoom r w).
Proof. by rewrite getRoom_setRoom, decide_True. Qed.
Lemma getSession_setSession_eq s f w : getSession s (setSession s f w) = f (getSession s w).
Proof. by rewrite getSession_setSession, decide_True. Qed.

Lemma getRoom_setClient r c f w : getRoom r (setClient c f w) = getRoom r w.
Proof. done. Qed.
Lemma getSession_setClient s c f w : getSession s (setClient c f w) = getSession s w.
Proof. done. Qed.
Lemma srv_setClient c f w : w_srv (setClient c f w) = w_srv w.
Proof. done. Qed.
Lemma getClient_setRoom c r f w : getClient c (setRoom r f w) = getClient c w.
Proof. done. Qed.
Lemma getSession_setRoom s r f w : getSession s (setRoom r f w) = getSession s w.
Proof. done. Qed.
Lemma srv_setRoom r f w : w_srv (setRoom r f w) = w_srv w.
Proof. done. Qed.
Lemma getClient_setSession c s f w : getClient c (setSession s f w) = getClient c w.
Proof. done. Qed.
Lemma getRoom_setSession r s f w : getRoom r (setSession s f w) = getRoom r w.
Proof. done. Qed.
Lemma srv_setSession s f w : w_srv (setSession s f w) = w_srv w.
Proof. done. Qed.
Lemma getClient_setServer c f w : getClient c (setServer f w) = getClient c w.
Proof. done. Qed.
Lemma getRoom_setServer r f w : getRoom r (setServer f w) = getRoom r w.
Proof. done. Qed.
Lemma getSession_setServer s f w : getSession s (setServer f w) = getSession s w.
Proof. done. Qed.
Lemma srv_setServer f w : w_srv (setServer f w) = f (w_srv w).
Proof. done. Qed.

End ReadWrite.

#[export] Hint Rewrite getClient_setClient_eq getRoom_setRoom_eq getSession_setSession_eq
  getRoom_setClient getSession_setClient srv_setClient getClient_setRoom getSession_setRoom
  srv_setRoom getClient_setSession getRoom_setSession srv_setSession getClient_setServer
  getRoom_setServer getSession_setServer srv_setServer : world.
