(* ===== verification/Pumps.v ===== *)
(** Pumps: the writer goroutine of a connection ([client.go], [writePump]).

    The writer owns the connection: it takes pongs, heartbeat ticks and queued
    messages and turns them into frames.  [select] picks any ready case, so a
    round is a relation; [writePriority] empties the pong queue before a
    message goes out.  The theorem of this file is the delivery contract: the
    wire carries exactly the accepted messages, in order, and the close frame
    comes after all of them. *)

From S2P Require Import Prelude Protocol Utf8 Validation UAPolicy World Client.

Inductive Frame :=
  | MessageFrame (data : string)
  | PongFrame (data : string)
  | PingFrame
  | CloseFrame (code : option (Z * string)).

Definition message_of (f : Frame) : option string := match f with MessageFrame m => Some m | _ => None end.
Definition messages (fs : list Frame) : list string := omap message_of fs.
Definition backlog (cl : Client) : list string := from_option ch_buf [] (c_Send cl).

Section Writer.
Context `{WireFormat}.

(** The send time is stamped when the pong is written; one that cannot be
    encoded is skipped. *)
Definition writePong (nowMs : Z) (pong : queuedPong) (cl : Client) : list Frame :=
  match encodeProtobuf (compression_of cl) MsgTypePong
    (Some (PPong ((qp_payload pong) <| pong_ServerSendTime := nowMs |>))) (qp_requestID pong) with
  | Some data => [PongFrame data]
  | None => []
  end.

Definition close_code (cl : Client) : option (Z * string) :=
  if decide (c_closeCode cl ≠ 0) then Some (c_closeCode cl, c_closeReason cl) else None.

(** [writePriority]: pongs and ticks until neither is ready. *)
Inductive writePriority : Client → list Frame → Client → Prop :=
  | priority_done cl : default [] (c_pongs cl) = [] → writePriority cl [] cl
  | priority_pong cl cl' nowMs pong rest fs :
      c_pongs cl = Some (pong :: rest) → writePriority (cl <| c_pongs := Some rest |>) fs cl' →
      writePriority cl (writePong nowMs pong cl ++ fs) cl'
  | priority_tick cl cl' nowNano fs :
      writePriority (writePing nowNano cl) fs cl' → writePriority cl (PingFrame :: fs) cl'.

(** One round of [writePump] whose writes succeed; the last one closes the
    connection.  The message is taken from the channel before the priority
    frames are written, and its bytes are released after them. *)
Inductive writePump : Client → list Frame → Client → Prop :=
  | pump_pong cl nowMs pong rest :
      c_pongs cl = Some (pong :: rest) → writePump cl (writePong nowMs pong cl) (cl <| c_pongs := Some rest |>)
  | pump_tick cl nowNano : writePump cl [PingFrame] (writePing nowNano cl)
  | pump_message cl cl1 cl2 fs msg :
      writePriority cl fs cl1 → writeNext cl1 = (Some msg, cl2) → writePump cl (fs ++ [MessageFrame msg]) cl2
  | pump_closed cl cl1 fs ch :
      writePriority cl fs cl1 → c_Send cl = Some ch → ch_buf ch = [] → ch_closed ch = true →
      writePump cl (fs ++ [CloseFrame (close_code cl1)]) (cl1 <| c_ConnOpen := false |>).

(** The writer among the goroutines that send to the client and close it:
    the messages they had accepted and the frames written. *)
Definition accepted (data : string) (cl : Client) : list string :=
  if decide (backlog (sendEncoded data cl) = backlog cl) then [] else [data].
Inductive connection (cl0 : Client) : list string → list Frame → Client → Prop :=
  | conn_start : connection cl0 [] [] cl0
  | conn_send ins fs cl data :
      connection cl0 ins fs cl → connection cl0 (ins ++ accepted data cl) fs (sendEncoded data cl)
  | conn_close ins fs cl code reason :
      connection cl0 ins fs cl → connection cl0 ins fs (closeSendWith code reason cl)
  | conn_pong ins fs cl pongs :
      connection cl0 ins fs cl → connection cl0 ins fs (cl <| c_pongs := pongs |>)
  | conn_write ins fs cl fs' cl' :
      connection cl0 ins fs cl → writePump cl fs' cl' → connection cl0 ins (fs ++ fs') cl'.

(** ** Lemmas *)

Definition outbound (cl : Client) :=
  (c_Send cl, c_closed cl, c_queuedBytes cl, (c_closeCode cl, c_closeReason cl), ident cl).

Lemma outbound_send_ok cl cl' : outbound cl' = outbound cl → send_ok cl → send_ok cl'.
Proof. unfold outbound. intros [= Hs Hc Hb _ _ _] (ch & Hch & []). exists ch. split; [congruence|]. split; congruence. Qed.

Lemma messages_app fs fs' : messages (fs ++ fs') = messages fs ++ messages fs'.
Proof. apply omap_app. Qed.

Lemma writePong_quiet nowMs pong cl : messages (writePong nowMs pong cl) = [].
Proof. unfold writePong. by case_match. Qed.

Lemma writePriority_quiet cl fs cl' :
  writePriority cl fs cl' → outbound cl' = outbound cl ∧ messages fs = [] ∧ default [] (c_pongs cl') = [] ∧
    c_ConnOpen cl' = c_ConnOpen cl.
Proof.
  induction 1 as [cl Hp|cl cl' nowMs pong rest fs Hp _ IH|cl cl' nowNano fs _ IH]; [done|..].
  - destruct IH as (-> & Hm & Hd & ->). by rewrite messages_app, writePong_quiet.
  - destruct IH as (-> & Hm & Hd & ->). done.
Qed.

Lemma sendEncoded_backlog data cl :
  send_ok cl → backlog (sendEncoded data cl) = backlog cl ++ accepted data cl.
Proof.
  intros (ch & Hch & [? Hcl _ _ _]). unfold accepted. case_decide as Hd; [by rewrite app_nil_r|].
  unfold backlog, sendEncoded in *. rewrite Hch in *. cbn in *.
  destruct (c_closed cl); [by rewrite Hch in Hd|].
  unfold chan_try_send, chan_close in *. rewrite Hcl in *.
  repeat case_decide; done.
Qed.

Lemma closeSendWith_backlog code reason cl : backlog (closeSendWith code reason cl) = backlog cl.
Proof.
  unfold closeSendWith, backlog. destruct (c_closed cl); [done|]. cbn. destruct (c_Send cl) as [ch|]; [|done].
  cbn. unfold chan_close. by destruct (ch_closed ch).
Qed.

Lemma outbound_backlog cl cl' : outbound cl' = outbound cl → backlog cl' = backlog cl.
Proof. unfold outbound, backlog. by intros [= -> _]. Qed.

Lemma writePump_backlog cl fs cl' : writePump cl fs cl' → backlog cl = messages fs ++ backlog cl'.
Proof.
  destruct 1 as [cl nowMs pong rest Hp|cl nowNano|cl cl1 cl2 fs msg Hpr Hn|cl cl1 fs ch Hpr Hs Hb Hc].
  - by rewrite writePong_quiet.
  - done.
  - destruct (writePriority_quiet _ _ _ Hpr) as (Ho & Hm & _ & _). rewrite messages_app, Hm, <- (outbound_backlog _ _ Ho).
    unfold writeNext, backlog in *. destruct (c_Send cl1) as [ch|]; [|done]. cbn.
    destruct (ch_buf ch) as [|m buf]; [done|]. by injection Hn as -> <-.
  - destruct (writePriority_quiet _ _ _ Hpr) as (Ho & Hm & _ & _). rewrite messages_app, Hm, <- (outbound_backlog _ _ Ho).
    done.
Qed.

Lemma writePump_send_ok cl fs cl' : writePump cl fs cl' → send_ok cl → send_ok cl'.
Proof.
  destruct 1 as [cl nowMs pong rest Hp|cl nowNano|cl cl1 cl2 fs msg Hpr Hn|cl cl1 fs ch Hpr Hs Hb Hc]; intros Hok.
  - by apply (outbound_send_ok cl).
  - by apply (outbound_send_ok cl).
  - destruct (writePriority_quiet _ _ _ Hpr) as (Ho & _ & _ & _). pose proof (writeNext_ok cl1) as Hw. rewrite Hn in Hw.
    apply Hw. by apply (outbound_send_ok cl).
  - destruct (writePriority_quiet _ _ _ Hpr) as (Ho & _ & _ & _). by apply (outbound_send_ok cl).
Qed.

Lemma connection_fifo cl0 ins fs cl :
  connection cl0 ins fs cl → send_ok cl0 → send_ok cl ∧ backlog cl0 ++ ins = messages fs ++ backlog cl.
Proof.
  induction 1 as [|ins fs cl data _ IH|ins fs cl code reason _ IH|ins fs cl pongs _ IH|ins fs cl fs' cl' _ IH Hw];
    intros Hok; [by rewrite app_nil_r|destruct (IH Hok) as [Hs Hb]; clear IH..].
  - split; [by apply sendEncoded_ok|]. by rewrite sendEncoded_backlog, !(assoc_L (++)), Hb.
  - split; [by apply closeSendWith_ok|]. by rewrite closeSendWith_backlog.
  - split; [by apply (outbound_send_ok cl)|done].
  - split; [by eapply writePump_send_ok|]. by rewrite messages_app, <- (assoc_L (++)), <- (writePump_backlog _ _ _ Hw).
Qed.

(** ** Properties *)

(** C29: the wire carries exactly the messages that were accepted, once each and
    in the order of acceptance; whatever is missing is still queued.  When the
    writer sends the close frame nothing is missing, the frame carries the
    recorded code, and every pong went out before. *)
Theorem writer_delivers_in_order id ins fs cl :
  connection (newClient id) ins fs cl →
  ins = messages fs ++ backlog cl ∧
  (∀ fs' cl', writePump cl fs' cl' → c_ConnOpen cl = true → c_ConnOpen cl' = false →
    ins = messages (fs ++ fs') ∧ default [] (c_pongs cl') = [] ∧
    ∃ fs0, fs' = fs0 ++ [CloseFrame (close_code cl)]).
Proof.
  intros Hc. destruct (connection_fifo _ _ _ _ Hc (newClient_send_ok id)) as [Hs Hb]. cbn in Hb.
  split; [done|]. intros fs' cl' Hw Ho Ho'.
  assert (backlog cl = messages fs' ++ backlog cl') as Hb' by by apply writePump_backlog.
  destruct Hw as [cl nowMs pong rest Hp|cl nowNano|cl cl1 cl2 fs' msg Hpr Hn|cl cl1 fs' ch Hpr Hch Hbu Hcl].
  - cbn in Ho'. congruence.
  - cbn in Ho'. congruence.
  - destruct (writePriority_quiet _ _ _ Hpr) as (_ & _ & _ & Hq). unfold writeNext in Hn.
    destruct (c_Send cl1) as [ch|]; [|done]. destruct (ch_buf ch); [done|]. injection Hn as _ <-.
    cbn in Ho'. congruence.
  - destruct (writePriority_quiet _ _ _ Hpr) as (Hq & Hm & Hd & _). split_and!; [|done|].
    + rewrite Hb, Hb', !messages_app. replace (backlog _) with (@nil string); [by rewrite app_nil_r|].
      symmetry. etrans; [by apply (outbound_backlog cl)|]. unfold backlog. by rewrite Hch.
    + exists fs'. do 3 f_equal. unfold outbound in Hq. injection Hq as _ _ _ H1 H2 _. unfold close_code.
      by rewrite H1, H2.
Qed.

End Writer.
