(* ===== verification/Roster.v ===== *)
(** Roster: who is where.

    The pointers that tie connections, rooms and sessions together, and the
    invariant that they agree: a connection knows its room exactly when the
    room lists it under its ID, an applicant is listed exactly where they
    applied, every reserved seat has exactly one session and one token, and no
    two parties hold the same user ID or token.  The lemmas show that each way
    the server moves somebody preserves the invariant; they are stated for any
    update of a room or client that moves nobody else, so that the handlers
    can use them whatever else they change. *)

From S2P Require Import Prelude Protocol Utf8 Validation UAPolicy World Client.

(** ** Deliveries commute with updates *)

Section CoreProper.

#[export] Instance setRoom_proper r f : Proper (same_core ==> same_core) (setRoom r f).
Proof.
  intros w w' []. split; try done. cbn. unfold getRoom. by rewrite core_rooms.
Qed.
#[export] Instance setServer_proper f : Proper (same_core ==> same_core) (setServer f).
Proof. intros w w' []. split; try done. cbn. congruence. Qed.
#[export] Instance setSession_proper s f : Proper (same_core ==> same_core) (setSession s f).
Proof.
  intros w w' []. split; try done. cbn. unfold getSession. by rewrite core_sessions.
Qed.

(** An assignment to the identity of a client. *)
Lemma assign_proper c f :
  (∀ cl cl', ident cl' = ident cl → ident (f cl') = ident (f cl)) →
  (∀ cl, c_ConnOpen (f cl) = c_ConnOpen cl) → (∀ cl, c_closed (f cl) = c_closed cl) →
  Proper (same_core ==> same_core) (setClient c f).
Proof.
  intros Hi Hq Hcl w w' []. split; try done. intros d. rewrite !getClient_setClient.
  case_decide; [|auto]. destruct (core_calm d) as [Hid Hop Hclo]. split; [auto|by rewrite !Hq|by rewrite !Hcl].
Qed.
Ltac solve_assign := apply assign_proper; [unfold ident; intros ?? [= ]; cbn; congruence|done|done].

#[export] Instance setClientID_proper c id : Proper (same_core ==> same_core) (setClientID c id).
Proof. solve_assign. Qed.
#[export] Instance setUsername_proper c n : Proper (same_core ==> same_core) (setUsername c n).
Proof. solve_assign. Qed.
#[export] Instance setSessionToken_proper c t : Proper (same_core ==> same_core) (setSessionToken c t).
Proof. solve_assign. Qed.

Lemma core_clientID w w' c : same_core w w' → clientID c w' = clientID c w.
Proof. intros Hc%(core_ident _ _ c). unfold ident in Hc. by simplify_eq. Qed.
Lemma core_currentRoom w w' c : same_core w w' → currentRoom c w' = currentRoom c w.
Proof. intros Hc%(core_ident _ _ c). unfold ident in Hc. by simplify_eq. Qed.
Lemma core_currentPendingRoom w w' c : same_core w w' → currentPendingRoom c w' = currentPendingRoom c w.
Proof. intros Hc%(core_ident _ _ c). unfold ident in Hc. by simplify_eq. Qed.
Lemma core_session w w' c : same_core w w' → session c w' = session c w.
Proof. intros Hc%(core_ident _ _ c). unfold ident in Hc. by simplify_eq. Qed.
Lemma core_userName w w' c : same_core w w' → userName c w' = userName c w.
Proof. intros Hc%(core_ident _ _ c). unfold ident in Hc. by simplify_eq. Qed.
Lemma core_getSession w w' s : same_core w w' → getSession s w' = getSession s w.
Proof. intros []. unfold getSession. congruence. Qed.

#[export] Instance clearRoom_proper c r : Proper (same_core ==> same_core) (clearRoom c r).
Proof.
  intros w w' Hc. unfold clearRoom. rewrite (core_currentRoom _ _ c Hc). case_decide; [|done].
  assert (Proper (same_core ==> same_core) (setClient c (λ cl, cl <| c_room := None |>))) as Hp
    by solve_assign. by apply Hp.
Qed.
#[export] Instance clearPendingRoom_proper c r : Proper (same_core ==> same_core) (clearPendingRoom c r).
Proof.
  intros w w' Hc. unfold clearPendingRoom. rewrite (core_currentPendingRoom _ _ c Hc).
  case_decide; [|done].
  assert (Proper (same_core ==> same_core) (setClient c (λ cl, cl <| c_pendingRoom := None |>))) as Hp
    by solve_assign. by apply Hp.
Qed.

End CoreProper.

(** ** The invariant *)

Definition registered (r : RoomRef) (w : World) : Prop :=
  rooms (w_srv w) !! Code (getRoom r w) = Some r.

(** A party that can speak for its user ID: connected, seated or applying. *)
Definition holder (c : ClientRef) (w : World) : Prop :=
  c_ConnOpen (getClient c w) = true ∨ is_Some (currentRoom c w) ∨ is_Some (currentPendingRoom c w).

(** A session that will be honoured or expired: it has a token, or it is one of
    the sessions [E] whose tokens an expiry run already took. *)
Definition indexed (E : gset SessionRef) (s : SessionRef) (w : World) : Prop :=
  s ∈ E ∨ ∃ t, sessions (w_srv w) !! t = Some s.

(** What a session stands for: a user's seat in a room, and whether it was the
    host's.  The seat and the index may hold different objects that agree on
    this, as they do after a restart. *)
Definition claim_of (s : Session) := (se_UserID s, se_RoomCode s, se_IsHost s).
Definition sits (id code : string) (s : SessionRef) (w : World) : Prop :=
  se_UserID (getSession s w) = id ∧ se_RoomCode (getSession s w) = code.

(** Reserved seats: each has its session and each session its seat. *)
Record away_ok (E : gset SessionRef) (w : World) : Prop := {
  aw_entry r id s :
    registered r w → DisconnectedUsers (getRoom r w) !! id = Some s →
    se_UserID (getSession s w) = id ∧ se_RoomCode (getSession s w) = Code (getRoom r w) ∧
    (s < w_next w)%nat ∧ ∃ x, indexed E x w ∧ claim_of (getSession x w) = claim_of (getSession s w);
  aw_session s :
    indexed E s w → (s < w_next w)%nat ∧ ∃ r x, rooms (w_srv w) !! se_RoomCode (getSession s w) = Some r ∧
      DisconnectedUsers (getRoom r w) !! se_UserID (getSession s w) = Some x;
  aw_token t t' s :
    sessions (w_srv w) !! t = Some s → sessions (w_srv w) !! t' = Some s → t = t' ∧ s ∉ E ∧ t ≠ "";
  aw_seat s s' :
    indexed E s w → indexed E s' w → se_UserID (getSession s w) = se_UserID (getSession s' w) →
    se_RoomCode (getSession s w) = se_RoomCode (getSession s' w) → s = s';
  aw_one r r' id s s' :
    registered r w → registered r' w → DisconnectedUsers (getRoom r w) !! id = Some s →
    DisconnectedUsers (getRoom r' w) !! id = Some s' → r = r';
  aw_named r id s : registered r w → DisconnectedUsers (getRoom r w) !! id = Some s → id ≠ ""
}.

Record roster_ok (E : gset SessionRef) (w : World) : Prop := {
  ro_code code r :
    rooms (w_srv w) !! code = Some r → Code (getRoom r w) = code ∧ (r < w_next w)%nat;
  ro_seat r id c :
    registered r w → Clients (getRoom r w) !! id = Some c →
    clientID c w = id ∧ currentRoom c w = Some r;
  ro_room c r :
    currentRoom c w = Some r →
    registered r w ∧ Clients (getRoom r w) !! clientID c w = Some c ∧ currentPendingRoom c w = None;
  ro_applicant r id c :
    registered r w → PendingJoins (getRoom r w) !! id = Some c →
    clientID c w = id ∧ currentPendingRoom c w = Some r;
  ro_pending c r :
    currentPendingRoom c w = Some r →
    registered r w ∧ PendingJoins (getRoom r w) !! clientID c w = Some c;
  ro_away : away_ok E w;
  ro_token c r :
    currentRoom c w = Some r → session c w ≠ "" ∧ sessions (w_srv w) !! session c w = None;
  ro_token_one c c' r r' :
    currentRoom c w = Some r → currentRoom c' w = Some r' → session c w = session c' w → c = c';
  ro_named c : holder c w → clientID c w ≠ "" ∧ (c < w_next w)%nat;
  ro_id_one c c' : holder c w → holder c' w → clientID c w = clientID c' w → c = c';
  ro_id_away c r : holder c w → registered r w → DisconnectedUsers (getRoom r w) !! clientID c w = None
}.

(** Identifiers the generators may return: not in use. *)
Record fresh_id (id : string) (w : World) : Prop := {
  fi_named : id ≠ "";
  fi_holder d : holder d w → clientID d w ≠ id;
  fi_away r : registered r w → DisconnectedUsers (getRoom r w) !! id = None
}.
Record fresh_token (t : string) (w : World) : Prop := {
  ft_named : t ≠ "";
  ft_index : sessions (w_srv w) !! t = None;
  ft_seat d r : currentRoom d w = Some r → session d w ≠ t
}.

(** The fields the invariant is about. *)
Definition place (cl : Client) := (c_id cl, c_sessionToken cl, c_room cl, c_pendingRoom cl).
Definition slots (room : Room) :=
  (Code room, Clients room, PendingJoins room, DisconnectedUsers room).

Section Frame.
Context (E : gset SessionRef) (w w' : World).

(** Nobody moved. *)
Record unmoved : Prop := {
  um_place c : place (getClient c w') = place (getClient c w);
  um_conn c : c_ConnOpen (getClient c w') = true → c_ConnOpen (getClient c w) = true;
  um_slots r : slots (getRoom r w') = slots (getRoom r w);
  um_sessions s : claim_of (getSession s w') = claim_of (getSession s w);
  um_index : (rooms (w_srv w'), sessions (w_srv w')) = (rooms (w_srv w), sessions (w_srv w));
  um_next : w_next w' = w_next w
}.

Lemma place_eqs c p t ro pe :
  place (getClient c w') = (p, t, ro, pe) →
  clientID c w' = p ∧ session c w' = t ∧ currentRoom c w' = ro ∧ currentPendingRoom c w' = pe.
Proof. by intros [= ]. Qed.

Lemma roster_frame : unmoved → roster_ok E w → roster_ok E w'.
Proof.
  intros [Hp Hcn Hsl Hse Hix Hn] Ho. injection Hix as Hr Hs.
  assert (∀ c, clientID c w' = clientID c w) as Hid by (intros c; by destruct (place_eqs c _ _ _ _ (Hp c))).
  assert (∀ c, session c w' = session c w) as Hto by (intros c; by destruct (place_eqs c _ _ _ _ (Hp c)) as (_ & ? & _)).
  assert (∀ c, currentRoom c w' = currentRoom c w) as Hro by (intros c; by destruct (place_eqs c _ _ _ _ (Hp c)) as (_ & _ & ? & _)).
  assert (∀ c, currentPendingRoom c w' = currentPendingRoom c w) as Hpe by (intros c; by destruct (place_eqs c _ _ _ _ (Hp c)) as (_ & _ & _ & ?)).
  assert (∀ c, holder c w' → holder c w) as Hh.
  { intros c. unfold holder. rewrite Hro, Hpe. naive_solver. }
  assert (∀ r, Code (getRoom r w') = Code (getRoom r w)) as Hco by (intros r; by injection (Hsl r)).
  assert (∀ r, Clients (getRoom r w') = Clients (getRoom r w)) as Hcl by (intros r; by injection (Hsl r)).
  assert (∀ r, PendingJoins (getRoom r w') = PendingJoins (getRoom r w)) as Hpj by (intros r; by injection (Hsl r)).
  assert (∀ r, DisconnectedUsers (getRoom r w') = DisconnectedUsers (getRoom r w)) as Hdu by (intros r; by injection (Hsl r)).
  assert (∀ s, se_UserID (getSession s w') = se_UserID (getSession s w)) as Hui by (intros s; by injection (Hse s)).
  assert (∀ s, se_RoomCode (getSession s w') = se_RoomCode (getSession s w)) as Hrc by (intros s; by injection (Hse s)).
  destruct Ho as [?????[]]. split; lazymatch goal with |- away_ok _ _ => split | _ => idtac end; intros *; unfold registered, indexed in *;
    rewrite ?Hid, ?Hto, ?Hro, ?Hpe, ?Hco, ?Hcl, ?Hpj, ?Hdu, ?Hui, ?Hrc, ?Hr, ?Hs, ?Hn; try solve [eauto].
  - intros Hr1 Hd1. destruct (aw_entry0 r id s Hr1 Hd1) as (? & ? & ? & x & Hix & ?). split_and!; try done.
    exists x. by rewrite !Hse.
  - intros Hs1. destruct (aw_session0 s Hs1) as (? & r & x & Hr1 & Hr2). split; [done|]. exists r, x. by rewrite Hdu.
Qed.

End Frame.

(** ** Moves

    From [w] to [w'] only the place of [c] and the slots of [r] may have
    changed, to the values given; connections may have closed, sessions may
    have been created.  Each lemma below is one kind of move. *)

Section Move.
Context (E : gset SessionRef) (w w' : World) (c : ClientRef) (r : RoomRef).

Record moves (p : string * string * option RoomRef * option RoomRef)
    (sl : string * gmap string ClientRef * gmap string ClientRef * gmap string SessionRef) : Prop := {
  mv_place d : place (getClient d w') = if decide (d = c) then p else place (getClient d w);
  mv_conn d : d ≠ c → c_ConnOpen (getClient d w') = true → c_ConnOpen (getClient d w) = true;
  mv_slots x : slots (getRoom x w') = if decide (x = r) then sl else slots (getRoom x w);
  mv_session s : (s < w_next w)%nat → claim_of (getSession s w') = claim_of (getSession s w);
  mv_next : (w_next w ≤ w_next w')%nat
}.

Context (i t : string) (ro pe : option RoomRef) (code : string) (cs pj : gmap string ClientRef)
  (du : gmap string SessionRef).

(** The moves as equations on what the invariant reads. *)
Record readings : Prop := {
  rd_id d : clientID d w' = if decide (d = c) then i else clientID d w;
  rd_token d : session d w' = if decide (d = c) then t else session d w;
  rd_room d : currentRoom d w' = if decide (d = c) then ro else currentRoom d w;
  rd_pending d : currentPendingRoom d w' = if decide (d = c) then pe else currentPendingRoom d w;
  rd_holder d : d ≠ c → holder d w' → holder d w;
  rd_code x : Code (getRoom x w') = if decide (x = r) then code else Code (getRoom x w);
  rd_clients x : Clients (getRoom x w') = if decide (x = r) then cs else Clients (getRoom x w);
  rd_joins x : PendingJoins (getRoom x w') = if decide (x = r) then pj else PendingJoins (getRoom x w);
  rd_away x : DisconnectedUsers (getRoom x w') = if decide (x = r) then du else DisconnectedUsers (getRoom x w);
  rd_user s : (s < w_next w)%nat → se_UserID (getSession s w') = se_UserID (getSession s w);
  rd_scode s : (s < w_next w)%nat → se_RoomCode (getSession s w') = se_RoomCode (getSession s w)
}.

Lemma moves_readings : moves (i, t, ro, pe) (code, cs, pj, du) → readings.
Proof.
  intros [Hp Hc Hs Hse _]. split.
  1-4: intros d; specialize (Hp d); case_decide; by injection Hp.
  2-5: intros x; specialize (Hs x); case_decide; by injection Hs.
  - intros d Hd. specialize (Hp d). rewrite decide_False in Hp by done. unfold holder.
    injection Hp as _ _ Hr Hpe. unfold currentRoom, currentPendingRoom. rewrite Hr, Hpe. naive_solver.
  - intros s Hl. by injection (Hse s Hl).
  - intros s Hl. by injection (Hse s Hl).
Qed.

End Move.

(** Facts of the invariant in the form the moves use them. *)
Section RosterFacts.
Context (E : gset SessionRef) (w : World) (Hok : roster_ok E w).

Lemma indexed_bound s : indexed E s w → (s < w_next w)%nat.
Proof. apply (aw_session _ _ (ro_away _ _ Hok)). Qed.

(** The entry of a seat and its indexed session agree. *)
Lemma entry_alike r id s x :
  registered r w → DisconnectedUsers (getRoom r w) !! id = Some s → indexed E x w →
  sits id (Code (getRoom r w)) x w → claim_of (getSession x w) = claim_of (getSession s w).
Proof.
  intros Hr Hd Hi [Hu Hc]. destruct (aw_entry _ _ (ro_away _ _ Hok) _ _ _ Hr Hd) as (Hsu & Hsc & _ & y & Hy & Heq).
  assert (x = y) as ->; [|done]. injection Heq as Hyu Hyc _.
  apply (aw_seat _ _ (ro_away _ _ Hok)); congruence.
Qed.

Lemma registered_code code r : rooms (w_srv w) !! code = Some r → registered r w ∧ Code (getRoom r w) = code.
Proof.
  intros Hr. destruct (ro_code _ _ Hok _ _ Hr) as [Hcode _]. split; [|done].
  unfold registered. congruence.
Qed.

Lemma seated_holder c r : currentRoom c w = Some r → holder c w.
Proof. unfold holder. rewrite is_Some_alt. intros ->. auto. Qed.
Lemma applying_holder c r : currentPendingRoom c w = Some r → holder c w.
Proof. unfold holder. rewrite !is_Some_alt. intros ->. auto. Qed.

(** Nobody sits or applies under the ID of another holder. *)
Lemma seat_free c r :
  registered r w → holder c w → currentRoom c w = None → Clients (getRoom r w) !! clientID c w = None.
Proof.
  intros Hr Hh Hno. apply eq_None_not_Some. intros [d Hd].
  destruct (ro_seat _ _ Hok _ _ _ Hr Hd) as [Hid Hroom].
  assert (d = c) as ->; [|congruence].
  eapply (ro_id_one _ _ Hok); [by eapply seated_holder|done|done].
Qed.
Lemma join_free c r :
  registered r w → holder c w → currentPendingRoom c w = None → PendingJoins (getRoom r w) !! clientID c w = None.
Proof.
  intros Hr Hh Hno. apply eq_None_not_Some. intros [d Hd].
  destruct (ro_applicant _ _ Hok _ _ _ Hr Hd) as [Hid Hroom].
  assert (d = c) as ->; [|congruence].
  eapply (ro_id_one _ _ Hok); [by eapply applying_holder|done|done].
Qed.
Lemma away_free c r : registered r w → holder c w → DisconnectedUsers (getRoom r w) !! clientID c w = None.
Proof. intros. by apply (ro_id_away _ _ Hok). Qed.

End RosterFacts.

(** The readings of a move, by name. *)
Ltac read_moves Hok Hmv :=
  pose proof (mv_next _ _ _ _ _ _ Hmv) as Hn;
  pose proof (indexed_bound _ _ Hok) as Hib;
  pose proof (mv_session _ _ _ _ _ _ Hmv) as Hclm;
  destruct (moves_readings _ _ _ _ _ _ _ _ _ _ _ _ Hmv)
    as [Hid Hto Hro Hpe Hho Hco Hcl Hpj Hdu Hus Hsc].

(** A move that leaves the index, the code and the reserved seats alone leaves
    the sessions in order. *)
Lemma away_frame E w w' c r p cs pj :
  roster_ok E w → (rooms (w_srv w'), sessions (w_srv w')) = (rooms (w_srv w), sessions (w_srv w)) →
  moves w w' c r p (Code (getRoom r w), cs, pj, DisconnectedUsers (getRoom r w)) →
  away_ok E w' ∧ (∀ x, registered x w' ↔ registered x w).
Proof.
  intros Hok Hix Hmv. injection Hix as Hr Hs. destruct p as [[[i t] ro] pe]. read_moves Hok Hmv.
  assert (∀ x, registered x w' ↔ registered x w) as Hre.
  { intros x. unfold registered. rewrite Hr, Hco. by case_decide; [subst|]. }
  assert (∀ s, indexed E s w' ↔ indexed E s w) as Hin by (intros s; unfold indexed; by rewrite Hs).
  assert (∀ x, DisconnectedUsers (getRoom x w') = DisconnectedUsers (getRoom x w)) as Hdu'.
  { intros x. rewrite Hdu. by case_decide; [subst|]. }
  assert (∀ x, Code (getRoom x w') = Code (getRoom x w)) as Hco'.
  { intros x. rewrite Hco. by case_decide; [subst|]. }
  split; [|done]. destruct (ro_away _ _ Hok) as [Ha Hse Hto1 Hone Ho Hnm].
  split; intros *; rewrite ?Hre, ?Hin, ?Hdu', ?Hco', ?Hs, ?Hr; [| |by apply Hto1| |by apply Ho|by apply Hnm].
  - intros Hreg Hd. destruct (Ha _ _ _ Hreg Hd) as (Hu & Hc & Hl & x & Hi & Heq).
    rewrite Hus, Hsc by done. split_and!; [done|done|lia|]. exists x. by rewrite Hin, !Hclm by auto.
  - intros Hi. rewrite Hus, Hsc by auto. destruct (Hse s Hi) as (Hl & x & y & Hx & Hd). split; [lia|].
    exists x, y. by rewrite Hdu'.
  - intros Hi Hi'. rewrite !Hus, !Hsc by auto. by apply Hone.
Qed.

(** One field of the invariant after a move: the cases on who and which room
    are split and the field before the move closes them. *)
Ltac by_fields :=
  repeat case_decide; subst; rewrite ?lookup_delete_Some, ?lookup_insert_Some;
  try solve [eauto | naive_solver eauto using Nat.lt_le_trans].
Ltac with_field H := let F := fresh "F" in pose proof H as F; cbv beta in F.


(** ** Moves that leave the reserved seats alone *)

Section PlainMoves.
Context (E : gset SessionRef) (w w' : World) (c : ClientRef) (r : RoomRef).
Context (Hok : roster_ok E w).
Context (Hix : (rooms (w_srv w'), sessions (w_srv w')) = (rooms (w_srv w), sessions (w_srv w))).

(** A member gives up the seat. *)
Lemma roster_unseat id :
  registered r w → Clients (getRoom r w) !! id = Some c →
  moves w w' c r (clientID c w, session c w, None, None)
    (Code (getRoom r w), delete id (Clients (getRoom r w)), PendingJoins (getRoom r w),
     DisconnectedUsers (getRoom r w)) →
  roster_ok E w'.
Proof.
  intros Hreg Hseat Hmv. destruct (away_frame _ _ _ _ _ _ _ _ Hok Hix Hmv) as [Haw Hre].
  injection Hix as Hr Hs. read_moves Hok Hmv.
  destruct (ro_seat _ _ Hok _ _ _ Hreg Hseat) as [Hcid Hcro].
  destruct (ro_room _ _ Hok _ _ Hcro) as (_ & _ & Hcpe).
  assert (∀ d, holder d w' → holder d w) as Hho'.
  { intros d. destruct (decide (d = c)) as [->|]; [|auto]. intros _. by eapply seated_holder. }
  split; try done; intros *; rewrite ?Hre, ?Hid, ?Hto, ?Hro, ?Hpe, ?Hco, ?Hcl, ?Hpj, ?Hdu, ?Hr, ?Hs.
  - with_field (ro_code _ _ Hok). clear - F Hn. by_fields.
  - with_field (ro_seat _ _ Hok). clear - F Hcid Hcro. by_fields.
  - with_field (ro_room _ _ Hok). clear - F Hseat. repeat case_decide; subst; try done; try apply F.
    intros Hx. destruct (F _ _ Hx) as (? & ? & ?). rewrite lookup_delete_Some. split_and!; try done. congruence.
  - with_field (ro_applicant _ _ Hok). clear - F Hcpe. by_fields.
  - with_field (ro_pending _ _ Hok). clear - F. by_fields.
  - with_field (ro_token _ _ Hok). clear - F. by_fields.
  - with_field (ro_token_one _ _ Hok). clear - F. by_fields.
  - with_field (ro_named _ _ Hok). clear - F Hho' Hn. by_fields.
  - with_field (ro_id_one _ _ Hok). clear - F Hho'. by_fields.
  - with_field (ro_id_away _ _ Hok). clear - F Hho'. by_fields.
Qed.

(** A connected client without a room applies to one. *)
Lemma roster_apply :
  registered r w → currentRoom c w = None → currentPendingRoom c w = None → holder c w →
  moves w w' c r (clientID c w, session c w, None, Some r)
    (Code (getRoom r w), Clients (getRoom r w), <[clientID c w := c]> (PendingJoins (getRoom r w)),
     DisconnectedUsers (getRoom r w)) →
  roster_ok E w'.
Proof.
  intros Hreg Hcro Hcpe Hhc Hmv. destruct (away_frame _ _ _ _ _ _ _ _ Hok Hix Hmv) as [Haw Hre].
  injection Hix as Hr Hs. read_moves Hok Hmv.
  pose proof (join_free _ _ Hok c r Hreg Hhc Hcpe) as Hfree.
  assert (∀ d, holder d w' → holder d w) as Hho'.
  { intros d. destruct (decide (d = c)) as [->|]; auto. }
  split; try done; intros *; rewrite ?Hre, ?Hid, ?Hto, ?Hro, ?Hpe, ?Hco, ?Hcl, ?Hpj, ?Hdu, ?Hr, ?Hs.
  - with_field (ro_code _ _ Hok). clear - F Hn. by_fields.
  - with_field (ro_seat _ _ Hok). clear - F Hcro. by_fields.
  - with_field (ro_room _ _ Hok). clear - F. by_fields.
  - with_field (ro_applicant _ _ Hok). clear - F Hcpe. by_fields.
  - with_field (ro_pending _ _ Hok). clear - F Hreg Hfree. by_fields.
    intros Hx. destruct (F _ _ Hx). split; [done|]. right. split; congruence.
  - with_field (ro_token _ _ Hok). clear - F. by_fields.
  - with_field (ro_token_one _ _ Hok). clear - F. by_fields.
  - with_field (ro_named _ _ Hok). clear - F Hho' Hn. by_fields.
  - with_field (ro_id_one _ _ Hok). clear - F Hho'. by_fields.
  - with_field (ro_id_away _ _ Hok). clear - F Hho'. by_fields.
Qed.

(** An application is withdrawn or refused. *)
Lemma roster_withdraw id :
  registered r w → PendingJoins (getRoom r w) !! id = Some c →
  moves w w' c r (clientID c w, session c w, None, None)
    (Code (getRoom r w), Clients (getRoom r w), delete id (PendingJoins (getRoom r w)),
     DisconnectedUsers (getRoom r w)) →
  roster_ok E w'.
Proof.
  intros Hreg Hjoin Hmv. destruct (away_frame _ _ _ _ _ _ _ _ Hok Hix Hmv) as [Haw Hre].
  injection Hix as Hr Hs. read_moves Hok Hmv.
  destruct (ro_applicant _ _ Hok _ _ _ Hreg Hjoin) as [Hcid Hcpe].
  assert (currentRoom c w = None) as Hcro.
  { destruct (currentRoom c w) eqn:Ex; [|done]. destruct (ro_room _ _ Hok _ _ Ex). naive_solver. }
  assert (∀ d, holder d w' → holder d w) as Hho'.
  { intros d. destruct (decide (d = c)) as [->|]; [|auto]. intros _. by eapply applying_holder. }
  split; try done; intros *; rewrite ?Hre, ?Hid, ?Hto, ?Hro, ?Hpe, ?Hco, ?Hcl, ?Hpj, ?Hdu, ?Hr, ?Hs.
  - with_field (ro_code _ _ Hok). clear - F Hn. by_fields.
  - with_field (ro_seat _ _ Hok). clear - F Hcro. by_fields.
  - with_field (ro_room _ _ Hok). clear - F. by_fields.
  - with_field (ro_applicant _ _ Hok). clear - F Hcid Hcpe. by_fields.
  - with_field (ro_pending _ _ Hok). clear - F Hjoin. repeat case_decide; subst; try done; try apply F.
    intros Hx. destruct (F _ _ Hx) as (? & ?). rewrite lookup_delete_Some. split_and!; try done. congruence.
  - with_field (ro_token _ _ Hok). clear - F. by_fields.
  - with_field (ro_token_one _ _ Hok). clear - F. by_fields.
  - with_field (ro_named _ _ Hok). clear - F Hho' Hn. by_fields.
  - with_field (ro_id_one _ _ Hok). clear - F Hho'. by_fields.
  - with_field (ro_id_away _ _ Hok). clear - F Hho'. by_fields.
Qed.

(** An applicant is seated, with a new token. *)
Lemma roster_grant id t :
  registered r w → PendingJoins (getRoom r w) !! id = Some c → fresh_token t w →
  moves w w' c r (clientID c w, t, Some r, None)
    (Code (getRoom r w), <[id := c]> (Clients (getRoom r w)), delete id (PendingJoins (getRoom r w)),
     DisconnectedUsers (getRoom r w)) →
  roster_ok E w'.
Proof.
  intros Hreg Hjoin [Htn Hti Hts] Hmv. destruct (away_frame _ _ _ _ _ _ _ _ Hok Hix Hmv) as [Haw Hre].
  injection Hix as Hr Hs. read_moves Hok Hmv.
  destruct (ro_applicant _ _ Hok _ _ _ Hreg Hjoin) as [Hcid Hcpe].
  assert (currentRoom c w = None) as Hcro.
  { destruct (currentRoom c w) eqn:Ex; [|done]. destruct (ro_room _ _ Hok _ _ Ex). naive_solver. }
  assert (holder c w) as Hhc by by eapply applying_holder.
  pose proof (seat_free _ _ Hok c r Hreg Hhc Hcro) as Hfree.
  assert (∀ d, holder d w' → holder d w) as Hho'.
  { intros d. destruct (decide (d = c)) as [->|]; auto. }
  split; try done; intros *; rewrite ?Hre, ?Hid, ?Hto, ?Hro, ?Hpe, ?Hco, ?Hcl, ?Hpj, ?Hdu, ?Hr, ?Hs.
  - with_field (ro_code _ _ Hok). clear - F Hn. by_fields.
  - with_field (ro_seat _ _ Hok). clear - F Hcid Hcro. by_fields.
  - with_field (ro_room _ _ Hok). clear - F Hreg Hcid Hfree. by_fields.
    intros Hx. destruct (F _ _ Hx) as (? & ? & ?). split_and!; try done. right. split; congruence.
  - with_field (ro_applicant _ _ Hok). clear - F Hcid Hcpe. by_fields.
  - with_field (ro_pending _ _ Hok). clear - F Hjoin. repeat case_decide; subst; try done; try apply F.
    intros Hx. destruct (F _ _ Hx) as (? & ?). rewrite lookup_delete_Some. split_and!; try done. congruence.
  - with_field (ro_token _ _ Hok). clear - F Htn Hti. by_fields.
  - with_field (ro_token_one _ _ Hok). clear - F Hts. by_fields.
  - with_field (ro_named _ _ Hok). clear - F Hho' Hn. by_fields.
  - with_field (ro_id_one _ _ Hok). clear - F Hho'. by_fields.
  - with_field (ro_id_away _ _ Hok). clear - F Hho'. by_fields.
Qed.

(** An idle client, or one that just connected, gets a new ID. *)
Lemma roster_rename i t :
  currentRoom c w = None → currentPendingRoom c w = None → (c < w_next w')%nat → fresh_id i w →
  moves w w' c r (i, t, None, None)
    (Code (getRoom r w), Clients (getRoom r w), PendingJoins (getRoom r w), DisconnectedUsers (getRoom r w)) →
  roster_ok E w'.
Proof.
  intros Hcro Hcpe Hlt [Hin Hih Hia] Hmv. destruct (away_frame _ _ _ _ _ _ _ _ Hok Hix Hmv) as [Haw Hre].
  injection Hix as Hr Hs. read_moves Hok Hmv.
  split; try done; intros *; rewrite ?Hre, ?Hid, ?Hto, ?Hro, ?Hpe, ?Hco, ?Hcl, ?Hpj, ?Hdu, ?Hr, ?Hs.
  - with_field (ro_code _ _ Hok). clear - F Hn. by_fields.
  - with_field (ro_seat _ _ Hok). clear - F Hcro. by_fields.
  - with_field (ro_room _ _ Hok). clear - F. by_fields.
  - with_field (ro_applicant _ _ Hok). clear - F Hcpe. by_fields.
  - with_field (ro_pending _ _ Hok). clear - F. by_fields.
  - with_field (ro_token _ _ Hok). clear - F. by_fields.
  - with_field (ro_token_one _ _ Hok). clear - F. by_fields.
  - with_field (ro_named _ _ Hok). clear - F Hho Hin Hlt Hn. by_fields.
  - with_field (ro_id_one _ _ Hok). clear - F Hho Hih. by_fields.
  - with_field (ro_id_away _ _ Hok). clear - F Hho Hia. by_fields.
Qed.

End PlainMoves.

(** ** Moves in and out of the reserved seats *)

Section AwayMoves.
Context (E : gset SessionRef) (w w' : World) (c : ClientRef) (r : RoomRef).
Context (Hok : roster_ok E w) (Hreg : registered r w) (Hr : rooms (w_srv w') = rooms (w_srv w)).

Lemma registered_kept p cs pj du :
  moves w w' c r p (Code (getRoom r w), cs, pj, du) → ∀ x, registered x w' ↔ registered x w.
Proof.
  intros Hmv x. destruct p as [[[i t] ro] pe].
  destruct (moves_readings _ _ _ _ _ _ _ _ _ _ _ _ Hmv) as [_ _ _ _ _ Hco _ _ _ _ _].
  unfold registered. rewrite Hr, Hco. by case_decide; [subst|].
Qed.

End AwayMoves.

(** A member loses the connection: the seat turns into a session. *)
Section Unplug.
Context (E : gset SessionRef) (w w' : World) (c : ClientRef) (r : RoomRef) (id : string).
Context (Hok : roster_ok E w) (Hreg : registered r w) (Hr : rooms (w_srv w') = rooms (w_srv w)).
Context (Hseat : Clients (getRoom r w) !! id = Some c)
  (Hs : sessions (w_srv w') = <[session c w := w_next w]> (sessions (w_srv w)))
  (Hconn : c_ConnOpen (getClient c w') = false) (Hn' : (w_next w < w_next w')%nat)
  (Hsession : sits id (Code (getRoom r w)) (w_next w) w')
  (Hmv : moves w w' c r (clientID c w, session c w, None, None)
    (Code (getRoom r w), delete id (Clients (getRoom r w)), PendingJoins (getRoom r w),
     <[id := w_next w]> (DisconnectedUsers (getRoom r w)))).

Lemma unplug_away : away_ok E w'.
Proof.
  pose proof (registered_kept _ _ _ _ Hr _ _ _ _ Hmv) as Hre. read_moves Hok Hmv.
  destruct Hsession as [Hsu Hsr]. destruct (ro_seat _ _ Hok _ _ _ Hreg Hseat) as [Hcid Hcro].
  destruct (ro_token _ _ Hok _ _ Hcro) as [Htn Hti]. destruct (ro_away _ _ Hok) as [Ha Hse Ht Hone Ho Hnm].
  assert (∀ x, registered x w → DisconnectedUsers (getRoom x w) !! id = None) as Hno.
  { intros x Hx. rewrite <- Hcid. apply (away_free _ _ Hok); [done|by eapply seated_holder]. }
  assert (∀ x, indexed E x w' ↔ x = w_next w ∨ indexed E x w) as Hin.
  { intros x. unfold indexed. rewrite Hs. setoid_rewrite lookup_insert_Some. split.
    - intros [?|(t' & [[_ <-]|[_ ?]])]; eauto.
    - intros [->|[?|[t' ?]]]; [eauto|eauto|]. right. exists t'. right. split; [congruence|done]. }
  split; intros *; rewrite ?Hre, ?Hin, ?Hco, ?Hdu, ?Hr, ?Hs.
  - intros Hx Hd. assert (registered r0 w → DisconnectedUsers (getRoom r0 w) !! id0 = Some s →
      se_UserID (getSession s w') = id0 ∧ se_RoomCode (getSession s w') = Code (getRoom r0 w) ∧
      (s < w_next w')%nat ∧ ∃ x, indexed E x w' ∧ claim_of (getSession x w') = claim_of (getSession s w')) as Hold.
    { intros Hx' Hd'. destruct (Ha _ _ _ Hx' Hd') as (? & ? & ? & x & ? & ?). rewrite Hus, Hsc by done.
      split_and!; [done|done|lia|]. exists x. rewrite Hin, !Hclm by auto. auto. }
    case_decide; subst; [|by apply Hold]. apply lookup_insert_Some in Hd as [[<- <-]|[_ ?]]; [|auto].
    split_and!; [done|done|lia|]. exists (w_next w). rewrite Hin. auto.
  - intros [->|Hi].
    + split; [lia|]. exists r, (w_next w). rewrite Hsu, Hsr, Hdu, decide_True, lookup_insert_eq by done. by split.
    + destruct (Hse s Hi) as (Hl & x & y & Hx & Hd). rewrite Hus, Hsc by auto. split; [lia|]. exists x, y. split; [done|].
      destruct (registered_code _ _ Hok _ _ Hx) as [Hxr _]. specialize (Hno x Hxr).
      rewrite Hdu. case_decide; subst; [|done]. apply lookup_insert_Some. right. split; [congruence|done].
  - assert (∀ t'', sessions (w_srv w) !! t'' ≠ Some (w_next w)) as Hfr.
    { intros t'' Hx. assert (w_next w < w_next w)%nat; [|lia]. apply Hib. right; eauto. }
    rewrite !lookup_insert_Some. intros [[<- <-]|[? ?]] [[<- ?]|[? ?]]; subst; try (by eauto); try (by edestruct Hfr).
    split_and!; [done| |done]. intros Hx. assert (w_next w < w_next w)%nat; [|lia]. apply Hib. by left.
  - assert (∀ y, indexed E y w → se_UserID (getSession y w') ≠ id) as Hapart.
    { intros y Hy. rewrite Hus by auto. destruct (Hse y Hy) as (_ & x & z & Hx & Hd).
      destruct (registered_code _ _ Hok _ _ Hx) as [Hxr _]. specialize (Hno x Hxr). congruence. }
    intros [->|Hi] [->|Hi'] Hu Hc; [done|by destruct (Hapart _ Hi'); congruence|by destruct (Hapart _ Hi); congruence|].
    rewrite !Hus in Hu by auto. rewrite !Hsc in Hc by auto. by apply Hone.
  - intros Hx Hx'. pose proof (Hno r0 Hx). pose proof (Hno r' Hx').
    repeat case_decide; subst; rewrite ?lookup_insert_Some; naive_solver.
  - intros Hx. case_decide; subst; [|by apply Hnm]. rewrite lookup_insert_Some.
    intros [[<- _]|[_ ?]]; [|by eapply Hnm]. rewrite <- Hcid. apply (ro_named _ _ Hok).
    by eapply seated_holder.
Qed.

Lemma roster_unplug : roster_ok E w'.
Proof.
  pose proof (registered_kept _ _ _ _ Hr _ _ _ _ Hmv) as Hre. read_moves Hok Hmv.
  destruct (ro_seat _ _ Hok _ _ _ Hreg Hseat) as [Hcid Hcro].
  destruct (ro_token _ _ Hok _ _ Hcro) as [Htn Hti].
  assert (∀ d, holder d w' → d ≠ c ∧ holder d w) as Hho'.
  { intros d Hd. destruct (decide (d = c)) as [->|]; [|auto]. exfalso. unfold holder in Hd.
    rewrite Hro, Hpe, Hconn, !decide_True in Hd by done. destruct Hd as [?|[[? ?]|[? ?]]]; done. }
  split; [| | | | |exact unplug_away|..]; intros *;
    rewrite ?Hre, ?Hid, ?Hto, ?Hro, ?Hpe, ?Hco, ?Hcl, ?Hpj, ?Hdu, ?Hr, ?Hs.
  - with_field (ro_code _ _ Hok). clear - F Hn. by_fields.
  - with_field (ro_seat _ _ Hok). clear - F Hcid Hcro. by_fields.
  - with_field (ro_room _ _ Hok). clear - F Hseat. repeat case_decide; subst; try done; try apply F.
    intros Hx. destruct (F _ _ Hx) as (? & ? & ?). rewrite lookup_delete_Some. split_and!; try done. congruence.
  - with_field (ro_applicant _ _ Hok). pose proof (ro_room _ _ Hok _ _ Hcro) as Hcr.
    clear - F Hcr Hcro. by_fields.
  - with_field (ro_pending _ _ Hok). clear - F. by_fields.
  - with_field (ro_token _ _ Hok). with_field (ro_token_one _ _ Hok). clear - F F0 Hcro.
    case_decide; [done|]. intros Hx. split; [by eapply F|]. apply lookup_insert_None. split; [by eapply F|].
    intros Heq. by pose proof (F0 _ _ _ _ Hcro Hx Heq).
  - with_field (ro_token_one _ _ Hok). clear - F. by_fields.
  - with_field (ro_named _ _ Hok). clear - F Hho' Hn. intros Hd. destruct (Hho' _ Hd). by_fields.
  - with_field (ro_id_one _ _ Hok). clear - F Hho'. intros Hd Hd'.
    destruct (Hho' _ Hd), (Hho' _ Hd'). by_fields.
  - with_field (ro_id_away _ _ Hok). with_field (ro_id_one _ _ Hok). clear - F F0 Hho' Hcro Hcid.
    intros Hd Hx. destruct (Hho' _ Hd) as [Hne Hh]. rewrite (decide_False (P := c0 = c)) by done.
    case_decide; subst; [|auto]. apply lookup_insert_None. split; [by apply F|].
    intros Heq. apply Hne. apply F0; [done|by eapply seated_holder|done].
Qed.

End Unplug.

(** Giving up a reserved seat, however the seat is used afterwards, leaves the
    other sessions in order. *)
Lemma away_drop E E' w w' c r s id p cs pj :
  roster_ok E w → registered r w → rooms (w_srv w') = rooms (w_srv w) →
  DisconnectedUsers (getRoom r w) !! id = Some s →
  (∀ t x, sessions (w_srv w') !! t = Some x ↔
    sessions (w_srv w) !! t = Some x ∧ ¬ sits id (Code (getRoom r w)) x w) →
  (∀ x, x ∈ E' ↔ x ∈ E ∧ ¬ sits id (Code (getRoom r w)) x w) →
  moves w w' c r p (Code (getRoom r w), cs, pj, delete id (DisconnectedUsers (getRoom r w))) →
  away_ok E' w'.
Proof.
  intros Hok Hreg Hr Haway Hindex HE Hmv.
  pose proof (registered_kept _ _ _ _ Hr _ _ _ _ Hmv) as Hre.
  destruct p as [[[i t0] ro] pe]. read_moves Hok Hmv.
  destruct (ro_away _ _ Hok) as [Ha Hse Ht Hone Ho Hnm].
  assert (∀ x, indexed E' x w' ↔ ¬ sits id (Code (getRoom r w)) x w ∧ indexed E x w) as Hin.
  { intros x. unfold indexed. rewrite HE. setoid_rewrite Hindex. naive_solver. }
  split; intros *; rewrite ?Hre, ?Hin, ?Hco, ?Hdu, ?Hr.
  - intros Hx Hd. assert (DisconnectedUsers (getRoom r0 w) !! id0 = Some s0 ∧ (r0 = r → id0 ≠ id)) as [Hd' Hne].
    { case_decide; subst; [|done]. apply lookup_delete_Some in Hd as [? ?]. split; [done|]. congruence. }
    destruct (Ha _ _ _ Hx Hd') as (Hu0 & Hsc0 & ? & x & Hix & Heq). rewrite Hus, Hsc by done.
    split_and!; [done|by case_decide; subst|lia|]. exists x. rewrite Hin, !Hclm by auto. split; [|done].
    split; [|done]. intros [Hu1 Hc1]. injection Heq as Hu2 Hc2 _. apply Hne; [|congruence].
    unfold registered in *. congruence.
  - intros [Hne Hi]. destruct (Hse s0 Hi) as (Hl & x & y & Hx & Hd). rewrite Hus, Hsc by auto. split; [lia|]. exists x, y.
    split; [done|]. rewrite Hdu. case_decide; subst; [|done]. apply lookup_delete_Some.
    split; [|done]. intros Heq. apply Hne. split; [done|]. by destruct (ro_code _ _ Hok _ _ Hx).
  - rewrite !Hindex, HE. naive_solver.
  - intros [_ Hi] [_ Hi']. rewrite !Hus, !Hsc by auto. by apply Hone.
  - repeat case_decide; subst; rewrite ?lookup_delete_Some; naive_solver.
  - intros Hx. case_decide; subst; [|by apply Hnm]. intros [_ ?]%lookup_delete_Some. by eapply Hnm.
Qed.

(** A member returns: the session turns back into the seat. *)
Section Resume.
Context (E : gset SessionRef) (w w' : World) (c : ClientRef) (r : RoomRef) (s x : SessionRef) (id t : string).
Context (Hok : roster_ok E w) (Hreg : registered r w) (Hr : rooms (w_srv w') = rooms (w_srv w)).
Context (Hcro : currentRoom c w = None) (Hcpe : currentPendingRoom c w = None) (Hlt : (c < w_next w)%nat)
  (Haway : DisconnectedUsers (getRoom r w) !! id = Some s)
  (Htn : t ≠ "") (Htok : sessions (w_srv w) !! t = Some x) (Hsits : sits id (Code (getRoom r w)) x w)
  (Hs : sessions (w_srv w') = delete t (sessions (w_srv w)))
  (Hmv : moves w w' c r (id, t, Some r, None)
    (Code (getRoom r w), <[id := c]> (Clients (getRoom r w)), PendingJoins (getRoom r w),
     delete id (DisconnectedUsers (getRoom r w)))).

Lemma resume_away : away_ok E w'.
Proof.
  pose proof (aw_token _ _ (ro_away _ _ Hok)) as Ht. destruct (Ht _ _ _ Htok Htok) as (_ & HsE & _).
  assert (∀ y, indexed E y w → sits id (Code (getRoom r w)) y w → y = x) as Hone.
  { intros y Hy [Hu Hc]. destruct Hsits. apply (aw_seat _ _ (ro_away _ _ Hok)); [done|right; eauto|congruence..]. }
  eapply away_drop; [done..| | |done].
  - intros t' y. rewrite Hs, lookup_delete_Some. split.
    + intros [Hne Hy]. split; [done|]. intros Hsy. assert (y = x) as -> by (apply Hone; [right; eauto|done]).
      by destruct (Ht _ _ _ Htok Hy).
    + intros [Hy Hns]. split; [|done]. intros <-. congruence.
  - intros y. split; [|naive_solver]. intros Hy. split; [done|]. intros Hsy.
    assert (y = x) as -> by (apply Hone; [by left|done]). done.
Qed.

Lemma roster_resume : roster_ok E w'.
Proof.
  pose proof (registered_kept _ _ _ _ Hr _ _ _ _ Hmv) as Hre. read_moves Hok Hmv.
  assert (∀ d, holder d w → clientID d w ≠ id) as Hno.
  { intros d Hd Heq. pose proof (away_free _ _ Hok d r Hreg Hd). congruence. }
  assert (id ≠ "") as Hin by by eapply (aw_named _ _ (ro_away _ _ Hok)).
  split; [| | | | |exact resume_away|..]; intros *;
    rewrite ?Hre, ?Hid, ?Hto, ?Hro, ?Hpe, ?Hco, ?Hcl, ?Hpj, ?Hdu, ?Hr, ?Hs.
  - with_field (ro_code _ _ Hok). clear - F Hn. by_fields.
  - with_field (ro_seat _ _ Hok). clear - F Hcro. by_fields.
  - with_field (ro_room _ _ Hok). clear - F Hreg Hno. by_fields.
    intros Hx. destruct (F _ _ Hx) as (? & ? & ?). split_and!; try done. right. split; [|done].
    intros Heq. eapply Hno; [by eapply seated_holder|done].
  - with_field (ro_applicant _ _ Hok). clear - F Hcpe. by_fields.
  - with_field (ro_pending _ _ Hok). clear - F. by_fields.
  - with_field (ro_token _ _ Hok). clear - F Htn. case_decide; subst.
    + intros _. by rewrite lookup_delete_eq.
    + rewrite lookup_delete_None. naive_solver.
  - with_field (ro_token_one _ _ Hok). with_field (ro_token _ _ Hok). clear - F F0 Htok.
    repeat case_decide; subst; [done| | |eauto].
    + intros _ Hx ->. destruct (F0 _ _ Hx). congruence.
    + intros Hx _ <-. destruct (F0 _ _ Hx). congruence.
  - with_field (ro_named _ _ Hok). clear - F Hho Hlt Hin Hn. by_fields.
  - with_field (ro_id_one _ _ Hok). clear - F Hho Hno. by_fields.
  - with_field (ro_id_away _ _ Hok). with_field (aw_one _ _ (ro_away _ _ Hok)).
    clear - F F0 Hho Hreg Haway. intros Hd Hx. repeat case_decide; subst; rewrite ?lookup_delete_None; eauto.
    apply eq_None_not_Some. intros [s' Hs']. apply H0. by eapply F0.
Qed.

End Resume.

(** A reserved seat is given up: its session is dropped from the index. *)
Section DropAway.
Context (E E' : gset SessionRef) (w w' : World) (c : ClientRef) (r : RoomRef) (s : SessionRef) (id : string).
Context (Hok : roster_ok E w) (Hreg : registered r w) (Hr : rooms (w_srv w') = rooms (w_srv w)).
Context (Haway : DisconnectedUsers (getRoom r w) !! id = Some s)
  (Hindex : ∀ t x, sessions (w_srv w') !! t = Some x ↔
    sessions (w_srv w) !! t = Some x ∧ ¬ sits id (Code (getRoom r w)) x w)
  (HE : ∀ x, x ∈ E' ↔ x ∈ E ∧ ¬ sits id (Code (getRoom r w)) x w)
  (Hconn : c_ConnOpen (getClient c w') = true → c_ConnOpen (getClient c w) = true)
  (Hmv : moves w w' c r (clientID c w, session c w, currentRoom c w, currentPendingRoom c w)
    (Code (getRoom r w), Clients (getRoom r w), PendingJoins (getRoom r w),
     delete id (DisconnectedUsers (getRoom r w)))).

Lemma roster_drop_away : roster_ok E' w'.
Proof.
  pose proof (registered_kept _ _ _ _ Hr _ _ _ _ Hmv) as Hre. read_moves Hok Hmv.
  assert (∀ d, holder d w' → holder d w) as Hho'.
  { intros d. destruct (decide (d = c)) as [->|]; [|auto]. unfold holder.
    rewrite Hro, Hpe, !decide_True by done. naive_solver. }
  assert (∀ t, sessions (w_srv w) !! t = None → sessions (w_srv w') !! t = None) as Hnone.
  { intros t Hx. apply eq_None_not_Some. intros [x Hs]. apply Hindex in Hs. naive_solver. }
  split; [| | | | |by eapply away_drop|..]; intros *;
    rewrite ?Hre, ?Hid, ?Hto, ?Hro, ?Hpe, ?Hco, ?Hcl, ?Hpj, ?Hdu, ?Hr.
  - with_field (ro_code _ _ Hok). clear - F Hn. by_fields.
  - with_field (ro_seat _ _ Hok). clear - F. by_fields.
  - with_field (ro_room _ _ Hok). clear - F. by_fields.
  - with_field (ro_applicant _ _ Hok). clear - F. by_fields.
  - with_field (ro_pending _ _ Hok). clear - F. by_fields.
  - with_field (ro_token _ _ Hok). clear - F Hnone. by_fields.
  - with_field (ro_token_one _ _ Hok). clear - F. by_fields.
  - with_field (ro_named _ _ Hok). clear - F Hho' Hn. by_fields.
  - with_field (ro_id_one _ _ Hok). clear - F Hho'. by_fields.
  - with_field (ro_id_away _ _ Hok). clear - F Hho'. repeat case_decide; subst; rewrite ?lookup_delete_None; auto.
Qed.

End DropAway.

(** ** Opening and closing a room *)

Section Found.
Context (E : gset SessionRef) (w w' : World) (c : ClientRef) (r : RoomRef) (code t : string).
Context (Hok : roster_ok E w) (Hfresh : r = w_next w) (Hn' : (w_next w < w_next w')%nat).
Context (Hcro : currentRoom c w = None) (Hcpe : currentPendingRoom c w = None) (Hhc : holder c w)
  (Hft : fresh_token t w) (Hcode : rooms (w_srv w) !! code = None)
  (Hr : rooms (w_srv w') = <[code := r]> (rooms (w_srv w)))
  (Hs : sessions (w_srv w') = sessions (w_srv w))
  (Hmv : moves w w' c r (clientID c w, t, Some r, None) (code, {[clientID c w := c]}, ∅, ∅)).

Lemma found_registered x : registered x w' ↔ x = r ∨ (x ≠ r ∧ registered x w).
Proof.
  destruct (moves_readings _ _ _ _ _ _ _ _ _ _ _ _ Hmv) as [_ _ _ _ _ Hco _ _ _ _ _].
  unfold registered. rewrite Hr, Hco. case_decide as Hx; [subst x; rewrite lookup_insert_eq; naive_solver|].
  rewrite lookup_insert_Some. split; [naive_solver|]. intros [?|[_ Hreg]]; [done|]. right.
  split; [congruence|done].
Qed.

Lemma found_away : away_ok E w'.
Proof.
  pose proof found_registered as Hre. read_moves Hok Hmv. destruct (ro_away _ _ Hok) as [Ha Hse Ht Hone Ho Hnm].
  assert (∀ s, indexed E s w' ↔ indexed E s w) as Hin by (intros s; unfold indexed; by rewrite Hs).
  assert (∀ x id s, registered x w' → DisconnectedUsers (getRoom x w') !! id = Some s →
    x ≠ r ∧ registered x w ∧ DisconnectedUsers (getRoom x w) !! id = Some s) as Hold.
  { intros x id s. rewrite Hre, Hdu. case_decide; [by rewrite lookup_empty|naive_solver]. }
  split; intros *.
  - intros Hx Hd. destruct (Hold _ _ _ Hx Hd) as (Hne & Hx' & Hd').
    destruct (Ha _ _ _ Hx' Hd') as (? & ? & ? & x & Hix & ?).
    rewrite Hus, Hsc, Hco, decide_False by done. split_and!; [done|done|lia|]. exists x. by rewrite Hin, !Hclm by auto.
  - rewrite Hin. intros Hi. destruct (Hse s Hi) as (Hl' & x & y & Hx & Hd). split; [lia|]. exists x, y.
    rewrite Hus, Hsc, Hr by auto.
    destruct (ro_code _ _ Hok _ _ Hx) as [_ Hl]. split.
    + rewrite lookup_insert_ne; [done|congruence].
    + rewrite Hdu, decide_False; [done|lia].
  - rewrite Hs. apply Ht.
  - rewrite !Hin. intros Hi Hi'. rewrite !Hus, !Hsc by auto. by apply Hone.
  - intros Hx Hx' Hd Hd'. destruct (Hold _ _ _ Hx Hd) as (_ & ? & ?), (Hold _ _ _ Hx' Hd') as (_ & ? & ?).
    by eapply Ho.
  - intros Hx Hd. destruct (Hold _ _ _ Hx Hd) as (_ & ? & ?). by eapply Hnm.
Qed.

Lemma roster_found : roster_ok E w'.
Proof.
  pose proof found_registered as Hre. pose proof found_away as Haw. destruct Hft as [Htn Hti Hts].
  read_moves Hok Hmv.
  assert (∀ d, holder d w' → holder d w) as Hho'.
  { intros d. destruct (decide (d = c)) as [->|]; auto. }
  assert (∀ x, registered x w → x ≠ r) as Hne.
  { intros x Hx ->. destruct (ro_code _ _ Hok _ _ Hx). lia. }
  split; try done; intros *; rewrite ?Hre, ?Hid, ?Hto, ?Hro, ?Hpe, ?Hco, ?Hcl, ?Hpj, ?Hdu, ?Hr, ?Hs.
  - with_field (ro_code _ _ Hok). clear - F Hn Hn' Hfresh. by_fields.
    intros [[-> _]|[_ Hx]]; [done|]. apply F in Hx. lia.
  - with_field (ro_seat _ _ Hok). clear - F Hcro. repeat case_decide; subst; rewrite ?lookup_singleton_Some; naive_solver.
  - with_field (ro_room _ _ Hok). clear - F Hne. repeat case_decide; subst; rewrite ?lookup_singleton_Some; naive_solver.
  - with_field (ro_applicant _ _ Hok). clear - F Hcpe. repeat case_decide; subst; rewrite ?lookup_empty; naive_solver.
  - with_field (ro_pending _ _ Hok). clear - F Hne. repeat case_decide; subst; naive_solver.
  - with_field (ro_token _ _ Hok). clear - F Htn Hti. by_fields.
  - with_field (ro_token_one _ _ Hok). clear - F Hts. by_fields.
  - with_field (ro_named _ _ Hok). clear - F Hho' Hn. by_fields.
  - with_field (ro_id_one _ _ Hok). clear - F Hho'. by_fields.
  - with_field (ro_id_away _ _ Hok). clear - F Hho'. repeat case_decide; subst; rewrite ?lookup_empty; naive_solver.
Qed.

End Found.

Section Close.
Context (E : gset SessionRef) (w w' : World) (r : RoomRef).

(** Everybody affiliated with the room is released and its sessions are gone. *)
Record closes : Prop := {
  cl_id d : clientID d w' = clientID d w;
  cl_token d : session d w' = session d w;
  cl_room d : currentRoom d w' = if decide (currentRoom d w = Some r) then None else currentRoom d w;
  cl_pending d : currentPendingRoom d w' =
    if decide (currentPendingRoom d w = Some r) then None else currentPendingRoom d w;
  cl_conn d : c_ConnOpen (getClient d w') = true → c_ConnOpen (getClient d w) = true;
  cl_code : Code (getRoom r w') = Code (getRoom r w);
  cl_slots x : x ≠ r → slots (getRoom x w') = slots (getRoom x w);
  cl_heap s : getSession s w' = getSession s w;
  cl_rooms : rooms (w_srv w') = delete (Code (getRoom r w)) (rooms (w_srv w));
  cl_sessions t s : sessions (w_srv w') !! t = Some s ↔
    sessions (w_srv w) !! t = Some s ∧ se_RoomCode (getSession s w) ≠ Code (getRoom r w);
  cl_next : w_next w' = w_next w
}.

Context (Hok : roster_ok E w) (Hreg : registered r w) (Hcl : closes)
  (HE : ∀ s, s ∈ E → se_RoomCode (getSession s w) ≠ Code (getRoom r w)).

Lemma close_registered x : registered x w' ↔ x ≠ r ∧ registered x w.
Proof.
  unfold registered. rewrite (cl_rooms Hcl), lookup_delete_Some.
  destruct (decide (x = r)) as [->|Hne]; [rewrite (cl_code Hcl); naive_solver|].
  injection (cl_slots Hcl x Hne) as -> _ _ _. split; [naive_solver|].
  intros [_ Hx]. split_and!; [|done]. intros Heq. apply Hne. unfold registered in Hreg. congruence.
Qed.

Lemma close_away : away_ok E w'.
Proof.
  pose proof close_registered as Hre. destruct (ro_away _ _ Hok) as [Ha Hse Ht Hone Ho Hnm].
  assert (∀ s, indexed E s w' ↔ indexed E s w ∧ se_RoomCode (getSession s w) ≠ Code (getRoom r w)) as Hin.
  { intros s. unfold indexed. setoid_rewrite (cl_sessions Hcl). naive_solver. }
  assert (∀ x id s, registered x w' → DisconnectedUsers (getRoom x w') !! id = Some s →
    x ≠ r ∧ registered x w ∧ DisconnectedUsers (getRoom x w) !! id = Some s) as Hold.
  { intros x id s [Hne Hx]%Hre. injection (cl_slots Hcl x Hne) as _ _ _ ->. auto. }
  split; intros *; rewrite ?(cl_heap Hcl), ?(cl_next Hcl).
  - intros Hx Hd. destruct (Hold _ _ _ Hx Hd) as (Hne & Hx' & Hd').
    destruct (Ha _ _ _ Hx' Hd') as (? & Hc & ? & x & Hix & Heq). injection (cl_slots Hcl _ Hne) as -> _ _ _.
    split_and!; try done. exists x. rewrite Hin, !(cl_heap Hcl). split; [|done]. split; [done|].
    injection Heq as _ -> _. rewrite Hc. intros Hcc. apply Hne. unfold registered in *. congruence.
  - rewrite Hin. intros [Hi Hc]. destruct (Hse s Hi) as (Hl & x & y & Hx & Hd). split; [done|]. exists x, y.
    rewrite (cl_rooms Hcl), lookup_delete_ne by done. split; [done|].
    assert (x ≠ r) as Hne. { intros ->. by destruct (ro_code _ _ Hok _ _ Hx). }
    by injection (cl_slots Hcl _ Hne) as _ _ _ ->.
  - rewrite !(cl_sessions Hcl). naive_solver.
  - rewrite !Hin. intros [Hi _] [Hi' _]. by apply Hone.
  - intros Hx Hx' Hd Hd'. destruct (Hold _ _ _ Hx Hd) as (_ & ? & ?), (Hold _ _ _ Hx' Hd') as (_ & ? & ?).
    by eapply Ho.
  - intros Hx Hd. destruct (Hold _ _ _ Hx Hd) as (_ & ? & ?). by eapply Hnm.
Qed.

Lemma roster_close : roster_ok E w'.
Proof.
  pose proof close_registered as Hre. pose proof close_away as Haw.
  pose proof (cl_room Hcl) as Hro. pose proof (cl_pending Hcl) as Hpe.
  assert (∀ d, holder d w' → holder d w) as Hho.
  { intros d. unfold holder. rewrite Hro, Hpe. pose proof (cl_conn Hcl d).
    intros [?|[Hx|Hx]]; [auto|right; left|right; right]; case_decide; [by destruct Hx|done|by destruct Hx|done]. }
  assert (∀ x, x ≠ r → Code (getRoom x w') = Code (getRoom x w) ∧ Clients (getRoom x w') = Clients (getRoom x w) ∧
    PendingJoins (getRoom x w') = PendingJoins (getRoom x w) ∧
    DisconnectedUsers (getRoom x w') = DisconnectedUsers (getRoom x w)) as Hsl.
  { intros x Hne. by injection (cl_slots Hcl x Hne). }
  split; try done; intros *; rewrite ?(cl_id Hcl), ?(cl_token Hcl), ?(cl_rooms Hcl), ?(cl_next Hcl), ?Hro, ?Hpe, ?Hre.
  - intros [Hne Hx]%lookup_delete_Some. destruct (ro_code _ _ Hok _ _ Hx) as [Hc ?]. split; [|done].
    destruct (decide (r0 = r)) as [->|Hne']; [by rewrite (cl_code Hcl)|].
    destruct (Hsl _ Hne') as (-> & _). done.
  - intros [Hne Hx]. destruct (Hsl _ Hne) as (_ & -> & _). intros Hc.
    destruct (ro_seat _ _ Hok _ _ _ Hx Hc) as [? Hc']. rewrite Hc', decide_False by congruence. done.
  - case_decide as Hd; [done|]. intros Hc. rewrite Hc in Hd. assert (r0 ≠ r) as Hne by congruence.
    destruct (ro_room _ _ Hok _ _ Hc) as (? & ? & Hnp). destruct (Hsl _ Hne) as (_ & -> & _).
    by rewrite Hnp, decide_False.
  - intros [Hne Hx]. destruct (Hsl _ Hne) as (_ & _ & -> & _). intros Hc.
    destruct (ro_applicant _ _ Hok _ _ _ Hx Hc) as [? Hc']. rewrite Hc', decide_False by congruence. done.
  - case_decide as Hd; [done|]. intros Hc. rewrite Hc in Hd. assert (r0 ≠ r) as Hne by congruence.
    destruct (ro_pending _ _ Hok _ _ Hc) as (? & ?). by destruct (Hsl _ Hne) as (_ & _ & -> & _).
  - case_decide; [done|]. intros Hc. destruct (ro_token _ _ Hok _ _ Hc) as [? Hno]. split; [done|].
    apply eq_None_not_Some. intros [s Hs]. apply (cl_sessions Hcl) in Hs as [Hs _]. congruence.
  - repeat case_decide; try done. apply (ro_token_one _ _ Hok).
  - intros Hh. by apply (ro_named _ _ Hok), Hho.
  - intros Hh Hh'. apply (ro_id_one _ _ Hok); auto.
  - intros Hh [Hne Hx]. destruct (Hsl _ Hne) as (_ & _ & _ & ->). apply (ro_id_away _ _ Hok); auto.
Qed.

End Close.
