(* ===== verification/Hosts.v ===== *)
(** Hosts: [src/internal/server/hosts.go] and [roomClientsLocked] of
    [playback.go].

    Who controls a room: assigning a host and replaying the pending work to
    them, choosing a deputy, failing over from a host that stays away, and
    closing a room nobody can host.  The iteration order of a Go map is
    unspecified; the model walks [map_to_list], and the theorem on
    [pick_deputy] shows that the choice of a deputy does not depend on the
    order.  Locks only delimit atomic sections and are not modelled; every
    operation here runs inside one. *)

From Stdlib Require Import OrdersEx.
From S2P Require Import Prelude Protocol Utf8 Validation UAPolicy World Client.

Definition HostFailoverTimeout : Duration := 30 * Second.

(** [a < b] on Go strings: byte-wise lexicographic. *)
Definition string_lt (a b : string) : Prop := String_as_OT.lt a b.
#[export] Instance string_lt_dec a b : Decision (string_lt a b).
Proof.
  unfold string_lt, String_as_OT.lt. destruct (String_as_OT.compare a b); [right|left|right]; done.
Defined.

Record hostChange := mk_hostChange {
  hc_host : option ClientRef;
  hc_announce : option HostChangedPayload;
  hc_joins : list JoinRequestPayload;
  hc_suggestions : list SuggestionReceivedPayload
}.

(** The connected clients of a room. *)
Definition roomClientsLocked (room : Room) : list ClientRef := (map_to_list (Clients room)).*2.

Definition pendingHostWorkLocked (room : Room) (w : World)
    : list JoinRequestPayload * list SuggestionReceivedPayload :=
  ((λ c, mkJoinRequestPayload (clientID c w) (userName c w)) <$>
     filter (λ c, isClosed c w = false) ((map_to_list (PendingJoins room)).*2),
   (λ sg, mkSuggestionReceivedPayload (sg_ID sg) (sg_FromUserID sg) (sg_FromUsername sg)
            (cloneTrackInfo (sg_Track sg))) <$> (map_to_list (PendingSuggestions room)).*2).

(** The new value of the room: [assignHostLocked] without the work list. *)
Definition mark_host (newID : string) (u : UserInfo) : UserInfo :=
  u <| ui_IsHost := bool_decide (newID ≠ "" ∧ ui_UserID u = newID) |>.
Definition room_with_host (host : option ClientRef) (newID : string) (room : Room) : Room :=
  room <| Host := host |> <| HostDisconnectedAt := None |> <| LastHostSequence := 0 |>
    <| State := (State room) <| rs_HostID := newID |> <| rs_Users ::= fmap (mark_host newID) |> |>.

Definition assignHostLocked (r : RoomRef) (host : option ClientRef) (w : World) : hostChange * World :=
  let previousID := rs_HostID (State (getRoom r w)) in
  let newID := match host with Some h => clientID h w | None => "" end in
  let w := setRoom r (room_with_host host newID) w in
  let announce := match host with
    | Some h => if decide (newID ≠ "" ∧ newID ≠ previousID)
                then Some (mkHostChangedPayload newID (userName h w)) else None
    | None => None
    end in
  let work := match host with
    | Some _ => pendingHostWorkLocked (getRoom r w) w
    | None => ([], [])
    end in
  (mk_hostChange host announce work.1 work.2, w).

(** ** Choosing a deputy *)

Definition eligible (c : ClientRef) (w : World) : Prop := canHostClient c w ∧ isClosed c w = false.
#[export] Instance eligible_dec c w : Decision (eligible c w).
Proof. unfold eligible. apply _. Defined.

(** A client without a measurement ranks as an hour away. *)
Definition deputy_rtt (c : ClientRef) (w : World) : Z :=
  let rtt := roundTripMs c w in if decide (rtt ≤ 0) then Z.quot Hour Millisecond else rtt.

Record Candidate := mkCandidate { cd_client : ClientRef; cd_rtt : Z; cd_id : string }.

Definition better (a b : Candidate) : Prop :=
  cd_rtt a < cd_rtt b ∨ (cd_rtt a = cd_rtt b ∧ string_lt (cd_id a) (cd_id b)).
#[export] Instance better_dec a b : Decision (better a b).
Proof. unfold better. apply _. Defined.

Definition pick_step (w : World) (best : option Candidate) (entry : string * ClientRef)
    : option Candidate :=
  if decide (eligible entry.2 w) then
    let cand := mkCandidate entry.2 (deputy_rtt entry.2 w) entry.1 in
    match best with
    | None => Some cand
    | Some b => if decide (better cand b) then Some cand else best
    end
  else best.
Definition pick_deputy (entries : list (string * ClientRef)) (w : World) : option Candidate :=
  foldl (pick_step w) None entries.
Definition pickDeputy (cs : gmap string ClientRef) (w : World) : option ClientRef :=
  cd_client <$> pick_deputy (map_to_list cs) w.

(** ** Rooms without a host *)

Definition hostlessDeadLocked (room : Room) : Prop :=
  rs_HostID (State room) = "" ∧ Clients room ≠ ∅ ∧ DisconnectedUsers room = ∅.
#[export] Instance hostlessDeadLocked_dec room : Decision (hostlessDeadLocked room).
Proof. unfold hostlessDeadLocked. apply _. Defined.

Definition noHostLeftReason : string := "Room closed: nobody left can host it".

(** [delete(s.sessions, token)] for every session that satisfies [P]. *)
Definition dropSessions (P : Session → Prop) `{!∀ s, Decision (P s)} (w : World) : World :=
  setServer (λ srv, srv <| sessions := filter (λ e, ¬ P (getSession e.2 w)) (sessions srv) |>) w.

Section Delivery.
Context `{WireFormat}.

Definition replayHostWork (host : option ClientRef) (joins : list JoinRequestPayload)
    (suggestions : list SuggestionReceivedPayload) (w : World) : World :=
  match host with
  | None => w
  | Some h =>
    let w := foldl (λ w j, sendMessage h MsgTypeJoinRequest (PJoinRequest j) w) w joins in
    foldl (λ w s, sendMessage h MsgTypeSuggestionReceived (PSuggestionReceived s) w) w suggestions
  end.

Definition deliverHostChange (cs : list ClientRef) (change : option hostChange) (w : World) : World :=
  match change with
  | None => w
  | Some change =>
    let w := match hc_announce change with
      | Some a => sendMessageToClients cs MsgTypeHostChanged (PHostChanged a) w
      | None => w
      end in
    replayHostWork (hc_host change) (hc_joins change) (hc_suggestions change) w
  end.

(** One member told and released; one applicant told and released. *)
Definition kickMember (r : RoomRef) (reason : string) (w : World) (c : ClientRef) : World :=
  clearRoom c r (sendMessage c MsgTypeKicked (PKicked (mkKickedPayload reason)) w).
Definition rejectPending (r : RoomRef) (reason : string) (w : World) (c : ClientRef) : World :=
  clearPendingRoom c r
    (sendMessage c MsgTypeJoinRejected (PJoinRejected (mkJoinRejectedPayload reason)) w).

(** [if current := s.rooms[room.Code]; current == room { delete(...) }] *)
Definition unregister (r : RoomRef) (w : World) : World :=
  let code := Code (getRoom r w) in
  if decide (rooms (w_srv w) !! code = Some r)
  then setServer (λ srv, srv <| rooms := delete code (rooms srv) |>) w else w.

Definition closeRoom (r : RoomRef) (reason : string) (w : World) : World :=
  let room := getRoom r w in
  let w := unregister r w in
  let w := dropSessions (λ s, se_RoomCode s = Code room) w in
  let w := foldl (kickMember r reason) w (roomClientsLocked room) in
  let w := foldl (rejectPending r reason) w ((map_to_list (PendingJoins room)).*2) in
  setRoom r (λ room, room <| Clients := ∅ |> <| PendingJoins := ∅ |>
                          <| DisconnectedUsers := ∅ |> <| Host := None |>) w.

(** ** Failover *)

Definition failover_due (now : Time) (room : Room) : Prop :=
  match HostDisconnectedAt room with
  | Some at' => rs_HostID (State room) ≠ "" ∧ HostFailoverTimeout ≤ Sub now at'
  | None => False
  end.
#[export] Instance failover_due_dec now room : Decision (failover_due now room).
Proof. unfold failover_due. destruct (HostDisconnectedAt room); apply _. Defined.

Definition failoverRoom (now : Time) (w : World) (r : RoomRef) : World :=
  let room := getRoom r w in
  if decide (failover_due now room) then
    match pickDeputy (Clients room) w with
    | None => w
    | Some deputy =>
      let w := setRoom r (λ room, if decide (OwnerID room = "")
        then room <| OwnerID := rs_HostID (State room) |> else room) w in
      let '(change, w) := assignHostLocked r (Some deputy) w in
      deliverHostChange (roomClientsLocked (getRoom r w)) (Some change) w
    end
  else w.
Definition failoverHostsOnce (now : Time) (w : World) : World :=
  foldl (failoverRoom now) w ((map_to_list (rooms (w_srv w))).*2).

End Delivery.

(** ** Lemmas: the deputy *)

Lemma string_lt_total a b : string_lt a b ∨ a = b ∨ string_lt b a.
Proof. unfold string_lt. destruct (String_as_OT.compare_spec a b); tauto. Qed.

Lemma better_irrefl a : ¬ better a a.
Proof. intros [?|[_ Hl]]; [lia|]. by apply (irreflexivity String_as_OT.lt) in Hl. Qed.

Lemma better_trans a b c : better a b → better b c → better a c.
Proof.
  unfold better, string_lt. intros [?|[? ?]] [?|[? ?]]; [left; lia..|].
  right. split; [lia|]. by etrans.
Qed.

Definition candidate (w : World) (entry : string * ClientRef) : Candidate :=
  mkCandidate entry.2 (deputy_rtt entry.2 w) entry.1.

(** [b] is an eligible entry and none beats it. *)
Definition is_best (entries : list (string * ClientRef)) (w : World) (b : Candidate) : Prop :=
  ∃ e, e ∈ entries ∧ eligible e.2 w ∧ b = candidate w e ∧
    ∀ e', e' ∈ entries → eligible e'.2 w → ¬ better (candidate w e') b.

Lemma pick_deputy_spec entries w :
  match pick_deputy entries w with
  | Some b => is_best entries w b
  | None => ∀ e, e ∈ entries → ¬ eligible e.2 w
  end.
Proof.
  induction entries as [|e es IH] using rev_ind; [by intros e ?%elem_of_nil|].
  unfold pick_deputy in *. rewrite foldl_snoc. unfold pick_step at 1.
  destruct (foldl (pick_step w) None es) as [b|]; case_decide as He.
  - destruct IH as (e0 & Hin & Hel & -> & Hbest). case_decide as Hb.
    + exists e. split_and!; [set_solver|done|done|]. intros e' [Hin'| ->%list_elem_of_singleton]%elem_of_app Hel'.
      * intros Hbe. apply (Hbest e' Hin' Hel'). by eapply better_trans.
      * apply better_irrefl.
    + exists e0. split_and!; [set_solver|done|done|]. intros e' [Hin'| ->%list_elem_of_singleton]%elem_of_app Hel'; auto.
  - destruct IH as (e0 & Hin & Hel & -> & Hbest). exists e0. split_and!; [set_solver|done|done|].
    intros e' [Hin'| ->%list_elem_of_singleton]%elem_of_app Hel'; auto.
  - exists e. split_and!; [set_solver|done|done|]. intros e' [Hin'| ->%list_elem_of_singleton]%elem_of_app Hel'.
    + by destruct (IH e').
    + apply better_irrefl.
  - intros e' [Hin'| ->%list_elem_of_singleton]%elem_of_app; auto.
Qed.

Lemma is_best_unique entries w b b' :
  NoDup entries.*1 → is_best entries w b → is_best entries w b' → b = b'.
Proof.
  intros Hnd ([i c] & Hin & Hel & -> & Hb) ([i' c'] & Hin' & Hel' & -> & Hb').
  specialize (Hb _ Hin' Hel'). specialize (Hb' _ Hin Hel).
  unfold better, candidate in *; cbn in *.
  assert (deputy_rtt c w = deputy_rtt c' w) as Hr by lia.
  destruct (string_lt_total i i') as [?|[->|?]]; [by destruct Hb'; right| |by destruct Hb; right].
  f_equal; [|done].
  apply list_elem_of_lookup in Hin as [n Hn], Hin' as [n' Hn'].
  assert (n = n') as ->; [|congruence].
  eapply NoDup_lookup; [done| |]; by rewrite list_lookup_fmap, ?Hn, ?Hn'.
Qed.

Lemma pick_deputy_perm entries entries' w :
  NoDup entries.*1 → entries ≡ₚ entries' → pick_deputy entries w = pick_deputy entries' w.
Proof.
  intros Hnd Hp. pose proof (pick_deputy_spec entries w) as H1.
  pose proof (pick_deputy_spec entries' w) as H2.
  destruct (pick_deputy entries w) as [b|], (pick_deputy entries' w) as [b'|]; [|exfalso..|done].
  - f_equal. eapply is_best_unique; [done|done|].
    destruct H2 as (e & Hin & ? & ? & Hb). exists e. setoid_rewrite Hp. done.
  - destruct H1 as (e & Hin & He & _). rewrite Hp in Hin. by apply (H2 e).
  - destruct H2 as (e & Hin & He & _). rewrite <- Hp in Hin. by apply (H1 e).
Qed.

Lemma pickDeputy_Some cs w c :
  pickDeputy cs w = Some c →
  ∃ id, cs !! id = Some c ∧ eligible c w ∧
    ∀ id' c', cs !! id' = Some c' → eligible c' w →
      ¬ better (mkCandidate c' (deputy_rtt c' w) id') (mkCandidate c (deputy_rtt c w) id).
Proof.
  unfold pickDeputy. pose proof (pick_deputy_spec (map_to_list cs) w) as H.
  destruct (pick_deputy _ w) as [b|]; [|done]. intros [= <-].
  destruct H as ([id d] & Hin%elem_of_map_to_list & Hel & -> & Hb). exists id. split_and!; [done..|].
  intros id' c' Hin' Hel'. by apply (Hb (id', c')); [apply elem_of_map_to_list|].
Qed.

Lemma pickDeputy_None cs w :
  pickDeputy cs w = None ↔ ∀ id c, cs !! id = Some c → ¬ eligible c w.
Proof.
  unfold pickDeputy. pose proof (pick_deputy_spec (map_to_list cs) w) as H.
  destruct (pick_deputy _ w) as [b|]; cbn; (split; [|try done]).
  - done.
  - intros Hno. destruct H as ([id d] & Hin%elem_of_map_to_list & Hel & _). by destruct (Hno id d).
  - intros _ id c Hin. by apply (H (id, c)), elem_of_map_to_list.
Qed.

(** C32: the deputy is an eligible connected client, no other has a shorter round
    trip (ties go to the smaller user ID), there is none only if nobody is
    eligible, and the order in which the map is walked does not matter. *)
Theorem pickDeputy_best cs w :
  (∀ c, pickDeputy cs w = Some c →
    ∃ id, cs !! id = Some c ∧ eligible c w ∧
      ∀ id' c', cs !! id' = Some c' → eligible c' w →
        deputy_rtt c w < deputy_rtt c' w ∨
        (deputy_rtt c w = deputy_rtt c' w ∧ (id = id' ∨ string_lt id id'))) ∧
  (pickDeputy cs w = None ↔ ∀ id c, cs !! id = Some c → ¬ eligible c w) ∧
  (∀ order, order ≡ₚ map_to_list cs → cd_client <$> pick_deputy order w = pickDeputy cs w).
Proof.
  split_and!; [|apply pickDeputy_None|].
  - intros c (id & Hin & Hel & Hb)%pickDeputy_Some. exists id. split_and!; [done..|].
    intros id' c' Hin' Hel'. specialize (Hb id' c' Hin' Hel'). unfold better in Hb; cbn in Hb.
    destruct (decide (deputy_rtt c w < deputy_rtt c' w)); [tauto|].
    assert (deputy_rtt c w = deputy_rtt c' w) by lia.
    destruct (string_lt_total id id') as [?|[?|?]]; [tauto..|].
    by destruct Hb; right.
  - intros order Hp. unfold pickDeputy. f_equal. apply pick_deputy_perm; [|done].
    rewrite Hp. apply NoDup_fst_map_to_list.
Qed.

(** ** Lemmas: delivery leaves the core alone *)

Section DeliveryCore.
Context `{WireFormat}.

Lemma foldl_core {A} (f : World → A → World) (l : list A) w :
  (∀ w x, same_core w (f w x)) → same_core w (foldl f w l).
Proof.
  intros Hf. revert w. induction l as [|x l IH]; intros w; [done|]. cbn. etrans; [apply Hf|apply IH].
Qed.

Lemma replayHostWork_core host joins sugs w : same_core w (replayHostWork host joins sugs w).
Proof.
  unfold replayHostWork. case_match; [|done].
  etrans; (eapply foldl_core; intros; apply sendMessage_core).
Qed.

Lemma deliverHostChange_core cs change w : same_core w (deliverHostChange cs change w).
Proof.
  unfold deliverHostChange. case_match; [|done]. etrans; [|apply replayHostWork_core].
  case_match; [apply sendMessageToClients_core|done].
Qed.

Lemma assignHostLocked_world r host w :
  (assignHostLocked r host w).2 =
    setRoom r (room_with_host host (match host with Some h => clientID h w | None => "" end)) w.
Proof. done. Qed.

End DeliveryCore.

#[export] Hint Resolve replayHostWork_core deliverHostChange_core : metro.
