(* ===== verification/Playback.v ===== *)
(** Playback: [src/internal/server/playback.go].

    The host's playback actions, the queue operations behind them, and the
    answers to guests that finished buffering or ask for a snapshot.
    [handlePlaybackAction] is modelled whole: its switch is [apply_action],
    one definition per case, whose result says whether the action is
    broadcast, refused with an error, or ignored, and carries the room as the
    case left it (a refused action may have written to the room). *)

From S2P Require Import Prelude Protocol Utf8 Validation UAPolicy World Client Hosts.

(** ** Limits *)

Definition MaxQueueSize : Z := 1000.
Definition MaxQueueBytes : Z := 400 * 1024.
Definition maxActionTransitCompensation : Duration := 30 * Second.

(** ** Positions *)

Definition clampPlaybackPosition (position : Z) : Z := Z.min (Z.max position 0) MaxTrackDuration.

Definition compensateActionTransit (position capturedAtServerTime nowMs rttMs : Z) : Z :=
  let elapsed := if decide (0 < capturedAtServerTime)
    then int64_wrap (nowMs - capturedAtServerTime) else Z.quot rttMs 2 in
  if decide (elapsed ≤ 0 ∨ Milliseconds maxActionTransitCompensation < elapsed) then position
  else if decide (int64_max - elapsed < position) then int64_max
  else int64_wrap (position + elapsed).

(** ** Queues *)

(** The loop of [sanitizeQueue]: it stops once [MaxQueueSize] tracks passed;
    [n] counts how many were kept so far. *)
Fixpoint sanitize_queue_from (n : Z) (queue : list TrackInfo) : list TrackInfo :=
  match queue with
  | [] => []
  | track :: rest =>
    match sanitizeTrackInfo track with
    | None => sanitize_queue_from n rest
    | Some track => if decide (n + 1 = MaxQueueSize) then [track]
                    else track :: sanitize_queue_from (n + 1) rest
    end
  end.
Definition sanitizeQueue (queue : list TrackInfo) : list TrackInfo := sanitize_queue_from 0 queue.

Definition trackWireSize (t : TrackInfo) : Z :=
  len (ti_ID t) + len (ti_Title t) + len (ti_Artist t) + len (ti_Album t) +
  len (ti_Thumbnail t) + len (ti_SuggestedBy t) + 32.
Fixpoint queueWireSize (queue : list TrackInfo) : Z :=
  match queue with [] => 0 | t :: queue => trackWireSize t + queueWireSize queue end.

Fixpoint containsTrackID (queue : list TrackInfo) (trackID : string) : bool :=
  match queue with
  | [] => false
  | t :: queue => if decide (ti_ID t = trackID) then true else containsTrackID queue trackID
  end.

(** [advanceQueue]: the tail after the first match, or the queue itself. *)
Fixpoint after_track (queue : list TrackInfo) (trackID : string) : option (list TrackInfo) :=
  match queue with
  | [] => None
  | t :: rest => if decide (ti_ID t = trackID) then Some rest else after_track rest trackID
  end.
Definition advanceQueue (queue : list TrackInfo) (trackID : string) : list TrackInfo :=
  default queue (after_track queue trackID).

(** [(room.State.CurrentTrack != nil && CurrentTrack.ID == id) || containsTrackID(Queue, id)] *)
Definition playing_or_queued (state : RoomState) (id : string) : Prop :=
  (ti_ID <$> rs_CurrentTrack state) = Some id ∨ containsTrackID (rs_Queue state) id = true.
#[export] Instance playing_or_queued_dec state id : Decision (playing_or_queued state id).
Proof. unfold playing_or_queued. apply _. Defined.

(** ** Actions *)

Definition zero_action : PlaybackActionPayload :=
  mkPlaybackActionPayload "" "" 0 None false [] "" float64_zero 0 0 0 false "" 0.

(** [validatePlaybackTrack]: the payload with its track filled in, or [None]
    for a stale track. *)
Definition validatePlaybackTrack (state : RoomState) (p : PlaybackActionPayload)
    : option PlaybackActionPayload :=
  match rs_CurrentTrack state with
  | None => Some p
  | Some track =>
    if decide (pa_TrackID p = "") then Some (p <| pa_TrackID := ti_ID track |>)
    else if decide (pa_TrackID p = ti_ID track) then Some p else None
  end.

Inductive ActionResult :=
  | Applied (room : Room) (p : PlaybackActionPayload)
  | Refused (room : Room) (code message : string)
  | Ignored (room : Room).

Definition setState (f : RoomState → RoomState) (room : Room) : Room := room <| State ::= f |>.

Definition stale_track_error (room : Room) : ActionResult :=
  Refused room "stale_track" "Playback action targets a stale track".
Definition negative_position (room : Room) : ActionResult :=
  Refused room "invalid_position" "Position cannot be negative".

Definition actPlay (nowMs rttMs : Z) (room : Room) (p : PlaybackActionPayload) : ActionResult :=
  refuse rs_CurrentTrack (State room) = None
    by Refused room "no_track" "Cannot play without a track" in
  refuse pa_Position p < 0 by negative_position room in
  need p := validatePlaybackTrack (State room) p orelse stale_track_error room in
  let p := p <| pa_Position := clampPlaybackPosition
    (compensateActionTransit (pa_Position p) (pa_CapturedAtServerTime p) nowMs rttMs) |> in
  Applied (setState (λ st, st <| rs_IsPlaying := true |> <| rs_Position := pa_Position p |>
                              <| rs_LastUpdate := nowMs |>) room) p.

Definition actPause (nowMs : Z) (room : Room) (p : PlaybackActionPayload) : ActionResult :=
  refuse pa_Position p < 0 by negative_position room in
  need p := validatePlaybackTrack (State room) p orelse stale_track_error room in
  let p := p <| pa_Position ::= clampPlaybackPosition |> in
  Applied (setState (λ st, st <| rs_IsPlaying := false |> <| rs_Position := pa_Position p |>
                              <| rs_LastUpdate := nowMs |>) room) p.

Definition actSeek (nowMs rttMs : Z) (room : Room) (p : PlaybackActionPayload) : ActionResult :=
  refuse pa_Position p < 0 by negative_position room in
  need p := validatePlaybackTrack (State room) p orelse stale_track_error room in
  let p := if rs_IsPlaying (State room) then p <| pa_Position :=
    compensateActionTransit (pa_Position p) (pa_CapturedAtServerTime p) nowMs rttMs |> else p in
  let p := p <| pa_Position ::= clampPlaybackPosition |> in
  Applied (setState (λ st, st <| rs_Position := pa_Position p |> <| rs_LastUpdate := nowMs |>) room) p.

Definition queue_too_large (room : Room) : ActionResult :=
  Refused room "queue_too_large" "Queue is too large".

(** The queue title is written before the size of the queue is checked. *)
Definition actChangeTrack (nowMs : Z) (room : Room) (p : PlaybackActionPayload) : ActionResult :=
  need info := pa_TrackInfo p
    orelse Refused room "missing_track_info" "Track info is required for track change" in
  need info := sanitizeTrackInfo info
    orelse Refused room "invalid_track_info" "Track must have ID and title" in
  let p := p <| pa_TrackInfo := Some info |> in
  let replace := bool_decide (pa_Queue p ≠ [] ∨ pa_ReplaceQueue p = true) in
  let queue := if replace then sanitizeQueue (pa_Queue p)
               else advanceQueue (rs_Queue (State room)) (ti_ID info) in
  let room := if replace
    then setState (λ st, st <| rs_QueueTitle := pa_QueueTitle p |>) room else room in
  refuse MaxQueueBytes < queueWireSize queue by queue_too_large room in
  Applied
    (setState (λ st, st <| rs_Queue := queue |> <| rs_CurrentTrack := cloneTrackInfo (Some info) |>
                        <| rs_Position := 0 |> <| rs_IsPlaying := false |>
                        <| rs_LastUpdate := nowMs |>) room)
    (p <| pa_TrackID := ti_ID info |> <| pa_Position := 0 |>).

Definition actQueueAdd (room : Room) (p : PlaybackActionPayload) : ActionResult :=
  need info := pa_TrackInfo p
    orelse Refused room "missing_track_info" "Track info is required for queue add" in
  need info := sanitizeTrackInfo info
    orelse Refused room "invalid_track_info" "Track must have ID and title" in
  let p := p <| pa_TrackInfo := Some info |> in
  refuse MaxQueueSize ≤ Z.of_nat (length (rs_Queue (State room)))
    by Refused room "queue_full" "Queue is full" in
  refuse playing_or_queued (State room) (ti_ID info)
    by Refused room "duplicate_track" "Track is already playing or queued" in
  let queue := if pa_InsertNext p then info :: rs_Queue (State room)
               else rs_Queue (State room) ++ [info] in
  refuse MaxQueueBytes < queueWireSize queue by queue_too_large room in
  Applied (setState (λ st, st <| rs_Queue := queue |>) room) p.

Definition actQueueRemove (room : Room) (p : PlaybackActionPayload) : ActionResult :=
  refuse pa_TrackID p = ""
    by Refused room "missing_track_id" "Track ID is required for queue remove" in
  Applied (setState (λ st, st <| rs_Queue ::= filter (λ t, ti_ID t ≠ pa_TrackID p) |>) room) p.

Definition actQueueClear (room : Room) (p : PlaybackActionPayload) : ActionResult :=
  Applied (setState (λ st, st <| rs_Queue := [] |>) room) p.

Definition actSyncQueue (room : Room) (p : PlaybackActionPayload) : ActionResult :=
  let queue := sanitizeQueue (pa_Queue p) in
  refuse MaxQueueBytes < queueWireSize queue by queue_too_large room in
  Applied (setState (λ st, st <| rs_Queue := queue |> <| rs_QueueTitle := pa_QueueTitle p |>) room) p.

Definition actUpdateTrack (nowMs : Z) (room : Room) (p : PlaybackActionPayload) : ActionResult :=
  need info := pa_TrackInfo p ≫= sanitizeTrackInfo
    orelse Refused room "invalid_track_info" "Track info is required" in
  let p := p <| pa_TrackInfo := Some info |> in
  refuse (ti_ID <$> rs_CurrentTrack (State room)) ≠ Some (ti_ID info)
    by Refused room "stale_track" "Track update targets a stale track" in
  let room := setState (λ st, st <| rs_CurrentTrack := cloneTrackInfo (Some info) |>) room in
  Applied room (p <| pa_TrackID := ti_ID info |>
                  <| pa_Position := livePlaybackPosition (State room) nowMs |>).

Definition valid_volume (v : spec_float) : bool :=
  negb (IsNaN v || IsInf v || SFltb v float64_zero || SFltb float64_one v).
Definition actSetVolume (room : Room) (p : PlaybackActionPayload) : ActionResult :=
  refuse valid_volume (pa_Volume p) = false
    by Refused room "invalid_volume" "Volume must be between 0 and 1" in
  Applied (setState (λ st, st <| rs_Volume := pa_Volume p |>) room) p.

Definition apply_action (nowMs rttMs : Z) (room : Room) (p : PlaybackActionPayload) : ActionResult :=
  let action := pa_Action p in
  if decide (action = ActionPlay) then actPlay nowMs rttMs room p
  else if decide (action = ActionPause) then actPause nowMs room p
  else if decide (action = ActionSeek) then actSeek nowMs rttMs room p
  else if decide (action = ActionChangeTrack) then actChangeTrack nowMs room p
  else if decide (action = ActionSkipNext ∨ action = ActionSkipPrev) then Ignored room
  else if decide (action = ActionQueueAdd) then actQueueAdd room p
  else if decide (action = ActionQueueRemove) then actQueueRemove room p
  else if decide (action = ActionQueueClear) then actQueueClear room p
  else if decide (action = ActionSyncQueue) then actSyncQueue room p
  else if decide (action = ActionUpdateTrack) then actUpdateTrack nowMs room p
  else if decide (action = ActionSetVolume) then actSetVolume room p
  else Refused room "unknown_action" ("Unknown action: " +:+ action)%string.

(** The end of [handlePlaybackAction]: what is stored and what is broadcast. *)
Definition carries_queue (action : string) : Prop :=
  action ∈ [ActionChangeTrack; ActionQueueAdd; ActionQueueRemove; ActionQueueClear; ActionSyncQueue].
#[export] Instance carries_queue_dec action : Decision (carries_queue action).
Proof. unfold carries_queue. apply _. Defined.

Definition finish_action (nowMs : Z) (originID : string) (room : Room) (p : PlaybackActionPayload)
    : Room * PlaybackActionPayload :=
  let p := if decide (carries_queue (pa_Action p))
           then p <| pa_Queue := rs_Queue (State room) |> else p in
  let room := setState (λ st, st <| rs_Revision := uint64_wrap (rs_Revision st + 1) |>) room in
  let p := p <| pa_Revision := rs_Revision (State room) |> in
  let room := if decide (pa_Action p = ActionChangeTrack)
              then room <| TrackRevision := pa_Revision p |> else room in
  (room, p <| pa_ServerTime := nowMs |> <| pa_CapturedAtServerTime := 0 |>
           <| pa_HostSequence := 0 |> <| pa_OriginUserID := originID |>
           <| pa_QueueTitle := rs_QueueTitle (State room) |>).

(** [room.Host == c && room.HostDisconnectedAt == nil] and, for playback, that
    the host is the member of that ID. *)
Definition is_room_host (room : Room) (c : ClientRef) : Prop :=
  Host room = Some c ∧ HostDisconnectedAt room = None.
#[export] Instance is_room_host_dec room c : Decision (is_room_host room c).
Proof. unfold is_room_host. apply _. Defined.
Definition is_active_host (room : Room) (c : ClientRef) (w : World) : Prop :=
  is_room_host room c ∧ Clients room !! clientID c w = Some c.
#[export] Instance is_active_host_dec room c w : Decision (is_active_host room c w).
Proof. unfold is_active_host. apply _. Defined.

Definition withFeature (cs : list ClientRef) (feature : string) (w : World) : list ClientRef :=
  filter (λ c, hasFeature c feature w = true) cs.

(** [decodePayload] with a typed target: the dynamic type must match. *)
Definition asPlaybackAction (p : Payload) : option PlaybackActionPayload :=
  match p with PPlaybackAction p => Some p | _ => None end.
Definition asBufferReady (p : Payload) : option BufferReadyPayload :=
  match p with PBufferReady p => Some p | _ => None end.

Definition syncSnapshotLocked (room : Room) (nowMs : Z) : SyncStatePayload :=
  let st := State room in
  mkSyncStatePayload (cloneTrackInfo (rs_CurrentTrack st)) (rs_IsPlaying st)
    (livePlaybackPosition st nowMs) nowMs (rs_Volume st) (rs_Queue st) (rs_Revision st)
    (rs_QueueTitle st).

Section Handlers.
Context `{WireFormat}.

Definition decodePayload {T} (cast : Payload → option T) (payload msgType : string) : option T :=
  fromProtoMessage msgType payload ≫= cast.

Definition sendPolicyQueueSnapshot (c : ClientRef) (state : RoomState) (w : World) : World :=
  let tier := c_uaTier (getClient c w) in
  if decide (tier = uaAllow ∨ tier = uaBlock) then w
  else
    let trackID := match rs_CurrentTrack state with Some t => ti_ID t | None => "" end in
    sendMessage c MsgTypeSyncPlayback (PPlaybackAction
      (zero_action <| pa_Action := ActionSyncQueue |> <| pa_TrackID := trackID |>
        <| pa_Queue := rs_Queue state |> <| pa_Position := rs_Position state |>
        <| pa_ServerTime := rs_LastUpdate state |> <| pa_Revision := rs_Revision state |>)) w.

(** The host's sequence guard: [None] for a stale action, else the room with
    the sequence noted. *)
Definition host_sequence (p : PlaybackActionPayload) (room : Room) : option Room :=
  if decide (0 < pa_HostSequence p) then
    if decide (pa_HostSequence p ≤ LastHostSequence room) then None
    else Some (room <| LastHostSequence := pa_HostSequence p |>)
  else Some room.

(** The room is stored, and its members hear of the action; a correction of the
    track goes to those who understand it. *)
Definition publish_action (r : RoomRef) (room : Room) (p : PlaybackActionPayload) (w : World) : World :=
  let w := setRoom r (λ _, room) w in
  let cs := roomClientsLocked room in
  let cs := if decide (pa_Action p = ActionUpdateTrack)
            then withFeature cs FeatureUpdateTrack w else cs in
  sendMessageToClients cs MsgTypeSyncPlayback (PPlaybackAction p) w.

Definition handlePlaybackAction (e : Env) (c : ClientRef) (payload : string) (w : World) : World :=
  need r := currentRoom c w
    orelse sendError c "not_in_room" "You are not in a room" w in
  refuse ¬ is_active_host (getRoom r w) c w
    by sendError c "not_host" "Only the host can control playback" w in
  need p := decodePayload asPlaybackAction payload MsgTypePlaybackAction
    orelse sendError c "invalid_payload" "Invalid playback action payload" w in
  refuse pa_Action p = ""
    by sendError c "missing_action" "Action is required" w in
  let p := p <| pa_QueueTitle := sanitizeString (pa_QueueTitle p) MaxTrackTitleLength |> in
  refuse ¬ is_active_host (getRoom r w) c w
    by sendError c "not_host" "Only the host can control playback" w in
  need room := host_sequence p (getRoom r w)
    orelse sendError c "stale_action" "Playback action is older than one already applied" w in
  match apply_action (e_nowMs e) (roundTripMs c w) room p with
  | Refused room code message => sendError c code message (setRoom r (λ _, room) w)
  | Ignored room => setRoom r (λ _, room) w
  | Applied room p =>
    let '(room, p) := finish_action (e_nowMs e) (clientID c w) room p in
    publish_action r room p w
  end.

Definition handleBufferReady (e : Env) (c : ClientRef) (payload : string) (w : World) : World :=
  need p := decodePayload asBufferReady payload MsgTypeBufferReady
    orelse sendError c "invalid_payload" "Invalid buffer ready payload" w in
  refuse brp_TrackID p = ""
    by sendError c "missing_track_id" "Track ID is required" w in
  need r := currentRoom c w
    orelse sendError c "not_in_room" "You are not in a room" w in
  let room := getRoom r w in
  refuse Clients room !! clientID c w ≠ Some c
    by sendError c "not_in_room" "You are not an active room member" w in
  need track := rs_CurrentTrack (State room)
    orelse sendError c "stale_track" "Buffer readiness targets a stale track" w in
  refuse brp_TrackID p ≠ ti_ID track ∨
         (brp_TrackRevision p ≠ 0 ∧ brp_TrackRevision p ≠ TrackRevision room)
    by sendError c "stale_track" "Buffer readiness targets a stale track" w in
  let position := livePlaybackPosition (State room) (e_nowMs e) in
  let steer := λ action, zero_action <| pa_Action := action |> <| pa_TrackID := ti_ID track |>
    <| pa_Position := position |> <| pa_ServerTime := e_nowMs e |>
    <| pa_Revision := rs_Revision (State room) |> in
  let w := if decide (Host room = Some c) then w
    else
      let w := sendMessage c MsgTypeSyncPlayback (PPlaybackAction (steer ActionSeek)) w in
      sendMessage c MsgTypeSyncPlayback (PPlaybackAction
        (steer (if rs_IsPlaying (State room) then ActionPlay else ActionPause))) w in
  reply c MsgTypeBufferComplete (Some (PBufferComplete (mkBufferCompletePayload (ti_ID track)))) w.

Definition handleRequestSync (e : Env) (c : ClientRef) (w : World) : World :=
  need r := currentRoom c w
    orelse sendError c "not_in_room" "You are not in a room" w in
  let room := getRoom r w in
  refuse Clients room !! clientID c w ≠ Some c
    by sendError c "not_in_room" "You are not an active room member" w in
  let '(allowed, cl) := allowSyncResponse (e_now e) (getClient c w) in
  let w := setClient c (λ _, cl) w in
  if allowed then
    reply c MsgTypeSyncState (Some (PSyncState (syncSnapshotLocked room (e_nowMs e)))) w
  else if hasFeature c FeatureRequestID w then
    sendError c "sync_rate_limited" "Retry after 1000 ms" w
  else w.

End Handlers.

(** ** Lemmas: positions *)

(** transit compensation moves a position forward by the time in transit,
    never by more than 30 seconds, never backwards, and never overflows. *)
Theorem compensate_bounds position captured nowMs rttMs :
  0 ≤ position ≤ int64_max → clock_range nowMs → is_int64 captured → is_int64 rttMs →
  let elapsed := if decide (0 < captured) then nowMs - captured else Z.quot rttMs 2 in
  let result := compensateActionTransit position captured nowMs rttMs in
  (0 < elapsed ≤ 30000 → result = Z.min int64_max (position + elapsed)) ∧
  (¬ (0 < elapsed ≤ 30000) → result = position) ∧
  position ≤ result ≤ int64_max.
Proof.
  intros Hp Hn Hc Hr. unfold clock_range, is_int64, int64_min, int64_max in *.
  assert (Milliseconds maxActionTransitCompensation = 30000) as Hm by done.
  unfold compensateActionTransit. rewrite Hm.
  assert ((if decide (0 < captured) then int64_wrap (nowMs - captured) else Z.quot rttMs 2) =
          (if decide (0 < captured) then nowMs - captured else Z.quot rttMs 2)) as ->.
  { case_decide; [|done]. apply int64_wrap_id. unfold is_int64, int64_min, int64_max; lia. }
  cbv zeta. generalize (if decide (0 < captured) then nowMs - captured else Z.quot rttMs 2).
  intros elapsed. unfold int64_max. repeat case_decide; try lia.
  rewrite int64_wrap_id by (unfold is_int64, int64_min, int64_max; lia). lia.
Qed.

Lemma clamp_ok p : position_ok (clampPlaybackPosition p).
Proof. unfold position_ok, clampPlaybackPosition, MaxTrackDuration. lia. Qed.

Lemma zero_position_ok : position_ok 0.
Proof. unfold position_ok, MaxTrackDuration. lia. Qed.

(** ** Lemmas: queues *)

(** A track the server keeps: its ID is valid, its duration in range, and its
    title is not blank unless its ID is. *)
Record kept_track (t : TrackInfo) : Prop := {
  kt_id : validTrackID (ti_ID t) = true;
  kt_duration : 0 ≤ ti_Duration t ≤ MaxTrackDuration;
  kt_title : sanitizeString (ti_Title t) MaxTrackTitleLength = "" →
    sanitizeString (ti_ID t) MaxTrackTitleLength = ""
}.
Definition tracks_ok (queue : list TrackInfo) : Prop := Forall kept_track queue.

Lemma sanitizeTrackInfo_id t t' :
  sanitizeTrackInfo t = Some t' → ti_ID t' = ti_ID t ∧ kept_track t'.
Proof.
  unfold sanitizeTrackInfo. destruct (validTrackID (ti_ID t)) eqn:E; [|done].
  assert (4 ≤ MaxTrackTitleLength) as Hm by by vm_compute.
  intros Ht. apply (inj Some) in Ht as <-.
  destruct (decide (ti_Title _ = "")) as [Hblank|Hblank]; cbn in Hblank.
  - split; [by repeat case_decide|]. split; repeat case_decide; cbn in *; try done; try lia;
      by apply sanitizeString_again.
  - split; [by repeat case_decide|]. split; repeat case_decide; cbn in *; try done; try lia;
      by intros ?%sanitizeString_again.
Qed.

(** Cleaning a kept track again does not make it larger. *)
Definition track_utf8 (t : TrackInfo) : Prop :=
  Forall (λ s, ValidString s = true)
    [ti_ID t; ti_Title t; ti_Artist t; ti_Album t; ti_Thumbnail t; ti_SuggestedBy t].

Lemma sanitizeTrackInfo_shrinks t t' :
  kept_track t → track_utf8 t → sanitizeTrackInfo t = Some t' → trackWireSize t' ≤ trackWireSize t.
Proof.
  intros [_ _ Htitle] Hu. unfold track_utf8 in Hu. rewrite !Forall_cons in Hu.
  destruct Hu as (H1 & H2 & H3 & H4 & H5 & H6 & _). unfold sanitizeTrackInfo.
  destruct (validTrackID (ti_ID t)); [|done]. intros Ht. apply (inj Some) in Ht as <-.
  pose proof (sanitizeString_shrinks _ MaxTrackTitleLength H2 ltac:(done)).
  pose proof (sanitizeString_shrinks _ MaxTrackArtistLength H3 ltac:(done)).
  pose proof (sanitizeString_shrinks _ MaxTrackArtistLength H4 ltac:(done)).
  pose proof (sanitizeString_shrinks _ MaxTrackURLLength H5 ltac:(done)).
  pose proof (sanitizeString_shrinks _ MaxUsernameLength H6 ltac:(done)).
  assert (0 ≤ len (ti_Title t)) by (unfold len; lia).
  destruct (decide (ti_Title _ = "")) as [Hblank|Hblank]; cbn in Hblank.
  - specialize (Htitle Hblank). unfold trackWireSize, len in *. repeat case_decide; cbn; rewrite ?Htitle; cbn; lia.
  - unfold trackWireSize, len in *. repeat case_decide; cbn; lia.
Qed.

Lemma sanitize_queue_from_ok n queue :
  0 ≤ n < MaxQueueSize →
  Z.of_nat (length (sanitize_queue_from n queue)) ≤ MaxQueueSize - n ∧
  tracks_ok (sanitize_queue_from n queue).
Proof.
  revert n. induction queue as [|t queue IH]; intros n Hn; cbn; [split; [lia|constructor]|].
  destruct (sanitizeTrackInfo t) as [t'|] eqn:E; [|by apply IH].
  apply sanitizeTrackInfo_id in E as [_ Hid].
  case_decide; cbn; [split; [lia|by apply Forall_singleton]|].
  destruct (IH (n + 1)) as [Hl Hv]; [lia|]. split; [lia|by constructor].
Qed.

Lemma sanitizeQueue_ok queue :
  Z.of_nat (length (sanitizeQueue queue)) ≤ MaxQueueSize ∧ tracks_ok (sanitizeQueue queue).
Proof.
  destruct (sanitize_queue_from_ok 0 queue) as [Hl Hv]; [unfold MaxQueueSize; lia|].
  split; [unfold sanitizeQueue; lia|done].
Qed.

Lemma trackWireSize_pos t : 0 ≤ trackWireSize t.
Proof. unfold trackWireSize, len. lia. Qed.

Lemma queueWireSize_app q q' : queueWireSize (q ++ q') = queueWireSize q + queueWireSize q'.
Proof. induction q as [|t q IH]; cbn; [done|]. rewrite IH. lia. Qed.

Lemma queueWireSize_pos q : 0 ≤ queueWireSize q.
Proof. induction q as [|t q IH]; cbn; [done|]. pose proof (trackWireSize_pos t). lia. Qed.

(** Cleaning a kept queue again does not make it larger. *)
Lemma sanitize_queue_shrinks n q :
  tracks_ok q → Forall track_utf8 q → queueWireSize (sanitize_queue_from n q) ≤ queueWireSize q.
Proof.
  intros Hok Hu. revert n. induction q as [|t q IH]; intros n; [done|].
  apply Forall_cons in Hok as [Ht Hok]. apply Forall_cons in Hu as [Hut Hu].
  pose proof (queueWireSize_pos q). pose proof (trackWireSize_pos t). cbn [sanitize_queue_from queueWireSize].
  destruct (sanitizeTrackInfo t) as [t'|] eqn:E; [|specialize (IH Hok Hu n); lia].
  pose proof (sanitizeTrackInfo_shrinks _ _ Ht Hut E). case_decide; cbn [queueWireSize]; [lia|].
  specialize (IH Hok Hu (n + 1)). lia.
Qed.

Lemma queueWireSize_filter (P : TrackInfo → Prop) `{!∀ t, Decision (P t)} q :
  queueWireSize (filter P q) ≤ queueWireSize q.
Proof.
  induction q as [|t q IH]; [done|]. rewrite filter_cons. pose proof (trackWireSize_pos t).
  case_decide; cbn; lia.
Qed.

Lemma containsTrackID_iff q id : containsTrackID q id = true ↔ id ∈ ti_ID <$> q.
Proof.
  induction q as [|t q IH]; cbn; [by rewrite elem_of_nil|].
  rewrite elem_of_cons. case_decide; naive_solver.
Qed.

(** playing a queued track consumes the queue up to and including its first
    occurrence; playing any other track leaves the queue alone. *)
Theorem advanceQueue_consumes q id :
  (id ∉ ti_ID <$> q → advanceQueue q id = q) ∧
  (id ∈ ti_ID <$> q → ∃ pre t, q = pre ++ t :: advanceQueue q id ∧ ti_ID t = id ∧ id ∉ ti_ID <$> pre).
Proof.
  unfold advanceQueue.
  assert ((id ∉ ti_ID <$> q → after_track q id = None) ∧
          (id ∈ ti_ID <$> q → ∃ pre t rest, after_track q id = Some rest ∧ q = pre ++ t :: rest ∧
             ti_ID t = id ∧ id ∉ ti_ID <$> pre)) as [Hno Hyes].
  { induction q as [|t q [IH1 IH2]]; cbn; [set_solver|].
    case_decide as E; (split; [set_solver|]).
    - intros _. exists [], t, q. set_solver.
    - intros [?|Hin]%elem_of_cons; [congruence|].
      destruct (IH2 Hin) as (pre & t' & rest & -> & -> & ? & ?). exists (t :: pre), t', rest.
      set_solver. }
  split.
  - intros ->%Hno. done.
  - intros Hin. destruct (Hyes Hin) as (pre & t & rest & -> & -> & ? & ?). by exists pre, t.
Qed.

Lemma advanceQueue_suffix q id : ∃ pre, q = pre ++ advanceQueue q id.
Proof.
  unfold advanceQueue. induction q as [|t q [pre IH]]; cbn; [by exists []|].
  case_decide; [by exists [t]|]. destruct (after_track q id) as [rest|]; cbn in *.
  - exists (t :: pre). cbn. by f_equal.
  - by exists [].
Qed.

(** ** The playback invariant of a room *)

Record state_ok (st : RoomState) : Prop := {
  st_position : position_ok (rs_Position st);
  st_queue_size : Z.of_nat (length (rs_Queue st)) ≤ MaxQueueSize;
  st_queue_bytes : queueWireSize (rs_Queue st) ≤ MaxQueueBytes;
  st_queue_ids : tracks_ok (rs_Queue st);
  st_track_id : tracks_ok (option_list (rs_CurrentTrack st));
  st_volume : valid_volume (rs_Volume st) = true
}.

Definition result_room (res : ActionResult) : Room :=
  match res with Applied room _ | Refused room _ _ | Ignored room => room end.

Lemma advanceQueue_ok st id :
  state_ok st →
  Z.of_nat (length (advanceQueue (rs_Queue st) id)) ≤ MaxQueueSize ∧
  tracks_ok (advanceQueue (rs_Queue st) id).
Proof.
  intros []. destruct (advanceQueue_suffix (rs_Queue st) id) as [pre Hpre]. split.
  - rewrite Hpre, length_app in st_queue_size0. lia.
  - rewrite Hpre in st_queue_ids0. by apply Forall_app in st_queue_ids0 as [_ ?].
Qed.

Lemma actQueueAdd_ok room p :
  state_ok (State room) → state_ok (State (result_room (actQueueAdd room p))).
Proof.
  intros Hst. pose proof Hst as []. unfold actQueueAdd.
  destruct (pa_TrackInfo p) as [t|]; [|done].
  destruct (sanitizeTrackInfo t) as [t'|] eqn:E; [|done].
  apply sanitizeTrackInfo_id in E as [_ Hid].
  case_decide; [done|]. case_decide; [done|]. case_decide; [done|]. cbn.
  split; cbn; try done; cbn in *.
  - destruct (pa_InsertNext p); cbn; rewrite ?length_app; cbn; lia.
  - lia.
  - destruct (pa_InsertNext p); [by constructor|]. apply Forall_app; split; [done|by apply Forall_singleton].
Qed.

Lemma actChangeTrack_ok nowMs room p :
  state_ok (State room) → state_ok (State (result_room (actChangeTrack nowMs room p))).
Proof.
  intros Hst. pose proof Hst as []. unfold actChangeTrack.
  destruct (pa_TrackInfo p) as [t|]; [|done].
  destruct (sanitizeTrackInfo t) as [t'|] eqn:E; [|done].
  apply sanitizeTrackInfo_id in E as [_ Hid]. cbn [pa_Queue].
  assert (tracks_ok (option_list (Some t'))) by (by apply Forall_singleton).
  case_bool_decide; case_decide; cbn in *; split; cbn;
    first [done | apply zero_position_ok | lia | apply sanitizeQueue_ok | by apply advanceQueue_ok].
Qed.

(** Every action, applied or refused, keeps the room within its limits. *)
Lemma apply_action_ok nowMs rttMs room p :
  state_ok (State room) → state_ok (State (result_room (apply_action nowMs rttMs room p))).
Proof.
  intros Hst. pose proof Hst as []. unfold apply_action.
  repeat (case_decide; [try (by auto using actQueueAdd_ok, actChangeTrack_ok)|]); try done.
  - unfold actPlay. split_guards; try done. split; cbn; auto using clamp_ok.
  - unfold actPause. split_guards; try done. split; cbn; auto using clamp_ok.
  - unfold actSeek. split_guards; try done; split; cbn; auto using clamp_ok.
  - unfold actQueueRemove. case_decide; [done|]. split; cbn; auto.
    + pose proof (length_filter (λ t, ti_ID t ≠ pa_TrackID p) (rs_Queue (State room))). lia.
    + pose proof (queueWireSize_filter (λ t, ti_ID t ≠ pa_TrackID p) (rs_Queue (State room))). lia.
    + apply Forall_forall. intros t [_ Hin]%list_elem_of_filter. by eapply Forall_forall in st_queue_ids0.
  - unfold actQueueClear. split; cbn; auto; unfold MaxQueueSize, MaxQueueBytes; try lia. constructor.
  - unfold actSyncQueue. case_decide; [done|]. split; cbn; auto; try lia; apply sanitizeQueue_ok.
  - unfold actUpdateTrack. destruct (pa_TrackInfo p ≫= sanitizeTrackInfo) as [t|] eqn:E; [|done].
    apply bind_Some in E as (t0 & _ & [_ Hid]%sanitizeTrackInfo_id).
    case_decide; [done|]. split; cbn; auto. by apply Forall_singleton.
  - unfold actSetVolume. case_decide as Hv; [done|]. split; cbn; auto.
    by apply not_false_is_true.
Qed.

(** ** Lemmas: what playback leaves alone *)

(** Everything about a room except its playback: who is in it, who runs it. *)
Definition seats (room : Room) :=
  (Code room, Host room, Clients room, PendingJoins room, PendingSuggestions room,
   DisconnectedUsers room, HostDisconnectedAt room,
   (EmptySince room, OwnerID room, PendingNotices room),
   (rs_RoomCode (State room), rs_HostID (State room), rs_Users (State room))).

(** The playback timeline the clients follow. *)
Definition timeline (st : RoomState) :=
  (rs_CurrentTrack st, rs_IsPlaying st, rs_Position st, rs_LastUpdate st, rs_Volume st,
   rs_Queue st, rs_Revision st).

Ltac unfold_actions :=
  unfold apply_action, actPlay, actPause, actSeek, actChangeTrack, actQueueAdd, actQueueRemove,
    actQueueClear, actSyncQueue, actUpdateTrack, actSetVolume, stale_track_error,
    negative_position, queue_too_large in *.

Lemma apply_action_seats nowMs rttMs room p :
  seats (result_room (apply_action nowMs rttMs room p)) = seats room.
Proof. unfold_actions. split_guards; done. Qed.

Lemma apply_action_refused nowMs rttMs room p :
  match apply_action nowMs rttMs room p with
  | Applied room' _ => rs_Revision (State room') = rs_Revision (State room)
  | Refused room' _ _ | Ignored room' => timeline (State room') = timeline (State room)
  end.
Proof. unfold_actions. split_guards; done. Qed.

Lemma host_sequence_frame p room room' :
  host_sequence p room = Some room' →
  seats room' = seats room ∧ State room' = State room ∧ TrackRevision room' = TrackRevision room.
Proof. unfold host_sequence. split_guards; by intros [= <-]. Qed.

Lemma finish_action_frame nowMs origin room p :
  let room' := (finish_action nowMs origin room p).1 in
  seats room' = seats room ∧ rs_Queue (State room') = rs_Queue (State room) ∧
  rs_Revision (State room') = uint64_wrap (rs_Revision (State room) + 1) ∧
  (state_ok (State room) → state_ok (State room')).
Proof.
  cbv zeta. unfold finish_action. cbn. case_decide; cbn; split_and!; try done; intros []; by split.
Qed.

Section PlaybackFacts.
Context `{WireFormat}.

(** The three ways a playback action can end: nothing but queues of clients
    changed, the room was left as a refused action leaves it, or the action
    was applied. *)
Inductive playback_outcome (e : Env) (c : ClientRef) (w w' : World) : Prop :=
  | playback_nothing : same_core w w' → playback_outcome e c w w'
  | playback_refused r p room room' :
      currentRoom c w = Some r → is_active_host (getRoom r w) c w →
      host_sequence p (getRoom r w) = Some room →
      result_room (apply_action (e_nowMs e) (roundTripMs c w) room p) = room' →
      timeline (State room') = timeline (State room) →
      same_core (setRoom r (λ _, room') w) w' → playback_outcome e c w w'
  | playback_applied r p room room' p' :
      currentRoom c w = Some r → is_active_host (getRoom r w) c w →
      host_sequence p (getRoom r w) = Some room →
      apply_action (e_nowMs e) (roundTripMs c w) room p = Applied room' p' →
      same_core (setRoom r (λ _, (finish_action (e_nowMs e) (clientID c w) room' p').1) w) w' →
      playback_outcome e c w w'.

Lemma handlePlaybackAction_outcome e c payload w :
  playback_outcome e c w (handlePlaybackAction e c payload w).
Proof.
  unfold handlePlaybackAction, publish_action.
  destruct (currentRoom c w) as [r|] eqn:Hr; [|apply playback_nothing, sendError_core].
  destruct (decide (¬ is_active_host (getRoom r w) c w)) as [|Hh];
    [apply playback_nothing, sendError_core|]. apply dec_stable in Hh.
  destruct (decodePayload _ _ _) as [p|]; [|apply playback_nothing, sendError_core].
  case_decide; [apply playback_nothing, sendError_core|]. cbv zeta.
  set (q := p <| pa_QueueTitle := _ |>).
  destruct (host_sequence q (getRoom r w)) as [room|] eqn:Hs;
    [|apply playback_nothing, sendError_core].
  pose proof (apply_action_refused (e_nowMs e) (roundTripMs c w) room q) as Href.
  destruct (apply_action _ _ _ _) as [room' p'|room' code msg|room'] eqn:Ha.
  - destruct (finish_action _ _ _ _) as [room'' p''] eqn:Hf.
    eapply playback_applied; [done..|]. rewrite Hf. apply sendMessageToClients_core.
  - eapply playback_refused; [done..| |done|apply sendError_core]. by rewrite Ha.
  - eapply playback_refused; [done..| |done|reflexivity]. by rewrite Ha.
Qed.

(** C30: only the room the client is in, and only if the client is its connected
    host, can be changed by a playback action; and whenever the timeline of
    that room changes its revision grows by exactly one. *)
Theorem playback_host_only e c payload w r :
  let w' := handlePlaybackAction e c payload w in
  (¬ (currentRoom c w = Some r ∧ is_active_host (getRoom r w) c w) → getRoom r w' = getRoom r w) ∧
  seats (getRoom r w') = seats (getRoom r w) ∧
  (timeline (State (getRoom r w')) = timeline (State (getRoom r w)) ∨
   rs_Revision (State (getRoom r w')) = uint64_wrap (rs_Revision (State (getRoom r w)) + 1)).
Proof.
  cbv zeta. destruct (handlePlaybackAction_outcome e c payload w)
    as [Hc|r0 p room room' Hr Hh Hs Ha Ht Hc|r0 p room room' p' Hr Hh Hs Ha Hc].
  - rewrite (core_getRoom _ _ r Hc). auto.
  - rewrite (core_getRoom _ _ r Hc), getRoom_setRoom. case_decide as E; [subst r0|auto].
    destruct (host_sequence_frame _ _ _ Hs) as (Hse & Hst & _). split_and!; [tauto| |].
    + rewrite <- Ha, apply_action_seats. done.
    + left. by rewrite Ht, Hst.
  - rewrite (core_getRoom _ _ r Hc), getRoom_setRoom. case_decide as E; [subst r0|auto].
    destruct (host_sequence_frame _ _ _ Hs) as (Hse & Hst & _).
    destruct (finish_action_frame (e_nowMs e) (clientID c w) room' p') as (Hfs & _ & Hrev & _).
    pose proof (apply_action_seats (e_nowMs e) (roundTripMs c w) room p) as Has.
    pose proof (apply_action_refused (e_nowMs e) (roundTripMs c w) room p) as Har.
    rewrite Ha in Has, Har. cbn in Has. split_and!; [tauto|congruence|].
    right. by rewrite Hrev, Har, Hst.
Qed.

(** a room within its limits stays within them: position inside the
    longest track, at most [MaxQueueSize] queued tracks of at most
    [MaxQueueBytes], valid track IDs, volume between 0 and 1. *)
Theorem playback_keeps_limits e c payload w r :
  state_ok (State (getRoom r w)) →
  state_ok (State (getRoom r (handlePlaybackAction e c payload w))).
Proof.
  intros Hok. destruct (handlePlaybackAction_outcome e c payload w)
    as [Hc|r0 p room room' Hr Hh Hs Ha Ht Hc|r0 p room room' p' Hr Hh Hs Ha Hc];
    rewrite (core_getRoom _ _ r Hc); [done|rewrite getRoom_setRoom; case_decide as E; [subst r0|done]..].
  - destruct (host_sequence_frame _ _ _ Hs) as (_ & Hst & _). rewrite <- Ha.
    apply apply_action_ok. by rewrite Hst.
  - destruct (host_sequence_frame _ _ _ Hs) as (_ & Hst & _).
    destruct (finish_action_frame (e_nowMs e) (clientID c w) room' p') as (_ & _ & _ & Hok').
    apply Hok'. pose proof (apply_action_ok (e_nowMs e) (roundTripMs c w) room p) as Hap.
    rewrite Ha in Hap. apply Hap. by rewrite Hst.
Qed.

End PlaybackFacts.

(** ** What is broadcast *)

(** The actions that move the playback position. *)
Definition moves_position (action : string) : Prop :=
  action ∈ [ActionPlay; ActionPause; ActionSeek; ActionChangeTrack].

Lemma validatePlaybackTrack_action st p p' :
  validatePlaybackTrack st p = Some p' → pa_Action p' = pa_Action p.
Proof. unfold validatePlaybackTrack. split_guards; by intros [= <-]. Qed.

Lemma apply_action_position nowMs rttMs room p room' p' :
  apply_action nowMs rttMs room p = Applied room' p' →
  pa_Action p' = pa_Action p ∧
  (moves_position (pa_Action p) →
    pa_Position p' = rs_Position (State room') ∧ rs_LastUpdate (State room') = nowMs).
Proof.
  unfold_actions. unfold moves_position.
  split_guards; intros Heq; simplify_eq; cbn;
    (split; [first [done | by eapply validatePlaybackTrack_action]|]); try done;
    intros Hm; exfalso; set_solver.
Qed.

(** C31: the broadcast of an applied action agrees with the stored room: its
    revision, server time and queue title are the room's, queue actions carry
    the stored queue, and position actions carry the stored position. *)
Theorem broadcast_agrees nowMs rttMs origin room p room1 p1 :
  apply_action nowMs rttMs room p = Applied room1 p1 →
  let '(room2, p2) := finish_action nowMs origin room1 p1 in
  pa_Revision p2 = rs_Revision (State room2) ∧ pa_ServerTime p2 = nowMs ∧
  pa_OriginUserID p2 = origin ∧ pa_QueueTitle p2 = rs_QueueTitle (State room2) ∧
  (carries_queue (pa_Action p) → pa_Queue p2 = rs_Queue (State room2)) ∧
  (moves_position (pa_Action p) →
    pa_Position p2 = rs_Position (State room2) ∧ rs_LastUpdate (State room2) = nowMs) ∧
  (pa_Action p = ActionChangeTrack → TrackRevision room2 = pa_Revision p2).
Proof.
  intros Ha. destruct (apply_action_position _ _ _ _ _ _ Ha) as [Hact Hpos].
  unfold finish_action. rewrite Hact.
  destruct (decide (carries_queue (pa_Action p))); cbn; rewrite Hact;
    destruct (decide (pa_Action p = ActionChangeTrack)); cbn; split_and!; tauto || done || idtac.
  all: intros; exfalso; naive_solver.
Qed.
