(* ===== verification/Limits.v ===== *)
(** Limits: admission control and identifiers of [src/internal/server/server.go].

    Connection slots, connections per source address, room creations per
    source and window, and the generator of room codes.  The theorems: the
    limits hold after any sequence of operations, acquiring and releasing a
    source cancel out, and every generated room code survives the cleaning
    that [join_room] applies to what a user types. *)

From S2P Require Import Prelude RateWindow Protocol Utf8 Validation UAPolicy World.

Definition MaxClients : Z := 10000.
Definition MaxRooms : Z := 10000.
Definition MaxConnectionsPerSource : Z := 32.
Definition MaxRoomCreatesPerSource : Z := 10.
Definition RoomCreateWindow : Duration := Minute.

(** ** Connection slots and sources *)

Definition tryAcquireConnectionSlot (s : Server) : bool * Server :=
  if decide (connectionSlots s < MaxClients)
  then (true, s <| connectionSlots := connectionSlots s + 1 |>) else (false, s).
Definition releaseConnectionSlot (s : Server) : Server :=
  s <| connectionSlots := connectionSlots s - 1 |>.

(** [s.sources[source]], zero when absent *)
Definition source_count (source : string) (s : Server) : Z := default 0 (sources s !! source).

Definition acquireSource (source : string) (s : Server) : bool * Server :=
  if decide (MaxConnectionsPerSource ≤ source_count source s) then (false, s)
  else (true, s <| sources := <[source := source_count source s + 1]> (sources s) |>).
Definition releaseSource (source : string) (s : Server) : Server :=
  if decide (source_count source s ≤ 1) then s <| sources := delete source (sources s) |>
  else s <| sources := <[source := source_count source s - 1]> (sources s) |>.

(** ** Room creations *)

Definition window_over (now : Time) (win : sourceWindow) : Prop := RoomCreateWindow ≤ Sub now (sw_start win).
#[export] Instance window_over_dec now win : Decision (window_over now win) := Z_le_dec _ _.

(** The second half: take one from the quota of the source's window. *)
Definition count_create (source : string) (now : Time) (s : Server) : bool * Server :=
  let window := default (mk_sourceWindow now 0) (roomCreates s !! source) in
  if decide (MaxRoomCreatesPerSource ≤ sw_count window) then (false, s)
  else (true, s <| roomCreates := <[source := mk_sourceWindow (sw_start window) (sw_count window + 1)]>
                     (roomCreates s) |>).
Definition allowRoomCreate (source : string) (now : Time) (s : Server) : bool * Server :=
  let fresh := match roomCreates s !! source with
    | None => true
    | Some win => bool_decide (window_over now win)
    end in
  count_create source now
    (if fresh
     then s <| roomCreates := <[source := mk_sourceWindow now 0]>
                (filter (λ e, ¬ window_over now e.2) (roomCreates s)) |>
     else s).

(** ** Room codes *)

Definition code_chars : string := "1234567890QWERTYUPASDFGHJLKZXCVBNM".
Definition code_alphabet : list Z := explode code_chars.
Definition code_limit : Z := 256 - 256 mod Z.of_nat (length code_alphabet).

(** One buffer of random bytes: bytes past the limit are skipped, and only the
    missing characters are taken. *)
Definition code_char (i : Z) : Z := default 0 (code_alphabet !! Z.to_nat i).
Fixpoint take_code_bytes (buf : list Z) (code : list Z) : list Z :=
  match buf with
  | [] => code
  | b :: buf =>
    take_code_bytes buf
      (if decide (b < code_limit ∧ (length code < 8)%nat)
       then code ++ [code_char (b mod Z.of_nat (length code_alphabet))] else code)
  end.

(** A read of the system's random source: a buffer, or the number the fallback
    generator gives when the read fails. *)
Inductive RandomRead := ReadOk (buf : list Z) | ReadFailed (n : Z).
Fixpoint generate_code (reads : list RandomRead) (code : list Z) : option (list Z) :=
  if decide (8 ≤ length code)%nat then Some code
  else match reads with
  | [] => None
  | ReadOk buf :: reads => generate_code reads (take_code_bytes buf code)
  | ReadFailed n :: reads => generate_code reads (code ++ [code_char n])
  end.
Definition generateRoomCode (reads : list RandomRead) : option string :=
  implode <$> generate_code reads [].

(** ** Lemmas: sources *)

Lemma source_count_insert source n s source' :
  source_count source' (s <| sources := <[source := n]> (sources s) |>) =
    if decide (source = source') then n else source_count source' s.
Proof. unfold source_count; cbn. rewrite lookup_insert. by case_decide. Qed.

Definition sources_ok (s : Server) : Prop :=
  map_Forall (λ _ n, 1 ≤ n ≤ MaxConnectionsPerSource) (sources s).

Lemma source_count_range source s : sources_ok s → 0 ≤ source_count source s ≤ MaxConnectionsPerSource.
Proof.
  intros Hok. unfold source_count. destruct (sources s !! source) as [n|] eqn:E; cbn.
  - apply Hok in E. lia.
  - unfold MaxConnectionsPerSource; lia.
Qed.

Lemma acquireSource_ok source s : sources_ok s → sources_ok (acquireSource source s).2.
Proof.
  intros Hok. pose proof (source_count_range source s Hok). unfold acquireSource. case_decide; [done|].
  cbn. apply map_Forall_insert_2; [lia|done].
Qed.

Lemma releaseSource_ok source s : sources_ok s → sources_ok (releaseSource source s).
Proof.
  intros Hok. pose proof (source_count_range source s Hok). unfold releaseSource. case_decide; cbn.
  - by apply map_Forall_delete.
  - apply map_Forall_insert_2; [lia|done].
Qed.

(** Releasing what was just acquired restores the table. *)
Lemma acquire_release source s s' :
  sources_ok s → acquireSource source s = (true, s') → sources (releaseSource source s') = sources s.
Proof.
  intros Hok. unfold acquireSource. case_decide; [done|]. intros [= <-].
  pose proof (source_count_range source s Hok).
  unfold releaseSource. rewrite source_count_insert, (decide_True (P := source = source)) by done.
  destruct (sources s !! source) as [n|] eqn:E.
  - assert (source_count source s = n) as Hn by (unfold source_count; by rewrite E).
    apply Hok in E as Hn1. rewrite decide_False by lia. cbn.
    rewrite insert_insert_eq. apply insert_id. rewrite E. f_equal. lia.
  - assert (source_count source s = 0) as Hn by (unfold source_count; by rewrite E).
    rewrite decide_True by lia. cbn. by rewrite delete_insert_id.
Qed.

(** The count after a release. *)
Lemma releaseSource_count source s source' :
  sources_ok s → 1 ≤ source_count source s →
  source_count source' (releaseSource source s) =
    source_count source' s - (if decide (source = source') then 1 else 0).
Proof.
  intros Hok H1. unfold releaseSource. case_decide as Hd.
  - unfold source_count in *; cbn. destruct (decide (source = source')) as [->|].
    + rewrite lookup_delete_eq. cbn. lia.
    + rewrite lookup_delete_ne by done. lia.
  - rewrite source_count_insert. case_decide; subst; lia.
Qed.

(** no source ever holds more than [MaxConnectionsPerSource] connections,
    whatever sequence of connects and disconnects happens, and releasing a
    connection that was just acquired restores the table exactly. *)
Theorem source_limit_holds (ops : list (bool * string)) s :
  sources_ok s →
  let run := λ s (op : bool * string),
    if op.1 then (acquireSource op.2 s).2 else releaseSource op.2 s in
  sources_ok (foldl run s ops) ∧
  (∀ source s', acquireSource source s = (true, s') → sources (releaseSource source s') = sources s).
Proof.
  intros Hok run. split.
  - induction ops as [|[[] src] ops IH] using rev_ind; [done| |];
      rewrite foldl_snoc; cbn; auto using acquireSource_ok, releaseSource_ok.
  - intros source s'. by apply acquire_release.
Qed.

Definition zero_server : Server := mkServer ∅ ∅ ∅ defaultUAPolicy 0 0 ∅ ∅ false 0 false ∅ 0.

Lemma source_limit_holds_witness :
  sources_ok zero_server ∧
  sources_ok (foldl (λ s (op : bool * string),
    if op.1 then (acquireSource op.2 s).2 else releaseSource op.2 s) zero_server
    (replicate 40 (true, "10.0.0.1"))).
Proof.
  assert (sources_ok zero_server) as H by apply map_Forall_empty.
  split; [exact H|]. apply (source_limit_holds (replicate 40 (true, "10.0.0.1")) zero_server H).
Defined.

(** ** Lemmas: room creations *)

Fixpoint creates (source : string) (ts : list Time) (s : Server) : Z :=
  match ts with
  | [] => 0
  | t :: ts => let r := allowRoomCreate source t s in (if r.1 then 1 else 0) + creates source ts r.2
  end.

Definition source_window (source : string) (s : Server) : window :=
  (λ win, (sw_start win, sw_count win)) <$> roomCreates s !! source.

Lemma count_create_window source now s start n :
  roomCreates s !! source = Some (mk_sourceWindow start n) →
  let r := count_create source now s in
  let more := bool_decide (n < MaxRoomCreatesPerSource) in
  r.1 = more ∧ source_window source r.2 = Some (start, if more then n + 1 else n).
Proof.
  intros E. unfold count_create, source_window. rewrite E. cbn -[decide]. rewrite bool_decide_decide.
  destruct (decide (MaxRoomCreatesPerSource ≤ n)), (decide (n < MaxRoomCreatesPerSource)); try lia; cbn.
  - by rewrite E.
  - by rewrite lookup_insert_eq.
Qed.

(** [allowRoomCreate] refines the abstract counter of its source. *)
Lemma allowRoomCreate_refines source now s :
  let r := allowRoomCreate source now s in
  let t := window_step RoomCreateWindow MaxRoomCreatesPerSource now (source_window source s) in
  r.1 = t.1 ∧ source_window source r.2 = t.2.
Proof.
  assert (∀ m, let r := count_create source now
      (s <| roomCreates := <[source := mk_sourceWindow now 0]> m |>) in
    r.1 = true ∧ source_window source r.2 = Some (now, 0 + 1)) as Hfresh.
  { intros m. apply (count_create_window source now _ now 0). cbn. apply lookup_insert_eq. }
  assert (source_window source s =
    (λ win, (sw_start win, sw_count win)) <$> roomCreates s !! source) as -> by done.
  unfold allowRoomCreate, window_step, window_at.
  destruct (roomCreates s !! source) as [[start n]|] eqn:E; cbn -[decide]; [|apply Hfresh].
  rewrite (bool_decide_ext _ (RoomCreateWindow ≤ Sub now start)), bool_decide_decide by done.
  destruct (decide (RoomCreateWindow ≤ Sub now start)); [apply Hfresh|].
  destruct (count_create_window source now s start n E) as [-> ->]. cbn -[decide].
  rewrite bool_decide_decide. by case_decide.
Qed.

Lemma creates_refines source ts s :
  creates source ts s =
    window_admitted RoomCreateWindow MaxRoomCreatesPerSource ts (source_window source s).
Proof.
  revert s. induction ts as [|t ts IH]; intros s; cbn; [done|].
  destruct (allowRoomCreate_refines source t s) as [-> <-]. by rewrite IH.
Qed.

(** within any stretch shorter than [RoomCreateWindow] one source creates at
    most twice [MaxRoomCreatesPerSource] rooms. *)
Theorem room_create_bound t0 source ts s :
  Forall (λ t, t0 ≤ t < t0 + RoomCreateWindow) ts →
  window_ok MaxRoomCreatesPerSource (source_window source s) →
  creates source ts s ≤ 2 * MaxRoomCreatesPerSource.
Proof. intros Hts Hok. rewrite creates_refines. by eapply window_two_quotas. Qed.

Lemma room_create_bound_witness :
  creates "10.0.0.1" (replicate 30 5) zero_server ≤ 20 ∧
  creates "10.0.0.1" (replicate 30 5) zero_server = 10.
Proof.
  split; [|by vm_compute]. apply (room_create_bound 5); [|done].
  apply Forall_replicate. unfold RoomCreateWindow, Minute, Second, Millisecond. lia.
Defined.

(** ** Lemmas: room codes *)

Lemma code_char_alphabet i : 0 ≤ i < Z.of_nat (length code_alphabet) → code_char i ∈ code_alphabet.
Proof.
  intros Hi. unfold code_char.
  destruct (lookup_lt_is_Some_2 code_alphabet (Z.to_nat i)) as [x Hx]; [lia|].
  rewrite Hx. by eapply list_elem_of_lookup_2.
Qed.

Definition code_ok (code : list Z) : Prop :=
  Forall (λ r, r ∈ code_alphabet) code ∧ (length code ≤ 8)%nat.

Lemma code_ok_snoc code i :
  code_ok code → (length code < 8)%nat → 0 ≤ i < Z.of_nat (length code_alphabet) →
  code_ok (code ++ [code_char i]).
Proof.
  intros [Ha Hl] Hlt Hi. split.
  - apply Forall_app; split; [done|]. apply Forall_cons; split; [by apply code_char_alphabet|done].
  - rewrite length_app; cbn; lia.
Qed.

Lemma take_code_bytes_ok buf code : code_ok code → code_ok (take_code_bytes buf code).
Proof.
  revert code. induction buf as [|b buf IH]; intros code Hok; cbn; [done|].
  apply IH. case_decide; [|done]. apply code_ok_snoc; [done|tauto|].
  apply Z.mod_pos_bound. by vm_compute.
Qed.

Definition fallback_ok (read : RandomRead) : Prop :=
  match read with ReadOk _ => True | ReadFailed n => 0 ≤ n < Z.of_nat (length code_alphabet) end.

Lemma generate_code_ok reads code code' :
  Forall fallback_ok reads → code_ok code → generate_code reads code = Some code' →
  code_ok code' ∧ length code' = 8%nat.
Proof.
  intros Hf. revert code. induction Hf as [|read reads Hr Hf IH]; intros code Hok; cbn;
    (case_decide; [intros [= <-]; split; [done|destruct Hok; lia]|]).
  - done.
  - destruct read as [buf|n].
    + apply IH. by apply take_code_bytes_ok.
    + apply IH. apply code_ok_snoc; [done|lia|done].
Qed.

Lemma alphabet_runes :
  Forall (λ r, is_scalar r ∧ clean_rune r ∧ IsSpace r = false ∧ encodeRune r = [r] ∧
               0 ≤ r < 0x80 ∧ within 97 r 122 = false) code_alphabet.
Proof.
  apply Forall_forall. intros r Hr.
  assert (forallb (λ r, (48 <=? r) && (r <=? 90)) code_alphabet = true) as Hall by by vm_compute.
  rewrite forallb_forall in Hall. apply list_elem_of_In in Hr.
  specialize (Hall r Hr). assert (48 ≤ r ≤ 90) by lia.
  unfold is_scalar, clean_rune, MaxRune. rewrite encodeRune_1 by lia.
  split_and!; try done; try lia; unfold IsSpace, within; lia.
Qed.

Lemma alphabet_encode code :
  Forall (λ r, r ∈ code_alphabet) code → encode code = code ∧ Forall is_scalar code ∧ Forall clean_rune code ∧
  trim_runes code = code.
Proof.
  intros Hc. assert (Forall (λ r, is_scalar r ∧ clean_rune r ∧ IsSpace r = false ∧ encodeRune r = [r]) code) as Hr.
  { eapply Forall_impl; [exact Hc|]. intros r Hin. pose proof alphabet_runes as Ha.
    rewrite Forall_forall in Ha. specialize (Ha r Hin). tauto. }
  assert (∀ l, Forall (λ r, IsSpace r = false) l → drop_spaces l = l) as Hd.
  { intros l Hl. destruct Hl as [|x l Hx Hl]; [done|]. cbn. by rewrite Hx. }
  split_and!.
  - induction Hr as [|r rs [_ [_ [_ Hr]]] Hrs IH]; [done|]. rewrite encode_cons, Hr, IH; [done|].
    by apply Forall_cons in Hc as [_ ?].
  - eapply Forall_impl; [exact Hr|]; by intros r (?&?&?&?).
  - eapply Forall_impl; [exact Hr|]; by intros r (?&?&?&?).
  - unfold trim_runes. rewrite (Hd code), Hd, reverse_involutive; [done| |].
    + apply Forall_reverse. eapply Forall_impl; [exact Hr|]; by intros r (?&?&?&?).
    + eapply Forall_impl; [exact Hr|]; by intros r (?&?&?&?).
Qed.

(** every generated room code has eight characters of the alphabet and is
    left unchanged by the cleaning that [join_room] applies, so the room it
    names can be joined by typing it. *)
Theorem room_code_joinable `{UnicodeTables} reads code :
  Forall fallback_ok reads → generateRoomCode reads = Some code →
  len code = 8 ∧ Forall (λ r, r ∈ code_alphabet) (explode code) ∧
  sanitizeString (ToUpper code) MaxRoomCodeLength = code.
Proof.
  unfold generateRoomCode. intros Hf (l & Hg & ->)%fmap_Some.
  destruct (generate_code_ok reads [] l Hf) as [[Ha _] Hlen]; [by split; [|cbn; lia]|done|].
  destruct (alphabet_encode l Ha) as (He & Hs & Hc & Ht).
  assert (explode (implode l) = l) as Hx.
  { apply explode_implode. rewrite <- He. apply encode_bytes. }
  assert (ToUpper (implode l) = implode l) as Hup.
  { unfold ToUpper, Map. f_equal. rewrite map_runes_encode, Hx.
    rewrite <- He at 1. rewrite runes_encode by done.
    assert (upper_rune <$> l = l) as ->.
    { apply fmap_id_Forall. eapply Forall_impl; [exact Ha|]. intros r Hin.
      pose proof alphabet_runes as Hal. rewrite Forall_forall in Hal. specialize (Hal r Hin).
      unfold upper_rune. destruct Hal as (_ & _ & _ & _ & Hr & ->).
      by destruct (Z.ltb_spec r 0x80); [|lia]. }
    rewrite filter_id_Forall by (eapply Forall_impl; [exact Hs|unfold is_scalar; lia]).
    rewrite fmap_id_Forall; [done|]. eapply Forall_impl; [exact Hs|].
    intros r Hr. unfold scalar_or_error. by rewrite decide_True. }
  assert (len (implode l) = 8) as Hl by (unfold len; rewrite length_implode, Hlen; done).
  split_and!; [done|by rewrite Hx|]. rewrite Hup.
  apply sanitizeString_id with l; [by rewrite Hx|done..|]. unfold MaxRoomCodeLength. lia.
Qed.

Definition ascii_tables : UnicodeTables := {| upper_table := λ r, r; lower_table := λ r, r |}.

Lemma room_code_joinable_witness :
  let reads := [ReadFailed 3; ReadOk [0; 255; 33; 34; 237; 238; 7; 8; 9; 10; 11; 12; 13; 14; 15; 16]] in
  generateRoomCode reads = Some "41M1M890" ∧
  sanitizeString (ToUpper (H := ascii_tables) "41M1M890") MaxRoomCodeLength = "41M1M890".
Proof.
  intros reads. assert (generateRoomCode reads = Some "41M1M890") as Hg by (vm_compute; reflexivity).
  split; [exact Hg|].
  eapply (room_code_joinable (H := ascii_tables) reads); [|exact Hg].
  repeat constructor; vm_compute; congruence.
Defined.
