(* ===== verification/Identifiers.v ===== *)
(** Identifiers: the generators of [src/internal/server/server.go].

    User IDs, suggestion IDs and session tokens are drawn from the clock, the
    seeded generator and the system's random source; room codes are in Limits.
    The theorems: whatever is drawn is text (valid UTF-8), and two draws agree
    only if the source of both gave the same values, so that the freshness the
    server relies on is a property of the clock and the random bytes alone. *)

From Stdlib Require Import DecimalString DecimalZ.
From S2P Require Import Prelude Protocol Utf8 Validation UAPolicy World Client Limits.

(** ** Text *)

Notation utf8 s := (ValidString s = true) (only parsing).

Lemma explode_app a b : explode (a +:+ b) = explode a ++ explode b.
Proof. induction a as [|x a IH]; [done|]. exact (f_equal (cons (byte_of x)) IH). Qed.

Lemma utf8_app a b : utf8 a → utf8 b → utf8 (a +:+ b).
Proof.
  intros (ra & Ha & Ea)%ValidString_inv (rb & Hb & Eb)%ValidString_inv.
  apply ValidString_encode with (ra ++ rb); [|by apply Forall_app].
  by rewrite explode_app, Ea, Eb, encode_app.
Qed.

Lemma utf8_ascii s : Forall (λ b, b < 0x80) (explode s) → utf8 s.
Proof.
  intros Hs. pose proof (explode_bytes s) as Hb. apply ValidString_encode with (explode s).
  - induction Hs as [|b l Hlt Hs IH]; [done|]. apply Forall_cons in Hb as [Hb0 Hb]. unfold is_byte in Hb0.
    rewrite encode_cons, encodeRune_1 by lia. cbn. f_equal. auto.
  - rewrite Forall_forall in *. intros b Hin. specialize (Hs b Hin). specialize (Hb b Hin).
    unfold is_byte, is_scalar, MaxRune in *. lia.
Qed.

(** ** Printing *)

(** [%d] of [fmt] *)
Definition decimal (z : Z) : string := NilZero.string_of_int (Z.to_int z).

(** [hex.EncodeToString]: two lower-case digits per byte *)
Definition hex_digit (n : Z) : Z := if decide (n < 10) then 48 + n else 87 + n.
Definition hex_bytes (bs : list Z) : list Z :=
  mjoin ((λ b, [hex_digit (b / 16); hex_digit (b mod 16)]) <$> bs).
Definition EncodeToString (bs : list Z) : string := implode (hex_bytes bs).

(** [fmt.Sprintf(prefix + "%d_%d", now, n)] *)
Definition stamped (prefix : string) (now n : Z) : string := prefix +:+ decimal now +:+ "_" +:+ decimal n.

(** ** The generators *)

Definition generateUserID (nowNano randNum : Z) : string := stamped "user_" nowNano randNum.
Definition suggestionID (nowNano randNum : Z) : string := stamped "sug_" nowNano randNum.

(** [random] is what [rand.Read] put into the buffer, [None] when it failed. *)
Definition generateSessionToken (random : option (list Z)) (nowNano tokenNum : Z) : string :=
  match random with
  | Some b => EncodeToString b
  | None => stamped "token_" nowNano tokenNum
  end.

(** An environment whose identifiers come from the generators. *)
Record generated (e : Env) : Prop := {
  ge_user : ∃ now n, e_userID e = generateUserID now n;
  ge_token : ∃ random now n, e_token e = generateSessionToken random now n ∧
    ∀ b, random = Some b → length b = 32%nat ∧ Forall is_byte b;
  ge_code i : ∃ reads, Forall fallback_ok reads ∧ generateRoomCode reads = Some (e_roomCode e i);
  ge_suggestion : ∃ now n, e_suggestionID e = suggestionID now n
}.

(** What the rest of the development asks of it: text. *)
Record utf8_env (e : Env) : Prop := {
  ue_user : utf8 (e_userID e);
  ue_token : utf8 (e_token e);
  ue_code i : utf8 (e_roomCode e i);
  ue_suggestion : utf8 (e_suggestionID e)
}.

(** ** Lemmas: digits *)

(** Characters of a decimal number: digits and a sign. *)
Definition numeric (a : Ascii.ascii) : Prop := byte_of a = 45 ∨ 48 ≤ byte_of a ≤ 57.
Fixpoint string_all (P : Ascii.ascii → Prop) (s : string) : Prop :=
  match s with String.EmptyString => True | String.String a s => P a ∧ string_all P s end.

Lemma string_all_explode (P : Ascii.ascii → Prop) (Q : Z → Prop) s :
  (∀ a, P a → Q (byte_of a)) → string_all P s → Forall Q (explode s).
Proof. intros HPQ. induction s as [|a s IH]; cbn; [done|]. intros [Ha Hs]. constructor; auto. Qed.

Lemma uint_numeric d : string_all numeric (NilEmpty.string_of_uint d).
Proof. induction d; cbn; try done; split; try done; right; by vm_compute. Qed.

Lemma decimal_numeric z : string_all numeric (decimal z).
Proof.
  unfold decimal, NilZero.string_of_int, NilZero.string_of_uint. destruct (Z.to_int z) as [d|d].
  - destruct d; [split; [right; by vm_compute|done]|exact (uint_numeric _)..].
  - split; [left; by vm_compute|]. destruct d; [split; [right; by vm_compute|done]|exact (uint_numeric _)..].
Qed.

Lemma decimal_inj a b : decimal a = decimal b → a = b.
Proof.
  unfold decimal. intros Hd. apply (f_equal NilZero.int_of_string) in Hd.
  assert (∀ z, Z.to_int z ≠ Decimal.Pos Decimal.Nil ∧ Z.to_int z ≠ Decimal.Neg Decimal.Nil) as Hn.
  { intros [|p|p]; cbn; (split; [|done]) || (split; [done|]); intros [= Hp]; by destruct (DecimalPos.Unsigned.to_uint_nonnil p). }
  rewrite !NilZero.isi in Hd by apply Hn. injection Hd. apply DecimalZ.to_int_inj.
Qed.

Lemma digit_numeric n : 0 ≤ n < 16 → 48 ≤ hex_digit n ≤ 102.
Proof. unfold hex_digit. case_decide; lia. Qed.
Lemma hex_digit_inj a b : 0 ≤ a < 16 → 0 ≤ b < 16 → hex_digit a = hex_digit b → a = b.
Proof. unfold hex_digit. repeat case_decide; lia. Qed.

Lemma nibbles b : is_byte b → 0 ≤ b / 16 < 16 ∧ 0 ≤ b mod 16 < 16.
Proof.
  unfold is_byte. intros Hb. split; [|apply Z.mod_pos_bound; lia].
  split; [apply Z.div_pos; lia|apply Z.div_lt_upper_bound; lia].
Qed.

Lemma hex_bytes_cons b bs : hex_bytes (b :: bs) = hex_digit (b / 16) :: hex_digit (b mod 16) :: hex_bytes bs.
Proof. done. Qed.

Lemma hex_bytes_range bs : Forall is_byte bs → Forall (λ x, 48 ≤ x ≤ 102) (hex_bytes bs).
Proof.
  induction 1 as [|b bs Hb%nibbles _ IH]; [done|]. destruct Hb. rewrite hex_bytes_cons.
  constructor; [|constructor; [|exact IH]]; by apply digit_numeric.
Qed.

Lemma hex_bytes_inj bs bs' : Forall is_byte bs → Forall is_byte bs' → hex_bytes bs = hex_bytes bs' → bs = bs'.
Proof.
  intros Hb. revert bs'. induction Hb as [|b bs Hb _ IH]; intros [|b' bs'] Hb' E; try done.
  apply Forall_cons in Hb' as [Hb0 Hb']. rewrite !hex_bytes_cons in E. injection E as E1 E2 E3.
  apply nibbles in Hb as [? ?], Hb0 as [? ?]. apply hex_digit_inj in E1, E2; [|done..]. f_equal; [|by apply IH].
  pose proof (Z.div_mod b 16). pose proof (Z.div_mod b' 16). lia.
Qed.

Lemma EncodeToString_inj bs bs' :
  Forall is_byte bs → Forall is_byte bs' → EncodeToString bs = EncodeToString bs' → bs = bs'.
Proof.
  intros Hb Hb' E. apply (f_equal explode) in E. unfold EncodeToString in E.
  assert (∀ l, Forall is_byte l → Forall is_byte (hex_bytes l)) as Hh.
  { intros l Hl. eapply Forall_impl; [by apply hex_bytes_range|]. unfold is_byte. lia. }
  rewrite !explode_implode in E by auto. by apply hex_bytes_inj.
Qed.

(** ** Lemmas: stamps *)

(** Two numeric strings with a separator between them can be told apart. *)
Lemma split_at_separator a a' b b' :
  string_all numeric a → string_all numeric a' → a +:+ "_" +:+ b = a' +:+ "_" +:+ b' → a = a' ∧ b = b'.
Proof.
  assert (¬ numeric (ascii_of 95)) as Hu by (intros [Hx|[_ Hx]]; by vm_compute in Hx).
  revert a'. induction a as [|x a IH]; intros [|x' a'] Ha Ha' E.
  - by injection E.
  - injection E as <- _. by destruct Ha'.
  - injection E as -> _. by destruct Ha.
  - injection E as <- E. destruct Ha as [_ Ha], Ha' as [_ Ha']. by destruct (IH a' Ha Ha' E) as [-> ->].
Qed.

Lemma append_inj p a b : p +:+ a = p +:+ b → a = b.
Proof. induction p as [|x p IH]; [done|]. intros E. apply IH. by injection E. Qed.

Lemma stamped_inj prefix now n now' n' : stamped prefix now n = stamped prefix now' n' → now = now' ∧ n = n'.
Proof.
  unfold stamped. intros E%append_inj. apply split_at_separator in E as [E1 E2]; [|apply decimal_numeric..].
  split; by apply decimal_inj.
Qed.

Lemma decimal_utf8 z : utf8 (decimal z).
Proof.
  apply utf8_ascii. eapply string_all_explode; [|apply decimal_numeric]. intros a [->|?]; lia.
Qed.
Lemma stamped_utf8 prefix now n : utf8 prefix → utf8 (stamped prefix now n).
Proof. intros Hp. unfold stamped. auto using utf8_app, decimal_utf8. Qed.

Lemma generateSessionToken_utf8 random now n :
  (∀ b, random = Some b → Forall is_byte b) → utf8 (generateSessionToken random now n).
Proof.
  intros Hb. destruct random as [b|]; [|by apply stamped_utf8]. cbn. specialize (Hb b eq_refl).
  apply utf8_ascii. pose proof (hex_bytes_range b Hb) as Hr. unfold EncodeToString.
  rewrite explode_implode; (eapply Forall_impl; [exact Hr|]); unfold is_byte; lia.
Qed.

Lemma generateRoomCode_utf8 reads code :
  Forall fallback_ok reads → generateRoomCode reads = Some code → utf8 code.
Proof.
  unfold generateRoomCode. intros Hf (l & Hg & ->)%fmap_Some.
  destruct (generate_code_ok reads [] l Hf) as [[Ha _] _]; [by split; [|cbn; lia]|done|].
  destruct (alphabet_encode l Ha) as (He & Hs & _). apply ValidString_encode with l; [|done].
  rewrite explode_implode; [done|]. rewrite <- He. apply encode_bytes.
Qed.

(** What the generators return is text. *)
Lemma generated_utf8 e : generated e → utf8_env e.
Proof.
  intros [(now & n & Hu) (random & now' & n' & Ht & Hr) Hc (now2 & n2 & Hs)]. split.
  - rewrite Hu. by apply stamped_utf8.
  - rewrite Ht. apply generateSessionToken_utf8. intros b Hb. by apply Hr.
  - intros i. destruct (Hc i) as (reads & Hf & Hg). by eapply generateRoomCode_utf8.
  - rewrite Hs. by apply stamped_utf8.
Qed.

(** Where a token came from: random bytes, or a stamp. *)
Definition token_source (random : option (list Z)) (nowNano tokenNum : Z) : list Z + Z * Z :=
  match random with Some b => inl b | None => inr (nowNano, tokenNum) end.

Lemma hex_not_stamp b now n : Forall is_byte b → EncodeToString b ≠ stamped "token_" now n.
Proof.
  intros Hb E. apply (f_equal explode) in E. pose proof (hex_bytes_range b Hb) as Hr. unfold EncodeToString in E.
  rewrite explode_implode in E by (eapply Forall_impl; [exact Hr|]; unfold is_byte; lia). rewrite E in Hr.
  unfold stamped in Hr. rewrite explode_app in Hr. apply Forall_app in Hr as [Hr _].
  apply Forall_cons in Hr as [Hr _]. vm_compute in Hr. by destruct Hr as [_ []].
Qed.

(** C39: identifiers repeat only when their sources do.  Two user IDs are equal
    only if they were drawn in the same nanosecond with the same random number,
    two session tokens only if the system gave the same 32 bytes (or, where it
    failed, the clock and the generator the same numbers), and no token of one
    kind equals one of the other. *)
Theorem identifiers_distinct now n now' n' random m k random' m' k' :
  (∀ b, random = Some b ∨ random' = Some b → Forall is_byte b) →
  (generateUserID now n = generateUserID now' n' ↔ (now, n) = (now', n')) ∧
  (suggestionID now n = suggestionID now' n' ↔ (now, n) = (now', n')) ∧
  (generateSessionToken random m k = generateSessionToken random' m' k' ↔
    token_source random m k = token_source random' m' k').
Proof.
  intros Hb. split_and!; try (split; [intros E%stamped_inj; destruct E; congruence|by intros [= -> ->]]).
  destruct random as [b|], random' as [b'|]; cbn.
  - split; [intros E; f_equal; apply EncodeToString_inj; auto|by intros [= ->]].
  - split; [intros E; by apply hex_not_stamp in E; auto|done].
  - split; [intros E; symmetry in E; by apply hex_not_stamp in E; auto|done].
  - split; [intros E%stamped_inj; destruct E; congruence|by intros [= -> ->]].
Qed.

Example generators_run :
  generateUserID 1754300000123456789 42 = "user_1754300000123456789_42" ∧
  generateSessionToken (Some [0; 171; 255]) 0 0 = "00abff" ∧ generateSessionToken None 7 (-3) = "token_7_-3".
Proof. by vm_compute. Qed.

Lemma identifiers_distinct_witness :
  generateSessionToken (Some (repeat 17 32)) 0 0 ≠ generateSessionToken (Some (repeat 18 32)) 0 0 ∧
  generateSessionToken (Some (repeat 17 32)) 0 0 ≠ generateSessionToken None 0 0.
Proof.
  split; intros E; eapply (identifiers_distinct 0 0 0 0) in E; try done;
    intros b [[= <-]|[= <-]]; apply Forall_forall; intros x Hx%elem_of_list_In%repeat_spec; subst; done.
Defined.
