(* ===== verification/Members.v ===== *)
(** Members: the helpers that [rooms.go] and [lifecycle.go] share.

    Seats of a room ([roomMembersLocked], [withoutUser]), what a departing
    member leaves behind ([removeUserSuggestionsLocked], [queueNoticeLocked],
    [forget_user]), applicants ([removePendingJoin]) and the removal of empty
    rooms ([deleteRoomIfEmpty]). *)

From S2P Require Import Prelude Protocol Utf8 Validation UAPolicy World Client Hosts.

Definition MaxPendingJoins : Z := 100.
Definition MaxPendingSuggestions : Z := 100.
Definition MaxSuggestionsPerUser : Z := 10.
Definition MaxClientsPerRoom : Z := 100.
Definition ReconnectGracePeriod : Duration := 15 * Minute.
Definition EmptyRoomCleanupTimeout : Duration := 5 * Minute.
Definition MinRoomRetentionAfterRestart : Duration := 2 * Minute.

(** [len] of a Go map. *)
Definition map_len {A} (m : gmap string A) : Z := Z.of_nat (size m).

Definition roomMembersLocked (room : Room) : Z :=
  map_len (Clients room) + map_len (DisconnectedUsers room).

Definition room_empty (room : Room) : Prop := Clients room = ∅ ∧ DisconnectedUsers room = ∅.
#[export] Instance room_empty_dec room : Decision (room_empty room).
Proof. unfold room_empty. apply _. Defined.

Definition withoutUser (users : list UserInfo) (userID : string) : list UserInfo :=
  filter (λ u, ui_UserID u ≠ userID) users.

(** The loop that flags the first entry of a user and breaks. *)
Fixpoint setConnected (userID : string) (connected : bool) (users : list UserInfo) : list UserInfo :=
  match users with
  | [] => []
  | u :: users =>
    if decide (ui_UserID u = userID) then u <| ui_IsConnected := connected |> :: users
    else u :: setConnected userID connected users
  end.

Definition removeUserSuggestionsLocked (userID : string) (room : Room) : Room :=
  room <| PendingSuggestions := filter (λ e, sg_FromUserID e.2 ≠ userID) (PendingSuggestions room) |>.

Definition notices_of (room : Room) (userID : string) : list pendingNotice :=
  default [] (PendingNotices room !! userID).

Definition queueNoticeLocked (userID msgType : string) (payload : Payload) (room : Room) : Room :=
  match DisconnectedUsers room !! userID with
  | None => room
  | Some _ =>
    if decide (Z.of_nat (length (notices_of room userID)) < MaxSuggestionsPerUser)
    then room <| PendingNotices :=
      <[userID := notices_of room userID ++ [mk_pendingNotice msgType payload]]> (PendingNotices room) |>
    else room
  end.

(** What [kick], [leave] and expiry drop of a user besides the seat: the
    notices, the suggestions, the claim on the host role and the user entry. *)
Definition forget_user (userID : string) (room : Room) : Room :=
  let room := room <| PendingNotices := delete userID (PendingNotices room) |> in
  let room := removeUserSuggestionsLocked userID room in
  let room := if decide (OwnerID room = userID) then room <| OwnerID := "" |> else room in
  room <| State := (State room) <| rs_Users := withoutUser (rs_Users (State room)) userID |> |>.

Definition removePendingJoin (c : ClientRef) (w : World) : World :=
  match currentPendingRoom c w with
  | None => w
  | Some r =>
    let id := clientID c w in
    let w := if decide (PendingJoins (getRoom r w) !! id = Some c)
             then setRoom r (λ room, room <| PendingJoins := delete id (PendingJoins room) |>) w else w in
    clearPendingRoom c r w
  end.

Section Rooms.
Context `{WireFormat}.

Definition deleteRoomIfEmpty (r : RoomRef) (w : World) : bool * World :=
  let room := getRoom r w in
  if decide (rooms (w_srv w) !! Code room = Some r ∧ room_empty room) then
    let w := foldl (rejectPending r "Room is no longer available") w
               ((map_to_list (PendingJoins room)).*2) in
    let w := setRoom r (λ room, room <| PendingJoins := ∅ |>) w in
    (true, setServer (λ srv, srv <| rooms := delete (Code room) (rooms srv) |>) w)
  else (false, w).

End Rooms.
