(* ===== verification/Rooms.v ===== *)
(** Rooms: [src/internal/server/rooms.go].

    Creating, joining and leaving a room, the host's decisions on applicants
    and members, and the suggestions of guests.  Each handler is the whole
    handler of the source: its checks in order, every state change, every
    message.  A handler is one atomic step: the source runs it under
    [room.syncMu] or [room.mu], and the re-checks it makes after taking a lock
    are kept although no other step intervenes here. *)

From S2P Require Import Prelude Protocol Utf8 Validation UAPolicy World Client Hosts Playback Limits Members.

(** ** Typed payloads *)

Definition asSuggestTrack (p : Payload) := match p with PSuggestTrack p => Some p | _ => None end.
Definition asApproveSuggestion (p : Payload) := match p with PApproveSuggestion p => Some p | _ => None end.
Definition asRejectSuggestion (p : Payload) := match p with PRejectSuggestion p => Some p | _ => None end.
Definition asCreateRoom (p : Payload) := match p with PCreateRoom p => Some p | _ => None end.
Definition asJoinRoom (p : Payload) := match p with PJoinRoom p => Some p | _ => None end.
Definition asApproveJoin (p : Payload) := match p with PApproveJoin p => Some p | _ => None end.
Definition asRejectJoin (p : Payload) := match p with PRejectJoin p => Some p | _ => None end.
Definition asKickUser (p : Payload) := match p with PKickUser p => Some p | _ => None end.
Definition asTransferHost (p : Payload) := match p with PTransferHost p => Some p | _ => None end.

Definition reasonLength : Z := 200.

(** The connected host, if any: [host != nil && room.HostDisconnectedAt == nil]. *)
Definition connected_host (room : Room) : option ClientRef :=
  match Host room, HostDisconnectedAt room with
  | Some h, None => Some h
  | _, _ => None
  end.

(** ** Suggestions *)

Definition track_id (track : option TrackInfo) : option string := ti_ID <$> track.

(** The suggestions of one user that are still pending. *)
Definition suggestions_of (userID : string) (room : Room) : list Suggestion :=
  filter (λ sg, sg_FromUserID sg = userID) ((map_to_list (PendingSuggestions room)).*2).

Section Suggestions.
Context `{WireFormat}.

Definition handleSuggestTrack (e : Env) (c : ClientRef) (payload : string) (w : World) : World :=
  need p := decodePayload asSuggestTrack payload MsgTypeSuggestTrack
    orelse sendError c "invalid_payload" "Invalid suggest track payload" w in
  need r := currentRoom c w
    orelse sendError c "not_in_room" "You are not in a room" w in
  need track := stp_TrackInfo p
    orelse sendError c "missing_track_info" "Track info is required" w in
  need track := sanitizeTrackInfo track
    orelse sendError c "invalid_track_info" "Track must have ID and title" w in
  let id := clientID c w in
  let username := userName c w in
  let room := getRoom r w in
  refuse Clients room !! id ≠ Some c
    by sendError c "not_in_room" "You are not in a room" w in
  refuse rs_HostID (State room) = id by w in
  refuse MaxPendingSuggestions ≤ map_len (PendingSuggestions room)
    by sendError c "suggestions_full" "Too many pending suggestions" w in
  let mine := suggestions_of id room in
  refuse Exists (λ sg, track_id (sg_Track sg) = Some (ti_ID track)) mine
    by sendError c "duplicate_suggestion" "You already suggested this track" w in
  refuse MaxSuggestionsPerUser ≤ Z.of_nat (length mine)
    by sendError c "too_many_suggestions" "You have too many pending suggestions" w in
  let sugID := e_suggestionID e in
  let w := setRoom r (λ room, room <| PendingSuggestions :=
    <[sugID := mkSuggestion sugID id username (cloneTrackInfo (Some track))]>
      (PendingSuggestions room) |>) w in
  let w := match connected_host room with
    | Some host => sendMessage host MsgTypeSuggestionReceived (PSuggestionReceived
        (mkSuggestionReceivedPayload sugID id username (cloneTrackInfo (Some track)))) w
    | None => w
    end in
  if hasFeature c FeatureSuggestionAck w then
    reply c MsgTypeSuggestionSubmitted (Some (PSuggestionSubmitted
      (mkSuggestionSubmittedPayload sugID (cloneTrackInfo (Some track))))) w
  else w.

(** What approving does to the room: refused, or the room with the track at
    the front of the queue.  [SuggestedBy] is written through the pointer the
    pending suggestion keeps, before the size of the queue is checked. *)
Definition insert_suggestion (sugID : string) (sg : Suggestion) (room : Room)
    : (Room * string * string) + (Room * option TrackInfo) :=
  match sg_Track sg with
  | None => inr (room, None)
  | Some track =>
    if decide (MaxQueueSize ≤ Z.of_nat (length (rs_Queue (State room))))
    then inl (room, "queue_full", "Queue is full")
    else if decide (playing_or_queued (State room) (ti_ID track))
    then inl (room, "duplicate_track", "Track is already playing or queued")
    else
      let track := track <| ti_SuggestedBy := sg_FromUsername sg |> in
      let room := room <| PendingSuggestions :=
        <[sugID := sg <| sg_Track := Some track |>]> (PendingSuggestions room) |> in
      let queue := track :: rs_Queue (State room) in
      if decide (MaxQueueBytes < queueWireSize queue)
      then inl (room, "queue_too_large", "Queue is too large")
      else inr (setState (λ st, st <| rs_Queue := queue |>) room, Some track)
  end.

Definition handleApproveSuggestion (e : Env) (c : ClientRef) (payload : string) (w : World) : World :=
  need p := decodePayload asApproveSuggestion payload MsgTypeApproveSuggestion
    orelse sendError c "invalid_payload" "Invalid approve suggestion payload" w in
  let sugID := asp_SuggestionID p in
  refuse sugID = ""
    by sendError c "missing_suggestion_id" "Suggestion ID is required" w in
  need r := currentRoom c w
    orelse sendError c "not_in_room" "You are not in a room" w in
  refuse ¬ is_room_host (getRoom r w) c
    by sendError c "not_host" "Only the host can approve suggestions" w in
  need sg := PendingSuggestions (getRoom r w) !! sugID
    orelse sendError c "suggestion_not_found" "Suggestion not found" w in
  match insert_suggestion sugID sg (getRoom r w) with
  | inl (room, code, message) => sendError c code message (setRoom r (λ _, room) w)
  | inr (room, track) =>
    let room := room <| PendingSuggestions := delete sugID (PendingSuggestions room) |> in
    let room := setState (λ st, st <| rs_Revision := uint64_wrap (rs_Revision st + 1) |>) room in
    let qa := zero_action <| pa_Action := ActionQueueAdd |> <| pa_TrackInfo := track |>
      <| pa_InsertNext := true |> <| pa_Queue := rs_Queue (State room) |>
      <| pa_ServerTime := e_nowMs e |> <| pa_Revision := rs_Revision (State room) |> in
    let approved := PSuggestionApproved (mkSuggestionApprovedPayload sugID (cloneTrackInfo track)) in
    let target := Clients room !! sg_FromUserID sg in
    let room := match target with
      | Some _ => room
      | None => queueNoticeLocked (sg_FromUserID sg) MsgTypeSuggestionApproved approved room
      end in
    let w := setRoom r (λ _, room) w in
    let w := sendMessageToClients (roomClientsLocked room) MsgTypeSyncPlayback (PPlaybackAction qa) w in
    match target with
    | Some t => sendMessage t MsgTypeSuggestionApproved approved w
    | None => w
    end
  end.

Definition handleRejectSuggestion (c : ClientRef) (payload : string) (w : World) : World :=
  need p := decodePayload asRejectSuggestion payload MsgTypeRejectSuggestion
    orelse sendError c "invalid_payload" "Invalid reject suggestion payload" w in
  let sugID := rsp_SuggestionID p in
  refuse sugID = ""
    by sendError c "missing_suggestion_id" "Suggestion ID is required" w in
  need r := currentRoom c w
    orelse sendError c "not_in_room" "You are not in a room" w in
  refuse ¬ is_room_host (getRoom r w) c
    by sendError c "not_host" "Only the host can reject suggestions" w in
  need sg := PendingSuggestions (getRoom r w) !! sugID
    orelse sendError c "suggestion_not_found" "Suggestion not found" w in
  let room := getRoom r w in
  let room := room <| PendingSuggestions := delete sugID (PendingSuggestions room) |> in
  let rejected := PSuggestionRejected
    (mkSuggestionRejectedPayload sugID (sanitizeString (rsp_Reason p) reasonLength)) in
  match Clients room !! sg_FromUserID sg with
  | Some target => sendMessage target MsgTypeSuggestionRejected rejected (setRoom r (λ _, room) w)
  | None =>
    setRoom r (λ _, queueNoticeLocked (sg_FromUserID sg) MsgTypeSuggestionRejected rejected room) w
  end.

End Suggestions.

(** ** Creating and joining *)

(** The retry loop: the last code drawn and whether it is taken. *)
Fixpoint draw_code (taken : gmap string RoomRef) (draws : nat → string) (i retries : nat) (code : string)
    (exists_ : bool) : string * bool :=
  match retries with
  | O => (code, exists_)
  | S retries =>
    let code := draws i in
    match taken !! code with
    | None => (code, false)
    | Some _ => draw_code taken draws (S i) retries code true
    end
  end.

Definition maxRetries : nat := 100.
Definition room_count (s : Server) : Z := map_len (rooms s).

(** A new room with its creator as host and only member. *)
Definition fresh_room (nowMs : Z) (c : ClientRef) (code id username : string) : Room :=
  mkRoom code (Some c) {[id := c]} ∅ ∅ ∅
    (mkRoomState code id [mkUserInfo id username true true] None false 0 nowMs float64_one [] 0 "")
    None None "" 0 0 ∅.

(** [c.source != "" && !s.allowRoomCreate(c.source, now)], the count included. *)
Definition room_create_allowed (now : Time) (c : ClientRef) (w : World) : bool * World :=
  let source := c_source (getClient c w) in
  if decide (source = "") then (true, w)
  else let '(ok, srv) := allowRoomCreate source now (w_srv w) in (ok, setServer (λ _, srv) w).

Section Joining.
Context `{WireFormat, UnicodeTables}.

(** The second half of [handleCreateRoom]: claim the room for the client, then
    enter it into the table. *)
Definition openRoom (e : Env) (c : ClientRef) (code username : string) (w : World) : World :=
  let id := clientID c w in
  let token := e_token e in
  let '(r, w) := newRoom (fresh_room (e_nowMs e) c code id username) w in
  let '(seated, w) := trySetRoom c r w in
  refuse seated = false
    by sendError c "already_in_room" "You are already in a room" w in
  let w := setSessionToken c token (setUsername c username w) in
  refuse MaxRooms ≤ room_count (w_srv w)
    by sendError c "room_limit_reached" "Server is at room capacity" (clearRoom c r w) in
  refuse is_Some (rooms (w_srv w) !! code)
    by sendError c "server_error" "Failed to create room" (clearRoom c r w) in
  let w := setServer (λ srv, srv <| rooms := <[code := r]> (rooms srv) |>) w in
  reply c MsgTypeRoomCreated (Some (PRoomCreated (mkRoomCreatedPayload code id token))) w.

Definition handleCreateRoom (e : Env) (c : ClientRef) (payload : string) (w : World) : World :=
  refuse ¬ canHostClient c w
    by sendError c "host_not_allowed" "This client is not allowed to host rooms" w in
  need p := decodePayload asCreateRoom payload MsgTypeCreateRoom
    orelse sendError c "invalid_payload" "Invalid create room payload" w in
  refuse crp_Username p = ""
    by sendError c "missing_username" "Username is required" w in
  refuse is_Some (currentRoom c w)
    by sendError c "already_in_room" "Leave the current room before creating another" w in
  refuse is_Some (currentPendingRoom c w)
    by sendError c "already_pending" "Cancel the pending join request before creating a room" w in
  let username := sanitizeString (crp_Username p) MaxUsernameLength in
  refuse username = ""
    by sendError c "invalid_username" "Username is invalid" w in
  let '(code, exists_) := draw_code (rooms (w_srv w)) (e_roomCode e) 0 maxRetries "" false in
  refuse code = "" ∨ exists_ = true
    by sendError c "server_error" "Failed to create room" w in
  refuse MaxRooms ≤ room_count (w_srv w)
    by sendError c "room_limit_reached" "Server is at room capacity" w in
  let '(allowed, w) := room_create_allowed (e_now e) c w in
  refuse allowed = false
    by sendError c "rate_limited" "Too many rooms created; try again in a minute" w in
  openRoom e c code username w.

Definition handleJoinRoom (c : ClientRef) (payload : string) (w : World) : World :=
  need p := decodePayload asJoinRoom payload MsgTypeJoinRoom
    orelse sendError c "invalid_payload" "Invalid join room payload" w in
  refuse jrp_Username p = ""
    by sendError c "missing_username" "Username is required" w in
  refuse is_Some (currentRoom c w)
    by sendError c "already_in_room" "Leave the current room before joining another" w in
  refuse is_Some (currentPendingRoom c w)
    by sendError c "already_pending" "You already have a pending join request" w in
  let username := sanitizeString (jrp_Username p) MaxUsernameLength in
  refuse username = ""
    by sendError c "invalid_username" "Username is invalid" w in
  refuse jrp_RoomCode p = ""
    by sendError c "missing_room_code" "Room code is required" w in
  let code := sanitizeString (ToUpper (jrp_RoomCode p)) MaxRoomCodeLength in
  refuse code = ""
    by sendError c "invalid_room_code" "Room code is invalid" w in
  need r := rooms (w_srv w) !! code
    orelse sendError c "room_not_found" "Room not found" w in
  let w := setUsername c username w in
  let id := clientID c w in
  let room := getRoom r w in
  refuse is_Some (Clients room !! id)
    by sendError c "already_in_room" "You are already in this room" w in
  refuse is_Some (PendingJoins room !! id)
    by sendError c "already_pending" "Your join request is already pending" w in
  refuse MaxClientsPerRoom ≤ roomMembersLocked room
    by sendError c "room_full" "Room is full" w in
  refuse MaxPendingJoins ≤ map_len (PendingJoins room)
    by sendError c "too_many_pending" "Too many pending join requests" w in
  refuse rs_HostID (State room) = ""
    by sendError c "room_invalid" "Room is no longer valid" w in
  let '(pending, w) := trySetPendingRoom c r w in
  refuse pending = false
    by sendError c "already_pending" "You already have a pending join request" w in
  let w := setRoom r (λ room, room <| PendingJoins := <[id := c]> (PendingJoins room) |>) w in
  match connected_host room with
  | Some host => sendMessage host MsgTypeJoinRequest (PJoinRequest (mkJoinRequestPayload id username)) w
  | None => w
  end.

End Joining.

(** ** The host's decisions *)

Section Deciding.
Context `{WireFormat}.

(** Removing an application that can no longer be granted. *)
Definition dropPending (r : RoomRef) (userID : string) (c : ClientRef) (w : World) : World :=
  clearPendingRoom c r
    (setRoom r (λ room, room <| PendingJoins := delete userID (PendingJoins room) |>) w).

(** The room with a new, connected member. *)
Definition seat (id username : string) (c : ClientRef) (room : Room) : Room :=
  room <| Clients := <[id := c]> (Clients room) |> <| EmptySince := None |>
    <| State := (State room) <| rs_Users ::= λ us, us ++ [mkUserInfo id username false true] |> |>.

Definition handleApproveJoin (e : Env) (c : ClientRef) (payload : string) (w : World) : World :=
  need p := decodePayload asApproveJoin payload MsgTypeApproveJoin
    orelse sendError c "invalid_payload" "Invalid approve join payload" w in
  let userID := ajp_UserID p in
  refuse userID = ""
    by sendError c "missing_user_id" "User ID is required" w in
  need r := currentRoom c w
    orelse sendError c "not_in_room" "You are not in a room" w in
  refuse ¬ is_room_host (getRoom r w) c
    by sendError c "not_host" "Only the host can approve join requests" w in
  need joining := PendingJoins (getRoom r w) !! userID
    orelse sendError c "join_request_not_found" "Join request not found" w in
  refuse isClosed joining w = true
    by sendError c "user_disconnected" "User has disconnected" (dropPending r userID joining w) in
  refuse MaxClientsPerRoom ≤ roomMembersLocked (getRoom r w)
    by sendError c "room_full" "Room is full" w in
  let '(seated, w) := trySetRoom joining r w in
  refuse seated = false
    by sendError c "user_unavailable" "User already joined another room" (dropPending r userID joining w) in
  let joiningID := clientID joining w in
  let joiningUsername := userName joining w in
  let joiningToken := e_token e in
  let w := dropPending r userID joining w in
  let w := setSessionToken joining joiningToken w in
  let w := setRoom r (seat joiningID joiningUsername joining) w in
  let room := getRoom r w in
  let state := cloneLiveRoomState (State room) (e_nowMs e) in
  let others := filter (λ d, clientID d w ≠ joiningID) (roomClientsLocked room) in
  let w := sendMessage joining MsgTypeJoinApproved (PJoinApproved
    (mkJoinApprovedPayload (Code room) joiningID joiningToken (Some state))) w in
  let w := sendPolicyQueueSnapshot joining state w in
  sendMessageToClients others MsgTypeUserJoined
    (PUserJoined (mkUserJoinedPayload joiningID joiningUsername)) w.

Definition reason_or (reason fallback : string) : string :=
  let reason := sanitizeString reason reasonLength in
  if decide (reason = "") then fallback else reason.

Definition handleRejectJoin (c : ClientRef) (payload : string) (w : World) : World :=
  need p := decodePayload asRejectJoin payload MsgTypeRejectJoin
    orelse sendError c "invalid_payload" "Invalid reject join payload" w in
  let userID := rjp_UserID p in
  refuse userID = ""
    by sendError c "missing_user_id" "User ID is required" w in
  need r := currentRoom c w
    orelse sendError c "not_in_room" "You are not in a room" w in
  refuse ¬ is_room_host (getRoom r w) c
    by sendError c "not_host" "Only the host can reject join requests" w in
  need joining := PendingJoins (getRoom r w) !! userID
    orelse sendError c "join_request_not_found" "Join request not found" w in
  let reason := reason_or (rjp_Reason p) "Join request rejected by host" in
  let w := sendMessage joining MsgTypeJoinRejected (PJoinRejected (mkJoinRejectedPayload reason)) w in
  dropPending r userID joining w.

(** The two ways to remove a member: a connected one is told and released, an
    offline one loses the session too. *)
Definition kickConnected (r : RoomRef) (userID reason : string) (target : ClientRef) (w : World) : World :=
  let w := sendMessage target MsgTypeKicked (PKicked (mkKickedPayload reason)) w in
  let w := clearRoom target r w in
  setRoom r (λ room, room <| Clients := delete userID (Clients room) |>) w.
Definition kickOffline (r : RoomRef) (userID : string) (w : World) : World :=
  let w := setRoom r (λ room, room <| DisconnectedUsers := delete userID (DisconnectedUsers room) |>) w in
  dropSessions (λ s, se_RoomCode s = Code (getRoom r w) ∧ se_UserID s = userID) w.

Definition handleKickUser (c : ClientRef) (payload : string) (w : World) : World :=
  need p := decodePayload asKickUser payload MsgTypeKickUser
    orelse sendError c "invalid_payload" "Invalid kick user payload" w in
  let userID := kup_UserID p in
  refuse userID = ""
    by sendError c "missing_user_id" "User ID is required" w in
  need r := currentRoom c w
    orelse sendError c "not_in_room" "You are not in a room" w in
  let room := getRoom r w in
  refuse ¬ is_room_host room c
    by sendError c "not_host" "Only the host can kick users" w in
  refuse userID = clientID c w
    by sendError c "cannot_kick_self" "You cannot kick yourself" w in
  let reason := reason_or (kup_Reason p) "You have been kicked from the room" in
  let finish := λ (username : string) (w : World),
    let w := setRoom r (forget_user userID) w in
    sendMessageToClients (roomClientsLocked (getRoom r w)) MsgTypeUserLeft
      (PUserLeft (mkUserLeftPayload userID username)) w in
  match Clients room !! userID, DisconnectedUsers room !! userID with
  | Some target, _ => finish (userName target w) (kickConnected r userID reason target w)
  | None, Some s => finish (se_Username (getSession s w)) (kickOffline r userID w)
  | None, None => sendError c "user_not_found" "User not found in room" w
  end.

Definition handleTransferHost (c : ClientRef) (payload : string) (w : World) : World :=
  need p := decodePayload asTransferHost payload MsgTypeTransferHost
    orelse sendError c "invalid_payload" "Invalid transfer host payload" w in
  let newHostID := thp_NewHostID p in
  refuse newHostID = ""
    by sendError c "missing_user_id" "New host user ID is required" w in
  need r := currentRoom c w
    orelse sendError c "not_in_room" "You are not in a room" w in
  refuse ¬ is_room_host (getRoom r w) c
    by sendError c "not_host" "Only the host can transfer ownership" w in
  refuse newHostID = clientID c w
    by sendError c "cannot_transfer_to_self" "You are already the host" w in
  need target := Clients (getRoom r w) !! newHostID
    orelse sendError c "user_not_found" "Target user not found in room" w in
  refuse isClosed target w = true
    by sendError c "user_not_found" "Target user not found in room" w in
  refuse ¬ canHostClient target w
    by sendError c "host_not_allowed" "That user's client is not allowed to host rooms" w in
  let w := setRoom r (λ room, room <| OwnerID := "" |>) w in
  let '(change, w) := assignHostLocked r (Some target) w in
  deliverHostChange (roomClientsLocked (getRoom r w)) (Some change) w.

(** ** Leaving *)

(** The member's seat and everything kept for them. *)
Definition unseat (id : string) (room : Room) : Room :=
  forget_user id (room <| Clients := delete id (Clients room) |>
    <| PendingJoins := delete id (PendingJoins room) |>
    <| DisconnectedUsers := delete id (DisconnectedUsers room) |>).

Definition drop_token (token : string) (w : World) : World :=
  if decide (token = "") then w
  else setServer (λ srv, srv <| sessions := delete token (sessions srv) |>) w.

(** Electing a successor where one is needed, telling the rest, and closing
    the room if nobody can host it: shared with the expiry of a session. *)
Definition announce_departure (r : RoomRef) (elect : bool) (id username : string)
    (before_telling : World → World) (w : World) : World :=
  let '(change, w) :=
    if elect then
      let '(change, w) := assignHostLocked r (pickDeputy (Clients (getRoom r w)) w) w in
      (Some change, w)
    else (None, w) in
  let dead := bool_decide (hostlessDeadLocked (getRoom r w)) in
  let others := roomClientsLocked (getRoom r w) in
  let w := before_telling w in
  let w := sendMessageToClients others MsgTypeUserLeft (PUserLeft (mkUserLeftPayload id username)) w in
  let w := deliverHostChange others change w in
  if dead then closeRoom r noHostLeftReason w else w.

Definition leaveSeat (e : Env) (c : ClientRef) (r : RoomRef) (w : World) : World :=
  let id := clientID c w in
  let username := userName c w in
  let token := session c w in
  refuse Clients (getRoom r w) !! id ≠ Some c by clearRoom c r w in
  let wasHost := bool_decide (Host (getRoom r w) = Some c) in
  let w := setRoom r (unseat id) w in
  let w := clearRoom c r w in
  if decide (room_empty (getRoom r w)) then
    let w := setRoom r (λ room, room <| EmptySince := Some (e_now e) |>) w in
    let w := drop_token token w in
    (deleteRoomIfEmpty r w).2
  else announce_departure r wasHost id username (drop_token token) w.

Definition leaveRoom (e : Env) (c : ClientRef) (w : World) : World :=
  match currentRoom c w with
  | Some r => leaveSeat e c r w
  | None =>
    let w := removePendingJoin c w in
    match currentRoom c w with
    | None => setClientID c (e_userID e) w
    | Some r => leaveSeat e c r w
    end
  end.

End Deciding.
