(* ===== verification/Lifecycle.v ===== *)
(** Lifecycle: [src/internal/server/lifecycle.go].

    A member who loses the connection keeps the seat for
    [ReconnectGracePeriod]: [handleClientDisconnect] turns the seat into a
    session, [handleReconnect] turns it back, [cleanupExpiredSessionsOnce]
    gives it up, and [cleanupEmptyRoomsOnce] removes rooms nobody returned to.
    [handleReconnect] is split where the source releases its locks: claiming
    the session, and the critical section that consumes it. *)

From S2P Require Import Prelude Protocol Utf8 Validation UAPolicy World Client Hosts Playback Limits Members Rooms.

Definition asReconnect (p : Payload) := match p with PReconnect p => Some p | _ => None end.

(** [now.After(s.startTime.Add(MinRoomRetentionAfterRestart))] *)
Definition past_retention (now : Time) (s : Server) : Prop :=
  startTime s + MinRoomRetentionAfterRestart < now.
#[export] Instance past_retention_dec now s : Decision (past_retention now s) := Z_lt_dec _ _.

Definition session_expired (now : Time) (s : Session) : Prop :=
  ReconnectGracePeriod < Sub now (se_DisconnectAt s).
#[export] Instance session_expired_dec now s : Decision (session_expired now s) := Z_lt_dec _ _.

Section Expiry.
Context `{WireFormat}.

(** ** Sessions that ran out *)

Definition expireSession (r : RoomRef) (s : SessionRef) (pastRetention : bool) (w : World) : World :=
  let id := se_UserID (getSession s w) in
  let username := se_Username (getSession s w) in
  match DisconnectedUsers (getRoom r w) !! id with
  | None => w
  | Some _ =>
    let w := setRoom r (λ room, forget_user id
      (room <| DisconnectedUsers := delete id (DisconnectedUsers room) |>)) w in
    let elect := bool_decide (rs_HostID (State (getRoom r w)) = id) in
    if decide (room_empty (getRoom r w) ∧ pastRetention = true) then
      let w := if elect then (assignHostLocked r (pickDeputy (Clients (getRoom r w)) w) w).2 else w in
      (deleteRoomIfEmpty r w).2
    else announce_departure r elect id username (λ w, w) w
  end.

Definition expire_one (now : Time) (w : World) (s : SessionRef) : World :=
  match rooms (w_srv w) !! se_RoomCode (getSession s w) with
  | None => w
  | Some r => expireSession r s (bool_decide (past_retention now (w_srv w))) w
  end.
Definition cleanupExpiredSessionsOnce (now : Time) (w : World) : World :=
  let expired := filter (λ s, session_expired now (getSession s w)) ((map_to_list (sessions (w_srv w))).*2) in
  let w := dropSessions (session_expired now) w in
  foldl (expire_one now) w expired.

(** ** Empty rooms *)

Definition cleanup_room (now : Time) (w : World) (r : RoomRef) : World :=
  let room := getRoom r w in
  if decide (room_empty room) then
    match EmptySince room with
    | None => setRoom r (λ room, room <| EmptySince := Some now |>) w
    | Some since =>
      if decide (EmptyRoomCleanupTimeout < Sub now since ∧ past_retention now (w_srv w))
      then (deleteRoomIfEmpty r w).2 else w
    end
  else w.
Definition cleanupEmptyRoomsOnce (now : Time) (w : World) : World :=
  foldl (cleanup_room now) w ((map_to_list (rooms (w_srv w))).*2).

(** ** Disconnecting *)

(** The seat of a member who lost the connection. *)
Definition unplug (now : Time) (id : string) (s : SessionRef) (wasHost : bool) (room : Room) : Room :=
  let room := room <| Clients := delete id (Clients room) |>
    <| DisconnectedUsers := <[id := s]> (DisconnectedUsers room) |>
    <| State := (State room) <| rs_Users ::= setConnected id false |> |> in
  let room := if wasHost then room <| Host := None |> <| HostDisconnectedAt := Some now |> else room in
  room <| EmptySince := None |>.

(** The member's token, generated if the client has none. *)
Definition ensure_token (e : Env) (c : ClientRef) (w : World) : string * World :=
  let token := session c w in
  if decide (token = "") then (e_token e, setSessionToken c (e_token e) w) else (token, w).

Definition handleClientDisconnect (e : Env) (c : ClientRef) (w : World) : World :=
  match currentRoom c w with
  | None => w
  | Some r =>
    let id := clientID c w in
    let username := userName c w in
    let '(token, w) := ensure_token e c w in
    refuse Clients (getRoom r w) !! id ≠ Some c by clearRoom c r w in
    let wasHost := bool_decide (Host (getRoom r w) = Some c) in
    let '(s, w) := newSession
      (mkSession id username (Code (getRoom r w)) wasHost (e_now e) false) w in
    let w := setRoom r (unplug (e_now e) id s wasHost) w in
    let w := clearRoom c r w in
    let w := setServer (λ srv, srv <| sessions := <[token := s]> (sessions srv) |>) w in
    sendMessageToClients (roomClientsLocked (getRoom r w)) MsgTypeUserDisconnected
      (PUserDisconnected (mkUserDisconnectedPayload id username)) w
  end.

Definition removeClient (e : Env) (c : ClientRef) (w : World) : World :=
  let w := setServer (λ srv, srv <| clients := clients srv ∖ {[c]} |>) w in
  let w := setClient c closeSend w in
  match currentRoom c w with
  | Some _ => handleClientDisconnect e c w
  | None =>
    let w := removePendingJoin c w in
    match currentRoom c w with
    | Some _ => handleClientDisconnect e c w
    | None => w
    end
  end.

(** ** Reconnecting *)

(** A connection other than [c] that still holds the token and a seat. *)
Definition holds_token (c : ClientRef) (token : string) (w : World) (d : ClientRef) : Prop :=
  d ≠ c ∧ session d w = token ∧ is_Some (currentRoom d w).
#[export] Instance holds_token_dec c token w d : Decision (holds_token c token w d).
Proof. unfold holds_token. apply _. Defined.

Definition replaceLiveSession (e : Env) (c : ClientRef) (token : string) (w : World) : bool * World :=
  match list_find (holds_token c token w) (elements (clients (w_srv w))) with
  | None => (false, w)
  | Some (_, old) =>
    let w := handleClientDisconnect e old w in
    let w := setClient old closeSend w in
    (true, setClient old (λ cl, cl <| c_ConnOpen := false |>) w)
  end.

(** [claim]: the session, marked as taken, or the failure. *)
Definition claim (e : Env) (c : ClientRef) (token : string) (w : World) : (string + SessionRef) * World :=
  match sessions (w_srv w) !! token with
  | None => (inl "session_not_found", w)
  | Some s =>
    let se := getSession s w in
    if se_claimed se then (inl "session_not_found", w)
    else if decide (session_expired (e_now e) se) then (inl "session_expired", w)
    else if decide (se_IsHost se = true ∧ ¬ canHostClient c w) then (inl "host_not_allowed", w)
    else (inr s, setSession s (λ se, se <| se_claimed := true |>) w)
  end.

Definition unclaim (s : SessionRef) (w : World) : World :=
  setSession s (λ se, se <| se_claimed := false |>) w.

(** The seat handed back. *)
Definition replug (id : string) (c : ClientRef) (room : Room) : Room :=
  room <| Clients := <[id := c]> (Clients room) |>
    <| DisconnectedUsers := delete id (DisconnectedUsers room) |> <| EmptySince := None |>
    <| State := (State room) <| rs_Users ::= setConnected id true |> |>.

(** The seat is still theirs, a deputy has it, or nobody does. *)
Definition takes_host (id : string) (c : ClientRef) (room : Room) (w : World) : Prop :=
  canHostClient c w ∧
  (rs_HostID (State room) = id ∨ OwnerID room = id ∨ (Host room = None ∧ rs_HostID (State room) = "")).
#[export] Instance takes_host_dec id c room w : Decision (takes_host id c room w).
Proof. unfold takes_host. apply _. Defined.

Definition reclaim_host (r : RoomRef) (id : string) (c : ClientRef) (w : World)
    : option hostChange * World :=
  if decide (takes_host id c (getRoom r w) w) then
    let '(change, w) := assignHostLocked r (Some c) w in
    (Some change, setRoom r (λ room, if decide (OwnerID room = id)
                                     then room <| OwnerID := "" |> else room) w)
  else (None, w).

(** The member's seat and identity restored on connection [c], the token spent. *)
Definition readmit (c : ClientRef) (token : string) (s : SessionRef) (r : RoomRef) (w : World)
    : option hostChange * World :=
  let id := se_UserID (getSession s w) in
  let w := setServer (λ srv, srv <| sessions := delete token (sessions srv) |>) w in
  let w := setSessionToken c token
    (setUsername c (se_Username (getSession s w)) (setClientID c id w)) in
  let w := setRoom r (replug id c) w in
  reclaim_host r id c w.

(** What the member and the others are told. *)
Definition welcome_back (e : Env) (c : ClientRef) (r : RoomRef) (change : option hostChange) (w : World)
    : World :=
  let id := clientID c w in
  let room := getRoom r w in
  let liveState := cloneLiveRoomState (State room) (e_nowMs e) in
  let isHost := bool_decide (Host room = Some c) in
  let notices := notices_of room id in
  let w := setRoom r (λ room, room <| PendingNotices := delete id (PendingNotices room) |>) w in
  let others := filter (λ d, d ≠ c) (roomClientsLocked room) in
  let w := reply c MsgTypeReconnected
    (Some (PReconnected (mkReconnectedPayload (Code room) id (Some liveState) isHost))) w in
  let w := sendPolicyQueueSnapshot c liveState w in
  let w := foldl (λ w n, sendMessage c (pn_MsgType n) (pn_Payload n) w) w notices in
  let w := sendMessageToClients others MsgTypeUserReconnected
    (PUserReconnected (mkUserReconnectedPayload id (userName c w))) w in
  match change with
  | None => w
  | Some change =>
    let w := match hc_announce change with
      | Some a => sendMessageToClients others MsgTypeHostChanged (PHostChanged a) w
      | None => w
      end in
    replayHostWork (Some c) (hc_joins change) (hc_suggestions change) w
  end.

(** The critical section that consumes a claimed session of room [r]. *)
Definition resume (e : Env) (c : ClientRef) (token : string) (s : SessionRef) (r : RoomRef) (w : World)
    : World :=
  let id := se_UserID (getSession s w) in
  let room := getRoom r w in
  refuse sessions (w_srv w) !! token ≠ Some s ∨ DisconnectedUsers room !! id = None ∨
         Clients room !! id ≠ None
    by unclaim s (sendError c "session_not_found" "Session is no longer reconnectable" w) in
  let '(seated, w) := trySetRoom c r w in
  refuse seated = false
    by unclaim s (sendError c "already_in_room" "Leave the current room before reconnecting" w) in
  let '(change, w) := readmit c token s r w in
  welcome_back e c r change w.

(** What follows a successful claim: another critical section, so others may
    have acted in between. *)
Definition finish_reconnect (e : Env) (c : ClientRef) (token : string) (s : SessionRef) (w : World) : World :=
  match rooms (w_srv w) !! se_RoomCode (getSession s w) with
  | None =>
    let w := setServer (λ srv, srv <| sessions := delete token (sessions srv) |>) w in
    unclaim s (sendError c "room_not_found" "Room no longer exists" w)
  | Some r => resume e c token s r w
  end.

Definition claim_failure (code : string) : string :=
  if decide (code = "session_not_found") then "Session not found or expired"
  else if decide (code = "session_expired") then "Session has expired"
  else "This client is not allowed to host rooms".

Definition handleReconnect (e : Env) (c : ClientRef) (payload : string) (w : World) : World :=
  need p := decodePayload asReconnect payload MsgTypeReconnect
    orelse sendError c "invalid_payload" "Invalid reconnect payload" w in
  let token := rcn_SessionToken p in
  refuse token = ""
    by sendError c "missing_session_token" "Session token is required" w in
  refuse is_Some (currentRoom c w)
    by sendError c "already_in_room" "Leave the current room before reconnecting" w in
  refuse is_Some (currentPendingRoom c w)
    by sendError c "already_pending" "Cancel the pending join request before reconnecting" w in
  let '(outcome, w) :=
    let '(outcome, w) := claim e c token w in
    if decide (outcome = inl "session_not_found") then
      let '(replaced, w) := replaceLiveSession e c token w in
      if replaced then claim e c token w else (outcome, w)
    else (outcome, w) in
  match outcome with
  | inl code => sendError c code (claim_failure code) w
  | inr s => finish_reconnect e c token s w
  end.

End Expiry.
