(* ===== verification/RoomOk.v ===== *)
(** RoomOk: what holds inside every room the server knows.

    The user list names exactly the members, connected or away, with the right
    flags; the host is a connected member whose client may host, or away with
    the seat reserved, or there is none; an owner waiting to reclaim the room
    is away; suggestions and notices belong to members; every limit is kept.
    The lemmas show what each update of a room does to this; they are pure
    facts about [Room] values. *)

From S2P Require Import Prelude Protocol Utf8 Validation UAPolicy World Client Hosts Playback Limits Members Rooms Lifecycle.

Definition user_ids (room : Room) : list string := ui_UserID <$> rs_Users (State room).
Definition is_member (id : string) (room : Room) : Prop :=
  is_Some (Clients room !! id) ∨ is_Some (DisconnectedUsers room !! id).

(** The user list and the seats. *)
Record members_ok (room : Room) : Prop := {
  mb_nodup : NoDup (user_ids room);
  mb_users id : id ∈ user_ids room ↔ is_member id room;
  mb_apart id c : Clients room !! id = Some c → DisconnectedUsers room !! id = None;
  mb_connected u : u ∈ rs_Users (State room) →
    ui_IsConnected u = bool_decide (is_Some (Clients room !! ui_UserID u));
  mb_named : "" ∉ user_ids room;
  mb_bound : roomMembersLocked room ≤ MaxClientsPerRoom
}.

Section Host.
(** Which clients may host, and which sessions were a host's. *)
Context (can : ClientRef → Prop) (hosted : SessionRef → Prop).

Definition host_seat_ok (room : Room) : Prop :=
  match Host room, HostDisconnectedAt room with
  | Some h, None => Clients room !! rs_HostID (State room) = Some h ∧ can h
  | Some _, Some _ => False
  | None, None => rs_HostID (State room) = ""
  | None, Some _ => ∃ s, DisconnectedUsers room !! rs_HostID (State room) = Some s ∧ hosted s
  end.
Definition owner_ok (room : Room) : Prop :=
  OwnerID room = "" ∨ ∃ s, DisconnectedUsers room !! OwnerID room = Some s ∧ hosted s.
Definition flags_ok (room : Room) : Prop :=
  ∀ u, u ∈ rs_Users (State room) → ui_IsHost u = bool_decide (ui_UserID u = rs_HostID (State room)).

Record host_ok (room : Room) : Prop := {
  ho_seat : host_seat_ok room;
  ho_flags : flags_ok room
}.

End Host.

(** What is kept on behalf of members, and the limits. *)
Record extras_ok (room : Room) : Prop := {
  ex_joins : map_len (PendingJoins room) ≤ MaxPendingJoins;
  ex_suggestions : map_len (PendingSuggestions room) ≤ MaxPendingSuggestions;
  ex_mine id : Z.of_nat (length (suggestions_of id room)) ≤ MaxSuggestionsPerUser;
  ex_authors k sg : PendingSuggestions room !! k = Some sg →
    is_member (sg_FromUserID sg) room ∧ tracks_ok (option_list (sg_Track sg)) ∧ sg_ID sg = k;
  ex_notices id ns : PendingNotices room !! id = Some ns →
    is_Some (DisconnectedUsers room !! id) ∧ Z.of_nat (length ns) ≤ MaxSuggestionsPerUser
}.

Record room_ok (can : ClientRef → Prop) (hosted : SessionRef → Prop) (room : Room) : Prop := {
  rk_code : rs_RoomCode (State room) = Code room;
  rk_members : members_ok room;
  rk_host : host_ok can hosted room;
  rk_owner : owner_ok hosted room;
  rk_extras : extras_ok room;
  rk_state : state_ok (State room)
}.

(** A room all of whose parts are right except, perhaps, who hosts it. *)
Record room_but_host (hosted : SessionRef → Prop) (room : Room) : Prop := {
  bh_code : rs_RoomCode (State room) = Code room;
  bh_members : members_ok room;
  bh_owner : owner_ok hosted room;
  bh_extras : extras_ok room;
  bh_state : state_ok (State room)
}.

Lemma room_ok_but_host can hosted room : room_ok can hosted room → room_but_host hosted room.
Proof. intros []. by split. Qed.
Lemma but_host_room_ok can hosted room :
  room_but_host hosted room → host_ok can hosted room → room_ok can hosted room.
Proof. intros [] ?. by split. Qed.

(** ** Lemmas: the user list *)

Lemma withoutUser_ids users id : ui_UserID <$> withoutUser users id = filter (λ x, x ≠ id) (ui_UserID <$> users).
Proof.
  unfold withoutUser. induction users as [|u users IH]; [done|]. rewrite fmap_cons, !filter_cons.
  case_decide; cbn; by rewrite IH.
Qed.

Lemma setConnected_ids id b users : ui_UserID <$> setConnected id b users = ui_UserID <$> users.
Proof. induction users as [|u users IH]; [done|]. cbn. case_decide; cbn; [done|by rewrite IH]. Qed.

(** With distinct IDs the loop that stops at the first match reaches the only one. *)
Lemma setConnected_elem id b users u :
  NoDup (ui_UserID <$> users) →
  u ∈ setConnected id b users ↔
    ∃ u0, u0 ∈ users ∧ u = if decide (ui_UserID u0 = id) then u0 <| ui_IsConnected := b |> else u0.
Proof.
  induction users as [|v users IH]; cbn; intros Hnd.
  { split; [by intros ?%elem_of_nil|by intros (? & ?%elem_of_nil & _)]. }
  apply NoDup_cons in Hnd as [Hv Hnd]. specialize (IH Hnd). case_decide as Hd.
  - rewrite elem_of_cons. setoid_rewrite elem_of_cons. split.
    + intros [->|Hin]; [exists v; rewrite decide_True by done; auto|].
      exists u. split; [auto|]. rewrite decide_False; [done|]. intros Hx. apply Hv.
      rewrite Hd, <- Hx. by apply list_elem_of_fmap_2.
    + intros (u0 & [->|Hin] & ->); [rewrite decide_True by done; auto|].
      rewrite decide_False; [auto|]. intros Hx. apply Hv. rewrite Hd, <- Hx. by apply list_elem_of_fmap_2.
  - rewrite elem_of_cons, IH. setoid_rewrite elem_of_cons. split.
    + intros [->|(u0 & ? & ->)]; [exists v; rewrite decide_False by done; auto|eauto].
    + intros (u0 & [->|Hin] & ->); [rewrite decide_False by done; auto|eauto].
Qed.

Lemma map_len_pos {A} (m : gmap string A) : 0 ≤ map_len m.
Proof. unfold map_len. lia. Qed.
Lemma map_len_delete {A} (m : gmap string A) k : map_len (delete k m) ≤ map_len m.
Proof. unfold map_len. pose proof (size_delete_le m k). lia. Qed.
Lemma map_len_delete_in {A} (m : gmap string A) k x : m !! k = Some x → map_len (delete k m) = map_len m - 1.
Proof.
  intros Hk. unfold map_len. rewrite map_size_delete, Hk. cbn.
  assert (size m ≠ 0%nat); [|lia]. intros Hz%map_size_empty_inv. subst. by rewrite lookup_empty in Hk.
Qed.
Lemma map_len_insert {A} (m : gmap string A) k x : map_len (<[k := x]> m) ≤ map_len m + 1.
Proof. unfold map_len. pose proof (size_insert_le m k x). lia. Qed.

(** ** A member is removed *)

(** The seat of [id] and everything kept for it is gone; the host may change
    afterwards. *)
Record removed (id : string) (room room' : Room) : Prop := {
  rv_code : Code room' = Code room;
  rv_clients : Clients room' = delete id (Clients room);
  rv_away : DisconnectedUsers room' = delete id (DisconnectedUsers room);
  rv_joins : map_len (PendingJoins room') ≤ map_len (PendingJoins room);
  rv_state : State room' = (State room) <| rs_Users := withoutUser (rs_Users (State room)) id |>;
  rv_owner : OwnerID room' = if decide (OwnerID room = id) then "" else OwnerID room;
  rv_suggestions : PendingSuggestions room' =
    filter (λ e, sg_FromUserID e.2 ≠ id) (PendingSuggestions room);
  rv_notices : PendingNotices room' = delete id (PendingNotices room);
  rv_host : (Host room', HostDisconnectedAt room') = (Host room, HostDisconnectedAt room)
}.

Lemma suggestions_of_filter id (P : string * Suggestion → Prop) `{!∀ e, Decision (P e)} room room' :
  PendingSuggestions room' = filter P (PendingSuggestions room) →
  (length (suggestions_of id room') ≤ length (suggestions_of id room))%nat.
Proof.
  intros Hs. unfold suggestions_of. rewrite Hs. apply submseteq_length.
  assert ((map_to_list (filter P (PendingSuggestions room))).*2 ⊆+ (map_to_list (PendingSuggestions room)).*2) as Hsub.
  { apply fmap_submseteq, map_to_list_submseteq, map_filter_subseteq. }
  revert Hsub. generalize ((map_to_list (filter P (PendingSuggestions room))).*2).
  generalize ((map_to_list (PendingSuggestions room)).*2). intros l k.
  induction 1 as [|x k l Hkl IH|x y l|x k l Hkl IH|k1 k2 k3 H1 IH1 H2 IH2]; [done| | | |by etrans].
  - rewrite !filter_cons. case_decide; [by apply submseteq_skip|done].
  - rewrite !filter_cons. repeat case_decide; try done. apply submseteq_swap.
  - rewrite filter_cons. case_decide; [by apply submseteq_cons|done].
Qed.

Lemma removed_members id room room' : removed id room room' → members_ok room → members_ok room'.
Proof.
  intros [Hco Hcl Haw _ Hst _ _ _ _] [Hnd Hus Hap Hcn Hnm Hbd]. unfold user_ids in *.
  split; unfold user_ids, is_member, roomMembersLocked; rewrite ?Hcl, ?Haw, ?Hst; cbn.
  - rewrite withoutUser_ids. by apply NoDup_filter.
  - intros x. rewrite withoutUser_ids, list_elem_of_filter, Hus. unfold is_member.
    destruct (decide (x = id)) as [->|Hne].
    + rewrite !lookup_delete_eq. split; [naive_solver|]. by intros [[? ?]|[? ?]].
    + rewrite !lookup_delete_ne by done. naive_solver.
  - intros x c [? Hx]%lookup_delete_Some. apply lookup_delete_None. right. by eapply Hap.
  - intros u [Hne Hu]%list_elem_of_filter. rewrite lookup_delete_ne by done. by apply Hcn.
  - rewrite withoutUser_ids, list_elem_of_filter. naive_solver.
  - unfold roomMembersLocked in Hbd. pose proof (map_len_delete (Clients room) id).
    pose proof (map_len_delete (DisconnectedUsers room) id). lia.
Qed.

Lemma removed_extras id room room' : removed id room room' → extras_ok room → extras_ok room'.
Proof.
  intros [_ Hcl Haw Hpj _ _ Hsg Hno _] [Hj Hs Hm Hau Hn].
  split; rewrite ?Hsg, ?Hno, ?Haw.
  - lia.
  - unfold map_len in *.
    pose proof (map_subseteq_size _ _ (map_filter_subseteq (λ e : string * Suggestion, sg_FromUserID e.2 ≠ id) (PendingSuggestions room))). lia.
  - intros x. pose proof (suggestions_of_filter x _ room room' Hsg). specialize (Hm x). lia.
  - intros k sg [Hk Hne]%map_lookup_filter_Some. cbn in Hne. destruct (Hau _ _ Hk) as [Hmem ?]. split; [|done].
    unfold is_member in *. rewrite Hcl, Haw, !lookup_delete_ne by done. done.
  - intros x ns [Hne Hx]%lookup_delete_Some. rewrite lookup_delete_ne by done. by eapply Hn.
Qed.

Lemma removed_but_host hosted id room room' :
  removed id room room' → room_but_host hosted room → room_but_host hosted room'.
Proof.
  intros Hrm [Hc Hm Ho He Hs]. pose proof Hrm as [Hco Hcl Haw _ Hst How _ _ _]. split.
  - by rewrite Hst, Hco.
  - by eapply removed_members.
  - unfold owner_ok. rewrite How, Haw. case_decide; [by left|]. destruct Ho as [?|(s & Hx & ?)]; [by left|].
    right. exists s. by rewrite lookup_delete_ne.
  - by eapply removed_extras.
  - rewrite Hst. destruct Hs. by split.
Qed.

(** Removing anybody but the host leaves the host in place. *)
Lemma removed_host can hosted id room room' :
  removed id room room' → rs_HostID (State room) ≠ id → host_ok can hosted room → host_ok can hosted room'.
Proof.
  intros [_ Hcl Haw _ Hst _ _ _ Hh] Hne [Hse Hfl]. injection Hh as Hh Hd. split.
  - unfold host_seat_ok in *. rewrite Hh, Hd, Hcl, Haw, Hst. cbn.
    destruct (Host room), (HostDisconnectedAt room); try done.
    + by rewrite lookup_delete_ne.
    + destruct Hse as (s & ? & ?). exists s. by rewrite lookup_delete_ne.
  - intros u. rewrite Hst. cbn. intros [_ Hu]%list_elem_of_filter. by apply Hfl.
Qed.

(** ** The host is assigned *)

Lemma room_with_host_but_host hosted host id room :
  room_but_host hosted room → room_but_host hosted (room_with_host host id room).
Proof.
  intros [Hc [Hnd Hus Hap Hcn Hnm Hbd] Ho [] []].
  assert (user_ids (room_with_host host id room) = user_ids room) as Hids.
  { unfold user_ids. cbn. rewrite <- list_fmap_compose. done. }
  split; [done| |done|by split|by split].
  split; rewrite ?Hids; try done. cbn. intros u (u0 & -> & Hu)%list_elem_of_fmap. exact (Hcn u0 Hu).
Qed.

Lemma room_with_host_flags host id room :
  "" ∉ user_ids room → flags_ok (room_with_host host id room).
Proof.
  intros Hnm u. cbn. intros (u0 & -> & Hu)%list_elem_of_fmap. cbn. apply bool_decide_ext.
  split; [naive_solver|]. intros Hx. split; [|done]. intros ->. apply Hnm. rewrite <- Hx.
  by apply list_elem_of_fmap_2.
Qed.

Lemma assigned_ok can hosted h id room :
  room_but_host hosted room → Clients room !! id = Some h → can h →
  room_ok can hosted (room_with_host (Some h) id room).
Proof.
  intros Hb Hcl Hc. apply but_host_room_ok; [by apply room_with_host_but_host|].
  split; [by split|]. apply room_with_host_flags, (mb_named _ (bh_members _ _ Hb)).
Qed.

Lemma unassigned_ok can hosted room :
  room_but_host hosted room → room_ok can hosted (room_with_host None "" room).
Proof.
  intros Hb. apply but_host_room_ok; [by apply room_with_host_but_host|].
  split; [done|]. apply room_with_host_flags, (mb_named _ (bh_members _ _ Hb)).
Qed.

(** ** Members arrive *)

(** The host's ID is a member's, or empty. *)
Lemma host_member can hosted room :
  host_ok can hosted room → rs_HostID (State room) = "" ∨ is_member (rs_HostID (State room)) room.
Proof.
  intros [Hse _]. unfold host_seat_ok in Hse. unfold is_member.
  destruct (Host room), (HostDisconnectedAt room); [done| | |by left].
  - right; left. rewrite (proj1 Hse). eauto.
  - destruct Hse as (s & -> & _). eauto.
Qed.

Lemma is_member_mono id room room' :
  Clients room ⊆ Clients room' → DisconnectedUsers room ⊆ DisconnectedUsers room' →
  is_member id room → is_member id room'.
Proof.
  intros Hc Hd [[c Hx]|[s Hx]]; [left|right]; eexists; by eapply lookup_weaken.
Qed.

Lemma seat_members id name c room :
  members_ok room → ¬ is_member id room → id ≠ "" → roomMembersLocked room < MaxClientsPerRoom →
  members_ok (seat id name c room).
Proof.
  intros [Hnd Hus Hap Hcn Hnm Hbd] Hno Hid Hlt.
  assert (Clients room !! id = None ∧ DisconnectedUsers room !! id = None) as [Hc Hd].
  { unfold is_member in Hno. split; apply eq_None_not_Some; tauto. }
  assert (user_ids (seat id name c room) = user_ids room ++ [id]) as Hids.
  { unfold user_ids. cbn. by rewrite fmap_app. }
  split; rewrite ?Hids.
  - apply NoDup_app. split_and!; [done| |apply NoDup_singleton].
    intros x Hx ->%list_elem_of_singleton. by apply Hno, Hus.
  - intros x. rewrite elem_of_app, list_elem_of_singleton, Hus. unfold is_member. cbn.
    destruct (decide (x = id)) as [->|Hne].
    + rewrite lookup_insert_eq. split; [left; eauto|auto].
    + rewrite lookup_insert_ne by done. tauto.
  - intros x d. cbn. rewrite lookup_insert_Some. intros [[<- _]|[_ ?]]; [done|eauto].
  - intros u. cbn. intros [Hu|Hu]%elem_of_app.
    + rewrite (Hcn u Hu). rewrite lookup_insert_ne; [done|]. intros Heq. apply Hno, Hus. rewrite Heq.
      by apply list_elem_of_fmap_2.
    + apply list_elem_of_singleton in Hu as ->. cbn. rewrite lookup_insert_eq. symmetry. apply bool_decide_eq_true. eauto.
  - rewrite elem_of_app, list_elem_of_singleton. naive_solver.
  - unfold roomMembersLocked in *. cbn. unfold map_len in *. rewrite map_size_insert_None by done. lia.
Qed.

Lemma seat_ok can hosted id name c room :
  room_ok can hosted room → ¬ is_member id room → id ≠ "" → roomMembersLocked room < MaxClientsPerRoom →
  room_ok can hosted (seat id name c room).
Proof.
  intros [Hco Hm Hh Ho [? ? ? Hau ?] Hs] Hno Hid Hlt. pose proof (host_member _ _ _ Hh) as Hhm.
  assert (Clients room !! id = None) as Hc by (unfold is_member in Hno; apply eq_None_not_Some; tauto).
  split; [done|by apply seat_members| |done| |destruct Hs; by split].
  - destruct Hh as [Hse Hfl]. split.
    + unfold host_seat_ok in *. cbn. destruct (Host room), (HostDisconnectedAt room); try done.
      destruct Hse as [Hx ?]. split; [|done]. apply lookup_insert_Some. right. split; [|done].
      intros Heq. apply Hno. rewrite Heq. left. rewrite Hx. eauto.
    + intros u. cbn. intros [Hu|Hu]%elem_of_app; [by apply Hfl|].
      apply list_elem_of_singleton in Hu as ->. cbn. symmetry. apply bool_decide_eq_false. intros ->. naive_solver.
  - split; try done. intros k sg Hk. destruct (Hau k sg Hk) as [Hmem ?]. split; [|done].
    eapply is_member_mono; [| |exact Hmem]; cbn; [by apply insert_subseteq|done].
Qed.

Lemma joins_ok can hosted pj room :
  room_ok can hosted room → map_len pj ≤ MaxPendingJoins → room_ok can hosted (room <| PendingJoins := pj |>).
Proof. intros [Hco [] [] Ho [] []] Hl. split; try done; by split. Qed.

Lemma fresh_room_ok can hosted nowMs c code id name :
  id ≠ "" → can c → room_ok can hosted (fresh_room nowMs c code id name).
Proof.
  intros Hid Hc. split; [done| |split|by left| |].
  - split; cbn.
    + apply NoDup_singleton.
    + intros x. unfold user_ids, is_member. cbn. rewrite list_elem_of_singleton.
      rewrite lookup_empty, lookup_singleton_is_Some. split; [naive_solver|]. intros [?|[? ?]]; done.
    + intros x d _. apply lookup_empty.
    + intros u ->%list_elem_of_singleton. cbn. rewrite lookup_singleton_eq. symmetry. apply bool_decide_eq_true. eauto.
    + unfold user_ids. cbn. by intros ?%list_elem_of_singleton.
    + unfold roomMembersLocked, map_len. cbn. rewrite map_size_singleton, map_size_empty. done.
  - unfold host_seat_ok. cbn. by rewrite lookup_singleton_eq.
  - intros u. cbn. intros ->%list_elem_of_singleton. cbn. symmetry. by apply bool_decide_eq_true.
  - split; cbn; try done; intros *; by rewrite lookup_empty.
  - split; cbn; first [apply zero_position_ok|constructor|done].
Qed.

(** ** Members come and go *)

(** Flagging one user leaves the IDs and the host flags alone. *)
Lemma setConnected_flags id b users (hostID : string) :
  NoDup (ui_UserID <$> users) →
  (∀ u, u ∈ users → ui_IsHost u = bool_decide (ui_UserID u = hostID)) →
  ∀ u, u ∈ setConnected id b users → ui_IsHost u = bool_decide (ui_UserID u = hostID).
Proof.
  intros Hnd Hfl u (u0 & Hu & ->)%setConnected_elem; [|done]. specialize (Hfl _ Hu).
  destruct (decide (ui_UserID u0 = id)); exact Hfl.
Qed.

Section Unplugging.
Context (can : ClientRef → Prop) (hosted : SessionRef → Prop) (now : Time) (id : string)
  (s : SessionRef) (c : ClientRef) (room : Room).
Context (Hseat : Clients room !! id = Some c).

Lemma unplug_fields wasHost :
  let room' := unplug now id s wasHost room in
  Code room' = Code room ∧ Clients room' = delete id (Clients room) ∧
  PendingJoins room' = PendingJoins room ∧ DisconnectedUsers room' = <[id := s]> (DisconnectedUsers room) ∧
  State room' = (State room) <| rs_Users ::= setConnected id false |> ∧ OwnerID room' = OwnerID room ∧
  PendingSuggestions room' = PendingSuggestions room ∧ PendingNotices room' = PendingNotices room ∧
  Host room' = (if wasHost then None else Host room) ∧
  HostDisconnectedAt room' = (if wasHost then Some now else HostDisconnectedAt room).
Proof. by destruct wasHost. Qed.

Lemma unplug_member x wasHost : members_ok room → is_member x (unplug now id s wasHost room) ↔ is_member x room.
Proof.
  intros Hm. destruct (unplug_fields wasHost) as (_ & Hcl & _ & Haw & _). unfold is_member. rewrite Hcl, Haw.
  destruct (decide (x = id)) as [->|Hne].
  - rewrite lookup_insert_eq, Hseat. split; intros _; [left|right]; eauto.
  - by rewrite lookup_delete_ne, lookup_insert_ne.
Qed.

Lemma unplug_members wasHost : members_ok room → members_ok (unplug now id s wasHost room).
Proof.
  intros Hm. pose proof Hm as [Hnd Hus Hap Hcn Hnm Hbd].
  destruct (unplug_fields wasHost) as (_ & Hcl & _ & Haw & Hst & _).
  assert (user_ids (unplug now id s wasHost room) = user_ids room) as Hids.
  { unfold user_ids. rewrite Hst. apply setConnected_ids. }
  split; rewrite ?Hids; try done.
  - intros x. by rewrite unplug_member.
  - intros x d. rewrite Hcl, Haw. intros [? Hx]%lookup_delete_Some. rewrite lookup_insert_ne by done. by eapply Hap.
  - intros u. rewrite Hst, Hcl. cbn. intros (u0 & Hu & ->)%setConnected_elem; [|done].
    case_decide as Hd; cbn.
    + rewrite Hd, lookup_delete_eq. by rewrite bool_decide_false by (by intros [? ?]).
    + rewrite lookup_delete_ne by done. by apply Hcn.
  - unfold roomMembersLocked in *. rewrite Hcl, Haw, (map_len_delete_in _ _ _ Hseat).
    pose proof (map_len_insert (DisconnectedUsers room) id s). lia.
Qed.

Lemma unplug_ok :
  let wasHost := bool_decide (Host room = Some c) in
  (wasHost = true → hosted s ∧ rs_HostID (State room) = id) →
  room_ok can hosted room → room_ok can hosted (unplug now id s wasHost room).
Proof.
  intros wasHost Hwas [Hco Hm Hh Ho He Hs]. pose proof Hm as [Hnd _ Hap _ Hnm _].
  destruct (unplug_fields wasHost) as (Hc' & Hcl & Hpj & Haw & Hst & How & Hsg & Hno & Hho & Hda).
  assert (∀ x y, DisconnectedUsers room !! x = Some y → <[id:=s]> (DisconnectedUsers room) !! x = Some y) as Hkeep.
  { intros x y Hx. apply lookup_insert_Some. right. split; [|done]. intros <-. apply Hap in Hseat. congruence. }
  split.
  - by rewrite Hst, Hc'.
  - by apply unplug_members.
  - destruct Hh as [Hse Hfl]. split.
    + unfold host_seat_ok in *. rewrite Hho, Hda, Hcl, Haw, Hst. cbn. unfold wasHost in *.
      case_bool_decide as Hb.
      * destruct (Hwas eq_refl) as [? ->]. exists s. by rewrite lookup_insert_eq.
      * destruct (Host room) as [h|], (HostDisconnectedAt room); try done.
        -- destruct Hse as [Hx ?]. split; [|done]. apply lookup_delete_Some. split; [|done]. congruence.
        -- destruct Hse as (s0 & ? & ?). exists s0. auto.
    + intros u. rewrite Hst. by apply setConnected_flags.
  - unfold owner_ok in *. rewrite How, Haw. destruct Ho as [?|(s0 & ? & ?)]; [by left|right; eauto].
  - destruct He as [? ? Hmi Hau Hn]. split; rewrite ?Hpj, ?Hsg, ?Hno, ?Haw; try done.
    + intros x. unfold suggestions_of. rewrite Hsg. apply Hmi.
    + intros k sg Hk. destruct (Hau _ _ Hk). by rewrite unplug_member.
    + intros x ns Hx. destruct (Hn _ _ Hx) as [[y Hy] ?]. split; [|done]. eauto.
  - rewrite Hst. destruct Hs. by split.
Qed.

End Unplugging.

Section Replugging.
Context (can : ClientRef → Prop) (hosted : SessionRef → Prop) (id : string) (s : SessionRef)
  (c : ClientRef) (room : Room).
Context (Haway : DisconnectedUsers room !! id = Some s).

Lemma replug_member x : is_member x (replug id c room) ↔ is_member x room.
Proof.
  unfold is_member. cbn. destruct (decide (x = id)) as [->|Hne].
  - rewrite lookup_insert_eq, Haway. split; intros _; [right|left]; eauto.
  - by rewrite lookup_delete_ne, lookup_insert_ne.
Qed.

Lemma replug_members : members_ok room → members_ok (replug id c room).
Proof.
  intros [Hnd Hus Hap Hcn Hnm Hbd].
  assert (user_ids (replug id c room) = user_ids room) as Hids by apply setConnected_ids.
  split; rewrite ?Hids; try done.
  - intros x. by rewrite replug_member.
  - intros x d. cbn. rewrite lookup_insert_Some. intros [[<- _]|[? Hx]]; [apply lookup_delete_eq|].
    rewrite lookup_delete_ne by done. by eapply Hap.
  - intros u. cbn. intros (u0 & Hu & ->)%setConnected_elem; [|done]. case_decide as Hd; cbn.
    + rewrite Hd, lookup_insert_eq. symmetry. apply bool_decide_eq_true. eauto.
    + rewrite lookup_insert_ne by done. by apply Hcn.
  - unfold roomMembersLocked in *. cbn. rewrite (map_len_delete_in _ _ _ Haway).
    pose proof (map_len_insert (Clients room) id c). lia.
Qed.

(** The room after the seat is handed back and the host settled. *)
Definition settle (takes : bool) (room : Room) : Room :=
  let room := replug id c room in
  let room := if takes then
      let room := room_with_host (Some c) id room in
      if decide (OwnerID room = id) then room <| OwnerID := "" |> else room
    else room in
  room <| PendingNotices := delete id (PendingNotices room) |>.

Lemma settle_fields takes :
  Code (settle takes room) = Code room ∧ Clients (settle takes room) = <[id := c]> (Clients room) ∧
  PendingJoins (settle takes room) = PendingJoins room ∧
  DisconnectedUsers (settle takes room) = delete id (DisconnectedUsers room) ∧
  PendingSuggestions (settle takes room) = PendingSuggestions room ∧
  PendingNotices (settle takes room) = delete id (PendingNotices room) ∧
  OwnerID (settle takes room) =
    if takes then if decide (OwnerID room = id) then "" else OwnerID room else OwnerID room.
Proof. unfold settle. destruct takes; [|done]. cbn. by case_decide. Qed.

Lemma settle_extras takes : extras_ok room → extras_ok (settle takes room).
Proof.
  intros [? ? Hmi Hau Hn]. destruct (settle_fields takes) as (_ & Hcl & Hpj & Haw & Hsg & Hno & _).
  split; rewrite ?Hpj, ?Hsg, ?Hno, ?Haw; try done.
  - intros x. unfold suggestions_of. rewrite Hsg. apply Hmi.
  - intros k sg Hk. destruct (Hau _ _ Hk) as [Hm ?]. split; [|done].
    apply replug_member in Hm. unfold is_member in *. by rewrite Hcl, Haw.
  - intros x ns [Hne Hx]%lookup_delete_Some. rewrite lookup_delete_ne by done. by eapply Hn.
Qed.

Lemma settle_ok takes :
  room_ok can hosted room → (takes = true → can c) →
  (takes = false → rs_HostID (State room) ≠ id ∧ OwnerID room ≠ id) →
  room_ok can hosted (settle takes room).
Proof.
  intros [Hco Hm Hh Ho He Hs] Hcan Hnot. pose proof (settle_extras takes He) as He'.
  destruct (settle_fields takes) as (Hc' & Hcl & _ & Haw & _ & _ & How). pose proof Hh as [Hse Hfl].
  assert (owner_ok hosted (settle takes room)) as Ho'.
  { unfold owner_ok in *. rewrite How, Haw. destruct takes.
    - case_decide; [by left|]. destruct Ho as [?|(s0 & ? & ?)]; [by left|right; exists s0].
      by rewrite lookup_delete_ne.
    - destruct (Hnot eq_refl). destruct Ho as [?|(s0 & ? & ?)]; [by left|right; exists s0].
      by rewrite lookup_delete_ne. }
  pose proof (replug_members Hm) as Hm'.
  assert (state_ok (State (replug id c room))) as Hs' by (destruct Hs; by split).
  destruct takes.
  - assert (room_but_host (λ _, True) (replug id c (room <| OwnerID := "" |>
      <| PendingSuggestions := ∅ |> <| PendingNotices := ∅ |>))) as Hb.
    { split; [done|destruct Hm'; by split|by left| |done]. destruct He. split; cbn; try done; intros *; by rewrite lookup_empty. }
    destruct (assigned_ok can (λ _, True) c id _ Hb) as [_ Hm2 Hh2 _ _ Hs2]; [by cbn; rewrite lookup_insert_eq|by apply Hcan|].
    split; [unfold settle; cbn; by case_decide| | |done|done|].
    + unfold settle. cbn. case_decide; destruct Hm2; by split.
    + unfold settle. cbn. case_decide; destruct Hh2; by split.
    + unfold settle. cbn. case_decide; done.
  - destruct (Hnot eq_refl) as [Hhid _].
    split; [done|destruct Hm'; by split| |done|done|done]. split.
    + unfold host_seat_ok in *. cbn. destruct (Host room), (HostDisconnectedAt room); try done.
      * by rewrite lookup_insert_ne.
      * destruct Hse as (s0 & ? & ?). exists s0. by rewrite lookup_delete_ne.
    + intros u. cbn. apply setConnected_flags; [apply Hm|done].
Qed.

End Replugging.

(** ** Playback and bookkeeping *)

(** A room that differs only in its playback, within the limits. *)
Lemma room_ok_seats can hosted room room' :
  seats room' = seats room → state_ok (State room') → room_ok can hosted room → room_ok can hosted room'.
Proof.
  unfold seats. intros Hs Hst [Hco [Hnd Hus Hap Hcn Hnm Hbd] [Hse Hfl] Ho [Hj Hps Hm Hau Hn] _].
  injection Hs as Ec Eh Ecl Epj Esg Edu Ehd Ees Eow Eno Erc Ehi Eus.
  unfold user_ids, is_member, roomMembersLocked in *. split; [by rewrite Erc, Ec| | | | |done].
  - split; unfold user_ids, is_member, roomMembersLocked; rewrite ?Eus, ?Ecl, ?Edu; done.
  - split; unfold host_seat_ok, flags_ok; rewrite ?Eh, ?Ehd, ?Ecl, ?Ehi, ?Edu, ?Eus; done.
  - unfold owner_ok. by rewrite Eow, Edu.
  - split; unfold suggestions_of, is_member; rewrite ?Epj, ?Esg, ?Eno, ?Ecl, ?Edu; done.
Qed.

(** Fields nobody's seat depends on. *)
Lemma empty_since_ok can hosted at' room :
  room_ok can hosted room → room_ok can hosted (room <| EmptySince := at' |>).
Proof. intros [Hco [] [] Ho [] []]. split; try done; by split. Qed.
Lemma owner_cleared_ok can hosted room :
  room_ok can hosted room → room_ok can hosted (room <| OwnerID := "" |>).
Proof. intros [Hco [] [] Ho [] []]. split; try done; first [by left|by split]. Qed.

Definition count_from (id : string) (m : gmap string Suggestion) : nat :=
  length (filter (λ sg, sg_FromUserID sg = id) ((map_to_list m).*2)).

Lemma count_from_insert id k sg m :
  count_from id (<[k := sg]> m) =
    ((if decide (sg_FromUserID sg = id) then 1 else 0) + count_from id (delete k m))%nat.
Proof.
  unfold count_from. rewrite <- insert_delete_eq.
  rewrite (map_to_list_insert (delete k m) k sg) by apply lookup_delete_eq.
  rewrite fmap_cons, filter_cons. cbn [snd]. by case_decide.
Qed.

Lemma count_from_lookup id k sg m :
  m !! k = Some sg →
  count_from id m = ((if decide (sg_FromUserID sg = id) then 1 else 0) + count_from id (delete k m))%nat.
Proof. intros Hk. rewrite <- (insert_id m k sg Hk) at 1. apply count_from_insert. Qed.

Lemma count_from_delete id k m : (count_from id (delete k m) ≤ count_from id m)%nat.
Proof.
  destruct (m !! k) as [sg|] eqn:E; [rewrite (count_from_lookup id k sg m E); lia|by rewrite delete_id].
Qed.

(** Replacing one suggestion by another of the same author, or adding one. *)
Lemma suggestion_set_ok room k sg :
  extras_ok room → is_member (sg_FromUserID sg) room → tracks_ok (option_list (sg_Track sg)) → sg_ID sg = k →
  (is_Some (PendingSuggestions room !! k) ∨ map_len (PendingSuggestions room) < MaxPendingSuggestions) →
  ((∃ old, PendingSuggestions room !! k = Some old ∧ sg_FromUserID old = sg_FromUserID sg) ∨
   Z.of_nat (length (suggestions_of (sg_FromUserID sg) room)) < MaxSuggestionsPerUser) →
  extras_ok (room <| PendingSuggestions := <[k := sg]> (PendingSuggestions room) |>).
Proof.
  intros [Hj Hs Hm Hau Hn] Hmem Hids Hid Hroom Hmine. split; cbn; try done.
  - unfold map_len in *. rewrite map_size_insert. destruct Hroom as [[x ->]|Hlt]; [done|].
    case_match; unfold Datatypes.id; lia.
  - intros id. change (Z.of_nat (count_from id (<[k:=sg]> (PendingSuggestions room))) ≤ MaxSuggestionsPerUser).
    specialize (Hm id). change (Z.of_nat (count_from id (PendingSuggestions room)) ≤ MaxSuggestionsPerUser) in Hm.
    rewrite count_from_insert. pose proof (count_from_delete id k (PendingSuggestions room)).
    destruct Hmine as [(old & Hk & Ho)|Hlt].
    + rewrite (count_from_lookup id k old _ Hk), Ho in Hm. lia.
    + case_decide as Hd; [|lia]. rewrite <- Hd in *.
      change (Z.of_nat (count_from (sg_FromUserID sg) (PendingSuggestions room)) < MaxSuggestionsPerUser) in Hlt. lia.
  - intros k' sg'. rewrite lookup_insert_Some. intros [[<- <-]|[_ Hx]]; [done|by eapply Hau].
Qed.

Lemma suggestion_delete_ok room k :
  extras_ok room →
  extras_ok (room <| PendingSuggestions := delete k (PendingSuggestions room) |>).
Proof.
  intros [Hj Hs Hm Hau Hn]. split; cbn; try done.
  - pose proof (map_len_delete (PendingSuggestions room) k). lia.
  - intros id. specialize (Hm id). pose proof (count_from_delete id k (PendingSuggestions room)).
    unfold suggestions_of, count_from in *. cbn. lia.
  - intros k' sg' [_ Hx]%lookup_delete_Some. by eapply Hau.
Qed.

Lemma queueNotice_ok room id msgType payload :
  extras_ok room → extras_ok (queueNoticeLocked id msgType payload room).
Proof.
  intros He. pose proof He as [Hj Hs Hm Hau Hn]. unfold queueNoticeLocked.
  destruct (DisconnectedUsers room !! id) as [s|] eqn:E; [|done]. case_decide as Hl; [|done].
  split; cbn; try done. intros x ns. rewrite lookup_insert_Some. intros [[<- <-]|[_ Hx]]; [|by eapply Hn].
  split; [eauto|]. rewrite length_app. cbn. lia.
Qed.

(** Replacing the extras of a room and nothing else. *)
Lemma extras_replaced can hosted room sgs notices :
  let room' := room <| PendingSuggestions := sgs |> <| PendingNotices := notices |> in
  room_ok can hosted room → extras_ok room' → room_ok can hosted room'.
Proof. intros room' [Hco [] [] Ho _ []] He. split; try done; by split. Qed.
