(* ===== verification/Safety.v ===== *)
(** Safety: the server-wide invariant, kept by every operation.

    [world_ok] joins the roster (who is where) with the state of every room.
    For each operation of [rooms.go], [lifecycle.go], [hosts.go] and
    [playback.go] there is a lemma that it preserves [world_ok]; generated
    identifiers must be fresh.  A delivery changes nothing the invariant reads,
    so a handler is first reduced to its updates ([same_core] with the
    [Proper] instances of Roster), and the updates to one of the moves. *)

From S2P Require Import Prelude Protocol Utf8 Validation UAPolicy World Client Roster Hosts Playback Limits Members Rooms Lifecycle RoomOk.

Definition was_host (w : World) (s : SessionRef) : Prop := se_IsHost (getSession s w) = true.
Definition may_host (w : World) (c : ClientRef) : Prop := canHostClient c w.

Record world_ok (E : gset SessionRef) (w : World) : Prop := {
  wo_roster : roster_ok E w;
  wo_rooms r : registered r w → room_ok (may_host w) (was_host w) (getRoom r w)
}.

(** ** Transporting the state of a room *)

(** What hosting rights and sessions say is kept for everything allocated. *)
Record stable (w w' : World) : Prop := {
  sb_tier c : (c < w_next w)%nat → c_uaTier (getClient c w') = c_uaTier (getClient c w);
  sb_host s : (s < w_next w)%nat → se_IsHost (getSession s w') = se_IsHost (getSession s w)
}.

Lemma room_ok_ext can can' hosted hosted' room :
  (∀ h, Host room = Some h → can h → can' h) →
  (∀ id s, DisconnectedUsers room !! id = Some s → hosted s → hosted' s) →
  room_ok can hosted room → room_ok can' hosted' room.
Proof.
  intros Hc Hs [Hco Hm [Hse Hfl] Ho He Hst]. split; try done.
  - split; [|done]. unfold host_seat_ok in *.
    destruct (Host room) eqn:E, (HostDisconnectedAt room); naive_solver.
  - unfold owner_ok in *. naive_solver.
Qed.

Lemma room_transport E w w' r :
  roster_ok E w → registered r w → stable w w' →
  room_ok (may_host w) (was_host w) (getRoom r w) → room_ok (may_host w') (was_host w') (getRoom r w).
Proof.
  intros Hok Hreg [Ht Hs] Hr. eapply room_ok_ext; [| |exact Hr].
  - intros h Hh. unfold may_host, canHostClient. rewrite Ht; [done|].
    destruct Hr as [_ _ [Hse _] _ _ _]. unfold host_seat_ok in Hse. rewrite Hh in Hse.
    destruct (HostDisconnectedAt (getRoom r w)); [done|]. destruct Hse as [Hx _].
    destruct (ro_seat _ _ Hok _ _ _ Hreg Hx) as [_ Hc].
    apply (ro_named _ _ Hok). by eapply seated_holder.
  - intros id s Hd. unfold was_host. rewrite Hs; [done|].
    by destruct (aw_entry _ _ (ro_away _ _ Hok) _ _ _ Hreg Hd) as (_ & _ & ? & _).
Qed.

(** After a move of one room the others are as they were. *)
Lemma world_moved E E' w w' r :
  world_ok E w → stable w w' → roster_ok E' w' →
  (∀ x, x ≠ r → registered x w' → registered x w ∧ getRoom x w' = getRoom x w) →
  ((registered r w → room_ok (may_host w') (was_host w') (getRoom r w)) →
   registered r w' → room_ok (may_host w') (was_host w') (getRoom r w')) →
  world_ok E' w'.
Proof.
  intros [Hro Hrooms] Hst Hro' Hoth Hr. split; [done|].
  intros x Hx. destruct (decide (x = r)) as [->|Hne].
  { apply Hr; [|done]. intros Hx0. eapply room_transport; eauto. }
  destruct (Hoth x Hne Hx) as [Hx0 ->]. eapply room_transport; eauto.
Qed.

(** ** Deliveries and updates of one room *)

Lemma core_unmoved w w' : same_core w w' → unmoved w w'.
Proof.
  intros [Hc Hr Hs Hn Hsv]. split; unfold getRoom, getSession; try congruence.
  - intros c. destruct (Hc c) as [Hi _]. injection Hi. unfold place. congruence.
  - intros c. apply Hc.
Qed.

Lemma core_stable w w' : same_core w w' → stable w w'.
Proof.
  intros [Hc _ Hs _ _]. split; intros x _; unfold getSession; try congruence.
  destruct (Hc x) as [Hi _]. injection Hi. congruence.
Qed.

Lemma world_core E w w' : same_core w w' → world_ok E w → world_ok E w'.
Proof.
  intros Hc Hok. pose proof Hok as [Hro _].
  assert (∀ r, getRoom r w' = getRoom r w) as Hgr by (intros; by apply core_getRoom).
  assert (∀ x, registered x w' → registered x w) as Hre.
  { intros x. unfold registered. by rewrite Hgr, (core_srv _ _ Hc). }
  apply (world_moved E E w w' 0); [done|by apply core_stable| | |].
  - eapply roster_frame; [by apply core_unmoved|done].
  - auto.
  - intros Hold Hx%Hre. rewrite Hgr. auto.
Qed.

(** An update of one room that moves nobody. *)
Lemma world_room E w r f :
  world_ok E w → slots (f (getRoom r w)) = slots (getRoom r w) →
  (registered r w → room_ok (may_host w) (was_host w) (getRoom r w) →
   room_ok (may_host w) (was_host w) (f (getRoom r w))) →
  world_ok E (setRoom r f w).
Proof.
  intros Hok Hsl Hf. pose proof Hok as [Hro Hrooms].
  assert (∀ x, slots (getRoom x (setRoom r f w)) = slots (getRoom x w)) as Hs.
  { intros x. rewrite getRoom_setRoom. by case_decide; [subst|]. }
  assert (∀ x, registered x (setRoom r f w) → registered x w) as Hre.
  { intros x. unfold registered. rewrite srv_setRoom. by injection (Hs x) as -> _ _ _. }
  apply (world_moved E E w _ r); [done|by split| | |].
  - eapply roster_frame; [|done]. split; done || auto.
  - intros x Hne Hx. split; [auto|]. by rewrite getRoom_setRoom, decide_False.
  - intros _ Hx%Hre. rewrite getRoom_setRoom_eq. apply Hf; auto.
Qed.

(** An update of the server that leaves rooms and sessions alone. *)
Lemma world_server E w f :
  world_ok E w → (rooms (f (w_srv w)), sessions (f (w_srv w))) = (rooms (w_srv w), sessions (w_srv w)) →
  world_ok E (setServer f w).
Proof.
  intros Hok Hf. injection Hf as Hr Hs. pose proof Hok as [Hro Hrooms].
  assert (∀ x, registered x (setServer f w) → registered x w) as Hre.
  { intros x. unfold registered. by rewrite srv_setServer, Hr. }
  apply (world_moved E E w _ 0); [done|by split| | |].
  - eapply roster_frame; [|done]. split; try done. rewrite srv_setServer. congruence.
  - auto.
  - intros _ Hx%Hre. by apply Hrooms.
Qed.

(** ** Applicants and members leave *)

#[export] Hint Rewrite getClient_setClient getRoom_setRoom getSession_setSession
  getRoom_setClient getSession_setClient srv_setClient getClient_setRoom getSession_setRoom
  srv_setRoom getClient_setSession getRoom_setSession srv_setSession getClient_setServer
  getRoom_setServer getSession_setServer srv_setServer : reads.

(** Reads of an explicit chain of updates. *)
Ltac reads := autorewrite with reads; repeat case_decide; subst; cbn.
Ltac solve_moves := split; intros *; reads; try done; try lia; try congruence.
Ltac solve_stable := split; intros *; reads; done.

Section Leaving.
Context (E : gset SessionRef) (w : World) (Hok : world_ok E w).

Lemma dropPending_ok r id c :
  registered r w → PendingJoins (getRoom r w) !! id = Some c → world_ok E (dropPending r id c w).
Proof.
  intros Hreg Hj. pose proof Hok as [Hro Hrooms].
  destruct (ro_applicant _ _ Hro _ _ _ Hreg Hj) as [Hcid Hcpe].
  assert (currentRoom c w = None) as Hcro.
  { destruct (currentRoom c w) eqn:Ex; [|done]. destruct (ro_room _ _ Hro _ _ Ex) as (_ & _ & ?). congruence. }
  unfold dropPending, clearPendingRoom.
  set (w1 := setRoom r _ w). assert (currentPendingRoom c w1 = Some r) as Hp by done.
  rewrite decide_True by done. subst w1.
  eapply (world_moved E E w _ r); [done|solve_stable| | |].
  - eapply (roster_withdraw E w _ c r Hro); [done|done|exact Hj|]. solve_moves.
    unfold place. cbn. unfold currentRoom in Hcro. by rewrite Hcro.
  - intros x Hne. unfold registered. reads; done.
  - intros Hold _. reads; [|done]. apply joins_ok; [by apply Hold|].
    etrans; [apply map_len_delete|]. apply (Hold Hreg).
Qed.

Lemma applicant_unseated r id c :
  registered r w → PendingJoins (getRoom r w) !! id = Some c → currentRoom c w = None.
Proof.
  intros Hreg Hj. pose proof Hok as [Hro _]. destruct (ro_applicant _ _ Hro _ _ _ Hreg Hj) as [_ Hcpe].
  destruct (currentRoom c w) eqn:Ex; [|done]. destruct (ro_room _ _ Hro _ _ Ex) as (_ & _ & ?). congruence.
Qed.

(** A connected member gives up the seat; whatever else happens to the room
    must leave it in order. *)
Lemma member_gone_ok r id c f :
  let room := getRoom r w in
  registered r w → Clients room !! id = Some c →
  slots (f room) = (Code room, delete id (Clients room), PendingJoins room, DisconnectedUsers room) →
  (room_ok (may_host w) (was_host w) room → room_ok (may_host w) (was_host w) (f room)) →
  world_ok E (setRoom r f (setClient c (λ cl, cl <| c_room := None |>) w)).
Proof.
  intros room Hreg Hseat Hsl Hf. pose proof Hok as [Hro Hrooms].
  destruct (ro_seat _ _ Hro _ _ _ Hreg Hseat) as [Hcid Hcro].
  destruct (ro_room _ _ Hro _ _ Hcro) as (_ & _ & Hcpe).
  set (w' := setRoom _ _ _). assert (stable w w') as Hst by (subst w'; solve_stable).
  eapply (world_moved E E w w' r); [done|done| | |].
  - eapply (roster_unseat E w w' c r Hro); [done|done|exact Hseat|]. subst w'. solve_moves.
    unfold place. cbn. unfold currentPendingRoom in Hcpe. by rewrite Hcpe.
  - intros x Hne. subst w'. unfold registered. reads; done.
  - intros _ _. subst w'. rewrite getRoom_setRoom_eq. cbn.
    eapply room_ok_ext; [| |apply Hf, Hrooms, Hreg]; [|done].
    intros h _. unfold may_host, canHostClient. reads; done.
Qed.

(** A reserved seat and its session are given up. *)
Lemma away_gone_ok E' r id s f h :
  let room := getRoom r w in
  registered r w → DisconnectedUsers room !! id = Some s →
  slots (f room) = (Code room, Clients room, PendingJoins room, delete id (DisconnectedUsers room)) →
  (room_ok (may_host w) (was_host w) room → room_ok (may_host w) (was_host w) (f room)) →
  rooms (h (w_srv w)) = rooms (w_srv w) →
  (∀ t x, sessions (h (w_srv w)) !! t = Some x ↔ sessions (w_srv w) !! t = Some x ∧ ¬ sits id (Code room) x w) →
  (∀ x, x ∈ E' ↔ x ∈ E ∧ ¬ sits id (Code room) x w) →
  world_ok E' (setServer h (setRoom r f w)).
Proof.
  intros room Hreg Haw Hsl Hf Hrm Hse HE. pose proof Hok as [Hro Hrooms].
  set (w' := setServer _ _). assert (stable w w') as Hst by (subst w'; solve_stable).
  eapply (world_moved E E' w w' r); [done|done| | |].
  - eapply (roster_drop_away E E' w w' 0 r s id Hro); [done|done|exact Haw|exact Hse|done|done|].
    subst w'. solve_moves.
  - intros x Hne. subst w'. unfold registered. rewrite srv_setServer, srv_setRoom, Hrm. reads; done.
  - intros _ _. subst w'. rewrite getRoom_setServer, getRoom_setRoom_eq. apply Hf, Hrooms, Hreg.
Qed.

End Leaving.

(** ** Releasing everybody in a room *)

(** Some of the people in room [r], or applying to it, were let go. *)
Record let_go (r : RoomRef) (w w' : World) : Prop := {
  lg_ident d : (clientID d w', session d w', c_uaTier (getClient d w')) =
               (clientID d w, session d w, c_uaTier (getClient d w));
  lg_room d : currentRoom d w' = currentRoom d w ∨ (currentRoom d w = Some r ∧ currentRoom d w' = None);
  lg_pending d : currentPendingRoom d w' = currentPendingRoom d w ∨
    (currentPendingRoom d w = Some r ∧ currentPendingRoom d w' = None);
  lg_conn d : c_ConnOpen (getClient d w') = true → c_ConnOpen (getClient d w) = true
}.
Definition heap (w : World) := (w_rooms w, w_sessions w, w_next w, w_srv w).
Record released (r : RoomRef) (w w' : World) : Prop := {
  rl_people : let_go r w w';
  rl_heap : heap w' = heap w
}.

#[export] Instance released_preorder r : PreOrder (released r).
Proof.
  split; [by split; [split; auto|]|].
  intros w1 w2 w3 [[H1 H2 H3 H4] H5] [[K1 K2 K3 K4] K5]. split; [split|].
  - intros d. by rewrite K1.
  - intros d. specialize (H2 d). specialize (K2 d). naive_solver congruence.
  - intros d. specialize (H3 d). specialize (K3 d). naive_solver congruence.
  - auto.
  - by rewrite K5.
Qed.

Lemma core_released r w w' : same_core w w' → released r w w'.
Proof.
  intros Hc. split; [split|].
  - intros d. rewrite (core_clientID _ _ d Hc), (core_session _ _ d Hc). f_equal.
    pose proof (core_ident _ _ d Hc) as Hi. injection Hi. congruence.
  - intros d. left. by apply core_currentRoom.
  - intros d. left. by apply core_currentPendingRoom.
  - intros d. apply Hc.
  - destruct Hc. unfold heap. congruence.
Qed.

Lemma clearRoom_released c r w : released r w (clearRoom c r w).
Proof.
  unfold clearRoom. case_decide as Hd; [|done]. split; [|done]. split; intros d;
    unfold clientID, session, currentRoom, currentPendingRoom in *; reads; auto.
Qed.
Lemma clearPendingRoom_released c r w : released r w (clearPendingRoom c r w).
Proof.
  unfold clearPendingRoom. case_decide as Hd; [|done]. split; [|done]. split; intros d;
    unfold clientID, session, currentRoom, currentPendingRoom in *; reads; auto.
Qed.

Lemma clearRoom_done c r w : currentRoom c (clearRoom c r w) ≠ Some r.
Proof. unfold clearRoom. case_decide; [|done]. unfold currentRoom. by rewrite getClient_setClient_eq. Qed.
Lemma clearPendingRoom_done c r w : currentPendingRoom c (clearPendingRoom c r w) ≠ Some r.
Proof. unfold clearPendingRoom. case_decide; [|done]. unfold currentPendingRoom. by rewrite getClient_setClient_eq. Qed.

Section Releasing.
Context `{WireFormat}.

Lemma kickMembers_released r reason cs w :
  released r w (foldl (kickMember r reason) w cs) ∧
  ∀ c, c ∈ cs → currentRoom c (foldl (kickMember r reason) w cs) ≠ Some r.
Proof.
  revert w. induction cs as [|c cs IH]; intros w; cbn; [split; [done|by intros ? ?%elem_of_nil]|].
  set (w1 := kickMember r reason w c). assert (released r w w1) as H1.
  { unfold w1, kickMember. etrans; [by apply core_released, sendMessage_core|apply clearRoom_released]. }
  destruct (IH w1) as [H2 H3]. split; [by etrans|]. intros d [->|Hd]%elem_of_cons; [|auto].
  pose proof (lg_room _ _ _ (rl_people _ _ _ H2) c) as Hx.
  assert (currentRoom c w1 ≠ Some r) by apply clearRoom_done. naive_solver congruence.
Qed.

Lemma rejectPendings_released r reason cs w :
  released r w (foldl (rejectPending r reason) w cs) ∧
  ∀ c, c ∈ cs → currentPendingRoom c (foldl (rejectPending r reason) w cs) ≠ Some r.
Proof.
  revert w. induction cs as [|c cs IH]; intros w; cbn; [split; [done|by intros ? ?%elem_of_nil]|].
  set (w1 := rejectPending r reason w c). assert (released r w w1) as H1.
  { unfold w1, rejectPending. etrans; [by apply core_released, sendMessage_core|apply clearPendingRoom_released]. }
  destruct (IH w1) as [H2 H3]. split; [by etrans|]. intros d [->|Hd]%elem_of_cons; [|auto].
  pose proof (lg_pending _ _ _ (rl_people _ _ _ H2) c) as Hx.
  assert (currentPendingRoom c w1 ≠ Some r) by apply clearPendingRoom_done. naive_solver congruence.
Qed.


Lemma roomClients_elem room id c : Clients room !! id = Some c → c ∈ roomClientsLocked room.
Proof. intros Hc. apply (list_elem_of_fmap_2' snd _ (id, c)); [by apply elem_of_map_to_list|done]. Qed.
Lemma pendings_elem (m : gmap string ClientRef) id c : m !! id = Some c → c ∈ (map_to_list m).*2.
Proof. intros Hc. apply (list_elem_of_fmap_2' snd _ (id, c)); [by apply elem_of_map_to_list|done]. Qed.

(** A room whose people were all let go can be taken off the books. *)
Lemma closed_ok E w w' r :
  world_ok E w → registered r w →
  (∀ s, s ∈ E → se_RoomCode (getSession s w) ≠ Code (getRoom r w)) →
  let_go r w w' →
  (∀ c, currentRoom c w' ≠ Some r) → (∀ c, currentPendingRoom c w' ≠ Some r) →
  Code (getRoom r w') = Code (getRoom r w) → (∀ x, x ≠ r → getRoom x w' = getRoom x w) →
  w_sessions w' = w_sessions w → w_next w' = w_next w →
  rooms (w_srv w') = delete (Code (getRoom r w)) (rooms (w_srv w)) →
  (∀ t s, sessions (w_srv w') !! t = Some s ↔
    sessions (w_srv w) !! t = Some s ∧ se_RoomCode (getSession s w) ≠ Code (getRoom r w)) →
  world_ok E w'.
Proof.
  intros Hok Hreg HE [Hi Hrr Hrp Hrc] Hall Hallp Hf Hgr Hhs Hhn Hrm Hse. pose proof Hok as [Hro Hrooms].
  assert (∀ x, getSession x w' = getSession x w) as Hgs by (intros; unfold getSession; by rewrite Hhs).
  assert (closes w w' r) as Hcl.
  { split; try done.
    - intros d. by injection (Hi d).
    - intros d. by injection (Hi d).
    - intros d. destruct (Hrr d) as [Heq|[Heq Hno]]; [|by rewrite Heq, decide_True].
      rewrite decide_False; [done|]. rewrite <- Heq. apply Hall.
    - intros d. destruct (Hrp d) as [Heq|[Heq Hno]]; [|by rewrite Heq, decide_True].
      rewrite decide_False; [done|]. rewrite <- Heq. apply Hallp.
    - intros x Hne. by rewrite Hgr. }
  assert (∀ x, registered x w' ↔ x ≠ r ∧ registered x w) as Hre by (by eapply close_registered).
  apply (world_moved E E w _ r); [done| |by eapply roster_close| |].
  - split; intros x _; [by injection (Hi x)|by rewrite Hgs..].
  - intros x Hne [_ Hx]%Hre. auto.
  - intros _ [? _]%Hre. done.
Qed.

Lemma closeRoom_ok E w r reason :
  world_ok E w → registered r w →
  (∀ s, s ∈ E → se_RoomCode (getSession s w) ≠ Code (getRoom r w)) →
  world_ok E (closeRoom r reason w).
Proof.
  intros Hok Hreg HE. pose proof Hok as [Hro _]. unfold closeRoom, unregister, dropSessions.
  rewrite decide_True by done. cbv zeta. set (w1 := setServer _ (setServer _ w)).
  destruct (kickMembers_released r reason (roomClientsLocked (getRoom r w)) w1) as [Hk Hkd].
  set (w2 := foldl (kickMember r reason) w1 _) in *.
  destruct (rejectPendings_released r reason ((map_to_list (PendingJoins (getRoom r w))).*2) w2) as [Hp Hpd].
  set (w3 := foldl (rejectPending r reason) w2 _) in *.
  assert (released r w1 w3) as [Hrl Hh] by by etrans. injection Hh as Hh1 Hh2 Hh3 Hh4.
  assert (∀ x, getRoom x w3 = getRoom x w) as Hg by (intros; unfold getRoom; by rewrite Hh1).
  eapply (closed_ok E w _ r); [done|done|done| | | | | |done|done| |].
  - destruct Hrl. by split.
  - intros c Hc. change (currentRoom c w3 = Some r) in Hc.
    destruct (lg_room _ _ _ Hrl c) as [Heq|[_ ?]]; [|congruence]. rewrite Hc in Heq. symmetry in Heq.
    destruct (ro_room _ _ Hro _ _ Heq) as (_ & Hcl & _).
    pose proof (Hkd c (roomClients_elem _ _ _ Hcl)). destruct (lg_room _ _ _ (rl_people _ _ _ Hp) c) as [?|[_ ?]]; congruence.
  - intros c Hc. change (currentPendingRoom c w3 = Some r) in Hc.
    destruct (lg_pending _ _ _ Hrl c) as [Heq|[_ ?]]; [|congruence]. rewrite Hc in Heq. symmetry in Heq.
    destruct (ro_pending _ _ Hro _ _ Heq) as (_ & Hcl). by apply (Hpd c (pendings_elem _ _ _ Hcl)).
  - rewrite getRoom_setRoom_eq, Hg. done.
  - intros x Hne. by rewrite getRoom_setRoom, decide_False, Hg.
  - cbn. by rewrite Hh4.
  - intros t s. cbn. rewrite Hh4. cbn. rewrite map_lookup_filter_Some. done.
Qed.

(** No session belongs to a room without reserved seats. *)
Lemma no_session_of_empty E w r s :
  roster_ok E w → registered r w → DisconnectedUsers (getRoom r w) = ∅ → indexed E s w →
  se_RoomCode (getSession s w) ≠ Code (getRoom r w).
Proof.
  intros Hro Hreg Hde Hi Heq. destruct (aw_session _ _ (ro_away _ _ Hro) s Hi) as (_ & x & y & Hx & Hd).
  rewrite Heq in Hx. assert (x = r) as -> by (unfold registered in Hreg; congruence).
  by rewrite Hde, lookup_empty in Hd.
Qed.

(** [deleteRoomIfEmpty] on a room that was in order until its last member was
    let go. *)
Lemma delete_emptied_ok E w w1 r :
  world_ok E w → registered r w → DisconnectedUsers (getRoom r w) = ∅ →
  let_go r w w1 → (∀ c, currentRoom c w1 ≠ Some r) →
  Code (getRoom r w1) = Code (getRoom r w) → PendingJoins (getRoom r w1) = PendingJoins (getRoom r w) →
  room_empty (getRoom r w1) → (∀ x, x ≠ r → getRoom x w1 = getRoom x w) →
  (w_sessions w1, w_next w1, w_srv w1) = (w_sessions w, w_next w, w_srv w) →
  world_ok E (deleteRoomIfEmpty r w1).2.
Proof.
  intros Hok Hreg Hde Hlg Hnoc Hcode Hpj Hempty Hoth Hh. pose proof Hok as [Hro _].
  injection Hh as Hs1 Hs2 Hs3. unfold deleteRoomIfEmpty.
  rewrite decide_True by (split; [by rewrite Hs3, Hcode|done]). cbn [snd]. rewrite Hpj, Hcode.
  set (reason := "Room is no longer available").
  destruct (rejectPendings_released r reason ((map_to_list (PendingJoins (getRoom r w))).*2) w1) as [[Hp Hh'] Hpd].
  set (w2 := foldl (rejectPending r reason) w1 _) in *. injection Hh' as Hh1 Hh2 Hh3 Hh4.
  assert (∀ x, getRoom x w2 = getRoom x w1) as Hg by (intros; unfold getRoom; by rewrite Hh1).
  assert (∀ s, indexed E s w → se_RoomCode (getSession s w) ≠ Code (getRoom r w)) as Hno.
  { intros s. by apply no_session_of_empty. }
  assert (let_go r w w2) as Hlg2.
  { destruct Hlg as [L1 L2 L3 L4], Hp as [M1 M2 M3 M4]. split; [intros d; by rewrite M1| | |auto];
      intros d; [specialize (L2 d); specialize (M2 d)|specialize (L3 d); specialize (M3 d)]; naive_solver congruence. }
  eapply (closed_ok E w _ r); [done|done| | | | | | | | | |].
  - intros s Hs. apply Hno. by left.
  - destruct Hlg2. by split.
  - intros c Hc. change (currentRoom c w2 = Some r) in Hc.
    destruct (lg_room _ _ _ Hp c) as [Heq|[_ ?]]; [|congruence]. by destruct (Hnoc c); rewrite <- Heq.
  - intros c Hc. change (currentPendingRoom c w2 = Some r) in Hc.
    destruct (lg_pending _ _ _ Hlg2 c) as [Heq|[_ ?]]; [|congruence]. rewrite Hc in Heq. symmetry in Heq.
    destruct (ro_pending _ _ Hro _ _ Heq) as (_ & Hcl). by apply (Hpd c (pendings_elem _ _ _ Hcl)).
  - rewrite getRoom_setServer, getRoom_setRoom_eq, Hg. done.
  - intros x Hne. rewrite getRoom_setServer, getRoom_setRoom, decide_False, Hg by done. auto.
  - cbn. by rewrite Hh2.
  - cbn. by rewrite Hh3.
  - cbn. by rewrite Hh4, Hs3.
  - intros t s. cbn. rewrite Hh4, Hs3. split; [|naive_solver]. intros Hs. split; [done|]. apply Hno. right; eauto.
Qed.

Lemma deleteRoomIfEmpty_ok E w r : world_ok E w → world_ok E (deleteRoomIfEmpty r w).2.
Proof.
  intros Hok. destruct (decide (rooms (w_srv w) !! Code (getRoom r w) = Some r ∧ room_empty (getRoom r w)))
    as [[Hreg Hempty]|Hno]; [|unfold deleteRoomIfEmpty; by rewrite decide_False].
  pose proof Hempty as [Hce Hde]. pose proof Hok as [Hro _].
  eapply delete_emptied_ok; try done; [by split; auto|].
  intros c Hc. destruct (ro_room _ _ Hro _ _ Hc) as (_ & Hcl & _). by rewrite Hce, lookup_empty in Hcl.
Qed.

End Releasing.
