(* ===== verification/Preserve.v ===== *)
(** Preserve: every handler keeps the server-wide invariant.

    One lemma per handler of [rooms.go] and [lifecycle.go] and per background
    task; the step relation of Reachable ties them together. *)

From S2P Require Import Prelude Protocol Utf8 Validation UAPolicy World Client Roster Hosts Playback Limits Members Rooms Lifecycle RoomOk Safety.

(** ** Electing a host *)

Section Electing.
Context `{WireFormat}.

Lemma setRoom_setRoom r f g w : setRoom r f (setRoom r g w) = setRoom r (λ room, f (g room)) w.
Proof.
  unfold setRoom. cbn. unfold getRoom. cbn. by rewrite insert_insert_eq, lookup_total_insert_eq.
Qed.

Lemma setClient_setClient c f g w : setClient c f (setClient c g w) = setClient c (λ cl, f (g cl)) w.
Proof.
  unfold setClient. cbn. unfold getClient. cbn. by rewrite insert_insert_eq, lookup_total_insert_eq.
Qed.
Lemma setClient_setRoom c f r g w : setClient c f (setRoom r g w) = setRoom r g (setClient c f w).
Proof. reflexivity. Qed.
Lemma setRoom_setServer r f h w : setRoom r f (setServer h w) = setServer h (setRoom r f w).
Proof. reflexivity. Qed.

(** The host that [assignHostLocked] installs. *)
Definition host_id (host : option ClientRef) (w : World) : string :=
  match host with Some h => clientID h w | None => "" end.

Lemma room_with_host_code host id room : Code (room_with_host host id room) = Code room.
Proof. done. Qed.
Lemma room_with_host_slots host id room : slots (room_with_host host id room) = slots room.
Proof. done. Qed.

Lemma elected_ok can hosted w room :
  room_but_host hosted room →
  (∀ id h, Clients room !! id = Some h → clientID h w = id) →
  (∀ h, canHostClient h w → can h) →
  let host := pickDeputy (Clients room) w in
  room_ok can hosted (room_with_host host (host_id host w) room).
Proof.
  intros Hb Hids Hcan host. subst host. destruct (pickDeputy (Clients room) w) as [h|] eqn:Hp; cbn.
  - apply pickDeputy_Some in Hp as (id & Hx & [He _] & _). apply assigned_ok; [done| |auto].
    by rewrite (Hids _ _ Hx).
  - by apply unassigned_ok.
Qed.

(** Telling the others about a departure, and closing a room nobody can host,
    is safe once the election left the world in order. *)
Lemma announce_ok E r elect id name bt w :
  let w1 := if elect : bool then (assignHostLocked r (pickDeputy (Clients (getRoom r w)) w) w).2 else w in
  world_ok E (bt w1) → registered r w1 → rooms (w_srv (bt w1)) = rooms (w_srv w1) →
  getRoom r (bt w1) = getRoom r w1 →
  world_ok E (announce_departure r elect id name bt w).
Proof.
  intros w1 Hok Hreg Hrm Hgr. unfold announce_departure.
  assert (∃ change, (if elect then let '(change, w) := assignHostLocked r (pickDeputy (Clients (getRoom r w)) w) w in
    (Some change, w) else (None, w)) = (change, w1)) as [change ->].
  { subst w1. destruct elect; [|eauto]. eexists. reflexivity. }
  set (w2 := sendMessageToClients _ _ _ (bt w1)). set (w3 := deliverHostChange _ change w2).
  assert (same_core (bt w1) w3) as Hc.
  { etrans; [apply sendMessageToClients_core|apply deliverHostChange_core]. }
  assert (world_ok E w3) as Hok3 by by eapply world_core.
  case_bool_decide as Hdead; [|done]. destruct Hdead as (_ & _ & Hde).
  assert (getRoom r w3 = getRoom r w1) as Hg3 by (by rewrite (core_getRoom _ _ r Hc)).
  assert (registered r w3) as Hreg3.
  { unfold registered. by rewrite Hg3, (core_srv _ _ Hc), Hrm. }
  apply closeRoom_ok; [done|done|]. intros s Hs.
  eapply no_session_of_empty; [by destruct Hok3|done|by rewrite Hg3|by left].
Qed.

End Electing.

(** ** Leaving and being removed *)

Lemma forget_user_fields id room :
  Code (forget_user id room) = Code room ∧ Clients (forget_user id room) = Clients room ∧
  PendingJoins (forget_user id room) = PendingJoins room ∧
  DisconnectedUsers (forget_user id room) = DisconnectedUsers room ∧
  State (forget_user id room) = (State room) <| rs_Users := withoutUser (rs_Users (State room)) id |> ∧
  OwnerID (forget_user id room) = (if decide (OwnerID room = id) then "" else OwnerID room) ∧
  PendingSuggestions (forget_user id room) = filter (λ e, sg_FromUserID e.2 ≠ id) (PendingSuggestions room) ∧
  PendingNotices (forget_user id room) = delete id (PendingNotices room) ∧
  (Host (forget_user id room), HostDisconnectedAt (forget_user id room)) = (Host room, HostDisconnectedAt room).
Proof. unfold forget_user. cbn. by case_decide. Qed.

Lemma forget_removed id room room0 :
  Code room0 = Code room → Clients room0 = delete id (Clients room) →
  DisconnectedUsers room0 = delete id (DisconnectedUsers room) →
  map_len (PendingJoins room0) ≤ map_len (PendingJoins room) →
  (State room0, OwnerID room0, PendingSuggestions room0, PendingNotices room0) =
    (State room, OwnerID room, PendingSuggestions room, PendingNotices room) →
  (Host room0, HostDisconnectedAt room0) = (Host room, HostDisconnectedAt room) →
  removed id room (forget_user id room0).
Proof.
  intros Hc Hcl Hd Hj Heq Hh. injection Heq as Hs Ho Hp Hn.
  destruct (forget_user_fields id room0) as (? & ? & Hpj & ? & Hst & How & Hsg & Hno & Hho).
  split; [congruence|congruence|congruence|by rewrite Hpj|by rewrite Hst, Hs|by rewrite How, Ho|
    by rewrite Hsg, Hp|by rewrite Hno, Hn|by rewrite Hho].
Qed.

Lemma unseat_removed id room : removed id room (unseat id room).
Proof. apply forget_removed; try done. apply map_len_delete. Qed.

Lemma unseat_slots id room :
  DisconnectedUsers room !! id = None → PendingJoins room !! id = None →
  slots (unseat id room) = (Code room, delete id (Clients room), PendingJoins room, DisconnectedUsers room).
Proof.
  intros Hd Hp. unfold unseat, slots. set (room0 := room <| Clients := _ |> <| PendingJoins := _ |> <| DisconnectedUsers := _ |>).
  destruct (forget_user_fields id room0) as (-> & -> & -> & -> & _). subst room0. cbn.
  by rewrite (delete_id (PendingJoins room)), (delete_id (DisconnectedUsers room)).
Qed.

#[local] Opaque pickDeputy unseat forget_user.

Section Departing.
Context `{WireFormat}.

(** A seated client and its room. *)
Record seated (E : gset SessionRef) (c : ClientRef) (r : RoomRef) (w : World) : Prop := {
  sd_reg : registered r w;
  sd_seat : Clients (getRoom r w) !! clientID c w = Some c;
  sd_token : session c w ≠ "" ∧ sessions (w_srv w) !! session c w = None;
  sd_away : DisconnectedUsers (getRoom r w) !! clientID c w = None;
  sd_join : PendingJoins (getRoom r w) !! clientID c w = None
}.

Lemma room_seated E c r w : world_ok E w → currentRoom c w = Some r → seated E c r w.
Proof.
  intros [Hro _] Hc. destruct (ro_room _ _ Hro _ _ Hc) as (Hreg & Hcl & Hpe).
  assert (holder c w) as Hh by by eapply seated_holder.
  split; [done|done|by eapply ro_token|by apply (away_free _ _ Hro)|by apply (join_free _ _ Hro)].
Qed.

Lemma drop_token_none t w : sessions (w_srv w) !! t = None → drop_token t w = w.
Proof.
  intros Hn. unfold drop_token. case_decide; [done|]. unfold setServer. destruct w as [? ? ? ? []]; cbn in *.
  unfold update_field. cbn. by rewrite delete_id.
Qed.

(** The host of a room that loses a member, where [c] sits under [id] only. *)
Lemma host_is_member E w r c id :
  world_ok E w → registered r w → Clients (getRoom r w) !! id = Some c →
  (Host (getRoom r w) = Some c ↔ rs_HostID (State (getRoom r w)) = id).
Proof.
  intros [Hro Hrooms] Hreg Hseat. destruct (Hrooms r Hreg) as [_ Hm [Hse _] _ _ _].
  pose proof (mb_apart _ Hm _ _ Hseat) as Hap.
  destruct (ro_seat _ _ Hro _ _ _ Hreg Hseat) as [Hcid Hcro].
  assert (id ≠ "") as Hid. { rewrite <- Hcid. apply (ro_named _ _ Hro). by eapply seated_holder. }
  unfold host_seat_ok in Hse. destruct (Host (getRoom r w)) as [h|], (HostDisconnectedAt (getRoom r w)).
  - done.
  - destruct Hse as [Hx _]. split; [|congruence]. intros [= ->].
    destruct (ro_seat _ _ Hro _ _ _ Hreg Hx). congruence.
  - destruct Hse as (s & Hx & _). split; [done|]. intros Heq. rewrite Heq in Hx. congruence.
  - split; [done|]. congruence.
Qed.

(** The others of the room after [c] left, with a successor where needed. *)
Lemma departed_ok E w r c :
  world_ok E w → currentRoom c w = Some r →
  let id := clientID c w in
  let w1 := clearRoom c r (setRoom r (unseat id) w) in
  let elect := bool_decide (Host (getRoom r w) = Some c) in
  let w2 := if elect then (assignHostLocked r (pickDeputy (Clients (getRoom r w1)) w1) w1).2 else w1 in
  world_ok E w2 ∧ registered r w2 ∧ sessions (w_srv w2) = sessions (w_srv w).
Proof.
  intros Hok Hcr id w1 elect w2. pose proof Hok as [Hro Hrooms].
  destruct (room_seated E c r w Hok Hcr) as [Hreg Hseat Htok Hnaw Hnpj].
  pose proof (host_is_member E w r c id Hok Hreg Hseat) as Hhost.
  pose proof (unseat_removed id (getRoom r w)) as Hrm.
  assert (w1 = setRoom r (unseat id) (setClient c (λ cl, cl <| c_room := None |>) w)) as Hw1.
  { subst w1. unfold clearRoom. by rewrite decide_True. }
  pose proof (unseat_slots id (getRoom r w) Hnaw Hnpj) as Hsl.
  assert (registered r w2 ∧ sessions (w_srv w2) = sessions (w_srv w)) as [Hreg2 Hs2].
  { assert (Code (unseat id (getRoom r w)) = Code (getRoom r w)) as Hcode by by injection Hsl.
    subst w2. rewrite Hw1. destruct elect; rewrite ?assignHostLocked_world; 
      unfold registered; autorewrite with world; rewrite ?room_with_host_code, Hcode; (split; [exact Hreg|reflexivity]). }
  split_and!; [|done|done]. subst w2. destruct elect eqn:He; subst elect.
  - apply bool_decide_eq_true in He. rewrite assignHostLocked_world, Hw1, setRoom_setRoom.
    eapply (member_gone_ok E w Hok r id c); [done|done|by rewrite room_with_host_slots|]. intros Hrok.
    rewrite getRoom_setRoom_eq, getRoom_setClient.
    apply (elected_ok _ _ _ (unseat id (getRoom r w))).
    + eapply removed_but_host; [exact Hrm|by eapply room_ok_but_host].
    + rewrite (rv_clients _ _ _ Hrm). intros i h [_ Hx]%lookup_delete_Some.
      destruct (ro_seat _ _ Hro _ _ _ Hreg Hx) as [Hi _]. unfold clientID in *. reads; done.
    + intros h. unfold may_host, canHostClient. reads; done.
  - apply bool_decide_eq_false in He. rewrite Hw1.
    eapply (member_gone_ok E w Hok r id c); [done|done|exact Hsl|]. intros Hrok.
    apply but_host_room_ok; [eapply removed_but_host; [exact Hrm|by eapply room_ok_but_host]|].
    eapply removed_host; [exact Hrm|tauto|apply Hrok].
Qed.

(** The last member leaves, whatever else happens to the room: it is deleted. *)
Lemma last_gone_ok E w r c f :
  let room := getRoom r w in
  world_ok E w → currentRoom c w = Some r →
  slots (f room) = (Code room, delete (clientID c w) (Clients room), PendingJoins room, DisconnectedUsers room) →
  room_empty (f room) →
  world_ok E (deleteRoomIfEmpty r (setRoom r f (setClient c (λ cl, cl <| c_room := None |>) w))).2.
Proof.
  intros room Hok Hcr Hsl Hempty. pose proof Hok as [Hro _]. injection Hsl as Hc1 Hc2 Hc3 Hc4.
  destruct (room_seated E c r w Hok Hcr) as [Hreg Hseat _ _ _]. destruct Hempty as [He1 He2].
  assert (∀ d, currentRoom d w = Some r → d = c) as Honly.
  { intros d Hd. destruct (ro_room _ _ Hro _ _ Hd) as (_ & Hx & _).
    destruct (decide (clientID d w = clientID c w)) as [Heq|Hne]; [rewrite Heq in Hx; congruence|].
    assert (Clients (f room) !! clientID d w = Some d) as Hy by (by rewrite Hc2, lookup_delete_ne).
    by rewrite He1, lookup_empty in Hy. }
  eapply (delete_emptied_ok E w _ r); [done|done| | | | | | | |done].
  - change (DisconnectedUsers room = ∅). congruence.
  - split; intros d; unfold clientID, session, currentRoom, currentPendingRoom in *; reads; auto.
  - intros d Hd. unfold currentRoom in Hd. revert Hd. reads; [done|]. intros Hd. by apply Honly in Hd.
  - by autorewrite with world.
  - by autorewrite with world.
  - by autorewrite with world.
  - intros x Hne. reads; done.
Qed.

Lemma clearRoom_seated c r w : currentRoom c w = Some r → clearRoom c r w = setClient c (λ cl, cl <| c_room := None |>) w.
Proof. intros Hc. unfold clearRoom. by rewrite decide_True. Qed.

Lemma slots_empty_since room at' sl : slots room = sl → slots (room <| EmptySince := at' |>) = sl.
Proof. exact (λ H, H). Qed.
Lemma room_empty_since room at' : room_empty room → room_empty (room <| EmptySince := at' |>).
Proof. exact (λ H, H). Qed.

Lemma leave_last_ok E w r c now :
  world_ok E w → currentRoom c w = Some r →
  let w1 := clearRoom c r (setRoom r (unseat (clientID c w)) w) in
  room_empty (getRoom r w1) →
  world_ok E (deleteRoomIfEmpty r (setRoom r (λ room, room <| EmptySince := Some now |>) w1)).2.
Proof.
  intros Hok Hcr w1 [He1 He2]. destruct (room_seated E c r w Hok Hcr) as [Hreg Hseat _ Hnaw Hnpj].
  pose proof (unseat_slots (clientID c w) (getRoom r w) Hnaw Hnpj) as Hsl.
  assert (w1 = setRoom r (unseat (clientID c w)) (setClient c (λ cl, cl <| c_room := None |>) w)) as Hw1.
  { subst w1. by rewrite clearRoom_seated. }
  rewrite Hw1, getRoom_setRoom_eq, getRoom_setClient in He1, He2. rewrite Hw1, setRoom_setRoom.
  refine (last_gone_ok E w r c (λ room, (unseat (clientID c w) room) <| EmptySince := Some now |>) Hok Hcr _ _).
  - exact (slots_empty_since _ _ _ Hsl).
  - exact (room_empty_since _ _ (conj He1 He2)).
Qed.

Lemma leaveSeat_ok E e w r c : world_ok E w → currentRoom c w = Some r → world_ok E (leaveSeat e c r w).
Proof.
  intros Hok Hcr. destruct (room_seated E c r w Hok Hcr) as [Hreg Hseat [_ Htok] _ _].
  unfold leaveSeat. rewrite decide_False by tauto. cbv zeta.
  destruct (departed_ok E w r c Hok Hcr) as (Hok2 & Hreg2 & Hs2).
  destruct (decide (room_empty _)) as [Hemp|Hemp].
  - rewrite drop_token_none; [by apply leave_last_ok|].
    rewrite clearRoom_seated by done. exact Htok.
  - apply announce_ok; rewrite ?drop_token_none; try done; by rewrite Hs2.
Qed.

Lemma removePendingJoin_ok E w c : world_ok E w → world_ok E (removePendingJoin c w).
Proof.
  intros Hok. pose proof Hok as [Hro _]. unfold removePendingJoin.
  destruct (currentPendingRoom c w) as [r|] eqn:Hp; [|done].
  destruct (ro_pending _ _ Hro _ _ Hp) as [Hreg Hj]. rewrite decide_True by done.
  by apply (dropPending_ok E w Hok r (clientID c w) c).
Qed.

Lemma removePendingJoin_room c w : currentRoom c (removePendingJoin c w) = currentRoom c w.
Proof.
  unfold removePendingJoin. destruct (currentPendingRoom c w) as [r|]; [|done].
  unfold clearPendingRoom, currentRoom. repeat case_decide; reads; done.
Qed.

(** Withdrawing makes nobody a holder. *)
Lemma removePendingJoin_fresh E i w c : world_ok E w → fresh_id i w → fresh_id i (removePendingJoin c w).
Proof.
  intros Hok [Hn Hh Ha]. pose proof Hok as [Hro _]. unfold removePendingJoin.
  destruct (currentPendingRoom c w) as [r|] eqn:Hp; [|done].
  destruct (ro_pending _ _ Hro _ _ Hp) as [Hreg Hj]. rewrite decide_True by done.
  unfold clearPendingRoom. rewrite decide_True by done. split; [done| |].
  - intros d Hd. specialize (Hh d). unfold holder, clientID, currentRoom, currentPendingRoom in *.
    revert Hd. reads; [|done]. intros Hd. apply Hh. rewrite Hp. eauto.
  - intros x. unfold registered. specialize (Ha x). unfold registered in Ha. reads; done.
Qed.

Lemma removePendingJoin_idle c w :
  currentPendingRoom c (removePendingJoin c w) = None.
Proof.
  unfold removePendingJoin. destruct (currentPendingRoom c w) as [x|] eqn:Hp; [|done].
  unfold clearPendingRoom. set (w1 := if decide _ then _ else w).
  assert (currentPendingRoom c w1 = Some x) as Hw1 by (subst w1; by case_decide).
  rewrite decide_True by done. unfold currentPendingRoom. by rewrite getClient_setClient_eq.
Qed.

Lemma leaveRoom_ok E e w c :
  world_ok E w → c_ConnOpen (getClient c w) = true → fresh_id (e_userID e) w →
  world_ok E (leaveRoom e c w).
Proof.
  intros Hok Hconn Hfr. unfold leaveRoom. destruct (currentRoom c w) as [r|] eqn:Hcr; [by apply leaveSeat_ok|].
  pose proof (removePendingJoin_ok E w c Hok) as Hok1.
  pose proof (removePendingJoin_fresh E _ w c Hok Hfr) as Hfr1.
  pose proof (removePendingJoin_idle c w) as Hid1. pose proof (removePendingJoin_room c w) as Hr1.
  rewrite Hcr in Hr1. rewrite Hr1.
  assert ((c < w_next (removePendingJoin c w))%nat) as Hlt.
  { assert (w_next (removePendingJoin c w) = w_next w) as ->.
    { unfold removePendingJoin, clearPendingRoom. by repeat (case_match || case_decide). }
    destruct Hok as [Hro _]. apply (ro_named _ _ Hro). by left. }
  revert Hok1 Hfr1 Hid1 Hr1 Hlt. generalize (removePendingJoin c w). clear. intros w Hok Hfr Hpe Hro Hlt.
  pose proof Hok as [Hr Hrooms]. unfold setClientID.
  apply (world_moved E E w _ 0); [done|solve_stable| | |].
  - eapply (roster_rename E w _ c 0 Hr); [done|done|done|done|exact Hfr|]. solve_moves.
    unfold place, currentRoom, currentPendingRoom in *. cbn. by rewrite Hro, Hpe.
  - done.
  - auto.
Qed.

End Departing.
