(* ===== verification/PreserveRooms.v ===== *)
(** PreserveRooms: the handlers of [rooms.go] keep the invariant. *)

From S2P Require Import Prelude Protocol Utf8 Validation UAPolicy World Client Roster Hosts Playback Limits Members Rooms Lifecycle RoomOk Safety Preserve.

#[local] Opaque pickDeputy unseat forget_user.

Lemma sendPolicyQueueSnapshot_core `{WireFormat} c st w : same_core w (sendPolicyQueueSnapshot c st w).
Proof. unfold sendPolicyQueueSnapshot. case_decide; [done|apply sendMessage_core]. Qed.

Section Deciding.
Context `{WireFormat}.
Context (E : gset SessionRef) (w : World) (Hok : world_ok E w).

Lemma error_ok c code msg : world_ok E (sendError c code msg w).
Proof. eapply world_core; [apply sendError_core|done]. Qed.

Lemma host_seated r c : currentRoom c w = Some r → is_room_host (getRoom r w) c →
  registered r w ∧ Clients (getRoom r w) !! clientID c w = Some c ∧
  rs_HostID (State (getRoom r w)) = clientID c w.
Proof.
  intros Hc [Hh _]. destruct (room_seated E c r w Hok Hc) as [Hreg Hseat _ _ _].
  split_and!; [done|done|]. by apply (host_is_member E w r c).
Qed.

(** ** Kicking *)

Lemma kick_connected_ok r id t :
  registered r w → Clients (getRoom r w) !! id = Some t → rs_HostID (State (getRoom r w)) ≠ id →
  world_ok E (setRoom r (forget_user id)
    (setRoom r (λ room, room <| Clients := delete id (Clients room) |>) (clearRoom t r w))).
Proof.
  intros Hreg Hseat Hne. pose proof Hok as [Hro Hrooms].
  destruct (ro_seat _ _ Hro _ _ _ Hreg Hseat) as [Hid Hcr].
  rewrite clearRoom_seated by done. set (f := λ room : Room, room <| Clients := delete id (Clients room) |>).
  rewrite setRoom_setRoom.
  assert (removed id (getRoom r w) (forget_user id (f (getRoom r w)))) as Hrm.
  { apply forget_removed; try done. cbn. symmetry. apply delete_id.
    by apply (mb_apart _ (rk_members _ _ _ (Hrooms r Hreg)) _ t). }
  apply (member_gone_ok E w Hok r id t); [done|done| |].
  - destruct (forget_user_fields id (f (getRoom r w))) as (H1 & H2 & H3 & H4 & _).
    cbv beta. unfold slots. rewrite H1, H2, H3, H4. done.
  - intros Hr. apply but_host_room_ok; [eapply removed_but_host; [exact Hrm|by eapply room_ok_but_host]|].
    eapply removed_host; [exact Hrm|done|apply Hr].
Qed.

(** The update of a room that gives up a reserved seat. *)
Definition vacate (id : string) (room : Room) : Room :=
  forget_user id (room <| DisconnectedUsers := delete id (DisconnectedUsers room) |>).

Lemma vacate_removed r id s :
  registered r w → DisconnectedUsers (getRoom r w) !! id = Some s →
  removed id (getRoom r w) (vacate id (getRoom r w)) ∧
  slots (vacate id (getRoom r w)) = (Code (getRoom r w), Clients (getRoom r w), PendingJoins (getRoom r w),
    delete id (DisconnectedUsers (getRoom r w))).
Proof.
  intros Hreg Hd. pose proof Hok as [Hro Hrooms]. unfold vacate.
  set (room0 := (getRoom r w) <| DisconnectedUsers := _ |>). split.
  - apply forget_removed; try done. cbn. symmetry. apply delete_id.
    destruct (Clients (getRoom r w) !! id) as [t|] eqn:Hx; [|done].
    pose proof (mb_apart _ (rk_members _ _ _ (Hrooms r Hreg)) _ t Hx). congruence.
  - destruct (forget_user_fields id room0) as (H1 & H2 & H3 & H4 & _).
    unfold slots. rewrite H1, H2, H3, H4. done.
Qed.

Lemma kick_offline_ok E' r id s :
  registered r w → DisconnectedUsers (getRoom r w) !! id = Some s → rs_HostID (State (getRoom r w)) ≠ id →
  (∀ x, x ∈ E' ↔ x ∈ E ∧ ¬ sits id (Code (getRoom r w)) x w) →
  world_ok E' (setRoom r (forget_user id) (kickOffline r id w)).
Proof.
  intros Hreg Hd Hne HE. destruct (vacate_removed r id s Hreg Hd) as [Hrm Hsl].
  assert (setRoom r (forget_user id) (kickOffline r id w) =
    setServer (λ srv, srv <| sessions := filter (λ e, ¬ (se_RoomCode (getSession e.2 w) = Code (getRoom r w) ∧
      se_UserID (getSession e.2 w) = id)) (sessions srv) |>) (setRoom r (vacate id) w)) as ->.
  { unfold kickOffline, dropSessions, vacate.
    rewrite getRoom_setRoom_eq, setRoom_setServer, setRoom_setRoom. reflexivity. }
  eapply (away_gone_ok E w Hok E' r id s); [done|done|exact Hsl| |done| |done].
  - intros Hr. apply but_host_room_ok; [eapply removed_but_host; [exact Hrm|by eapply room_ok_but_host]|].
    eapply removed_host; [exact Hrm|done|apply Hr].
  - intros t x. cbn. rewrite map_lookup_filter_Some. unfold sits. cbn. naive_solver.
Qed.

(** Sessions that wait to be expired keep their seats, or are forgotten with
    them when the host puts their user out. *)
Definition spares (E : gset SessionRef) (w w' : World) : Prop :=
  ∃ E', E' ⊆ E ∧ world_ok E' w' ∧
    ∀ s r, s ∈ E → s ∉ E' → rooms (w_srv w') !! se_RoomCode (getSession s w) = Some r →
      ¬ is_member (se_UserID (getSession s w)) (getRoom r w').
Lemma ok_spares V V' : world_ok E V' → spares E V V'.
Proof. intros Hv. exists E. by split_and!. Qed.
Lemma spares_core V W W' : same_core W W' → spares E V W → spares E V W'.
Proof.
  intros Hc (E' & He & Hk & Hs). exists E'. split_and!; [done|by eapply world_core|]. intros s r.
  rewrite (core_srv _ _ Hc), (core_getRoom _ _ _ Hc). apply Hs.
Qed.

Lemma kick_offline_gone r id s :
  registered r w → DisconnectedUsers (getRoom r w) !! id = Some s →
  let w' := setRoom r (forget_user id) (kickOffline r id w) in
  rooms (w_srv w') = rooms (w_srv w) ∧ ¬ is_member id (getRoom r w').
Proof.
  intros Hreg Hd w'. split; [done|]. unfold w', is_member, kickOffline, dropSessions.
  rewrite getRoom_setRoom_eq, getRoom_setServer, getRoom_setRoom_eq.
  match goal with |- context [forget_user id ?room] => destruct (forget_user_fields id room) as (_ & -> & _ & -> & _) end. cbn.
  rewrite lookup_delete_eq. destruct (Clients (getRoom r w) !! id) as [c|] eqn:Hc; [|naive_solver by apply is_Some_None].
  pose proof (mb_apart _ (rk_members _ _ _ (wo_rooms _ _ Hok r Hreg)) _ _ Hc). congruence.
Qed.

Lemma handleKickUser_spares c payload : spares E w (handleKickUser c payload w).
Proof.
  unfold handleKickUser. destruct (decodePayload _ _ _) as [p|]; [|apply ok_spares, error_ok].
  destruct (decide (kup_UserID p = "")); [apply ok_spares, error_ok|].
  destruct (currentRoom c w) as [r|] eqn:Hc; [|apply ok_spares, error_ok].
  destruct (decide (¬ is_room_host _ _)) as [|Hh]; [apply ok_spares, error_ok|]. apply dec_stable in Hh.
  destruct (decide (kup_UserID p = clientID c w)) as [|Hne]; [apply ok_spares, error_ok|].
  destruct (host_seated r c Hc Hh) as (Hreg & _ & Hhid). set (id := kup_UserID p) in *.
  assert (rs_HostID (State (getRoom r w)) ≠ id) as Hnh by congruence.
  destruct (Clients (getRoom r w) !! id) as [t|] eqn:Ht;
    [|destruct (DisconnectedUsers (getRoom r w) !! id) as [s|] eqn:Hs; [|apply ok_spares, error_ok]].
  - apply ok_spares. eapply world_core; [|by apply (kick_connected_ok r id t)].
    etrans; [|apply sendMessageToClients_core]. unfold kickConnected.
    apply setRoom_proper, setRoom_proper, clearRoom_proper, sendMessage_core.
  - eapply spares_core; [apply sendMessageToClients_core|]. destruct (kick_offline_gone r id s Hreg Hs) as [Hr Hm].
    set (E' := filter (λ x, ¬ sits id (Code (getRoom r w)) x w) E). exists E'.
    split_and!; [unfold E'; set_solver|by apply (kick_offline_ok E' r id s); [..|unfold E'; set_solver]|].
    intros x r' Hx Hnx. rewrite Hr. unfold E' in Hnx. rewrite elem_of_filter in Hnx.
    assert (sits id (Code (getRoom r w)) x w) as [-> ->] by (apply dec_stable; tauto).
    intros Hr'. unfold registered in Hreg. rewrite Hreg in Hr'. by injection Hr' as <-.
Qed.

(** ** Transferring the host role *)

Lemma assign_member_ok r id h :
  registered r w → Clients (getRoom r w) !! id = Some h → canHostClient h w →
  world_ok E (assignHostLocked r (Some h) w).2.
Proof.
  intros Hreg Hx Hcan. pose proof Hok as [Hro Hrooms]. rewrite assignHostLocked_world.
  apply world_room; [done|apply room_with_host_slots|]. intros _ Hr.
  destruct (ro_seat _ _ Hro _ _ _ Hreg Hx) as [Hid _].
  apply assigned_ok; [by eapply room_ok_but_host| |done]. by rewrite Hid.
Qed.

Lemma handleTransferHost_ok c payload : world_ok E (handleTransferHost c payload w).
Proof.
  unfold handleTransferHost. destruct (decodePayload _ _ _) as [p|]; [|apply error_ok].
  destruct (decide (thp_NewHostID p = "")); [apply error_ok|].
  destruct (currentRoom c w) as [r|] eqn:Hc; [|apply error_ok].
  destruct (decide (¬ is_room_host _ _)) as [|Hh]; [apply error_ok|]. apply dec_stable in Hh.
  destruct (decide (thp_NewHostID p = clientID c w)) as [|Hne]; [apply error_ok|].
  destruct (Clients (getRoom r w) !! thp_NewHostID p) as [t|] eqn:Ht; [|apply error_ok].
  destruct (decide (isClosed t w = true)); [apply error_ok|].
  destruct (decide (¬ canHostClient t w)) as [|Hcan]; [apply error_ok|]. apply dec_stable in Hcan.
  destruct (host_seated r c Hc Hh) as (Hreg & _ & _). pose proof Hok as [Hro Hrooms].
  destruct (ro_seat _ _ Hro _ _ _ Hreg Ht) as [Hid _].
  eapply world_core; [apply deliverHostChange_core|].
  rewrite setRoom_setRoom.
  apply world_room; [done|done|]. intros _ Hr. apply assigned_ok; [|cbn; by rewrite <- Hid in Ht|done].
  by apply (room_ok_but_host (may_host w)), owner_cleared_ok.
Qed.

(** ** Applicants *)

Lemma handleRejectJoin_ok c payload : world_ok E (handleRejectJoin c payload w).
Proof.
  unfold handleRejectJoin. destruct (decodePayload _ _ _) as [p|]; [|apply error_ok].
  destruct (decide (rjp_UserID p = "")); [apply error_ok|].
  destruct (currentRoom c w) as [r|] eqn:Hc; [|apply error_ok].
  destruct (decide (¬ is_room_host _ _)) as [|Hh]; [apply error_ok|]. apply dec_stable in Hh.
  destruct (PendingJoins (getRoom r w) !! rjp_UserID p) as [t|] eqn:Ht; [|apply error_ok].
  destruct (host_seated r c Hc Hh) as (Hreg & _ & _).
  eapply world_core; [|by apply (dropPending_ok E w Hok r (rjp_UserID p) t)]. unfold dropPending.
  apply clearPendingRoom_proper, setRoom_proper, sendMessage_core.
Qed.

(** The updates of an approval, as one client and one room update. *)
Lemma grant_ok r id t token name :
  registered r w → PendingJoins (getRoom r w) !! id = Some t →
  roomMembersLocked (getRoom r w) < MaxClientsPerRoom → fresh_token token w →
  world_ok E (setRoom r (λ room, seat (clientID t w) name t (room <| PendingJoins := delete id (PendingJoins room) |>))
    (setClient t (λ cl, cl <| c_affiliationStarted := true |> <| c_room := Some r |> <| c_pendingRoom := None |>
                           <| c_sessionToken := token |>) w)).
Proof.
  intros Hreg Hj Hlt Hft. pose proof Hok as [Hro Hrooms].
  destruct (ro_applicant _ _ Hro _ _ _ Hreg Hj) as [Hid Hpe].
  pose proof (applicant_unseated E w Hok r id t Hreg Hj) as Hno.
  assert (holder t w) as Hh by by eapply applying_holder.
  set (w' := setRoom _ _ _). assert (stable w w') as Hst by (subst w'; solve_stable).
  apply (world_moved E E w w' r); [done|done| | |].
  - eapply (roster_grant E w w' t r Hro); [done|done|exact Hj|exact Hft|]. subst w'. rewrite <- Hid. solve_moves.
  - intros x Hne. subst w'. unfold registered. reads; done.
  - intros Hold _. subst w'. rewrite getRoom_setRoom_eq, getRoom_setClient. apply seat_ok.
    + apply joins_ok; [auto|]. etrans; [apply map_len_delete|]. apply (Hrooms r Hreg).
    + intros [[x Hx]|[x Hx]]; cbn in Hx.
      * pose proof (seat_free _ _ Hro t r Hreg Hh Hno). congruence.
      * pose proof (away_free _ _ Hro t r Hreg Hh). congruence.
    + apply (ro_named _ _ Hro t Hh).
    + done.
Qed.

Lemma handleApproveJoin_ok e c payload :
  fresh_token (e_token e) w → world_ok E (handleApproveJoin e c payload w).
Proof.
  intros Hft. unfold handleApproveJoin. destruct (decodePayload _ _ _) as [p|]; [|apply error_ok].
  destruct (decide (ajp_UserID p = "")); [apply error_ok|].
  destruct (currentRoom c w) as [r|] eqn:Hc; [|apply error_ok].
  destruct (decide (¬ is_room_host _ _)) as [|Hh]; [apply error_ok|]. apply dec_stable in Hh.
  destruct (PendingJoins (getRoom r w) !! ajp_UserID p) as [t|] eqn:Ht; [|apply error_ok].
  destruct (host_seated r c Hc Hh) as (Hreg & _ & _). pose proof Hok as [Hro _].
  destruct (decide (isClosed t w = true)).
  { eapply world_core; [apply sendError_core|]. by apply dropPending_ok. }
  destruct (decide (MaxClientsPerRoom ≤ _)) as [|Hlt]; [apply error_ok|].
  pose proof (applicant_unseated E w Hok r _ t Hreg Ht) as Hno.
  destruct (ro_applicant _ _ Hro _ _ _ Hreg Ht) as [Hid Hpe].
  unfold trySetRoom. assert (currentRoom t (markAffiliationStarted t w) = None) as ->.
  { unfold currentRoom, markAffiliationStarted in *. by rewrite getClient_setClient_eq. }
  destruct (decide (true = false)); [done|].
  eapply world_core; [etrans; [|apply sendMessageToClients_core];
    etrans; [apply sendMessage_core|apply sendPolicyQueueSnapshot_core]|].
  assert (clientID t (setClient t (λ cl, cl <| c_room := Some r |>) (markAffiliationStarted t w)) = clientID t w) as ->.
  { unfold clientID, markAffiliationStarted. by rewrite !getClient_setClient_eq. }
  unfold dropPending, clearPendingRoom. rewrite decide_True.
  2:{ unfold currentPendingRoom, markAffiliationStarted in *. rewrite getClient_setRoom, !getClient_setClient_eq. exact Hpe. }
  unfold setSessionToken, markAffiliationStarted.
  rewrite !setClient_setRoom, !setClient_setClient, setRoom_setRoom.
  apply grant_ok; [done|done|lia|done].
Qed.

End Deciding.

Lemma spares_empty w w' : spares ∅ w w' → world_ok ∅ w'.
Proof. intros (E' & He & Hok & _). by replace ∅ with E' by set_solver. Qed.
Lemma spares_before E w1 w w' : same_core w1 w → spares E w w' → spares E w1 w'.
Proof.
  intros Hc (E' & He & Hk & Hs). exists E'. split_and!; [done|done|]. intros s r.
  replace (getSession s w1) with (getSession s w) by (unfold getSession; by rewrite (core_sessions _ _ Hc)). apply Hs.
Qed.

(** ** Creating and joining *)

Section Joining.
Context `{WireFormat, UnicodeTables}.

(** A change of one client that neither moves nor renames it. *)
Lemma world_client E w c f :
  world_ok E w → place (f (getClient c w)) = place (getClient c w) →
  c_uaTier (f (getClient c w)) = c_uaTier (getClient c w) →
  (c_ConnOpen (f (getClient c w)) = true → c_ConnOpen (getClient c w) = true) →
  world_ok E (setClient c f w).
Proof.
  intros Hok Hp Ht Hc. pose proof Hok as [Hro Hrooms].
  apply (world_moved E E w _ 0); [done| | | |].
  - split; intros *; reads; done.
  - eapply roster_frame; [|done]. split; intros *; reads; done.
  - done.
  - auto.
Qed.

Lemma trySetPendingRoom_idle c r w :
  currentRoom c w = None → currentPendingRoom c w = None →
  trySetPendingRoom c r w =
    (true, setClient c (λ cl, cl <| c_affiliationStarted := true |> <| c_pendingRoom := Some r |>) w).
Proof.
  intros Hr Hp. unfold trySetPendingRoom, markAffiliationStarted. rewrite Hr.
  unfold currentRoom, currentPendingRoom in *. rewrite getClient_setClient_eq. cbn. rewrite Hp.
  rewrite setClient_setClient, getClient_setClient_eq. cbn. by rewrite Hr.
Qed.

(** The updates of an application, as one client and one room update. *)
Lemma apply_ok E w c r g :
  world_ok E w → registered r w → holder c w → currentRoom c w = None → currentPendingRoom c w = None →
  map_len (PendingJoins (getRoom r w)) < MaxPendingJoins →
  place (g (getClient c w)) = (clientID c w, session c w, None, Some r) →
  c_uaTier (g (getClient c w)) = c_uaTier (getClient c w) →
  world_ok E (setRoom r (λ room, room <| PendingJoins := <[clientID c w := c]> (PendingJoins room) |>)
    (setClient c g w)).
Proof.
  intros Hok Hreg Hh Hcr Hpe Hlt Hg Ht. pose proof Hok as [Hro Hrooms].
  set (w' := setRoom _ _ _). assert (stable w w') as Hst by (subst w'; solve_stable).
  apply (world_moved E E w w' r); [done|done| | |].
  - eapply (roster_apply E w w' c r Hro); [done|done|done|done|done|]. subst w'. solve_moves.
  - intros x Hne. subst w'. unfold registered. reads; done.
  - intros Hold _. subst w'. rewrite getRoom_setRoom_eq, getRoom_setClient. apply joins_ok; [auto|].
    pose proof (map_len_insert (PendingJoins (getRoom r w)) (clientID c w) c). lia.
Qed.

Lemma handleJoinRoom_ok E w c payload :
  world_ok E w → c_ConnOpen (getClient c w) = true → world_ok E (handleJoinRoom c payload w).
Proof.
  intros Hok Hconn. unfold handleJoinRoom. destruct (decodePayload _ _ _) as [p|]; [|by apply error_ok].
  destruct (decide (jrp_Username p = "")); [by apply error_ok|].
  destruct (decide (is_Some (currentRoom c w))) as [|Hcr]; [by apply error_ok|].
  destruct (decide (is_Some (currentPendingRoom c w))) as [|Hpe]; [by apply error_ok|].
  apply eq_None_not_Some in Hcr, Hpe.
  set (username := sanitizeString _ _). destruct (decide (username = "")); [by apply error_ok|].
  destruct (decide (jrp_RoomCode p = "")); [by apply error_ok|].
  destruct (decide (sanitizeString _ _ = "")); [by apply error_ok|].
  destruct (rooms (w_srv w) !! _) as [r|] eqn:Hr; [|by apply error_ok].
  pose proof Hok as [Hro Hrooms]. destruct (registered_code _ _ Hro _ _ Hr) as [Hreg _].
  assert (world_ok E (setUsername c username w)) as Hok1 by by apply world_client.
  assert (clientID c (setUsername c username w) = clientID c w) as Hid.
  { unfold clientID, setUsername. by rewrite getClient_setClient_eq. }
  cbv zeta. rewrite Hid. change (getRoom r (setUsername c username w)) with (getRoom r w).
  destruct (decide (is_Some (Clients _ !! _))); [by apply error_ok|].
  destruct (decide (is_Some (PendingJoins _ !! _))); [by apply error_ok|].
  destruct (decide (MaxClientsPerRoom ≤ _)); [by apply error_ok|].
  destruct (decide (MaxPendingJoins ≤ _)) as [|Hlt]; [by apply error_ok|].
  destruct (decide (rs_HostID _ = "")); [by apply error_ok|].
  rewrite trySetPendingRoom_idle by (unfold setUsername, currentRoom, currentPendingRoom in *;
    by rewrite getClient_setClient_eq).
  destruct (decide (true = false)); [done|].
  assert (world_ok E (setRoom r (λ room, room <| PendingJoins := <[clientID c w := c]> (PendingJoins room) |>)
    (setClient c (λ cl, cl <| c_affiliationStarted := true |> <| c_pendingRoom := Some r |>) (setUsername c username w)))) as Hfin.
  { unfold setUsername. rewrite setClient_setClient. apply apply_ok; try done; [by left|lia|].
    unfold place, currentRoom in *. cbn. by rewrite Hcr. }
  destruct (connected_host _); [|done]. eapply world_core; [apply sendMessage_core|done].
Qed.

(** A code that was drawn and not taken. *)
Lemma draw_code_free taken draws i n code0 ex code :
  draw_code taken draws i n code0 ex = (code, false) →
  taken !! code = None ∨ (n = 0%nat ∧ code = code0).
Proof.
  revert i code0 ex. induction n as [|n IH]; intros i code0 ex; cbn.
  - intros [= -> _]. by right.
  - destruct (taken !! draws i) eqn:Ht; [|by intros [= <-]; left].
    intros Hd. destruct (IH _ _ _ Hd) as [?|[-> ->]]; [by left|]. by cbn in Hd.
Qed.

Lemma room_create_allowed_same now c w b w' :
  room_create_allowed now c w = (b, w') →
  ∃ srv, w' = setServer (λ _, srv) w ∧ rooms srv = rooms (w_srv w) ∧ sessions srv = sessions (w_srv w).
Proof.
  unfold room_create_allowed. case_decide.
  - intros [= _ <-]. exists (w_srv w). by destruct w.
  - destruct (allowRoomCreate _ _ _) as [ok srv] eqn:Ha. intros [= _ <-]. exists srv. split; [done|].
    unfold allowRoomCreate, count_create in Ha. repeat (case_match || case_decide); by simplify_eq.
Qed.

(** The updates of a creation. *)
Lemma found_ok E w c code t room g h :
  world_ok E w → holder c w → currentRoom c w = None → currentPendingRoom c w = None →
  fresh_token t w → rooms (w_srv w) !! code = None →
  slots room = (code, {[clientID c w := c]}, ∅, ∅) → room_ok (may_host w) (was_host w) room →
  place (g (getClient c w)) = (clientID c w, t, Some (w_next w), None) →
  c_uaTier (g (getClient c w)) = c_uaTier (getClient c w) →
  rooms (h (w_srv w)) = <[code := w_next w]> (rooms (w_srv w)) → sessions (h (w_srv w)) = sessions (w_srv w) →
  world_ok E (setServer h (setClient c g (newRoom room w).2)).
Proof.
  intros Hok Hh Hcr Hpe Hft Hcode Hsl Hroom Hg Ht Hr Hs. pose proof Hok as [Hro Hrooms].
  set (w' := setServer _ _).
  assert (∀ x, getRoom x w' = if decide (x = w_next w) then room else getRoom x w) as Hgr.
  { intros x. unfold w', getRoom. cbn. case_decide; [subst; apply lookup_total_insert_eq|by apply lookup_total_insert_ne]. }
  assert (∀ d, getClient d w' = if decide (d = c) then g (getClient c w) else getClient d w) as Hgc.
  { intros d. unfold w'. rewrite getClient_setServer, getClient_setClient. by case_decide; [subst|]. }
  assert (stable w w') as Hst.
  { split; intros x _; [rewrite Hgc; case_decide; [subst|]; done|done]. }
  assert (moves w w' c (w_next w) (clientID c w, t, Some (w_next w), None) (code, {[clientID c w := c]}, ∅, ∅)) as Hmv.
  { split.
    - intros d. rewrite Hgc. by case_decide; [subst|].
    - intros d Hne. by rewrite Hgc, decide_False.
    - intros x. rewrite Hgr. by case_decide.
    - done.
    - cbn. lia. }
  assert (∀ x, registered x w' ↔ x = w_next w ∨ (x ≠ w_next w ∧ registered x w)) as Hre.
  { intros x. by eapply found_registered. }
  apply (world_moved E E w w' (w_next w)); [done|done| | |].
  - eapply (roster_found E w w' c (w_next w) code t Hro); try done. cbn. lia.
  - intros x Hne [?|[_ Hx]]%Hre; [done|]. split; [done|]. by rewrite Hgr, decide_False.
  - intros _ _. rewrite Hgr, decide_True by done. eapply room_ok_ext; [| |exact Hroom]; [|done].
    intros x _. unfold may_host, canHostClient. rewrite Hgc. case_decide; [subst; by rewrite Ht|done].
Qed.

Lemma trySetRoom_idle c r w :
  currentRoom c w = None →
  trySetRoom c r w = (true, setClient c (λ cl, cl <| c_affiliationStarted := true |> <| c_room := Some r |>) w).
Proof.
  intros Hr. unfold trySetRoom, markAffiliationStarted, currentRoom in *.
  rewrite getClient_setClient_eq. cbn. by rewrite Hr, setClient_setClient.
Qed.

Lemma openRoom_ok E e w c code username :
  world_ok E w → holder c w → canHostClient c w → currentRoom c w = None → currentPendingRoom c w = None →
  fresh_token (e_token e) w → rooms (w_srv w) !! code = None → room_count (w_srv w) < MaxRooms →
  world_ok E (openRoom e c code username w).
Proof.
  intros Hok Hh Hcan Hcr Hpe Hft Hfree Hmax. unfold openRoom.
  set (room := fresh_room _ _ _ _ _). rewrite (surjective_pairing (newRoom room w)). cbn [fst].
  assert (w_srv (newRoom room w).2 = w_srv w) as Hsrv by done. pose proof Hok as [Hro _].
  rewrite trySetRoom_idle by done. destruct (decide (true = false)); [done|].
  unfold setSessionToken, setUsername. rewrite !setClient_setClient. cbv zeta. rewrite !srv_setClient, Hsrv.
  rewrite decide_False by lia. rewrite decide_False by (rewrite Hfree; by intros [? ?]).
  eapply world_core; [apply reply_core|].
  eapply (found_ok E w c code (e_token e) room); try done.
  - subst room. apply fresh_room_ok; [|done]. apply (ro_named _ _ Hro c Hh).
  - unfold place, currentPendingRoom in *. cbn. by rewrite Hpe.
Qed.

Lemma handleCreateRoom_ok E e w c payload :
  world_ok E w → c_ConnOpen (getClient c w) = true → fresh_token (e_token e) w →
  world_ok E (handleCreateRoom e c payload w).
Proof.
  intros Hok Hconn Hft. unfold handleCreateRoom.
  destruct (decide (¬ canHostClient c w)) as [|Hcan]; [by apply error_ok|]. apply dec_stable in Hcan.
  destruct (decodePayload _ _ _) as [p|]; [|by apply error_ok].
  destruct (decide (crp_Username p = "")); [by apply error_ok|].
  destruct (decide (is_Some (currentRoom c w))) as [|Hcr]; [by apply error_ok|].
  destruct (decide (is_Some (currentPendingRoom c w))) as [|Hpe]; [by apply error_ok|].
  apply eq_None_not_Some in Hcr, Hpe. set (username := sanitizeString _ _).
  cbv zeta. destruct (decide (username = "")); [by apply error_ok|].
  destruct (draw_code _ _ _ _ _ _) as [code ex] eqn:Hd.
  destruct (decide (code = "" ∨ ex = true)) as [|Hcode]; [by apply error_ok|].
  destruct (decide (MaxRooms ≤ _)) as [|Hmax]; [by apply error_ok|].
  assert (rooms (w_srv w) !! code = None) as Hfree.
  { destruct ex; [naive_solver|]. by destruct (draw_code_free _ _ _ _ _ _ _ Hd) as [?|[? _]]. }
  destruct (room_create_allowed _ _ _) as [allowed w1] eqn:Ha.
  apply room_create_allowed_same in Ha as (srv & -> & Hsr & Hss).
  assert (world_ok E (setServer (λ _, srv) w)) as Hok1 by (apply world_server; [done|by rewrite Hsr, Hss]).
  destruct (decide (allowed = false)); [by apply error_ok|].
  apply openRoom_ok; try done.
  - by left.
  - destruct Hft as [? Hi Hs]. split; [done|cbn; by rewrite Hss|done].
  - cbn. by rewrite Hsr.
  - unfold room_count in *. cbn. rewrite Hsr. lia.
Qed.

End Joining.

(** ** Suggestions and playback *)

Section Suggesting.
Context `{WireFormat}.
Context (E : gset SessionRef) (w : World) (Hok : world_ok E w).

Lemma member_of r c : currentRoom c w = Some r → is_member (clientID c w) (getRoom r w).
Proof. intros Hc. destruct (room_seated E c r w Hok Hc) as [_ Hx _ _ _]. left. rewrite Hx. eauto. Qed.

Lemma handleSuggestTrack_ok e c payload : world_ok E (handleSuggestTrack e c payload w).
Proof.
  unfold handleSuggestTrack. destruct (decodePayload _ _ _) as [p|]; [|by apply error_ok].
  destruct (currentRoom c w) as [r|] eqn:Hc; [|by apply error_ok].
  destruct (stp_TrackInfo p) as [t|]; [|by apply error_ok].
  destruct (sanitizeTrackInfo t) as [track|] eqn:Hs; [|by apply error_ok]. cbv zeta.
  destruct (decide (_ ≠ Some c)); [by apply error_ok|].
  destruct (decide (rs_HostID _ = _)); [done|].
  destruct (decide (MaxPendingSuggestions ≤ _)) as [|Hlt]; [by apply error_ok|].
  destruct (decide (Exists _ _)); [by apply error_ok|].
  destruct (decide (MaxSuggestionsPerUser ≤ _)) as [|Hmine]; [by apply error_ok|].
  set (sg := mkSuggestion _ _ _ _). set (w1 := setRoom r _ w).
  assert (world_ok E w1) as Hok1.
  { subst w1. apply world_room; [done|done|]. intros _ Hr.
    apply (extras_replaced _ _ _ _ (PendingNotices (getRoom r w))); [done|].
    destruct (suggestion_set_ok (getRoom r w) (e_suggestionID e) sg) as [Hx1 Hx2 Hx3 Hx4 Hx5].
    - apply Hr.
    - by apply member_of.
    - apply Forall_singleton. by apply sanitizeTrackInfo_id in Hs as [_ ?].
    - done.
    - right. lia.
    - right. cbn. lia.
    - by split. }
  set (w2 := match connected_host _ with Some _ => _ | None => _ end).
  assert (world_ok E w2) as Hok2.
  { subst w2. destruct (connected_host _); [|done]. eapply world_core; [apply sendMessage_core|done]. }
  destruct (hasFeature _ _ _); [|done]. eapply world_core; [apply reply_core|done].
Qed.

(** Approving, refused or not, keeps the room in order. *)
Lemma insert_suggestion_ok can hosted k sg room :
  room_ok can hosted room → PendingSuggestions room !! k = Some sg →
  match insert_suggestion k sg room with
  | inl (room', _, _) | inr (room', _) =>
    slots room' = slots room ∧ room_ok can hosted room' ∧ DisconnectedUsers room' = DisconnectedUsers room
  end.
Proof.
  intros Hr Hk. pose proof (ex_authors _ (rk_extras _ _ _ Hr) _ _ Hk) as (Hmem & Hids & Hid).
  unfold insert_suggestion. destruct (sg_Track sg) as [track|] eqn:Ht; [|done].
  destruct (decide (MaxQueueSize ≤ _)) as [|Hq]; [done|]. destruct (decide (playing_or_queued _ _)); [done|].
  set (track' := track <| ti_SuggestedBy := _ |>). cbv zeta.
  set (room1 := room <| PendingSuggestions := _ |>).
  assert (tracks_ok [track']) as Hv
    by (unfold tracks_ok in *; cbn in Hids; rewrite Forall_singleton in *; by destruct Hids).
  assert (room_ok can hosted room1) as Hr1.
  { apply (extras_replaced _ _ room _ (PendingNotices room)); [done|].
    destruct (suggestion_set_ok room k (sg <| sg_Track := Some track' |>)) as [Hx1 Hx2 Hx3 Hx4 Hx5];
      [apply Hr|done|done|done|left; eauto|left; eauto|by split]. }
  destruct (decide (MaxQueueBytes < _)) as [|Hb]; [by split_and!|]. split_and!; [done| |done].
  eapply room_ok_seats; [| |exact Hr1]; [done|]. destruct (rk_state _ _ _ Hr). split; cbn in *; try done; try lia.
  constructor; [unfold tracks_ok in Hv; by rewrite Forall_singleton in Hv|done].
Qed.

Lemma queueNotice_slots id m p room :
  slots (queueNoticeLocked id m p room) = slots room ∧
  queueNoticeLocked id m p room = room <| PendingSuggestions := PendingSuggestions room |>
    <| PendingNotices := PendingNotices (queueNoticeLocked id m p room) |>.
Proof. unfold queueNoticeLocked. destruct room. cbn. repeat (case_match || case_decide); done. Qed.

Lemma queueNotice_room_ok can hosted id m p room :
  room_ok can hosted room → room_ok can hosted (queueNoticeLocked id m p room).
Proof.
  intros Hr. destruct (queueNotice_slots id m p room) as [_ Heq].
  pose proof (queueNotice_ok room id m p (rk_extras _ _ _ Hr)) as He. rewrite Heq in He |- *.
  by apply extras_replaced.
Qed.

Lemma suggestion_gone_ok can hosted k room :
  room_ok can hosted room →
  room_ok can hosted (room <| PendingSuggestions := delete k (PendingSuggestions room) |>).
Proof.
  intros Hr. apply (extras_replaced _ _ room _ (PendingNotices room)); [done|].
  destruct (suggestion_delete_ok room k (rk_extras _ _ _ Hr)). by split.
Qed.

Lemma handleRejectSuggestion_ok c payload : world_ok E (handleRejectSuggestion c payload w).
Proof.
  unfold handleRejectSuggestion. destruct (decodePayload _ _ _) as [p|]; [|by apply error_ok].
  destruct (decide (rsp_SuggestionID p = "")); [by apply error_ok|].
  destruct (currentRoom c w) as [r|] eqn:Hc; [|by apply error_ok].
  destruct (decide (¬ is_room_host _ _)) as [|Hh]; [by apply error_ok|].
  destruct (PendingSuggestions (getRoom r w) !! rsp_SuggestionID p) as [sg|] eqn:Hk; [|by apply error_ok]. cbv zeta.
  destruct (Clients _ !! _) as [t|].
  - eapply world_core; [apply sendMessage_core|]. apply world_room; [done|done|]. intros _. apply suggestion_gone_ok.
  - apply world_room; [done|by rewrite (proj1 (queueNotice_slots _ _ _ _))|].
    intros _ Hr. by apply queueNotice_room_ok, suggestion_gone_ok.
Qed.

Lemma handleApproveSuggestion_ok e c payload : world_ok E (handleApproveSuggestion e c payload w).
Proof.
  unfold handleApproveSuggestion. destruct (decodePayload _ _ _) as [p|]; [|by apply error_ok].
  destruct (decide (asp_SuggestionID p = "")); [by apply error_ok|].
  destruct (currentRoom c w) as [r|] eqn:Hc; [|by apply error_ok].
  destruct (decide (¬ is_room_host _ _)) as [|Hh]; [by apply error_ok|]. apply dec_stable in Hh.
  destruct (PendingSuggestions (getRoom r w) !! asp_SuggestionID p) as [sg|] eqn:Hk; [|by apply error_ok].
  destruct (host_seated E w Hok r c Hc Hh) as (Hreg & _ & _).
  pose proof (insert_suggestion_ok _ _ _ _ _ (wo_rooms _ _ Hok r Hreg) Hk) as Hins.
  destruct (insert_suggestion _ _ _) as [[[room code] msg]|[room track]].
  - destruct Hins as (Hsl & Hr & _). eapply world_core; [apply sendError_core|]. by apply world_room.
  - destruct Hins as (Hsl & Hr & _). cbv zeta. set (room1 := setState _ _).
    assert (room_ok (may_host w) (was_host w) room1) as Hr1.
    { subst room1. eapply room_ok_seats; [| |apply (suggestion_gone_ok _ _ (asp_SuggestionID p) _ Hr)]; [done|].
      destruct (rk_state _ _ _ Hr). by split. }
    destruct (Clients room1 !! sg_FromUserID sg) as [t|].
    + eapply world_core; [etrans; [apply sendMessageToClients_core|apply sendMessage_core]|].
      by apply world_room.
    + eapply world_core; [apply sendMessageToClients_core|]. apply world_room; [done| |].
      * by rewrite (proj1 (queueNotice_slots _ _ _ _)).
      * intros _ _. by apply queueNotice_room_ok.
Qed.

Lemma seats_slots room room' : seats room = seats room' → slots room = slots room'.
Proof. intros Hs. injection Hs. unfold slots. congruence. Qed.

Lemma handlePlaybackAction_ok e c payload : world_ok E (handlePlaybackAction e c payload w).
Proof.
  destruct (handlePlaybackAction_outcome e c payload w)
    as [Hc|r p room room' Hr Hh Hs Ha Ht Hc|r p room room' p' Hr Hh Hs Ha Hc];
    (eapply world_core; [exact Hc|]); [done|..];
    destruct (host_sequence_frame _ _ _ Hs) as (Hse & Hst & _);
    pose proof (apply_action_seats (e_nowMs e) (roundTripMs c w) room p) as Has;
    pose proof (apply_action_ok (e_nowMs e) (roundTripMs c w) room p) as Hao; rewrite Ha in Has, Hao.
  - apply world_room; [done| |].
    + apply seats_slots. congruence.
    + intros _ Hrk. eapply room_ok_seats; [by rewrite Has|apply Hao; rewrite Hst; apply Hrk|done].
  - destruct (finish_action_frame (e_nowMs e) (clientID c w) room' p') as (Hfs & _ & _ & Hfo). cbn in Has, Hao.
    apply world_room; [done| |].
    + apply seats_slots. congruence.
    + intros _ Hrk. eapply room_ok_seats; [by rewrite Hfs, Has|apply Hfo, Hao; rewrite Hst; apply Hrk|done].
Qed.

Lemma handleBufferReady_ok e c payload : world_ok E (handleBufferReady e c payload w).
Proof.
  unfold handleBufferReady. destruct (decodePayload _ _ _) as [p|]; [|by apply error_ok].
  destruct (decide (brp_TrackID p = "")); [by apply error_ok|].
  destruct (currentRoom c w) as [r|] eqn:Hc; [|by apply error_ok]. cbv zeta.
  destruct (decide (_ ≠ Some c)); [by apply error_ok|].
  destruct (rs_CurrentTrack _) as [track|]; [|by apply error_ok].
  destruct (decide (_ ∨ _)); [by apply error_ok|].
  eapply world_core; [apply reply_core|]. destruct (decide (Host _ = _)); [done|].
  eapply world_core; [|exact Hok]. etrans; apply sendMessage_core.
Qed.

Lemma allowSyncResponse_ok now c :
  world_ok E (setClient c (λ _, (allowSyncResponse now (getClient c w)).2) w).
Proof.
  apply world_client; [done|..]; unfold allowSyncResponse; repeat (case_match || case_decide); done.
Qed.

Lemma handleRequestSync_ok e c : world_ok E (handleRequestSync e c w).
Proof.
  unfold handleRequestSync. destruct (currentRoom c w) as [r|] eqn:Hc; [|by apply error_ok]. cbv zeta.
  destruct (decide (_ ≠ Some c)); [by apply error_ok|].
  pose proof (allowSyncResponse_ok (e_now e) c) as Hok1.
  destruct (allowSyncResponse _ _) as [allowed cl]. cbn [snd] in Hok1.
  destruct allowed; [eapply world_core; [apply reply_core|done]|].
  destruct (hasFeature _ _ _); [|done]. eapply world_core; [apply sendError_core|done].
Qed.

End Suggesting.
