(* ===== verification/PreserveLife.v ===== *)
(** PreserveLife: [lifecycle.go] and [hosts.go] keep the invariant. *)

From S2P Require Import Prelude Protocol Utf8 Validation UAPolicy World Client Roster Hosts Playback Limits Members Rooms Lifecycle RoomOk Safety Preserve PreserveRooms.

#[local] Opaque pickDeputy unseat forget_user.

(** ** Disconnecting *)

Definition closeConn (c : ClientRef) (w : World) : World :=
  setClient c (λ cl, cl <| c_ConnOpen := false |>) w.

#[export] Instance closeConn_proper c : Proper (same_core ==> same_core) (closeConn c).
Proof.
  intros w w' [Hc]. split; try done. intros d. unfold closeConn. rewrite !getClient_setClient.
  case_decide; [|auto]. destruct (Hc d) as [Hi _ Hcl]. split; [exact Hi|done|exact Hcl].
Qed.

Section Disconnecting.
Context `{WireFormat}.

(** The updates of a lost connection. *)
Lemma unplugged_ok E w c r now name wasHost g h :
  let id := clientID c w in
  let s := w_next w in
  let room := getRoom r w in
  world_ok E w → currentRoom c w = Some r → wasHost = bool_decide (Host room = Some c) →
  place (g (getClient c w)) = (id, session c w, None, None) →
  c_uaTier (g (getClient c w)) = c_uaTier (getClient c w) → c_ConnOpen (g (getClient c w)) = false →
  rooms (h (w_srv w)) = rooms (w_srv w) →
  sessions (h (w_srv w)) = <[session c w := s]> (sessions (w_srv w)) →
  world_ok E (setServer h (setRoom r (unplug now id s wasHost)
    (setClient c g (newSession (mkSession id name (Code room) wasHost now false) w).2))).
Proof.
  intros id s room Hok Hc Hwas Hg Ht Hco Hr Hs. pose proof Hok as [Hro Hrooms].
  destruct (room_seated E c r w Hok Hc) as [Hreg Hseat _ _ _].
  pose proof (host_is_member E w r c id Hok Hreg Hseat) as Hhost.
  set (se := mkSession _ _ _ _ _ _). set (w' := setServer _ _).
  assert (∀ x, getSession x w' = if decide (x = s) then se else getSession x w) as Hgs.
  { intros x. unfold w', getSession. cbn. destruct (decide (x = s)) as [->|];
      [apply lookup_total_insert_eq|by apply lookup_total_insert_ne]. }
  assert (∀ d, getClient d w' = if decide (d = c) then g (getClient c w) else getClient d w) as Hgc.
  { intros d. unfold w'. rewrite getClient_setServer, getClient_setRoom, getClient_setClient.
    by destruct (decide (d = c)) as [->|]. }
  assert (∀ x, getRoom x w' = if decide (x = r) then unplug now id s wasHost room else getRoom x w) as Hgr.
  { intros x. unfold w'. rewrite getRoom_setServer, getRoom_setRoom.
    by destruct (decide (x = r)) as [->|]. }
  destruct (unplug_fields now id s room wasHost) as (U1 & U2 & U3 & U4 & _).
  assert (stable w w') as Hst.
  { split; intros x Hx; [rewrite Hgc; by destruct (decide (x = c)) as [->|]|rewrite Hgs, decide_False; [done|lia]..]. }
  apply (world_moved E E w w' r); [done|done| | |].
  - eapply (roster_unplug E w w' c r id Hro); [done|done|done|exact Hs|by rewrite Hgc, decide_True|cbn; lia| |].
    + unfold sits. by rewrite Hgs, decide_True.
    + split; [intros d; rewrite Hgc; by destruct (decide (d = c))|intros d ?; by rewrite Hgc, decide_False
        |intros x; rewrite Hgr; destruct (decide (x = r)); [unfold slots; by rewrite U1, U2, U3, U4|done]
        |intros x Hx; rewrite Hgs, decide_False; [done|lia]|cbn; lia].
  - intros x Hne. unfold registered. rewrite Hgr, decide_False by done. unfold w'. cbn. by rewrite Hr.
  - intros Hold _. rewrite Hgr, decide_True by done. subst wasHost. eapply unplug_ok; [done| |auto].
    intros Hb. split; [unfold was_host; rewrite Hgs, decide_True by done; exact Hb|].
    by apply bool_decide_eq_true in Hb; apply Hhost.
Qed.

Lemma disconnect_ok E e w c :
  world_ok E w → is_Some (currentRoom c w) → world_ok E (closeConn c (handleClientDisconnect e c w)).
Proof.
  intros Hok [r Hc]. destruct (room_seated E c r w Hok Hc) as [Hreg Hseat [Htn Htok] _ _].
  unfold handleClientDisconnect, ensure_token. rewrite Hc, decide_False by done.
  rewrite decide_False by tauto. cbv zeta. set (se := mkSession _ _ _ _ _ _).
  rewrite (surjective_pairing (newSession se w)). change (newSession se w).1 with (w_next w).
  eapply world_core; [apply closeConn_proper, sendMessageToClients_core|].
  rewrite clearRoom_seated by done. unfold closeConn.
  assert (∀ f h w, setClient c f (setServer h w) = setServer h (setClient c f w)) as -> by done.
  rewrite !setClient_setRoom, setClient_setClient.
  eapply (unplugged_ok E w c r (e_now e) (userName c w)); try done.
  unfold place. pose proof Hok as [Hro _]. destruct (ro_room _ _ Hro _ _ Hc) as (_ & _ & Hpe).
  unfold currentPendingRoom in Hpe. cbn. by rewrite Hpe.
Qed.

Lemma closeConn_ok E w c : world_ok E w → world_ok E (closeConn c w).
Proof. intros Hok. by apply world_client. Qed.

Lemma removeClient_ok E e w c : world_ok E w → world_ok E (closeConn c (removeClient e c w)).
Proof.
  intros Hok. unfold removeClient. set (w1 := setClient c closeSend _).
  assert (world_ok E w1) as Hok1.
  { eapply world_core; [apply setClient_core; intros; apply calm_closeSendWith|]. by apply world_server. }
  destruct (currentRoom c w1) eqn:Hc; [apply disconnect_ok; [done|by rewrite Hc]|].
  rewrite removePendingJoin_room, Hc. by apply closeConn_ok, removePendingJoin_ok.
Qed.

End Disconnecting.

(** ** Reconnecting *)

Section Reconnecting.
Context `{WireFormat}.

(** The updates of a reconnection, as one client and one room update. *)
Lemma resumed_ok E w c r s y t g h takes :
  let se := getSession s w in
  let id := se_UserID se in
  world_ok E w → registered r w → DisconnectedUsers (getRoom r w) !! id = Some y →
  sessions (w_srv w) !! t = Some s → se_RoomCode se = Code (getRoom r w) → t ≠ "" →
  currentRoom c w = None → currentPendingRoom c w = None → (c < w_next w)%nat →
  place (g (getClient c w)) = (id, t, Some r, None) →
  c_uaTier (g (getClient c w)) = c_uaTier (getClient c w) →
  rooms (h (w_srv w)) = rooms (w_srv w) → sessions (h (w_srv w)) = delete t (sessions (w_srv w)) →
  (takes = true → canHostClient c w) →
  (takes = false → rs_HostID (State (getRoom r w)) ≠ id ∧ OwnerID (getRoom r w) ≠ id) →
  world_ok E (setRoom r (settle id c takes) (setClient c g (setServer h w))).
Proof.
  intros se id Hok Hreg Haw Htok Hsc Htn Hcr Hpe Hlt Hg Ht Hr Hs Hcan Hnot. pose proof Hok as [Hro Hrooms].
  set (w' := setRoom _ _ _).
  assert (∀ d, getClient d w' = if decide (d = c) then g (getClient c w) else getClient d w) as Hgc.
  { intros d. unfold w'. rewrite getClient_setRoom, getClient_setClient. by destruct (decide (d = c)) as [->|]. }
  assert (∀ x, getRoom x w' = if decide (x = r) then settle id c takes (getRoom r w) else getRoom x w) as Hgr.
  { intros x. unfold w'. rewrite getRoom_setRoom. by destruct (decide (x = r)) as [->|]. }
  assert (∀ x, getSession x w' = getSession x w) as Hgs by done.
  destruct (settle_fields id c (getRoom r w) takes) as (U1 & U2 & U3 & U4 & _).
  assert (roster_ok E w') as Hro'.
  { eapply (roster_resume E w w' c r y s id t Hro); try done. split.
    - intros d. rewrite Hgc. by destruct (decide (d = c)).
    - intros d ?. by rewrite Hgc, decide_False.
    - intros x. rewrite Hgr. destruct (decide (x = r)); [unfold slots; by rewrite U1, U2, U3, U4|done].
    - done.
    - done. }
  assert (∀ x, registered x w' → registered x w) as Hre.
  { intros x. unfold registered. rewrite Hgr. unfold w'. cbn. rewrite Hr.
    destruct (decide (x = r)) as [->|]; [by rewrite U1|done]. }
  assert (∀ x, registered x w → room_ok (may_host w') (was_host w') (getRoom x w)) as Hold.
  { intros x Hx. eapply room_ok_ext; [| |by apply Hrooms].
    - intros z _. unfold may_host, canHostClient. rewrite Hgc. destruct (decide (z = c)) as [->|]; [by rewrite Ht|done].
    - done. }
  split; [done|]. intros x Hx%Hre. rewrite Hgr. destruct (decide (x = r)) as [->|]; [|auto].
  eapply settle_ok; [done|auto| |done]. intros Htk. unfold may_host, canHostClient.
  rewrite Hgc, decide_True, Ht by done. by apply Hcan.
Qed.

(** Whoever held the host's seat, or is owed it, has a session that says so. *)
Lemma hosted_session E w r s x :
  let id := se_UserID (getSession s w) in
  world_ok E w → registered r w → DisconnectedUsers (getRoom r w) !! id = Some x →
  indexed E s w → se_RoomCode (getSession s w) = Code (getRoom r w) →
  se_IsHost (getSession s w) ≠ true →
  rs_HostID (State (getRoom r w)) ≠ id ∧ OwnerID (getRoom r w) ≠ id.
Proof.
  intros id Hok Hreg Haw Hi Hsc Hnot. pose proof Hok as [Hro Hrooms].
  pose proof (entry_alike _ _ Hro _ _ _ _ Hreg Haw Hi (conj eq_refl Hsc)) as Halike. injection Halike as _ _ Hah.
  rewrite Hah in Hnot. pose proof (aw_named _ _ (ro_away _ _ Hro) _ _ _ Hreg Haw) as Hid.
  destruct (Hrooms r Hreg) as [_ Hm [Hs _] Ho _ _]. split; intros Heq.
  - unfold host_seat_ok in Hs. rewrite Heq in Hs.
    destruct (Host (getRoom r w)), (HostDisconnectedAt (getRoom r w)); try done.
    + destruct Hs as [Hs _]. pose proof (mb_apart _ Hm _ _ Hs). congruence.
    + destruct Hs as (s' & Hs' & Hh). unfold was_host in Hh. congruence.
  - destruct Ho as [Ho|(s' & Hs' & Hh)]; [congruence|]. unfold was_host in Hh. congruence.
Qed.

(** The state a reconnection leaves, before anybody is told. *)
Lemma readmit_world c t s r w :
  let id := se_UserID (getSession s w) in
  let w0 := setClient c (λ cl, cl <| c_affiliationStarted := true |> <| c_room := Some r |>) w in
  let w' := (readmit c t s r w0).2 in
  let takes := bool_decide (takes_host id c (getRoom r w) w) in
  clientID c w' = id ∧
  setRoom r (λ room, room <| PendingNotices := delete id (PendingNotices room) |>) w' =
  setRoom r (settle id c takes)
    (setClient c (λ cl, cl <| c_affiliationStarted := true |> <| c_room := Some r |> <| c_id := id |>
       <| c_username := se_Username (getSession s w) |> <| c_sessionToken := t |>)
    (setServer (λ srv, srv <| sessions := delete t (sessions srv) |>) w)).
Proof.
  intros id w0 w' takes.
  set (g := λ cl : Client, _).
  set (w1 := setRoom r (replug id c) (setClient c g (setServer (λ srv, srv <| sessions := delete t (sessions srv) |>) w))).
  assert (w' = (reclaim_host r id c w1).2) as Hw'.
  { unfold w', readmit, w1, w0, setClientID, setUsername, setSessionToken.
    assert (∀ f h w, setServer h (setClient c f w) = setClient c f (setServer h w)) as -> by done.
    by rewrite !setClient_setClient. }
  assert (clientID c w1 = id) as Hid.
  { unfold w1, clientID. by rewrite getClient_setRoom, getClient_setClient_eq. }
  assert (takes_host id c (getRoom r w1) w1 ↔ takes_host id c (getRoom r w) w) as Htk.
  { unfold takes_host, canHostClient, w1. rewrite getRoom_setRoom_eq, getClient_setRoom, getClient_setClient_eq. done. }
  rewrite Hw'. unfold reclaim_host, takes.
  destruct (decide (takes_host id c (getRoom r w1) w1)) as [Ht|Ht].
  - rewrite bool_decide_eq_true_2 by by apply Htk. cbn. rewrite Hid. split.
    + unfold clientID in *. by rewrite !getClient_setRoom.
    + unfold w1. by rewrite !setRoom_setRoom.
  - rewrite bool_decide_eq_false_2 by by rewrite <- Htk. cbn. split; [done|]. unfold w1. by rewrite setRoom_setRoom.
Qed.

Lemma welcome_back_core e c r change w :
  let id := clientID c w in
  same_core (setRoom r (λ room, room <| PendingNotices := delete id (PendingNotices room) |>) w)
    (welcome_back e c r change w).
Proof.
  intros id. unfold welcome_back. etrans; [apply reply_core|]. etrans; [apply sendPolicyQueueSnapshot_core|].
  etrans; [apply (foldl_core (λ w n, sendMessage c (pn_MsgType n) (pn_Payload n) w)); intros; apply sendMessage_core|].
  etrans; [apply sendMessageToClients_core|]. destruct change as [ch|]; [|done].
  etrans; [|apply replayHostWork_core]. destruct (hc_announce ch); [apply sendMessageToClients_core|done].
Qed.

(** Who has claimed a session is not part of the invariant. *)
Lemma claimed_ok E w s b : world_ok E w → world_ok E (setSession s (λ se, se <| se_claimed := b |>) w).
Proof.
  intros Hok. set (w' := setSession s _ w).
  assert (∀ x, claim_of (getSession x w') = claim_of (getSession x w)) as Hx.
  { intros x. unfold w'. rewrite getSession_setSession. by case_decide; subst. }
  apply (world_moved E E w w' 0); [done| | |done|auto].
  - split; [done|]. intros x _. by injection (Hx x).
  - eapply roster_frame; [|apply Hok]. by split.
Qed.

(** The second half of a reconnection, whatever happened since the claim. *)
Lemma resume_ok E e w c t s r :
  world_ok E w → t ≠ "" → rooms (w_srv w) !! se_RoomCode (getSession s w) = Some r →
  currentRoom c w = None → currentPendingRoom c w = None → (c < w_next w)%nat →
  (se_IsHost (getSession s w) = true → canHostClient c w) →
  world_ok E (resume e c t s r w).
Proof.
  intros Hok Htn Hr Hcr Hpe Hlt Hcan. pose proof Hok as [Hro Hrooms].
  destruct (registered_code E w Hro _ _ Hr) as [Hreg Hcode].
  unfold resume. set (id := se_UserID (getSession s w)) in *. cbv zeta.
  destruct (decide (_ ∨ _)) as [|Hd]; [by apply claimed_ok, error_ok|].
  assert (sessions (w_srv w) !! t = Some s) as Htok by (apply dec_stable; tauto).
  assert (∃ x, DisconnectedUsers (getRoom r w) !! id = Some x) as [x Haw]
    by (apply not_eq_None_Some; tauto).
  rewrite (trySetRoom_idle c r w) by done. rewrite decide_False by done.
  pose proof (readmit_world c t s r w) as Hrw. cbv zeta in Hrw. fold id in Hrw.
  destruct (readmit c t s r _) as [change w2]. cbn [snd] in Hrw. destruct Hrw as [Hid2 Hrw].
  eapply world_core; [apply welcome_back_core|]. rewrite Hid2, Hrw.
  apply (resumed_ok E w c r s x t); try done.
  - by unfold place; cbn; unfold currentPendingRoom in Hpe; rewrite Hpe.
  - by intros [? _]%bool_decide_eq_true.
  - intros Htk%bool_decide_eq_false. destruct (decide (se_IsHost (getSession s w) = true)) as [Hh|Hh];
      [|eapply hosted_session; [done|done|done|right; eauto|done|done]]. specialize (Hcan Hh). unfold takes_host in Htk.
    naive_solver.
Qed.

(** A claimed session whose room is gone is no longer in the table. *)
Lemma finish_reconnect_ok E e w c t s :
  world_ok E w → t ≠ "" → (∀ s', sessions (w_srv w) !! t = Some s' → s' = s) →
  currentRoom c w = None → currentPendingRoom c w = None → (c < w_next w)%nat →
  (se_IsHost (getSession s w) = true → canHostClient c w) →
  world_ok E (finish_reconnect e c t s w).
Proof.
  intros Hok Htn Ht Hcr Hpe Hlt Hcan. unfold finish_reconnect.
  destruct (rooms (w_srv w) !! _) as [r|] eqn:Hr; [by apply resume_ok|]. apply claimed_ok, error_ok.
  assert (sessions (w_srv w) !! t = None) as Hno.
  { destruct (sessions (w_srv w) !! t) as [s'|] eqn:Hs; [|done]. rewrite (Ht s' eq_refl) in *. pose proof Hok as [Hro _].
    destruct (aw_session _ _ (ro_away _ _ Hro) s) as (_ & r & x & Hr' & _); [right; eauto|]. congruence. }
  apply world_server; [done|]. cbn. by rewrite delete_id.
Qed.

Lemma claim_cases e c t w :
  match claim e c t w with
  | (inl _, w') => w' = w
  | (inr s, w') => sessions (w_srv w) !! t = Some s ∧ w' = setSession s (λ se, se <| se_claimed := true |>) w ∧
      (se_IsHost (getSession s w) = true → canHostClient c w)
  end.
Proof.
  unfold claim. destruct (sessions (w_srv w) !! t) as [s|] eqn:Hs; [|done].
  destruct (se_claimed _); [done|]. case_decide; [done|]. case_decide as Hn; [done|].
  split_and!; [done|done|]. intros Hh. apply dec_stable. tauto.
Qed.

(** Everybody but the member who is disconnected stays where they are. *)
Definition bystander (d : ClientRef) (w w' : World) : Prop :=
  currentRoom d w' = currentRoom d w ∧ currentPendingRoom d w' = currentPendingRoom d w ∧
  c_uaTier (getClient d w') = c_uaTier (getClient d w) ∧ (w_next w ≤ w_next w')%nat.

#[local] Instance bystander_preorder d : PreOrder (bystander d).
Proof.
  split; [by intros w|]. intros w1 w2 w3 (A1 & A2 & A3 & A4) (B1 & B2 & B3 & B4).
  split_and!; [congruence..|lia].
Qed.

Lemma core_bystander d w w' : same_core w w' → bystander d w w'.
Proof.
  intros Hc. split_and!; [by apply core_currentRoom|by apply core_currentPendingRoom| |].
  - by apply core_ident with (c := d) in Hc; injection Hc.
  - by destruct Hc as [_ _ _ -> _].
Qed.
Lemma setClient_bystander d c f w : d ≠ c → bystander d w (setClient c f w).
Proof. intros. unfold bystander, currentRoom, currentPendingRoom. by rewrite getClient_setClient, decide_False. Qed.
Lemma clearRoom_bystander d c r w : d ≠ c → bystander d w (clearRoom c r w).
Proof. intros. unfold clearRoom. case_decide; [by apply setClient_bystander|done]. Qed.
Lemma setRoom_bystander d r f w : bystander d w (setRoom r f w).
Proof. done. Qed.
Lemma newSession_bystander d se w : bystander d w (newSession se w).2.
Proof. split_and!; cbn; [done..|lia]. Qed.

Lemma disconnect_bystander e c d w : d ≠ c → bystander d w (handleClientDisconnect e c w).
Proof.
  intros Hne. unfold handleClientDisconnect. destruct (currentRoom c w) as [r|]; [|done].
  transitivity (ensure_token e c w).2.
  { unfold ensure_token. case_decide; [by apply setClient_bystander|done]. }
  destruct (ensure_token e c w) as [t w0]. cbn. case_decide; [by apply clearRoom_bystander|].
  etrans; [apply newSession_bystander|]. etrans; [apply (setRoom_bystander d r)|].
  etrans; [by apply clearRoom_bystander|]. etrans; [|apply core_bystander, sendMessageToClients_core]. done.
Qed.

Lemma replaceLiveSession_ok E e c t w :
  world_ok E w → let w' := (replaceLiveSession e c t w).2 in world_ok E w' ∧ bystander c w w'.
Proof.
  intros Hok. cbn. unfold replaceLiveSession.
  destruct (list_find _ _) as [[i old]|] eqn:Hf; [|done].
  apply list_find_Some in Hf as (_ & (Hne & _ & Hin) & _). split; cbn.
  - eapply world_core; [|by apply (disconnect_ok E e w old)].
    apply closeConn_proper, setClient_core. intros. apply calm_closeSendWith.
  - etrans; [by apply disconnect_bystander|]. etrans; [by apply setClient_bystander|]. by apply setClient_bystander.
Qed.

Lemma handleReconnect_ok E e w c payload :
  world_ok E w → (c < w_next w)%nat → world_ok E (handleReconnect e c payload w).
Proof.
  intros Hok Hlt. unfold handleReconnect. destruct (decodePayload _ _ _) as [p|]; [|by apply error_ok].
  set (t := rcn_SessionToken p). destruct (decide (t = "")) as [|Htn]; [by apply error_ok|].
  destruct (decide (is_Some (currentRoom c w))) as [|Hcr%eq_None_not_Some]; [by apply error_ok|].
  destruct (decide (is_Some (currentPendingRoom c w))) as [|Hpe%eq_None_not_Some]; [by apply error_ok|].
  assert (∀ w, world_ok E w → (c < w_next w)%nat → currentRoom c w = None → currentPendingRoom c w = None →
    let '(outcome, w) := claim e c t w in
    world_ok E match outcome with
    | inl code => sendError c code (claim_failure code) w
    | inr s => finish_reconnect e c t s w
    end) as Hcont.
  { clear w Hok Hlt Hcr Hpe. intros w Hok Hlt Hcr Hpe. pose proof (claim_cases e c t w) as Hcl.
    destruct (claim e c t w) as [[code|s] w']; [subst; by apply error_ok|]. destruct Hcl as (Hs & -> & Hcan).
    apply finish_reconnect_ok; try done; [by apply claimed_ok|intros s'; rewrite srv_setSession; congruence|].
    rewrite getSession_setSession, decide_True by done. done. }
  pose proof (Hcont w Hok Hlt Hcr Hpe) as Hfirst. pose proof (claim_cases e c t w) as Hcl.
  destruct (claim e c t w) as [o w'] eqn:Hcw. case_decide; [|done]. subst o. subst w'.
  destruct (replaceLiveSession_ok E e c t w Hok) as [Hok' (B1 & B2 & _ & B4)].
  destruct (replaceLiveSession e c t w) as [[] w']; cbn in *; [|by apply error_ok].
  specialize (Hcont w' Hok' ltac:(lia) ltac:(congruence) ltac:(congruence)).
  by destruct (claim e c t w').
Qed.

End Reconnecting.

(** ** Sessions that ran out, empty rooms, absent hosts *)

Section Expiring.
Context `{WireFormat}.

Lemma setServer_id w : setServer (λ srv, srv) w = w.
Proof. by destruct w. Qed.

(** A reserved seat given up, with the election it may need. *)
Lemma expired_ok E E' w r s y :
  let id := se_UserID (getSession s w) in
  let w1 := setRoom r (vacate id) w in
  let elect := bool_decide (rs_HostID (State (getRoom r w1)) = id) in
  let w2 := if elect then (assignHostLocked r (pickDeputy (Clients (getRoom r w1)) w1) w1).2 else w1 in
  world_ok E w → registered r w → DisconnectedUsers (getRoom r w) !! id = Some y → s ∈ E →
  se_RoomCode (getSession s w) = Code (getRoom r w) →
  (∀ x, x ∈ E' ↔ x ∈ E ∧ x ≠ s) → world_ok E' w2 ∧ registered r w2.
Proof.
  intros id w1 elect w2 Hok Hreg Haw HsE Hsc HE. pose proof Hok as [Hro Hrooms].
  destruct (vacate_removed E w Hok r id y Hreg Haw) as [Hrm Hsl].
  assert (∀ x, indexed E x w → ¬ sits id (Code (getRoom r w)) x w ↔ x ≠ s) as Hsits.
  { intros x Hx. split; [intros Hn ->; by apply Hn|]. intros Hne [Hu Hc]. apply Hne.
    apply (aw_seat _ _ (ro_away _ _ Hro)); [done|by left|done|congruence]. }
  assert (getRoom r w1 = vacate id (getRoom r w)) as Hg1 by apply getRoom_setRoom_eq.
  assert (rs_HostID (State (getRoom r w1)) = rs_HostID (State (getRoom r w))) as Hh
    by by rewrite Hg1, (rv_state _ _ _ Hrm).
  assert (∀ t x, sessions (w_srv w) !! t = Some x ↔
    sessions (w_srv w) !! t = Some x ∧ ¬ sits id (Code (getRoom r w)) x w) as Hix.
  { intros t x. split; [|tauto]. intros Hx. split; [done|]. apply Hsits; [right; eauto|]. intros ->.
    by destruct (aw_token _ _ (ro_away _ _ Hro) _ _ _ Hx Hx) as (_ & ? & _). }
  assert (∀ x, x ∈ E' ↔ x ∈ E ∧ ¬ sits id (Code (getRoom r w)) x w) as HE2.
  { intros x. rewrite HE. split; intros [Hx ?]; (split; [done|]); by apply (Hsits x (or_introl Hx)). }
  split; last first.
  { assert (Code (vacate id (getRoom r w)) = Code (getRoom r w)) as Hcode by by injection Hsl.
    subst w2. destruct elect; rewrite ?assignHostLocked_world; unfold registered, w1;
      autorewrite with world; rewrite ?room_with_host_code, Hcode; exact Hreg. }
  subst w2. destruct elect eqn:He; subst elect.
  - rewrite assignHostLocked_world. assert (∀ f, setRoom r f w1 = setRoom r (λ room, f (vacate id room)) w)
      as -> by (intros; apply setRoom_setRoom). rewrite <- setServer_id.
    eapply (away_gone_ok E w Hok E' r id y _ (λ srv, srv)); [done|done|by rewrite room_with_host_slots| |done..].
    intros Hrok. rewrite Hg1. apply (elected_ok _ _ _ (vacate id (getRoom r w))).
    + eapply removed_but_host; [exact Hrm|by eapply room_ok_but_host].
    + rewrite (rv_clients _ _ _ Hrm). intros i h [_ Hx]%lookup_delete_Some.
      by destruct (ro_seat _ _ Hro _ _ _ Hreg Hx) as [Hi _].
    + done.
  - apply bool_decide_eq_false in He. rewrite Hh in He. unfold w1. rewrite <- setServer_id.
    eapply (away_gone_ok E w Hok E' r id y _ (λ srv, srv)); [done|done|exact Hsl| |done..]. intros Hrok.
    apply but_host_room_ok; [eapply removed_but_host; [exact Hrm|by eapply room_ok_but_host]|].
    eapply removed_host; [exact Hrm|done|apply Hrok].
Qed.

Lemma expireSession_ok E E' w r s y past :
  let id := se_UserID (getSession s w) in
  world_ok E w → registered r w → DisconnectedUsers (getRoom r w) !! id = Some y → s ∈ E →
  se_RoomCode (getSession s w) = Code (getRoom r w) →
  (∀ x, x ∈ E' ↔ x ∈ E ∧ x ≠ s) → world_ok E' (expireSession r s past w).
Proof.
  intros id Hok Hreg Haw HsE Hsc HE. destruct (expired_ok E E' w r s y Hok Hreg Haw HsE Hsc HE) as [Hok2 Hreg2].
  unfold expireSession. fold id. rewrite Haw. change (λ room, forget_user id _) with (vacate id).
  destruct (decide (room_empty _ ∧ _)); [by apply deleteRoomIfEmpty_ok|by apply announce_ok].
Qed.

(** Taking the expired tokens out of the index leaves their sessions to expire. *)
Lemma drop_expired_ok w (P : Session → Prop) `{!∀ s, Decision (P s)} :
  world_ok ∅ w →
  world_ok (list_to_set (filter (λ s, P (getSession s w)) ((map_to_list (sessions (w_srv w))).*2)))
    (dropSessions P w).
Proof.
  intros Hok. set (E := list_to_set _). set (w' := dropSessions P w).
  assert (∀ s, s ∈ E ↔ P (getSession s w) ∧ ∃ t, sessions (w_srv w) !! t = Some s) as HE.
  { intros s. unfold E. rewrite elem_of_list_to_set, list_elem_of_filter, list_elem_of_fmap. split.
    - intros (HP & [t x] & -> & Hx%elem_of_map_to_list). eauto.
    - intros (HP & t & Ht). split; [done|]. exists (t, s). split; [done|]. by apply elem_of_map_to_list. }
  assert (∀ t s, sessions (w_srv w') !! t = Some s ↔ sessions (w_srv w) !! t = Some s ∧ ¬ P (getSession s w)) as Hse.
  { intros t s. unfold w'. cbn. by rewrite map_lookup_filter_Some. }
  assert (∀ s, indexed E s w' ↔ indexed ∅ s w) as Hix.
  { intros s. unfold indexed. rewrite HE. setoid_rewrite Hse. split.
    - naive_solver.
    - intros [?%elem_of_empty|[t Ht]]; [done|]. destruct (decide (P (getSession s w))); naive_solver. }
  destruct Hok as [[R1 R2 R3 R4 R5 [A1 A2 A3 A4 A5 A6] R7 R8 R9 R10 R11] Hrooms].
  split; [split; try assumption|exact Hrooms].
  - split; [|intros s Hs%Hix; by apply A2| |intros s s' Hs%Hix Hs'%Hix; by apply A4|exact A5|exact A6].
    { intros r id s Hr Hd. destruct (A1 r id s Hr Hd) as (? & ? & ? & x & Hx & ?). split_and!; try done.
      exists x. by rewrite Hix. }
    intros t t' s [Ht Hn]%Hse [Ht' _]%Hse. destruct (A3 t t' s Ht Ht') as (? & _ & ?). split_and!; [done| |done].
    intros [HP _]%HE. done.
  - intros c r Hc. destruct (R7 c r Hc) as [Hn Ht]. split; [done|].
    destruct (sessions (w_srv w') !! session c w') as [s|] eqn:Hs; [|done]. apply Hse in Hs as [Hs _].
    change (session c w') with (session c w) in Hs. congruence.
Qed.

Lemma expire_one_ok now w s l :
  world_ok (list_to_set (s :: l)) w → s ∉ l → world_ok (list_to_set l) (expire_one now w s).
Proof.
  intros Hok Hnl. pose proof Hok as [Hro _]. unfold expire_one.
  assert (s ∈ (list_to_set (s :: l) : gset SessionRef)) as HsE by set_solver.
  destruct (aw_session _ _ (ro_away _ _ Hro) s) as (_ & r & x & Hr & Hd); [by left|]. rewrite Hr.
  destruct (registered_code _ _ Hro _ _ Hr) as [Hreg Hcode].
  eapply expireSession_ok; [done|done|done|done|done|]. set_solver.
Qed.

Lemma expire_all_ok now l w :
  NoDup l → world_ok (list_to_set l) w → world_ok ∅ (foldl (expire_one now) w l).
Proof.
  intros Hnd. revert w. induction Hnd as [|s l Hnl _ IH]; intros w Hok; [done|].
  cbn [foldl]. apply IH. by apply expire_one_ok.
Qed.

(** Two tokens never index the same session. *)
Lemma sessions_nodup E w : roster_ok E w → NoDup ((map_to_list (sessions (w_srv w))).*2).
Proof.
  intros Hro. apply NoDup_fmap_2_strong; [|apply NoDup_map_to_list].
  intros [t s] [t' s'] Ht%elem_of_map_to_list Ht'%elem_of_map_to_list. cbn. intros <-.
  by destruct (aw_token _ _ (ro_away _ _ Hro) _ _ _ Ht Ht') as [-> _].
Qed.

Lemma cleanupExpiredSessionsOnce_ok now w : world_ok ∅ w → world_ok ∅ (cleanupExpiredSessionsOnce now w).
Proof.
  intros Hok. unfold cleanupExpiredSessionsOnce. apply expire_all_ok; [|by apply drop_expired_ok].
  apply NoDup_filter. eapply sessions_nodup. by destruct Hok.
Qed.

Lemma foldl_ok {A} (f : World → A → World) l E w :
  (∀ w x, world_ok E w → world_ok E (f w x)) → world_ok E w → world_ok E (foldl f w l).
Proof. intros Hf. revert w. induction l; cbn; auto. Qed.

Lemma cleanup_room_ok E now w r : world_ok E w → world_ok E (cleanup_room now w r).
Proof.
  intros Hok. unfold cleanup_room. case_decide; [|done].
  destruct (EmptySince _) as [since|]; [case_decide; [by apply deleteRoomIfEmpty_ok|done]|].
  apply world_room; [done|done|]. intros _. apply empty_since_ok.
Qed.
Lemma cleanupEmptyRoomsOnce_ok E now w : world_ok E w → world_ok E (cleanupEmptyRoomsOnce now w).
Proof. apply foldl_ok. intros. by apply cleanup_room_ok. Qed.

(** The absent host becomes the owner unless an owner already waits. *)
Definition own (room : Room) : Room :=
  if decide (OwnerID room = "") then room <| OwnerID := rs_HostID (State room) |> else room.

Lemma own_slots room : slots (own room) = slots room.
Proof. unfold own. by case_decide. Qed.

Lemma owned_ok can hosted room :
  room_ok can hosted room → Host room = None → HostDisconnectedAt room ≠ None →
  room_but_host hosted (own room).
Proof.
  intros [Hc Hm [Hs _] Ho He Hst] Hn Hat. unfold own. case_decide; [|by split].
  split; [done|by destruct Hm|..|by destruct He|done]. right. cbn. unfold host_seat_ok in Hs.
  rewrite Hn in Hs. by destruct (HostDisconnectedAt room).
Qed.

Lemma failoverRoom_ok E now w r : world_ok E w → world_ok E (failoverRoom now w r).
Proof.
  intros Hok. pose proof Hok as [Hro Hrooms]. unfold failoverRoom.
  case_decide as Hdue; [|done]. destruct (pickDeputy _ w) as [dep|] eqn:Hd; [|done].
  destruct (pickDeputy_Some _ _ _ Hd) as (id & Hx & [Hcan _] & _).
  assert (registered r w → room_but_host (was_host w) (own (getRoom r w))) as Hown.
  { intros Hreg. pose proof (Hrooms r Hreg) as Hrk. unfold failover_due in Hdue.
    destruct (HostDisconnectedAt (getRoom r w)) eqn:Hat; [|done]. eapply owned_ok; [done| |congruence].
    destruct Hrk as [_ _ [Hs _] _ _ _]. unfold host_seat_ok in Hs. rewrite Hat in Hs. by destruct (Host _). }
  eapply world_core; [apply deliverHostChange_core|].
  change (setRoom r (λ room, if decide (OwnerID room = "") then _ else _) w) with (setRoom r own w).
  rewrite setRoom_setRoom. apply world_room; [done|rewrite room_with_host_slots; apply own_slots|].
  intros Hreg Hr. apply assigned_ok; [auto| |done].
  destruct (ro_seat _ _ Hro _ _ _ Hreg Hx) as [Hid _].
  replace (Clients (own (getRoom r w))) with (Clients (getRoom r w)) by (by injection (own_slots (getRoom r w))).
  change (clientID dep (setRoom r own w)) with (clientID dep w). by rewrite Hid.
Qed.
Lemma failoverHostsOnce_ok E now w : world_ok E w → world_ok E (failoverHostsOnce now w).
Proof. apply foldl_ok. intros. by apply failoverRoom_ok. Qed.

End Expiring.
