(* ===== verification/Server.v ===== *)
(** Server: the message loop of [src/internal/server/server.go] and the rounds
    of [readPump] in [client.go].

    Admission of a connection, the dispatch of a message with its request ID
    and acknowledgement, pings with the drift report and the desync canary,
    capability negotiation, and shutdown.  The database that records user
    agents is not part of this state. *)

From S2P Require Import Prelude Protocol Utf8 Validation UAPolicy World Client Hosts Playback Limits Members Rooms Lifecycle.

Definition RestartEta : Duration := 5 * Second.
Definition maxDriftSampleSkew : Duration := 10 * Second.
Definition CloseServiceRestart : Z := 1012.

Definition asPing (p : Payload) := match p with PPing p => Some p | _ => None end.
Definition asClientCapabilities (p : Payload) := match p with PClientCapabilities p => Some p | _ => None end.

(** ** The desync canary *)

(** CRC-32 with the IEEE polynomial, reflected, one bit at a time. *)
Definition crc_bit (crc : Z) : Z :=
  if Z.testbit crc 0 then Z.lxor (Z.shiftr crc 1) 0xEDB88320 else Z.shiftr crc 1.
Definition crc_byte (crc b : Z) : Z := Nat.iter 8 crc_bit (Z.lxor crc b).
Definition crc32 (bytes : list Z) : Z := Z.lxor (foldl crc_byte 0xFFFFFFFF bytes) 0xFFFFFFFF.

Definition hash_bytes (current : option string) (queue : list string) : list Z :=
  explode (default "" current) ++ [10] ++ mjoin ((λ id, explode id ++ [10]) <$> queue).
Definition roomStateHash (state : RoomState) : Z :=
  crc32 (hash_bytes (ti_ID <$> rs_CurrentTrack state) (ti_ID <$> rs_Queue state)).

(** ** Pings *)

(** The drift of a guest's sample, if it can be judged. *)
Definition drift_of (p : PingPayload) (receivedAt : Z) (is_host : bool) (state : RoomState) : option Z :=
  if decide (ping_HasPosition p = true ∧ is_host = false ∧
             (ti_ID <$> rs_CurrentTrack state) = Some (ping_TrackID p)) then
    let capturedAt := if decide (ping_PositionCapturedAtServerTime p ≤ 0) then receivedAt
                      else ping_PositionCapturedAtServerTime p in
    let age := int64_wrap (receivedAt - capturedAt) in
    if decide (rs_LastUpdate state ≤ capturedAt ∧ - Milliseconds maxDriftSampleSkew ≤ age ∧
               age ≤ Milliseconds maxDriftSampleSkew)
    then Some (int64_wrap (ping_Position p - livePlaybackPosition state capturedAt)) else None
  else None.

Definition zero_ping : PingPayload := mkPingPayload 0 0 false "" 0 0 false 0.

(** ** Addresses: [net.SplitHostPort] and [requestSource] *)

Definition index_byte (b : Z) (l : list Z) : option nat := fst <$> list_find (λ x, x = b) l.
Definition last_index_byte (b : Z) (l : list Z) : option nat :=
  (λ i, length l - 1 - i)%nat <$> index_byte b (reverse l).

Definition SplitHostPort (hostport : list Z) : option (list Z) :=
  match last_index_byte 58 hostport with
  | None => None
  | Some i =>
    let no_brackets := λ (j k : nat) (host : list Z),
      if decide (index_byte 91 (drop j hostport) = None ∧ index_byte 93 (drop k hostport) = None)
      then Some host else None in
    if decide (head hostport = Some 91) then
      match index_byte 93 hostport with
      | None => None
      | Some end_ =>
        if decide (end_ + 1 = i)%nat
        then no_brackets 1%nat (end_ + 1)%nat (drop 1 (take end_ hostport)) else None
      end
    else
      let host := take i hostport in
      if decide (index_byte 58 host = None) then no_brackets 0%nat 0%nat host else None
  end.

Record Request := mkRequest { rq_ConnectingIP : string; rq_RemoteAddr : string; rq_UserAgent : string }.

Definition requestSource (rq : Request) : string :=
  let ip := TrimSpace (rq_ConnectingIP rq) in
  if decide (ip ≠ "") then ip
  else match SplitHostPort (explode (rq_RemoteAddr rq)) with
  | None => rq_RemoteAddr rq
  | Some host => implode host
  end.

(** What became of a connection attempt. *)
Inductive Admission := Rejected (status : Z) | UpgradeFailed | Blocked | Closed | Accepted (c : ClientRef).

Definition client_count (s : Server) : Z := Z.of_nat (size (clients s)).

Section Dispatch.
Context `{WireFormat, UnicodeTables}.

Definition handlePing (e : Env) (receivedAt : Z) (c : ClientRef) (payload : string) (w : World) : World :=
  need p := (if decide (payload = "") then Some zero_ping
             else decodePayload asPing payload MsgTypePing)
    orelse sendError c "invalid_payload" "Invalid ping payload" w in
  let pong := mkPongPayload (ping_ClientTime p) receivedAt 0 (ping_Sequence p) false 0 false in
  match currentRoom c w with
  | Some r =>
    let room := getRoom r w in
    if decide ((ping_HasPosition p = true ∨ ping_HasStateHash p = true) ∧
               Clients room !! clientID c w = Some c) then
      let pong := match drift_of p receivedAt (bool_decide (Host room = Some c)) (State room) with
        | Some drift => pong <| pong_DriftValid := true |> <| pong_DriftMs := drift |>
        | None => pong
        end in
      if decide (ping_HasStateHash p = true ∧ c_uaTier (getClient c w) ≠ uaRickroll ∧
                 ping_StateHash p ≠ roomStateHash (State room)) then
        let pong := pong <| pong_StateMismatch := true |> in
        let '(allowed, cl) := allowSyncResponse (e_now e) (getClient c w) in
        let w := queuePong c pong (setClient c (λ _, cl) w) in
        if allowed then
          sendMessage c MsgTypeSyncState (PSyncState (syncSnapshotLocked room (e_nowMs e))) w
        else w
      else queuePong c pong w
    else queuePong c pong w
  | None => queuePong c pong w
  end.

Definition handleClientCapabilities (c : ClientRef) (payload : string) (w : World) : World :=
  need p := decodePayload asClientCapabilities payload MsgTypeClientCapabilities
    orelse sendError c "invalid_payload" "Invalid client capabilities payload" w in
  refuse ccp_SupportsProtobuf p = false
    by sendError c "unsupported_client" "Protobuf support is required" w in
  refuse c_affiliationStarted (getClient c w) = true
    by sendError c "capabilities_too_late" "Client capabilities must be sent before joining a room" w in
  refuse c_capabilitiesSet (getClient c w) = true ∨ c_codec (getClient c w) = None
    by sendError c "capabilities_already_set" "Client capabilities have already been configured" w in
  let w := setClient c (λ cl, cl <| c_capabilitiesSet := true |>
                                 <| c_codec := Some (ccp_SupportsCompression p) |>) w in
  let '(features, w) := setFeatures c (ccp_Features p) w in
  reply c MsgTypeServerCapabilities (Some (PServerCapabilities
    (mkServerCapabilitiesPayload true true "2" features (bool_decide (canHostClient c w))))) w.

Definition dispatch (e : Env) (receivedAt : Z) (c : ClientRef) (msgType payload : string) (w : World)
    : World :=
  if decide (msgType = MsgTypeCreateRoom) then handleCreateRoom e c payload w
  else if decide (msgType = MsgTypeJoinRoom) then handleJoinRoom c payload w
  else if decide (msgType = MsgTypeLeaveRoom) then leaveRoom e c w
  else if decide (msgType = MsgTypeApproveJoin) then handleApproveJoin e c payload w
  else if decide (msgType = MsgTypeRejectJoin) then handleRejectJoin c payload w
  else if decide (msgType = MsgTypePlaybackAction) then handlePlaybackAction e c payload w
  else if decide (msgType = MsgTypeBufferReady) then handleBufferReady e c payload w
  else if decide (msgType = MsgTypeKickUser) then handleKickUser c payload w
  else if decide (msgType = MsgTypeTransferHost) then handleTransferHost c payload w
  else if decide (msgType = MsgTypePing) then handlePing e receivedAt c payload w
  else if decide (msgType = MsgTypeRequestSync) then handleRequestSync e c w
  else if decide (msgType = MsgTypeReconnect) then handleReconnect e c payload w
  else if decide (msgType = MsgTypeSuggestTrack) then handleSuggestTrack e c payload w
  else if decide (msgType = MsgTypeApproveSuggestion) then handleApproveSuggestion e c payload w
  else if decide (msgType = MsgTypeRejectSuggestion) then handleRejectSuggestion c payload w
  else if decide (msgType = MsgTypeClientCapabilities) then handleClientCapabilities c payload w
  else sendError c "unknown_message_type" ("Unknown message type: " +:+ msgType)%string w.

(** The deferred end of [handleMessage]: a silent success is acknowledged. *)
Definition acknowledge (requestID : Z) (c : ClientRef) (w : World) : World :=
  let w := if decide (requestID ≠ 0 ∧ c_replied (getClient c w) = false ∧
                      hasFeature c FeatureRequestID w = true)
           then reply c MsgTypeAck None w else w in
  setClient c (λ cl, cl <| c_requestID := 0 |>) w.

Definition begin_request (requestID : Z) (c : ClientRef) (w : World) : World :=
  setClient c (λ cl, cl <| c_requestID := requestID |> <| c_replied := false |>) w.

Definition handleMessage (e : Env) (receivedAt : Z) (c : ClientRef) (data : string) (w : World) : World :=
  match decodeProtobuf data with
  | inr (requestID, too_large) =>
    acknowledge requestID c
      (if too_large : bool
       then sendError c "message_too_large" "Message exceeds 2097152 bytes after decompression"
              (begin_request requestID c w)
       else sendError c "invalid_message" "Invalid message format" (begin_request requestID c w))
  | inl (msgType, payload, requestID) =>
    let w := begin_request requestID c w in
    acknowledge requestID c
      (if decide (msgType = "")
       then sendError c "invalid_message" "Message type is required" w
       else dispatch e receivedAt c msgType payload w)
  end.

(** One round of [readPump] with a message that arrived. *)
Definition receive (e : Env) (receivedAt : Z) (c : ClientRef) (data : string) (w : World) : World :=
  let '(allowed, cl) := allowMessage (e_now e) (getClient c w) in
  let w := setClient c (λ _, cl) w in
  if allowed then handleMessage e receivedAt c data w
  else
    let '(notify, cl) := shouldNotifyRateLimit (getClient c w) in
    let w := setClient c (λ _, cl) w in
    if notify then sendError c "rate_limited" "Too many messages" w else w.

(** The end of [readPump]. *)
Definition hang_up (e : Env) (c : ClientRef) (w : World) : World :=
  let w := removeClient e c w in
  let w := setClient c (λ cl, cl <| c_ConnOpen := false |>) w in
  if c_connectionSlot (getClient c w) then
    setServer (λ srv, releaseSource (c_source (getClient c w))
                        (releaseConnectionSlot srv) <| pumps := pumps srv - 1 |>) w
  else w.

(** ** The server object *)

Definition NewServer (now : Time) : Server :=
  mkServer ∅ ∅ ∅ defaultUAPolicy 0 now ∅ ∅ false 0 false ∅ 0.
Definition Close (s : Server) : Server := s <| stopped := true |>.
Definition SetUAPolicy (policy : uaPolicy) (s : Server) : Server := s <| srv_uaPolicy := policy |>.
Definition snapshotClients (s : Server) : list ClientRef := elements (clients s).

(** ** Admission *)

Definition handleWebSocket (e : Env) (rq : Request) (upgraded : bool) (w : World) : Admission * World :=
  refuse shuttingDown (w_srv w) = true by (Rejected 503, w) in
  refuse MaxClients ≤ client_count (w_srv w) by (Rejected 503, w) in
  let source := requestSource rq in
  let '(ok, srv) := acquireSource source (w_srv w) in
  refuse ok = false by (Rejected 429, w) in
  let '(ok, srv) := tryAcquireConnectionSlot srv in
  let released := releaseSource source srv in
  refuse ok = false by (Rejected 503, setServer (λ _, released) w) in
  let released := releaseSource source (releaseConnectionSlot srv) in
  refuse upgraded = false by (UpgradeFailed, setServer (λ _, released) w) in
  let policy := srv_uaPolicy srv in
  let tier := resolve (Some policy) (rq_UserAgent rq) in
  refuse tier = uaBlock by (Blocked, setServer (λ _, released) w) in
  refuse MaxClients ≤ client_count srv ∨ shuttingDown srv = true
    by (Closed, setServer (λ _, released) w) in
  let c := w_next w in
  let client := (newClient (e_userID e)) <| c_uaTier := tier |> <| c_policy := Some policy |>
    <| c_source := source |> <| c_connectionSlot := true |> in
  (Accepted c,
   w <| w_next := S c |> <| w_clients := <[c := client]> (w_clients w) |>
     <| w_srv := srv <| clients := {[c]} ∪ clients srv |> <| pumps := pumps srv + 1 |> |>).

(** ** Shutdown *)

Definition announceRestart (w : World) : World :=
  let w := setServer (λ srv, srv <| shuttingDown := true |>) w in
  foldl (λ w c, if hasFeature c FeatureServerRestarting w
                then sendMessage c MsgTypeServerRestarting (PServerRestarting
                       (mkServerRestartingPayload (Milliseconds RestartEta) "Server restarting")) w
                else w) w (snapshotClients (w_srv w)).

Definition closeAllClients (w : World) : World :=
  foldl (λ w c, setClient c (λ cl, closeSend (cl <| c_ConnOpen := false |>)) w) w
    (snapshotClients (w_srv w)).

(** The first half of [drainClients]: every writer is told to flush and stop. *)
Definition drainClients (w : World) : World :=
  foldl (λ w c, setClient c (closeSendWith CloseServiceRestart "server restarting") w) w
    (snapshotClients (w_srv w)).

End Dispatch.
