(* ===== verification/Steady.v ===== *)
(** Steady: what no handler changes.

    Handlers move people between rooms and send messages; the accounting of
    connections (the client table, the slots, the counters per source) belongs
    to admission and to the end of a read pump, and the policy and codec of a
    client to admission and negotiation.  [steady] relates the worlds before
    and after an operation that keeps all of that, and keeps the outbound
    queues of all clients well formed. *)

From S2P Require Import Prelude Protocol Utf8 Validation UAPolicy World Client Pumps Hosts Playback Limits Members Rooms Lifecycle Server.

(** A client as the server builds and keeps it. *)
Record client_ok (cl : Client) : Prop := {
  co_send : send_ok cl;
  co_codec : is_Some (c_codec cl);
  co_policy : is_Some (c_policy cl);
  co_pongs : (length (default [] (c_pongs cl)) ≤ pongQueueSize)%nat;
  co_rate : 0 ≤ c_rateMessageCount cl ≤ MaxMessagesPerWindow
}.

Definition gate_of (cl : Client) := (c_source cl, c_connectionSlot cl, c_uaTier cl, c_policy cl).
Record kept (cl cl' : Client) : Prop := {
  kp_gate : gate_of cl' = gate_of cl;
  kp_ok : client_ok cl → client_ok cl'
}.
#[export] Instance kept_preorder : PreOrder kept.
Proof. split; [by split|]. intros ??? [] []. split; [congruence|auto]. Qed.

Definition gate (s : Server) := (clients s, connectionSlots s, sources s, pumps s, shuttingDown s, persisted s).
Record steady (w w' : World) : Prop := {
  sy_client c : kept (getClient c w) (getClient c w');
  sy_gate : gate (w_srv w') = gate (w_srv w);
  sy_next : (w_next w ≤ w_next w')%nat
}.
#[export] Instance steady_preorder : PreOrder steady.
Proof.
  split; [by split|]. intros w1 w2 w3 [Hc1] [Hc2]. split; [|congruence|lia].
  intros c. transitivity (getClient c w2); auto.
Qed.

(** ** Updates *)

(** A change that leaves the queues, the codec and the gate of a client alone. *)
Definition wiring (cl : Client) :=
  (c_Send cl, c_closed cl, c_queuedBytes cl, (c_codec cl, c_pongs cl, c_rateMessageCount cl), gate_of cl).
Lemma kept_wiring cl cl' : wiring cl' = wiring cl → kept cl cl'.
Proof.
  unfold wiring. intros [= H1 H2 H3 H4 H5 H6 H7 H8 H9 H10].
  split; [unfold gate_of; congruence|]. intros [(ch & Hch & []) ? ? ? ?].
  split; [exists ch; split; [congruence|split; congruence]|congruence..].
Qed.

Lemma kept_send cl cl' :
  (c_codec cl', c_pongs cl', c_rateMessageCount cl', gate_of cl') =
    (c_codec cl, c_pongs cl, c_rateMessageCount cl, gate_of cl) →
  (send_ok cl → send_ok cl') → kept cl cl'.
Proof.
  intros [= H1 H2 H3 H4 H5 H6 H7] Hs. split; [unfold gate_of; congruence|].
  intros []. split; [auto|congruence..].
Qed.

Lemma kept_sendEncoded data cl : kept cl (sendEncoded data cl).
Proof.
  apply kept_send; [|apply sendEncoded_ok]. unfold sendEncoded. repeat (case_match || case_decide); done.
Qed.

Lemma kept_closeSendWith code reason cl : kept cl (closeSendWith code reason cl).
Proof. apply kept_send; [|apply closeSendWith_ok]. unfold closeSendWith. by case_match. Qed.

Lemma kept_allowMessage now cl : kept cl (allowMessage now cl).2.
Proof.
  split; [unfold allowMessage; by repeat case_decide|]. intros [(ch & Hch & []) ? ? ? Hr].
  assert (0 < MaxMessagesPerWindow) by done.
  split; unfold allowMessage; repeat case_decide; cbn; try done; try lia;
    exists ch; (split; [done|by split]).
Qed.

Section Updates.
Context `{WireFormat}.

Lemma steady_setClient w W c f : (∀ cl, kept cl (f cl)) → steady w W → steady w (setClient c f W).
Proof.
  intros Hf Hw. etrans; [exact Hw|]. split; [|done..]. intros d. rewrite getClient_setClient. by case_decide.
Qed.

Lemma steady_assign w W c f : (∀ cl, wiring (f cl) = wiring cl) → steady w W → steady w (setClient c f W).
Proof. intros Hf. apply steady_setClient. intros. by apply kept_wiring. Qed.

Lemma steady_replace w W c cl : kept (getClient c W) cl → steady w W → steady w (setClient c (λ _, cl) W).
Proof.
  intros Hk Hw. etrans; [exact Hw|]. split; [|done..]. intros d. rewrite getClient_setClient. by case_decide; subst.
Qed.

Lemma steady_setRoom w W r f : steady w W → steady w (setRoom r f W).
Proof. intros Hw. etrans; [exact Hw|]. by split. Qed.

Lemma steady_setSession w W s f : steady w W → steady w (setSession s f W).
Proof. intros Hw. etrans; [exact Hw|]. by split. Qed.

Lemma steady_setServer w W f : gate (f (w_srv W)) = gate (w_srv W) → steady w W → steady w (setServer f W).
Proof. intros Hg Hw. etrans; [exact Hw|]. by split. Qed.

Lemma steady_newRoom w W room : steady w W → steady w (newRoom room W).2.
Proof. intros Hw. etrans; [exact Hw|]. split; [done|done|cbn; lia]. Qed.

Lemma steady_newSession w W se : steady w W → steady w (newSession se W).2.
Proof. intros Hw. etrans; [exact Hw|]. split; [done|done|cbn; lia]. Qed.

Lemma steady_foldl {A} (f : World → A → World) l w W :
  (∀ W x, steady w W → steady w (f W x)) → steady w W → steady w (foldl f W l).
Proof. intros Hf. revert W. induction l; cbn; auto. Qed.

Lemma steady_sendEncoded w W c data : steady w W → steady w (sendEncodedMessage c data W).
Proof. apply steady_setClient, kept_sendEncoded. Qed.

Lemma steady_sendMessage w W c m p : steady w W → steady w (sendMessage c m p W).
Proof. intros Hw. unfold sendMessage. repeat case_match; try done; by apply steady_sendEncoded. Qed.

Lemma steady_reply w W c m p : steady w W → steady w (reply c m p W).
Proof.
  intros Hw. unfold reply. assert (steady w (setClient c (λ cl, cl <| c_replied := true |>) W)) by by apply steady_assign.
  repeat case_match; try done. by apply steady_sendEncoded.
Qed.

Lemma steady_sendError w W c code msg : steady w W → steady w (sendError c code msg W).
Proof. apply steady_reply. Qed.

Lemma steady_broadcast w W cs m p : steady w W → steady w (sendMessageToClients cs m p W).
Proof.
  unfold sendMessageToClients. generalize (λ (_ : uaTier) (_ : bool), @None string). revert W.
  induction cs as [|c cs IH]; intros W cache Hw; cbn; [done|].
  repeat case_match; try done; by apply IH, steady_sendEncoded.
Qed.

Lemma steady_queuePong w W c p : steady w W → steady w (queuePong c p W).
Proof.
  apply steady_setClient. intros cl. cbn. destruct (c_pongs cl) as [ps|] eqn:Hp; [|by apply kept_wiring].
  case_decide; [|by apply kept_wiring]. split; [done|]. intros [(ch & Hch & []) ? ? ? ?].
  split; cbn; [exists ch; split; [done|by split]|done|done| |done]. rewrite length_app. cbn. lia.
Qed.

End Updates.

(** The automation: peel one operation off the world at a time, with the
    lemma of its head symbol; each group of operations adds its lemmas. *)
Ltac steady_peel :=
  first [simple apply steady_setRoom|simple apply steady_setSession|simple apply steady_sendMessage
        |simple apply steady_reply|simple apply steady_sendError|simple apply steady_broadcast
        |simple apply steady_queuePong|simple apply steady_newRoom|simple apply steady_newSession].
Ltac steady_step :=
  lazymatch goal with
  | |- steady ?w ?w => reflexivity
  | H : steady ?w ?W |- steady ?w ?W => exact H
  | |- steady _ (setClient _ (λ _, _) _) => apply steady_assign; [intros; reflexivity|]
  | |- steady _ (setServer _ _) => apply steady_setServer; [reflexivity|]
  | |- steady _ (foldl _ _ _) => apply steady_foldl; [intros|]
  | |- steady _ (if decide _ then _ else _) => case_decide
  | |- steady _ (match ?x with _ => _ end) =>
      lazymatch type of x with
      | (_ * World)%type =>
        let Hw := fresh "Hw" in
        match goal with |- steady ?w _ => assert (steady w x.2) as Hw; [|destruct x; cbn in Hw] end
      | _ => destruct x
      end
  | |- steady _ _ => steady_peel
  end.
Ltac steady := repeat (cbv zeta beta; cbn [fst snd]; steady_step).

(** ** Handlers *)

Section Handlers.
Context `{WireFormat, UnicodeTables}.
Context (w W : World).

Lemma steady_clearRoom c r : steady w W → steady w (clearRoom c r W).
Proof. intros Hw. unfold clearRoom. steady. Qed.
Lemma steady_clearPendingRoom c r : steady w W → steady w (clearPendingRoom c r W).
Proof. intros Hw. unfold clearPendingRoom. steady. Qed.
Lemma steady_setClientID c i : steady w W → steady w (setClientID c i W).
Proof. intros Hw. unfold setClientID. steady. Qed.
Lemma steady_setUsername c i : steady w W → steady w (setUsername c i W).
Proof. intros Hw. unfold setUsername. steady. Qed.
Lemma steady_setSessionToken c i : steady w W → steady w (setSessionToken c i W).
Proof. intros Hw. unfold setSessionToken. steady. Qed.
Lemma steady_trySetRoom c r : steady w W → steady w (trySetRoom c r W).2.
Proof. intros Hw. unfold trySetRoom, markAffiliationStarted. case_match; cbn [snd]; steady. Qed.
Lemma steady_trySetPendingRoom c r : steady w W → steady w (trySetPendingRoom c r W).2.
Proof.
  intros Hw. unfold trySetPendingRoom, markAffiliationStarted, clearPendingRoom.
  repeat case_match; cbn [snd]; steady.
Qed.
Lemma steady_assignHost r h : steady w W → steady w (assignHostLocked r h W).2.
Proof. intros Hw. rewrite assignHostLocked_world. steady. Qed.
Lemma steady_dropSessions (P : Session → Prop) `{!∀ s, Decision (P s)} : steady w W → steady w (dropSessions P W).
Proof. intros Hw. unfold dropSessions. steady. Qed.
Lemma steady_replayHostWork h js ss : steady w W → steady w (replayHostWork h js ss W).
Proof. intros Hw. unfold replayHostWork. steady. Qed.
Lemma steady_sendPolicyQueueSnapshot c st : steady w W → steady w (sendPolicyQueueSnapshot c st W).
Proof. intros Hw. unfold sendPolicyQueueSnapshot. steady. Qed.
Lemma steady_room_create_allowed now c : steady w W → steady w (room_create_allowed now c W).2.
Proof.
  intros Hw. unfold room_create_allowed. case_decide; cbn [snd]; [done|].
  unfold allowRoomCreate, count_create. repeat (case_match || case_decide); cbn [snd]; simplify_eq; steady.
Qed.
Lemma steady_drop_token t : steady w W → steady w (drop_token t W).
Proof. intros Hw. unfold drop_token. steady. Qed.
End Handlers.
Ltac steady_peel_clients :=
  first [simple apply steady_clearRoom|simple apply steady_clearPendingRoom|simple apply steady_setClientID
        |simple apply steady_setUsername|simple apply steady_setSessionToken|simple apply steady_trySetRoom
        |simple apply steady_trySetPendingRoom|simple apply steady_assignHost|simple apply steady_dropSessions
        |simple apply steady_replayHostWork|simple apply steady_sendPolicyQueueSnapshot
        |simple apply steady_room_create_allowed|simple apply steady_drop_token].
Ltac steady ::= repeat (cbv zeta beta; cbn [fst snd]; first [steady_step|steady_peel_clients]).

Section Compound.
Context `{WireFormat, UnicodeTables}.
Context (w W : World).
Lemma steady_deliverHostChange cs change : steady w W → steady w (deliverHostChange cs change W).
Proof. intros Hw. unfold deliverHostChange. steady. Qed.
Lemma steady_removePendingJoin c : steady w W → steady w (removePendingJoin c W).
Proof. intros Hw. unfold removePendingJoin. steady. Qed.
Lemma steady_deleteRoomIfEmpty r : steady w W → steady w (deleteRoomIfEmpty r W).2.
Proof. intros Hw. unfold deleteRoomIfEmpty, rejectPending. case_decide; cbn [snd]; steady. Qed.
Lemma steady_closeRoom r reason : steady w W → steady w (closeRoom r reason W).
Proof. intros Hw. unfold closeRoom, kickMember, rejectPending, unregister. steady. Qed.
Lemma steady_dropPending r i c : steady w W → steady w (dropPending r i c W).
Proof. intros Hw. unfold dropPending. steady. Qed.
End Compound.
Ltac steady_peel_rooms :=
  first [simple apply steady_deliverHostChange|simple apply steady_removePendingJoin
        |simple apply steady_deleteRoomIfEmpty|simple apply steady_closeRoom|simple apply steady_dropPending].
Ltac steady ::= repeat (cbv zeta beta; cbn [fst snd]; first [steady_step|steady_peel_clients|steady_peel_rooms]).

Lemma steady_announce_departure `{WireFormat} w W r elect id name bt :
  steady w W → (∀ V, steady w V → steady w (bt V)) → steady w (announce_departure r elect id name bt W).
Proof.
  intros Hw Hbt. unfold announce_departure. set (p := if elect then _ else _).
  assert (steady w p.2) as Hp by (unfold p; destruct elect; [apply steady_assignHost|]; done).
  destruct p as [change w1]. cbn in Hp. specialize (Hbt _ Hp). case_bool_decide; steady.
Qed.

Section MessageHandlers.
Context `{WireFormat, UnicodeTables}.
Context (w W : World).
Context (Hw : steady w W).
Lemma steady_handlePlaybackAction e c payload : steady w (handlePlaybackAction e c payload W).
Proof. unfold handlePlaybackAction, publish_action, finish_action. steady. Qed.
Lemma steady_handleBufferReady e c payload : steady w (handleBufferReady e c payload W).
Proof. unfold handleBufferReady. steady. Qed.
Lemma steady_handleSuggestTrack e c payload : steady w (handleSuggestTrack e c payload W).
Proof. unfold handleSuggestTrack. steady. Qed.
Lemma steady_handleApproveSuggestion e c payload : steady w (handleApproveSuggestion e c payload W).
Proof. unfold handleApproveSuggestion. steady. Qed.
Lemma steady_handleRejectSuggestion c payload : steady w (handleRejectSuggestion c payload W).
Proof. unfold handleRejectSuggestion. steady. Qed.
Lemma steady_handleCreateRoom e c payload : steady w (handleCreateRoom e c payload W).
Proof. unfold handleCreateRoom, openRoom. steady. Qed.
Lemma steady_handleJoinRoom c payload : steady w (handleJoinRoom c payload W).
Proof. unfold handleJoinRoom. steady. Qed.
Lemma steady_handleApproveJoin e c payload : steady w (handleApproveJoin e c payload W).
Proof. unfold handleApproveJoin. steady. Qed.
Lemma steady_handleRejectJoin c payload : steady w (handleRejectJoin c payload W).
Proof. unfold handleRejectJoin. steady. Qed.
Lemma steady_handleKickUser c payload : steady w (handleKickUser c payload W).
Proof. unfold handleKickUser, kickConnected, kickOffline. steady. Qed.
Lemma steady_handleTransferHost c payload : steady w (handleTransferHost c payload W).
Proof. unfold handleTransferHost. steady. Qed.
Lemma steady_leaveSeat e c r V : steady w V → steady w (leaveSeat e c r V).
Proof.
  intros HV. unfold leaveSeat. cbv zeta. case_decide; [steady|]. case_decide; [steady|].
  apply steady_announce_departure; [steady|]. intros. by apply steady_drop_token.
Qed.
Lemma steady_leaveRoom e c : steady w (leaveRoom e c W).
Proof.
  unfold leaveRoom. destruct (currentRoom c W); [by apply steady_leaveSeat|]. cbv zeta.
  case_match; [apply steady_leaveSeat|]; steady.
Qed.
Lemma steady_disconnect e c V : steady w V → steady w (handleClientDisconnect e c V).
Proof.
  intros HV. unfold handleClientDisconnect. destruct (currentRoom c V); [|done]. cbv zeta.
  assert (steady w (ensure_token e c V).2) as Ht by (unfold ensure_token; case_decide; cbn [snd]; steady).
  destruct (ensure_token e c V). cbn in Ht. steady.
Qed.
Lemma steady_readmit c t s r V : steady w V → steady w (readmit c t s r V).2.
Proof.
  intros HV. unfold readmit, reclaim_host. cbv zeta. case_decide; [|cbn [snd]; steady].
  cbn [assignHostLocked snd fst]. steady.
Qed.
Lemma steady_claim e c t V : steady w V → steady w (claim e c t V).2.
Proof. intros HV. unfold claim. repeat (case_match || case_decide); cbn [snd]; steady. Qed.
Lemma steady_replaceLive e c t V : steady w V → steady w (replaceLiveSession e c t V).2.
Proof.
  intros HV. unfold replaceLiveSession. destruct (list_find _ _) as [[]|]; cbn [snd]; [|done].
  apply steady_assign; [done|]. apply steady_setClient; [intros; apply kept_closeSendWith|]. by apply steady_disconnect.
Qed.
Lemma steady_finish e c t s V : steady w V → steady w (finish_reconnect e c t s V).
Proof.
  intros HV. unfold finish_reconnect. case_match; [|unfold unclaim; steady].
  unfold resume, unclaim. cbv zeta. case_decide; [steady|].
  pose proof (steady_trySetRoom w V c n HV) as Ht. destruct (trySetRoom c n V) as [ok w2]. cbn in Ht.
  case_decide; [steady|]. pose proof (steady_readmit c t s n w2 Ht) as Hr.
  destruct (readmit _ _ _ _ _) as [change w3]. unfold welcome_back. steady.
Qed.
Lemma steady_handleReconnect e c payload : steady w (handleReconnect e c payload W).
Proof.
  unfold handleReconnect. destruct (decodePayload _ _ _) as [p|]; [|steady]. cbv zeta.
  do 3 (case_decide; [steady|]). set (o := let '(_, _) := claim _ _ _ _ in _).
  assert (steady w o.2) as Ho.
  { unfold o. pose proof (steady_claim e c (rcn_SessionToken p) W Hw) as Hx. destruct (claim e c _ W) as [x w1]. cbn in Hx.
    case_decide; [|done]. pose proof (steady_replaceLive e c (rcn_SessionToken p) w1 Hx) as Hr.
    destruct (replaceLiveSession _ _ _ _) as [[] w2]; cbn in *; auto using steady_claim. }
  destruct o as [[code|s] w1]; cbn in Ho; [steady|by apply steady_finish].
Qed.
Lemma steady_handlePing e at' c payload : steady w (handlePing e at' c payload W).
Proof.
  unfold handlePing. destruct (if decide _ then _ else _) as [p|]; [|steady]. cbv zeta.
  destruct (currentRoom c W) as [r|]; [|steady]. case_decide; [|steady]. case_decide; [|steady].
  assert (kept (getClient c W) (allowSyncResponse (e_now e) (getClient c W)).2) as Hk.
  { unfold allowSyncResponse. repeat (case_match || case_decide); try done; by apply kept_wiring. }
  destruct (allowSyncResponse _ _) as [ok cl]. cbn in Hk.
  assert (steady w (setClient c (λ _, cl) W)) by by apply steady_replace. destruct ok; steady.
Qed.
Lemma steady_handleRequestSync e c : steady w (handleRequestSync e c W).
Proof.
  unfold handleRequestSync. destruct (currentRoom c W) as [r|]; [|steady]. cbv zeta. case_decide; [steady|].
  assert (kept (getClient c W) (allowSyncResponse (e_now e) (getClient c W)).2) as Hk.
  { unfold allowSyncResponse. repeat (case_match || case_decide); try done; by apply kept_wiring. }
  destruct (allowSyncResponse _ _) as [ok cl]. cbn in Hk.
  assert (steady w (setClient c (λ _, cl) W)) by by apply steady_replace. destruct ok; steady.
Qed.
Lemma steady_handleClientCapabilities c payload : steady w (handleClientCapabilities c payload W).
Proof.
  unfold handleClientCapabilities. destruct (decodePayload _ _ _) as [p|]; [|steady]. cbv zeta.
  do 3 (case_decide; [steady|]). unfold setFeatures. cbn [fst snd].
  apply steady_reply, steady_assign; [done|]. apply steady_setClient; [|done].
  intros cl. split; [done|]. intros [(ch & Hch & []) ? ? ? ?]. split; cbn; try done. exists ch. by split.
Qed.
Lemma steady_dispatch e at' c msgType payload : steady w (dispatch e at' c msgType payload W).
Proof.
  unfold dispatch.
  repeat (case_decide; [auto using steady_handleCreateRoom, steady_handleJoinRoom, steady_leaveRoom,
    steady_handleApproveJoin, steady_handleRejectJoin, steady_handlePlaybackAction, steady_handleBufferReady,
    steady_handleKickUser, steady_handleTransferHost, steady_handlePing, steady_handleRequestSync,
    steady_handleReconnect, steady_handleSuggestTrack, steady_handleApproveSuggestion,
    steady_handleRejectSuggestion, steady_handleClientCapabilities|]).
  steady.
Qed.
End MessageHandlers.

Section Rounds.
Context `{WireFormat, UnicodeTables}.
Lemma steady_handleMessage w W e at' c data : steady w W → steady w (handleMessage e at' c data W).
Proof.
  intros Hw. unfold handleMessage, acknowledge.
  assert (∀ id, steady w (begin_request id c W)) as Hb by (intros; unfold begin_request; steady).
  assert (∀ id V, steady w V → steady w (acknowledge id c V)) as Ha by (intros; unfold acknowledge; steady).
  destruct (decodeProtobuf data) as [[[m p] id]|[id big]].
  - apply Ha. case_decide; [by apply steady_sendError|by apply steady_dispatch].
  - apply Ha. destruct big; by apply steady_sendError.
Qed.

Lemma steady_receive e at' c data w : steady w (receive e at' c data w).
Proof.
  unfold receive. pose proof (kept_allowMessage (e_now e) (getClient c w)) as Hk.
  destruct (allowMessage _ _) as [ok cl]. cbn in Hk.
  assert (steady w (setClient c (λ _, cl) w)) as Hs by by apply steady_replace.
  destruct ok; [by apply steady_handleMessage|].
  assert (∀ cl, kept cl (shouldNotifyRateLimit cl).2) as Hn.
  { intros. unfold shouldNotifyRateLimit. case_match; [done|by apply kept_wiring]. }
  specialize (Hn (getClient c (setClient c (λ _, cl) w))). destruct (shouldNotifyRateLimit _) as [b cl']. cbn in Hn.
  assert (steady w (setClient c (λ _, cl') (setClient c (λ _, cl) w))) by by apply steady_replace.
  destruct b; steady.
Qed.

Lemma steady_expire_one now s w W : steady w W → steady w (expire_one now W s).
Proof.
  intros HW. unfold expire_one. case_match; [|done]. unfold expireSession. cbv zeta. case_match; [|done].
  case_decide.
  - apply steady_deleteRoomIfEmpty. case_bool_decide; steady.
  - apply steady_announce_departure; [steady|done].
Qed.
Lemma steady_cleanupExpired now w : steady w (cleanupExpiredSessionsOnce now w).
Proof.
  unfold cleanupExpiredSessionsOnce. cbv zeta. apply steady_foldl; [|steady]. intros. by apply steady_expire_one.
Qed.

Lemma steady_cleanupEmpty now w : steady w (cleanupEmptyRoomsOnce now w).
Proof. unfold cleanupEmptyRoomsOnce. apply steady_foldl; [|done]. intros W r HW. unfold cleanup_room. steady. Qed.

Lemma steady_failover now w : steady w (failoverHostsOnce now w).
Proof. unfold failoverHostsOnce. apply steady_foldl; [|done]. intros W r HW. unfold failoverRoom. steady. Qed.
End Rounds.
