(* ===== verification/Replies.v ===== *)
(** Replies: every request is answered once.

    A client that negotiated [FeatureRequestID] numbers its requests and waits
    for the message that carries the number.  [handleMessage] lets a handler
    reply (or queue a pong) and acknowledges the request itself when the
    handler stayed silent.  This file follows the frames a handler hands to
    the connection it serves, through every handler, and shows that exactly
    one of them carries the number of the request; everything else that
    reaches the connection meanwhile (broadcasts, notices) carries none. *)

From S2P Require Import Prelude Protocol Utf8 Validation UAPolicy World Client Pumps Hosts Playback Limits Members Rooms Lifecycle Server Steady.

(** ** What a connection has been handed *)

Definition outbox (cl : Client) : list string := default [] (ch_buf <$> c_Send cl).
Definition pongbox (cl : Client) : list queuedPong := default [] (c_pongs cl).
Definition alive (cl : Client) : Prop := is_Some (c_codec cl) ∧ send_ok cl.
(** Room for one more pong. *)
Definition pong_room (cl : Client) : Prop := ∃ ps, c_pongs cl = Some ps ∧ (length ps < pongQueueSize)%nat.

Section Frames.
Context `{WireFormat}.

(** A frame with the request ID it was encoded with. *)
Definition tagged (f : Z * string) : Prop := ∃ b m p, encodeProtobuf b m p f.1 = Some f.2.
(** Every message can be encoded. *)
Definition encodes_all : Prop := ∀ b m p k, is_Some (encodeProtobuf b m p k).
Definition replies (k : Z) (l : list (Z * string)) : nat := length (filter (λ f, f.1 = k) l).

(** The frames and pongs handed over between two states of a connection, [n]
    of which answer request [k] while the others carry no number; fewer only if
    the connection closed, a message could not be encoded, or the pong queue
    was full. *)
Record handed (k : Z) (n : nat) (cl cl' : Client) : Prop := {
  hd_frames : ∃ l ps, outbox cl' = outbox cl ++ l.*2 ∧ pongbox cl' = pongbox cl ++ ps ∧
    Forall (λ f, tagged f ∧ (f.1 = 0 ∨ f.1 = k)) l ∧ Forall (λ p, qp_requestID p = k) ps ∧
    (replies k l + length ps ≤ n)%nat ∧
    (c_closed cl' = false → encodes_all → pong_room cl → (replies k l + length ps = n)%nat)
}.

(** What a handler may do to the connection it serves: it replied ([b]) or not. *)
Record said (b : bool) (cl cl' : Client) : Prop := {
  sd_request : c_requestID cl' = c_requestID cl;
  sd_replied : c_replied cl' = c_replied cl || b;
  sd_features : b = false → c_features cl' = c_features cl;
  sd_pongs : b = false → c_pongs cl' = c_pongs cl;
  sd_alive : alive cl → alive cl';
  sd_closed : c_closed cl = true → c_closed cl' = true;
  sd_handed : c_requestID cl ≠ 0 → handed (c_requestID cl) (Nat.b2n b) cl cl'
}.

Lemma replies_app k l l' : replies k (l ++ l') = (replies k l + replies k l')%nat.
Proof. unfold replies. by rewrite filter_app, length_app. Qed.

Lemma handed_none k cl cl' : outbox cl' = outbox cl → pongbox cl' = pongbox cl → handed k 0 cl cl'.
Proof. intros H1 H2. split. exists [], []. rewrite H1, H2, !app_nil_r. by split_and!. Qed.

Lemma handed_trans k n m cl1 cl2 cl3 :
  handed k n cl1 cl2 → handed k m cl2 cl3 → (c_closed cl2 = true → c_closed cl3 = true) →
  (pong_room cl1 → pong_room cl2) → handed k (n + m) cl1 cl3.
Proof.
  intros [(l & ps & O1 & P1 & T1 & Q1 & N1 & E1)] [(l' & ps' & O2 & P2 & T2 & Q2 & N2 & E2)] Hc Hp. split.
  exists (l ++ l'), (ps ++ ps'). rewrite O2, P2, O1, P1, fmap_app, !app_assoc, replies_app, length_app, !Forall_app.
  split_and!; try done; [lia|]. intros Hcl He Hr.
  assert (c_closed cl2 = false) by (destruct (c_closed cl2); [by rewrite Hc in Hcl|done]).
  specialize (E1 ltac:(done) He Hr). specialize (E2 Hcl He (Hp Hr)). lia.
Qed.

(** ** Composition *)

#[export] Instance said_refl : Reflexive (said false).
Proof. intros cl. split; try done; [by rewrite orb_false_r|]. intros _. by apply handed_none. Qed.

Lemma said_trans b b' cl1 cl2 cl3 :
  said b cl1 cl2 → said b' cl2 cl3 → b && b' = false → said (b || b') cl1 cl3.
Proof.
  intros [R1 P1 F1 G1 A1 C1 H1] [R2 P2 F2 G2 A2 C2 H2] Hb. split.
  - congruence.
  - by rewrite P2, P1, orb_assoc.
  - intros [? ?]%orb_false_iff. by rewrite F2, F1.
  - intros [? ?]%orb_false_iff. by rewrite G2, G1.
  - auto.
  - auto.
  - intros Hk. specialize (H1 Hk). rewrite R1 in H2. specialize (H2 Hk).
    replace (Nat.b2n (b || b')) with (Nat.b2n b + Nat.b2n b')%nat by (by destruct b, b').
    destruct b.
    + destruct b'; [done|]. change (Nat.b2n true) with 1%nat in *. change (Nat.b2n false) with 0%nat in *. destruct H1 as [(l & ps & O1 & Q1 & T1 & S1 & N1 & E1)],
        H2 as [(l' & ps' & O2 & Q2 & T2 & S2 & N2 & E2)]. split.
      exists (l ++ l'), (ps ++ ps'). rewrite O2, Q2, O1, Q1, fmap_app, !app_assoc, replies_app, length_app, !Forall_app.
      split_and!; try done; [lia|]. intros Hcl He Hr.
      assert (c_closed cl2 = false) by (destruct (c_closed cl2); [by rewrite C2 in Hcl|done]).
      specialize (E1 ltac:(done) He Hr). lia.
    + eapply handed_trans; [exact H1|exact H2|done|]. unfold pong_room. by rewrite G1.
Qed.

(** ** Updates of one connection *)

Definition voice (cl : Client) :=
  (c_requestID cl, c_replied cl, c_features cl, (c_codec cl, c_Send cl, c_closed cl), (c_pongs cl, c_queuedBytes cl)).
Lemma said_voice cl cl' : voice cl' = voice cl → said false cl cl'.
Proof.
  unfold voice. intros [= H1 H2 H3 H4 H5 H6 H7 H8]. split; try congruence.
  - by rewrite orb_false_r.
  - intros [? (ch & Hch & [])]. split; [congruence|]. exists ch. split; [congruence|split; congruence].
  - intros _. apply handed_none; unfold outbox, pongbox; congruence.
Qed.

(** Handing over a frame: it is appended, or the connection is or gets closed. *)
Lemma sendEncoded_cases data cl :
  let cl' := sendEncoded data cl in
  (c_requestID cl', c_replied cl', c_features cl', c_codec cl', c_pongs cl') =
    (c_requestID cl, c_replied cl, c_features cl, c_codec cl, c_pongs cl) ∧
  (c_closed cl = true → c_closed cl' = true) ∧
  ((outbox cl' = outbox cl ∧ (alive cl → c_closed cl' = true)) ∨ outbox cl' = outbox cl ++ [data]).
Proof.
  cbv zeta. unfold sendEncoded. destruct (c_Send cl) as [ch|] eqn:Hs.
  2: { split_and!; [done|done|]. left. split; [done|]. intros [_ (ch & Hch & _)]. congruence. }
  destruct (c_closed cl) eqn:Hc; [by split_and!; [| |left]|].
  assert (outbox cl = ch_buf ch) as Ho by (unfold outbox; by rewrite Hs).
  assert (ch_buf (chan_close ch) = ch_buf ch) as Hbuf by (unfold chan_close; by case_match).
  case_decide; [|split_and!; [done|done|left; unfold outbox; cbn; by rewrite Hs, Hbuf]].
  unfold chan_try_send. destruct (ch_closed ch) eqn:Hcc.
  { split_and!; [done|done|]. left. split; [unfold outbox; cbn; by rewrite Hs|]. intros [_ (ch' & Hch' & [])]. congruence. }
  case_decide; split_and!; try done; [right|left]; unfold outbox; cbn; rewrite Hs; [done|]. by rewrite Hbuf.
Qed.

Lemma handed_send k rid data cl :
  tagged (rid, data) → rid = 0 ∨ rid = k → (rid = k → alive cl) →
  handed k (if decide (rid = k) then 1 else 0)%nat cl (sendEncoded data cl).
Proof.
  intros Ht Hrid Ha. destruct (sendEncoded_cases data cl) as (Hsame & Hc & Ho). injection Hsame as _ _ _ _ Hp. split.
  assert (pongbox (sendEncoded data cl) = pongbox cl ++ []) as Hpb by (unfold pongbox; by rewrite Hp, app_nil_r).
  destruct Ho as [[Ho Hcl]|Ho].
  - exists [], []. rewrite Ho, Hpb, app_nil_r. split_and!; try done; [cbn; lia|]. case_decide as E; [|done].
    intros Hf. rewrite Hcl in Hf by auto. done.
  - exists [(rid, data)], []. rewrite Ho, Hpb. split_and!; try done; [by apply Forall_singleton| |];
      unfold replies; rewrite filter_cons; cbn; by case_decide.
Qed.

Lemma said_frame data cl : tagged (0, data) → said false cl (sendEncoded data cl).
Proof.
  intros Ht. destruct (sendEncoded_cases data cl) as (Hsame & Hc & _). injection Hsame as H1 H2 H3 H4 H5.
  split; try congruence; try done.
  - by rewrite orb_false_r.
  - intros [? ?]. split; [congruence|by apply sendEncoded_ok].
  - intros Hk. pose proof (handed_send (c_requestID cl) 0 data cl Ht (or_introl eq_refl) ltac:(congruence)) as Hh.
    by rewrite decide_False in Hh.
Qed.

Lemma said_closeSendWith code reason cl : said false cl (closeSendWith code reason cl).
Proof.
  pose proof (closeSendWith_ok code reason cl) as Hok. unfold closeSendWith in *.
  destruct (c_closed cl) eqn:Hc; [done|]. split; try done; cbn.
  - by rewrite orb_false_r.
  - intros [? ?]. split; [done|]. by apply Hok.
  - intros _. apply handed_none; [|done]. unfold outbox. cbn. destruct (c_Send cl) as [ch|]; [|done]. cbn.
    unfold chan_close. by case_match.
Qed.

(** The answer itself: a frame with the request's number, or a pong. *)
Lemma said_answer data cl :
  tagged (c_requestID cl, data) → alive cl → said true cl (sendEncoded data (cl <| c_replied := true |>)).
Proof.
  intros Ht Ha. set (cl0 := cl <| c_replied := true |>).
  assert (alive cl0) as Ha0 by (destruct Ha as [? (ch & ? & [])]; split; [done|]; exists ch; by repeat split).
  destruct (sendEncoded_cases data cl0) as (Hsame & Hc & _). injection Hsame as H1 H2 H3 H4 H5.
  split; try done.
  - rewrite H2. cbn. by rewrite orb_true_r.
  - intros _. destruct Ha0. split; [by rewrite H4|by apply sendEncoded_ok].
  - intros _. pose proof (handed_send (c_requestID cl) (c_requestID cl) data cl0 Ht (or_intror eq_refl) (λ _, Ha0)) as [Hf].
    rewrite decide_True in Hf by done. by split.
Qed.

Lemma said_unencoded cl : ¬ encodes_all → said true cl (cl <| c_replied := true |>).
Proof.
  intros Hn. split; try done; cbn.
  - by rewrite orb_true_r.
  - intros [? (ch & ? & [])]. split; [done|]. exists ch. by repeat split.
  - intros _. split. exists [], []. rewrite !app_nil_r. split_and!; try done. cbn. lia.
Qed.

Lemma said_pong pong cl :
  said true cl
    (let cl := cl <| c_replied := true |> in
     match c_pongs cl with
     | None => cl
     | Some ps =>
       if decide (length ps < pongQueueSize)%nat
       then cl <| c_pongs := Some (ps ++ [mk_queuedPong pong (c_requestID cl)]) |> else cl
     end).
Proof.
  cbv zeta. cbn. set (cl0 := cl <| c_replied := true |>).
  assert (∀ f : Client → Client, (∀ x, (c_requestID (f x), c_replied (f x), c_features (f x), c_codec (f x), c_Send (f x), (c_closed (f x), c_queuedBytes (f x))) =
      (c_requestID x, c_replied x, c_features x, c_codec x, c_Send x, (c_closed x, c_queuedBytes x))) →
    handed (c_requestID cl) 1 cl (f cl0) → said true cl (f cl0)) as Hgen.
  { intros f Hf Hh. specialize (Hf cl0). injection Hf as F1 F2 F3 F4 F5 F6 F7. split; try done.
    - rewrite F2. cbn. by rewrite orb_true_r.
    - intros [? (ch & ? & [])]. split; [by rewrite F4|]. exists ch. cbn in *.
      split; [by rewrite F5|]. split; rewrite ?F6, ?F7; done.
    - rewrite F6. done. }
  destruct (c_pongs cl) as [ps|] eqn:Hp; [case_decide as Hlen|].
  - apply (Hgen (λ x, x <| c_pongs := Some (ps ++ [mk_queuedPong pong (c_requestID cl)]) |>)); [done|]. split.
    exists [], [mk_queuedPong pong (c_requestID cl)]. unfold pongbox. cbn. rewrite Hp, app_nil_r.
    split_and!; try done. by repeat constructor.
  - apply (Hgen id); [done|]. split. exists [], []. unfold pongbox. cbn. rewrite !app_nil_r. split_and!; try done; [lia|].
    intros _ _ (ps' & Hps' & Hlt). rewrite Hp in Hps'. injection Hps' as <-. lia.
  - apply (Hgen id); [done|]. split. exists [], []. unfold pongbox. cbn. rewrite !app_nil_r. split_and!; try done; [lia|].
    intros _ _ (ps' & Hps' & _). congruence.
Qed.

End Frames.

(** ** The connection a handler serves *)

Section Serving.
Context `{WireFormat, UnicodeTables}.
Context (c : ClientRef).

(** Nothing was said to [c] in its own name. *)
Definition hush (w w' : World) : Prop := said false (getClient c w) (getClient c w').
#[export] Instance hush_preorder : PreOrder hush.
Proof.
  split; [intros w; apply said_refl|]. intros w1 w2 w3 H1 H2. exact (said_trans false false _ _ _ H1 H2 eq_refl).
Qed.

Lemma hush_setClient w W d f : (∀ cl, said false cl (f cl)) → hush w W → hush w (setClient d f W).
Proof.
  intros Hf Hw. etrans; [exact Hw|]. unfold hush. rewrite getClient_setClient. case_decide; [apply Hf|reflexivity].
Qed.
Lemma hush_assign w W d f : (∀ cl, voice (f cl) = voice cl) → hush w W → hush w (setClient d f W).
Proof. intros Hf. apply hush_setClient. intros. by apply said_voice. Qed.
Lemma hush_setRoom w W r f : hush w W → hush w (setRoom r f W).
Proof. done. Qed.
Lemma hush_setSession w W s f : hush w W → hush w (setSession s f W).
Proof. done. Qed.
Lemma hush_setServer w W f : hush w W → hush w (setServer f W).
Proof. done. Qed.
Lemma hush_newRoom w W room : hush w W → hush w (newRoom room W).2.
Proof. done. Qed.
Lemma hush_newSession w W se : hush w W → hush w (newSession se W).2.
Proof. done. Qed.
Lemma hush_foldl {A} (f : World → A → World) l w W :
  (∀ W x, hush w W → hush w (f W x)) → hush w W → hush w (foldl f W l).
Proof. intros Hf. revert W. induction l; cbn; auto. Qed.

Lemma hush_sendMessage w W d m p : hush w W → hush w (sendMessage d m p W).
Proof.
  intros Hw. unfold sendMessage. repeat case_match; try done. unfold sendEncodedMessage.
  apply hush_setClient; [|done]. intros cl. apply said_frame. by repeat eexists.
Qed.
Lemma hush_broadcast w W cs m p : hush w W → hush w (sendMessageToClients cs m p W).
Proof.
  unfold sendMessageToClients.
  assert (∀ t b data, (λ (_ : uaTier) (_ : bool), @None string) t b = Some data → tagged (0, data)) as Hca by done.
  revert Hca. generalize (λ (_ : uaTier) (_ : bool), @None string). revert W.
  induction cs as [|d cs IH]; intros W cache Hca Hw; cbn; [done|].
  destruct (cache _ _) as [data|] eqn:Hc.
  { apply IH; [done|]. apply hush_setClient; [|done]. intros. by eapply said_frame, Hca. }
  destruct (encodeProtobuf _ _ _ _) as [data|] eqn:He; [|done].
  assert (tagged (0, data)) as Ht by by repeat eexists.
  apply IH; [|by apply hush_setClient; [intros; apply said_frame|]].
  intros t b data'. unfold cache_add. case_decide; [by intros [= <-]|apply Hca].
Qed.

(** [c] has been answered at most once. *)
Definition spoken (w w' : World) : Prop := ∃ b, said b (getClient c w) (getClient c w').
Lemma spoken_hush w w' : hush w w' → spoken w w'.
Proof. intros Hh. by exists false. Qed.
Lemma spoken_then w W w' : hush W w' → spoken w W → spoken w w'.
Proof.
  intros Hh [b Hs]. exists b. pose proof (said_trans b false _ _ _ Hs Hh (andb_false_r b)) as Ht. by rewrite orb_false_r in Ht.
Qed.
Lemma spoken_after w W w' : hush w W → spoken W w' → spoken w w'.
Proof. intros Hh [b Hs]. exists b. exact (said_trans false b _ _ _ Hh Hs eq_refl). Qed.

Lemma reply_answers W m p : alive (getClient c W) → said true (getClient c W) (getClient c (reply c m p W)).
Proof.
  intros Ha. pose proof Ha as [[comp Hco] (ch & Hch & _)]. unfold reply. rewrite Hco, Hch.
  destruct (encodeProtobuf _ _ _ _) as [data|] eqn:He.
  - unfold sendEncodedMessage. rewrite !getClient_setClient_eq. apply said_answer; [by repeat eexists|done].
  - rewrite getClient_setClient_eq. apply said_unencoded. intros Hall. destruct (Hall comp m (rewritePayload (getClient c W) p)
      (c_requestID (getClient c W))) as [? ?]. congruence.
Qed.
End Serving.

Section Answering.
Context `{WireFormat}.
Lemma spoken_reply c w W m p : alive (getClient c w) → hush c w W → spoken c w (reply c m p W).
Proof.
  intros Ha Hh. eapply spoken_after; [exact Hh|]. exists true. apply reply_answers. by apply (sd_alive _ _ _ Hh).
Qed.
Lemma spoken_error c w W code m : alive (getClient c w) → hush c w W → spoken c w (sendError c code m W).
Proof. apply spoken_reply. Qed.
Lemma spoken_pong c w W p : hush c w W → spoken c w (queuePong c p W).
Proof.
  intros Hh. eapply spoken_after; [exact Hh|]. exists true. unfold queuePong. rewrite getClient_setClient_eq. apply said_pong.
Qed.
End Answering.

(** The automation: peel the silent operations off the world, stop at the
    answer, and show that what came before it was silent. *)
Ltac hush_peel :=
  first [simple apply hush_setRoom|simple apply hush_setSession|simple apply hush_setServer
        |simple apply hush_sendMessage|simple apply hush_broadcast|simple apply hush_newRoom
        |simple apply hush_newSession].
Ltac hush_more := fail.
Ltac hush_step :=
  lazymatch goal with
  | |- hush _ ?w ?w => reflexivity
  | H : hush ?c ?w ?W |- hush ?c ?w ?W => exact H
  | |- hush _ _ (setClient _ (λ _, _) _) => apply hush_assign; [intros; reflexivity|]
  | |- hush _ _ (foldl _ _ _) => apply hush_foldl; [intros|]
  | |- hush _ _ (if decide _ then _ else _) => case_decide
  | |- hush ?c ?w (match ?x with _ => _ end) =>
      lazymatch type of x with
      | (_ * World)%type => let Hw := fresh "Hw" in assert (hush c w x.2) as Hw; [|destruct x; cbn in Hw]
      | _ => destruct x
      end
  | |- hush _ _ _ => first [hush_peel|hush_more]
  end.
Ltac hush := repeat (cbv zeta beta; cbn [fst snd]; hush_step).
Ltac spoken_step :=
  lazymatch goal with
  | |- spoken _ ?w ?w => apply spoken_hush; reflexivity
  | H : hush ?c ?w ?W |- spoken ?c ?w ?W => exact (spoken_hush c w W H)
  | H : spoken ?c ?w ?W |- spoken ?c ?w ?W => exact H
  | |- spoken ?c _ (reply ?c _ _ _) => apply spoken_reply; [assumption|]
  | |- spoken ?c _ (sendError ?c _ _ _) => apply spoken_error; [assumption|]
  | |- spoken ?c _ (queuePong ?c _ _) => apply spoken_pong
  | |- spoken _ _ (setClient _ (λ _, _) _) =>
      eapply spoken_then; [apply hush_assign; [intros; reflexivity|reflexivity]|]
  | |- spoken _ _ (foldl _ _ _) => eapply spoken_then; [apply hush_foldl; [|reflexivity]; intros; hush|]
  | |- spoken _ _ (if decide _ then _ else _) => case_decide
  | |- spoken ?c ?w (match ?x with _ => _ end) =>
      lazymatch type of x with
      | (_ * World)%type => let Hw := fresh "Hw" in assert (hush c w x.2) as Hw; [hush|destruct x; cbn in Hw]
      | _ => destruct x
      end
  | |- spoken _ _ _ => eapply spoken_then; [first [hush_peel|hush_more]; reflexivity|]
  | |- hush _ _ _ => hush_step
  end.
Ltac spoken := repeat (cbv zeta beta; cbn [fst snd]; spoken_step).

(** ** Operations *)

Section Silent.
Context `{WireFormat, UnicodeTables}.
Context (c : ClientRef) (w W : World).
Lemma hush_clearRoom d r : hush c w W → hush c w (clearRoom d r W).
Proof. intros Hw. unfold clearRoom. hush. Qed.
Lemma hush_clearPendingRoom d r : hush c w W → hush c w (clearPendingRoom d r W).
Proof. intros Hw. unfold clearPendingRoom. hush. Qed.
Lemma hush_setClientID d i : hush c w W → hush c w (setClientID d i W).
Proof. intros Hw. unfold setClientID. hush. Qed.
Lemma hush_setUsername d i : hush c w W → hush c w (setUsername d i W).
Proof. intros Hw. unfold setUsername. hush. Qed.
Lemma hush_setSessionToken d i : hush c w W → hush c w (setSessionToken d i W).
Proof. intros Hw. unfold setSessionToken. hush. Qed.
Lemma hush_trySetRoom d r : hush c w W → hush c w (trySetRoom d r W).2.
Proof. intros Hw. unfold trySetRoom, markAffiliationStarted. case_match; cbn [snd]; hush. Qed.
Lemma hush_trySetPendingRoom d r : hush c w W → hush c w (trySetPendingRoom d r W).2.
Proof.
  intros Hw. unfold trySetPendingRoom, markAffiliationStarted, clearPendingRoom. repeat case_match; cbn [snd]; hush.
Qed.
Lemma hush_assignHost r h : hush c w W → hush c w (assignHostLocked r h W).2.
Proof. intros Hw. rewrite assignHostLocked_world. hush. Qed.
Lemma hush_dropSessions (P : Session → Prop) `{!∀ s, Decision (P s)} : hush c w W → hush c w (dropSessions P W).
Proof. intros Hw. unfold dropSessions. hush. Qed.
Lemma hush_replayHostWork h js ss : hush c w W → hush c w (replayHostWork h js ss W).
Proof. intros Hw. unfold replayHostWork. hush. Qed.
Lemma hush_snapshot d st : hush c w W → hush c w (sendPolicyQueueSnapshot d st W).
Proof. intros Hw. unfold sendPolicyQueueSnapshot. hush. Qed.
Lemma hush_room_create_allowed now d : hush c w W → hush c w (room_create_allowed now d W).2.
Proof.
  intros Hw. unfold room_create_allowed. case_decide; cbn [snd]; [done|]. by destruct (allowRoomCreate _ _ _).
Qed.
Lemma hush_drop_token t : hush c w W → hush c w (drop_token t W).
Proof. intros Hw. unfold drop_token. hush. Qed.
End Silent.
Ltac hush_peel_clients :=
  first [simple apply hush_clearRoom|simple apply hush_clearPendingRoom|simple apply hush_setClientID
        |simple apply hush_setUsername|simple apply hush_setSessionToken|simple apply hush_trySetRoom
        |simple apply hush_trySetPendingRoom|simple apply hush_assignHost|simple apply hush_dropSessions
        |simple apply hush_replayHostWork|simple apply hush_snapshot
        |simple apply hush_room_create_allowed|simple apply hush_drop_token].
Ltac hush_more ::= hush_peel_clients.

Section SilentRooms.
Context `{WireFormat, UnicodeTables}.
Context (c : ClientRef) (w W : World).
Lemma hush_deliverHostChange cs change : hush c w W → hush c w (deliverHostChange cs change W).
Proof. intros Hw. unfold deliverHostChange. hush. Qed.
Lemma hush_removePendingJoin d : hush c w W → hush c w (removePendingJoin d W).
Proof. intros Hw. unfold removePendingJoin. hush. Qed.
Lemma hush_deleteRoomIfEmpty r : hush c w W → hush c w (deleteRoomIfEmpty r W).2.
Proof. intros Hw. unfold deleteRoomIfEmpty, rejectPending. case_decide; cbn [snd]; hush. Qed.
Lemma hush_closeRoom r reason : hush c w W → hush c w (closeRoom r reason W).
Proof. intros Hw. unfold closeRoom, kickMember, rejectPending, unregister. hush. Qed.
Lemma hush_dropPending r i d : hush c w W → hush c w (dropPending r i d W).
Proof. intros Hw. unfold dropPending. hush. Qed.
End SilentRooms.
Ltac hush_peel_rooms :=
  first [simple apply hush_deliverHostChange|simple apply hush_removePendingJoin
        |simple apply hush_deleteRoomIfEmpty|simple apply hush_closeRoom|simple apply hush_dropPending].
Ltac hush_more ::= first [hush_peel_clients|hush_peel_rooms].

(** ** Handlers *)

Section Handlers.
Context `{WireFormat, UnicodeTables}.
Context (c : ClientRef) (w : World) (Ha : alive (getClient c w)).

Lemma spoken_handlePlaybackAction e payload : spoken c w (handlePlaybackAction e c payload w).
Proof. unfold handlePlaybackAction, publish_action, finish_action. spoken. Qed.
Lemma spoken_handleBufferReady e payload : spoken c w (handleBufferReady e c payload w).
Proof. unfold handleBufferReady. spoken. Qed.
Lemma spoken_handleSuggestTrack e payload : spoken c w (handleSuggestTrack e c payload w).
Proof. unfold handleSuggestTrack. spoken. Qed.
Lemma spoken_handleApproveSuggestion e payload : spoken c w (handleApproveSuggestion e c payload w).
Proof. unfold handleApproveSuggestion. spoken. Qed.
Lemma spoken_handleRejectSuggestion payload : spoken c w (handleRejectSuggestion c payload w).
Proof. unfold handleRejectSuggestion. spoken. Qed.
Lemma spoken_handleCreateRoom e payload : spoken c w (handleCreateRoom e c payload w).
Proof. unfold handleCreateRoom, openRoom. spoken. Qed.
Lemma spoken_handleJoinRoom payload : spoken c w (handleJoinRoom c payload w).
Proof. unfold handleJoinRoom. spoken. Qed.
Lemma spoken_handleApproveJoin e payload : spoken c w (handleApproveJoin e c payload w).
Proof. unfold handleApproveJoin. spoken. Qed.
Lemma spoken_handleRejectJoin payload : spoken c w (handleRejectJoin c payload w).
Proof. unfold handleRejectJoin. spoken. Qed.
Lemma spoken_handleKickUser payload : spoken c w (handleKickUser c payload w).
Proof. unfold handleKickUser, kickConnected, kickOffline. spoken. Qed.
Lemma spoken_handleTransferHost payload : spoken c w (handleTransferHost c payload w).
Proof. unfold handleTransferHost. spoken. Qed.
End Handlers.

Section Moving.
Context `{WireFormat, UnicodeTables}.
Context (c : ClientRef).

Lemma hush_announce_departure w W r elect id name bt :
  hush c w W → (∀ V, hush c w V → hush c w (bt V)) → hush c w (announce_departure r elect id name bt W).
Proof.
  intros Hw Hbt. unfold announce_departure. set (p := if elect then _ else _).
  assert (hush c w p.2) as Hp by (unfold p; destruct elect; [apply hush_assignHost|]; done).
  destruct p as [change w1]. cbn in Hp. specialize (Hbt _ Hp). case_bool_decide; hush.
Qed.
Lemma hush_leaveSeat w W e d r : hush c w W → hush c w (leaveSeat e d r W).
Proof.
  intros Hw. unfold leaveSeat. cbv zeta. do 2 (case_decide; [hush|]).
  apply hush_announce_departure; [hush|]. intros. by apply hush_drop_token.
Qed.
Lemma hush_leaveRoom w W e d : hush c w W → hush c w (leaveRoom e d W).
Proof.
  intros Hw. unfold leaveRoom. destruct (currentRoom d W); [by apply hush_leaveSeat|]. cbv zeta.
  case_match; [apply hush_leaveSeat|]; hush.
Qed.
Lemma spoken_leaveRoom w e : spoken c w (leaveRoom e c w).
Proof. apply spoken_hush, hush_leaveRoom. reflexivity. Qed.
Lemma hush_disconnect w W e d : hush c w W → hush c w (handleClientDisconnect e d W).
Proof.
  intros Hw. unfold handleClientDisconnect. destruct (currentRoom d W); [|done]. cbv zeta.
  assert (hush c w (ensure_token e d W).2) as Ht by (unfold ensure_token; case_decide; cbn [snd]; hush).
  destruct (ensure_token e d W). cbn in Ht. hush.
Qed.
Lemma hush_claim w W e d t : hush c w W → hush c w (claim e d t W).2.
Proof. intros Hw. unfold claim. repeat (case_match || case_decide); cbn [snd]; hush. Qed.
Lemma hush_replaceLive w W e d t : hush c w W → hush c w (replaceLiveSession e d t W).2.
Proof.
  intros Hw. unfold replaceLiveSession. destruct (list_find _ _) as [[]|]; cbn [snd]; [|done].
  apply hush_assign; [done|]. apply hush_setClient; [intros; apply said_closeSendWith|]. by apply hush_disconnect.
Qed.
Lemma hush_readmit w W d t s r : hush c w W → hush c w (readmit d t s r W).2.
Proof.
  intros Hw. unfold readmit, reclaim_host. cbv zeta. case_decide; [|cbn [snd]; hush].
  cbn [assignHostLocked snd fst]. hush.
Qed.

Lemma spoken_resume e t s r w W :
  alive (getClient c w) → hush c w W → spoken c w (resume e c t s r W).
Proof.
  intros Ha Hw. unfold resume, unclaim. cbv zeta. case_decide; [spoken|].
  pose proof (hush_trySetRoom c w W c r Hw) as Ht. destruct (trySetRoom c r W) as [ok w1]. cbn in Ht.
  case_decide; [spoken|]. pose proof (hush_readmit w w1 c t s r Ht) as Hr.
  destruct (readmit _ _ _ _ _) as [change w2]. unfold welcome_back. spoken.
Qed.

Lemma spoken_finish e t s w W :
  alive (getClient c w) → hush c w W → spoken c w (finish_reconnect e c t s W).
Proof. intros Ha Hw. unfold finish_reconnect. case_match; [by apply spoken_resume|unfold unclaim; spoken]. Qed.

Lemma spoken_handleReconnect e payload w : alive (getClient c w) → spoken c w (handleReconnect e c payload w).
Proof.
  intros Ha. unfold handleReconnect. destruct (decodePayload _ _ _) as [p|]; [|spoken]. cbv zeta.
  do 3 (case_decide; [spoken|]). set (o := let '(_, _) := claim _ _ _ _ in _).
  assert (hush c w o.2) as Ho.
  { unfold o. pose proof (hush_claim w w e c (rcn_SessionToken p) ltac:(reflexivity)) as Hx.
    destruct (claim e c _ w) as [x w1]. cbn in Hx. case_decide; [|done].
    pose proof (hush_replaceLive w w1 e c (rcn_SessionToken p) Hx) as Hr.
    destruct (replaceLiveSession _ _ _ _) as [[] w2]; cbn in *; auto using hush_claim. }
  destruct o as [[code|s] w1]; cbn in Ho; [spoken|by apply spoken_finish].
Qed.

Lemma hush_allowSync w now : hush c w (setClient c (λ _, (allowSyncResponse now (getClient c w)).2) w).
Proof.
  unfold hush. rewrite getClient_setClient_eq. apply said_voice. unfold allowSyncResponse.
  by repeat (case_match || case_decide).
Qed.

Lemma spoken_handlePing e at' payload w : alive (getClient c w) → spoken c w (handlePing e at' c payload w).
Proof.
  intros Ha. unfold handlePing. destruct (if decide _ then _ else _) as [p|]; [|spoken]. cbv zeta.
  destruct (currentRoom c w) as [r|]; [|spoken]. case_decide; [|spoken]. case_decide; [|spoken].
  pose proof (hush_allowSync w (e_now e)) as Hk. destruct (allowSyncResponse _ _) as [ok cl]. cbn in Hk.
  destruct ok; spoken.
Qed.
Lemma spoken_handleRequestSync e w : alive (getClient c w) → spoken c w (handleRequestSync e c w).
Proof.
  intros Ha. unfold handleRequestSync. destruct (currentRoom c w) as [r|]; [|spoken]. cbv zeta. case_decide; [spoken|].
  pose proof (hush_allowSync w (e_now e)) as Hk. destruct (allowSyncResponse _ _) as [ok cl]. cbn in Hk.
  destruct ok; spoken.
Qed.

(** Negotiation changes the features, and always answers. *)
Lemma said_renegotiated cl cl' codec features :
  said true (cl <| c_capabilitiesSet := true |> <| c_codec := Some codec |> <| c_features := features |>) cl' →
  said true cl cl'.
Proof.
  intros [S1 S2 S3 S4 S5 S6 S7]. split; try done.
  - intros [? (ch & ? & [])]. apply S5. split; [done|]. exists ch. by repeat split.
  - intros Hk. destruct (S7 Hk) as [Hf]. by split.
Qed.
Lemma spoken_handleClientCapabilities payload w :
  alive (getClient c w) → spoken c w (handleClientCapabilities c payload w).
Proof.
  intros Ha. unfold handleClientCapabilities. destruct (decodePayload _ _ _) as [p|]; [|spoken]. cbv zeta.
  do 3 (case_decide; [spoken|]). unfold setFeatures. exists true.
  eapply (said_renegotiated _ _ (ccp_SupportsCompression p) (Some (accept_features (ccp_Features p)).1)).
  set (w1 := setClient c _ (setClient c _ w)).
  assert (getClient c w1 = (getClient c w) <| c_capabilitiesSet := true |> <| c_codec := Some (ccp_SupportsCompression p) |>
    <| c_features := Some (accept_features (ccp_Features p)).1 |>) as <- by (unfold w1; by rewrite !getClient_setClient_eq).
  apply reply_answers. unfold w1. rewrite !getClient_setClient_eq. destruct Ha as [? (ch & ? & [])].
  split; [done|]. exists ch. by repeat split.
Qed.

Lemma spoken_dispatch e at' m payload w : alive (getClient c w) → spoken c w (dispatch e at' c m payload w).
Proof.
  intros Ha. unfold dispatch.
  repeat (case_decide; [auto using spoken_handleCreateRoom, spoken_handleJoinRoom, spoken_handleApproveJoin,
    spoken_handleRejectJoin, spoken_handlePlaybackAction, spoken_handleBufferReady, spoken_handleKickUser,
    spoken_handleTransferHost, spoken_handlePing, spoken_handleRequestSync, spoken_handleReconnect,
    spoken_handleSuggestTrack, spoken_handleApproveSuggestion, spoken_handleRejectSuggestion,
    spoken_handleClientCapabilities, spoken_leaveRoom|]).
  spoken.
Qed.
End Moving.

(** ** Requests *)

Section Requests.
Context `{WireFormat, UnicodeTables}.

(** The number a message carries, whether or not it can be read. *)
Definition request_of (data : string) : Z :=
  match decodeProtobuf data with inl (_, _, id) => id | inr (id, _) => id end.

(** The work between noting the number and the acknowledgement. *)
Definition served (e : Env) (at' : Z) (c : ClientRef) (data : string) (w : World) : World :=
  match decodeProtobuf data with
  | inl (m, payload, _) =>
    if decide (m = "") then sendError c "invalid_message" "Message type is required" w
    else dispatch e at' c m payload w
  | inr (_, too_large) =>
    if too_large : bool then sendError c "message_too_large" "Message exceeds 2097152 bytes after decompression" w
    else sendError c "invalid_message" "Invalid message format" w
  end.
Lemma handleMessage_served e at' c data w :
  handleMessage e at' c data w =
    acknowledge (request_of data) c (served e at' c data (begin_request (request_of data) c w)).
Proof. unfold handleMessage, served, request_of. destruct (decodeProtobuf data) as [[[m p] id]|[id []]]; done. Qed.

Lemma spoken_served e at' c data w : alive (getClient c w) → spoken c w (served e at' c data w).
Proof.
  intros Ha. unfold served. destruct (decodeProtobuf data) as [[[m p] id]|[id []]]; [|spoken..].
  case_decide; [spoken|by apply spoken_dispatch].
Qed.

(** The acknowledgement answers exactly when the handler did not. *)
Lemma acknowledged c w1 w2 id :
  id ≠ 0 → c_requestID (getClient c w1) = id → c_replied (getClient c w1) = false → alive (getClient c w1) →
  hasFeature c FeatureRequestID w1 = true → spoken c w1 w2 → handed id 1 (getClient c w1) (getClient c (acknowledge id c w2)).
Proof.
  intros Hid Hr Hf Ha Hfe [b Hs]. unfold acknowledge. cbv zeta. rewrite getClient_setClient_eq.
  assert (∀ cl, handed id 1 (getClient c w1) cl → handed id 1 (getClient c w1) (cl <| c_requestID := 0 |>)) as Hreset
    by (intros cl [Hh]; by split). apply Hreset. clear Hreset.
  rewrite (sd_replied _ _ _ Hs), Hf. destruct b; cbn [orb].
  - rewrite decide_False by (intros (_ & ? & _); done). rewrite <- Hr at 1. by apply (sd_handed _ _ _ Hs); rewrite Hr.
  - assert (hasFeature c FeatureRequestID w2 = true) as Hfe2 by (unfold hasFeature; by rewrite (sd_features _ _ _ Hs)).
    rewrite decide_True by done. pose proof (sd_alive _ _ _ Hs Ha) as Ha2.
    pose proof (said_trans false true _ _ _ Hs (reply_answers c w2 MsgTypeAck None Ha2) eq_refl) as Ht.
    rewrite <- Hr at 1. by apply (sd_handed _ _ _ Ht); rewrite Hr.
Qed.

Lemma begin_request_handed id n c w cl :
  handed id n (getClient c (begin_request id c w)) cl → handed id n (getClient c w) cl.
Proof. unfold begin_request. rewrite getClient_setClient_eq. intros [Hh]. by split. Qed.

Lemma handleMessage_handed e at' c data w :
  client_ok (getClient c w) → request_of data ≠ 0 → hasFeature c FeatureRequestID w = true →
  handed (request_of data) 1 (getClient c w) (getClient c (handleMessage e at' c data w)).
Proof.
  intros Hok Hid Hfe. rewrite handleMessage_served. apply begin_request_handed.
  set (w1 := begin_request _ c w). assert (alive (getClient c w1)) as Ha.
  { unfold w1, begin_request. rewrite getClient_setClient_eq. destruct Hok as [(ch & ? & []) ? _ _ _].
    split; [done|]. exists ch. by repeat split. }
  apply acknowledged; try done; [unfold w1, begin_request; by rewrite getClient_setClient_eq..| |by apply spoken_served].
  unfold hasFeature, w1, begin_request in *. by rewrite getClient_setClient_eq.
Qed.
End Requests.
