(* ===== verification/Reachable.v ===== *)
(** Reachable: the server as a state machine, and its invariant.

    Each goroutine of the process takes the steps below: a connection is
    admitted, a message of an open connection is handled, a read pump ends, a
    write pump works, and the periodic workers and the shutdown run.  A step is
    one critical section or one handler; the invariant [world_ok] of [Safety]
    holds after any number of them. *)

From S2P Require Import Prelude Protocol Utf8 Validation UAPolicy World Client Pumps Roster Hosts Playback Limits Identifiers Members Rooms Lifecycle RoomOk Safety Preserve PreserveRooms PreserveLife Server Steady.

#[local] Opaque pickDeputy unseat forget_user.

(** ** The message loop *)

Lemma core_holder w w' c : same_core w w' → holder c w' → holder c w.
Proof.
  intros Hc. unfold holder. rewrite (core_currentRoom _ _ _ Hc), (core_currentPendingRoom _ _ _ Hc).
  destruct (core_calm _ _ Hc c) as [_ Ho]. tauto.
Qed.

Lemma core_fresh_id w w' i : same_core w w' → fresh_id i w → fresh_id i w'.
Proof.
  intros Hc [F1 F2 F3]. split; [done| |].
  - intros d Hd. rewrite (core_clientID _ _ _ Hc). by eapply F2, core_holder.
  - intros r. unfold registered. rewrite (core_getRoom _ _ _ Hc), (core_srv _ _ Hc). apply F3.
Qed.

Lemma core_fresh_token w w' t : same_core w w' → fresh_token t w → fresh_token t w'.
Proof.
  intros Hc [F1 F2 F3]. split; [done|by rewrite (core_srv _ _ Hc)|].
  intros d r. rewrite (core_currentRoom _ _ _ Hc), (core_session _ _ _ Hc). apply F3.
Qed.

(** What the generators of one step may return. *)
Definition fresh_env (e : Env) (w : World) : Prop := fresh_id (e_userID e) w ∧ fresh_token (e_token e) w.

Lemma core_fresh_env e w w' : same_core w w' → fresh_env e w → fresh_env e w'.
Proof. intros Hc [H1 H2]. split; [by eapply core_fresh_id|by eapply core_fresh_token]. Qed.

Section Messages.
Context `{WireFormat, UnicodeTables}.

Lemma handlePing_ok E e at' c payload w : world_ok E w → world_ok E (handlePing e at' c payload w).
Proof.
  intros Hok. unfold handlePing.
  assert (∀ p, world_ok E (queuePong c p w)) as Hq by (intros; by eapply world_core; [apply queuePong_core|]).
  destruct (if decide _ then _ else _) as [p|]; [|by apply error_ok].
  destruct (currentRoom c w) as [r|]; [|auto].
  destruct (decide ((_ ∨ _) ∧ _)); [|auto]. destruct (decide (ping_HasStateHash p = true ∧ _)); [|auto].
  pose proof (allowSyncResponse_ok E w Hok (e_now e) c) as Ha.
  destruct (allowSyncResponse (e_now e) (getClient c w)) as [[] cl]; cbn in Ha.
  - eapply world_core; [etrans; [apply queuePong_core|apply sendMessage_core]|done].
  - by eapply world_core; [apply queuePong_core|].
Qed.

Lemma handleClientCapabilities_core c payload w : same_core w (handleClientCapabilities c payload w).
Proof.
  unfold handleClientCapabilities. destruct (decodePayload _ _ _) as [p|]; [|apply sendError_core].
  repeat (case_decide; [apply sendError_core|]). cbn.
  etrans; [|apply reply_core]. etrans; [|apply setClient_core; intros; by apply calm_quiet].
  apply setClient_core. intros. by apply calm_quiet.
Qed.

Lemma dispatch_spares E e at' c msgType payload w :
  world_ok E w → c_ConnOpen (getClient c w) = true → fresh_env e w →
  spares E w (dispatch e at' c msgType payload w).
Proof.
  intros Hok Ho [Hi Ht]. unfold dispatch.
  assert ((c < w_next w)%nat) as Hlt by (eapply ro_named; [apply Hok|by left]).
  repeat (case_decide; [eauto using ok_spares, handleCreateRoom_ok, handleJoinRoom_ok, leaveRoom_ok, handleApproveJoin_ok,
    handleRejectJoin_ok, handlePlaybackAction_ok, handleBufferReady_ok, handleKickUser_spares, handleTransferHost_ok,
    handlePing_ok, handleRequestSync_ok, handleReconnect_ok, handleSuggestTrack_ok, handleApproveSuggestion_ok,
    handleRejectSuggestion_ok, world_core, handleClientCapabilities_core|]).
  by apply ok_spares, error_ok.
Qed.

Lemma acknowledge_core id c w : same_core w (acknowledge id c w).
Proof.
  unfold acknowledge. etrans; [|apply setClient_core; intros; by apply calm_quiet].
  case_decide; [apply reply_core|done].
Qed.

Lemma handleMessage_spares E e at' c data w :
  world_ok E w → c_ConnOpen (getClient c w) = true → fresh_env e w →
  spares E w (handleMessage e at' c data w).
Proof.
  intros Hok Ho Hf. unfold handleMessage.
  assert (∀ id, same_core w (begin_request id c w)) as Hb
    by (intros; apply setClient_core; intros; by apply calm_quiet).
  destruct (decodeProtobuf data) as [[[msgType payload] id]|[id big]]; (eapply spares_core; [apply acknowledge_core|]).
  - case_decide; [apply ok_spares, error_ok; eauto using world_core|]. eapply spares_before; [apply Hb|].
    apply dispatch_spares; [eauto using world_core| |eauto using core_fresh_env].
    unfold begin_request. by rewrite getClient_setClient_eq.
  - destruct big; apply ok_spares, error_ok; eauto using world_core.
Qed.

Lemma calm_allowMessage now cl :
  ident (allowMessage now cl).2 = ident cl ∧
  (c_ConnOpen (allowMessage now cl).2, c_closed (allowMessage now cl).2) = (c_ConnOpen cl, c_closed cl).
Proof. unfold allowMessage. by repeat case_decide. Qed.

Lemma set_core c (f : Client → Client) w :
  ident (f (getClient c w)) = ident (getClient c w) →
  (c_ConnOpen (f (getClient c w)), c_closed (f (getClient c w))) =
    (c_ConnOpen (getClient c w), c_closed (getClient c w)) →
  same_core w (setClient c f w).
Proof.
  intros Hi [= Ho Hcl]. split; try done. intros d. rewrite getClient_setClient. case_decide; [subst|done].
  apply calm_quiet; congruence.
Qed.

Lemma shouldNotify_core c w : same_core w (setClient c (λ _, (shouldNotifyRateLimit (getClient c w)).2) w).
Proof. apply set_core; unfold shouldNotifyRateLimit; by destruct (c_rateLimitNotified _). Qed.

Lemma receive_spares E e at' c data w :
  world_ok E w → c_ConnOpen (getClient c w) = true → fresh_env e w → spares E w (receive e at' c data w).
Proof.
  intros Hok Ho Hf. unfold receive. pose proof (calm_allowMessage (e_now e) (getClient c w)) as [Hi Hc].
  destruct (allowMessage (e_now e) (getClient c w)) as [ok cl]. cbn in Hi, Hc.
  assert (same_core w (setClient c (λ _, cl) w)) as Hcore by by apply set_core.
  destruct ok.
  - eapply spares_before; [exact Hcore|]. apply handleMessage_spares; [by eapply world_core| |by eapply core_fresh_env].
    rewrite getClient_setClient_eq. congruence.
  - apply ok_spares. pose proof (shouldNotify_core c (setClient c (λ _, cl) w)) as Hn.
    destruct (shouldNotifyRateLimit _) as [notify cl']. cbn [snd] in Hn.
    assert (world_ok E (setClient c (λ _, cl') (setClient c (λ _, cl) w))) as Hok'
      by (eapply world_core; [exact Hn|by eapply world_core]).
    destruct notify; [by apply error_ok|done].
Qed.

Lemma receive_ok e at' c data w :
  world_ok ∅ w → c_ConnOpen (getClient c w) = true → fresh_env e w → world_ok ∅ (receive e at' c data w).
Proof. intros. by eapply spares_empty, receive_spares. Qed.

Lemma hang_up_ok E e c w : world_ok E w → world_ok E (hang_up e c w).
Proof.
  intros Hok. unfold hang_up. pose proof (removeClient_ok E e w c Hok) as Hok'. unfold closeConn in Hok'.
  destruct (c_connectionSlot _); [|done]. apply world_server; [done|].
  unfold releaseSource, releaseConnectionSlot. by case_decide.
Qed.

End Messages.

(** ** Connections *)

Section Connections.
Context `{WireFormat, UnicodeTables}.

(** A connection is a new client nobody has seen. *)
Lemma admitted_ok E w cl f :
  let c := w_next w in
  world_ok E w → fresh_id (c_id cl) w → c_room cl = None → c_pendingRoom cl = None →
  (rooms (f (w_srv w)), sessions (f (w_srv w))) = (rooms (w_srv w), sessions (w_srv w)) →
  world_ok E (w <| w_next := S c |> <| w_clients := <[c := cl]> (w_clients w) |> <| w_srv ::= f |>).
Proof.
  intros c Hok Hf Hr Hp Hix. pose proof Hok as [Hro Hrooms].
  assert (¬ holder c w) as Hnh by (intros Hh%(ro_named _ _ Hro); lia).
  set (w' := update_field _ _).
  assert (∀ d, getClient d w' = if decide (d = c) then cl else getClient d w) as Hgc.
  { intros d. unfold w', getClient. cbn. destruct (decide (d = c)) as [->|];
      [apply lookup_total_insert_eq|by apply lookup_total_insert_ne]. }
  assert (stable w w') as Hst.
  { split; intros x Hx; [rewrite Hgc, decide_False; [done|lia]|done..]. }
  apply (world_moved E E w w' (w_next w)); [done|done| |..].
  - eapply (roster_rename E w w' c (w_next w) Hro Hix (c_id cl) (c_sessionToken cl)).
    + apply eq_None_not_Some. intros Hx. apply Hnh. by right; left.
    + apply eq_None_not_Some. intros Hx. apply Hnh. by right; right.
    + cbn. lia.
    + done.
    + split; [intros d; rewrite Hgc; case_decide; [by unfold place; rewrite Hr, Hp|done]
        |intros d ?; by rewrite Hgc, decide_False|intros x; by case_decide; subst|done|cbn; lia].
  - intros x _. unfold registered. injection Hix as Hri _. unfold w'. cbn. by rewrite Hri.
  - intros Hold Hreg. apply Hold. unfold registered in *. injection Hix as Hri _. unfold w' in Hreg. cbn in Hreg.
    by rewrite Hri in Hreg.
Qed.

Lemma releaseSource_same source s s' :
  sources s = sources s' → sources (releaseSource source s) = sources (releaseSource source s').
Proof. intros Hs. unfold releaseSource, source_count. rewrite Hs. by case_decide. Qed.

(** Giving back a source and a slot that were just taken. *)
Lemma released_gate source s s1 s2 :
  sources_ok s → acquireSource source s = (true, s1) → sources s2 = sources s1 →
  (clients s2, connectionSlots s2, pumps s2, shuttingDown s2, persisted s2) =
    (clients s, connectionSlots s, pumps s, shuttingDown s, persisted s) →
  gate (releaseSource source s2) = gate s.
Proof.
  intros Hok Ha Hs [= H1 H2 H3 H4 H5].
  assert (sources (releaseSource source s2) = sources s) as Hsrc.
  { rewrite (releaseSource_same _ s2 s1) by done. by apply acquire_release. }
  unfold gate. rewrite Hsrc. unfold releaseSource. case_decide; cbn; congruence.
Qed.

(** A connection attempt either leaves the accounts as they were or admits a
    new client. *)
Lemma handleWebSocket_cases e rq up w a w' :
  sources_ok (w_srv w) → handleWebSocket e rq up w = (a, w') →
  (∃ srv, w' = setServer (λ _, srv) w ∧ gate srv = gate (w_srv w) ∧
    (rooms srv, sessions srv) = (rooms (w_srv w), sessions (w_srv w)) ∧ ∀ c, a ≠ Accepted c) ∨
  (∃ cl srv,
    a = Accepted (w_next w) ∧ shuttingDown (w_srv w) = false ∧
    w' = w <| w_next := S (w_next w) |> <| w_clients := <[w_next w := cl]> (w_clients w) |> <| w_srv ::= λ _, srv |> ∧
    cl = (newClient (e_userID e)) <| c_uaTier := resolve (Some (srv_uaPolicy (w_srv w))) (rq_UserAgent rq) |>
      <| c_policy := Some (srv_uaPolicy (w_srv w)) |> <| c_source := requestSource rq |> <| c_connectionSlot := true |> ∧
    c_uaTier cl ≠ uaBlock ∧ connectionSlots (w_srv w) < MaxClients ∧ client_count (w_srv w) < MaxClients ∧
    source_count (requestSource rq) (w_srv w) < MaxConnectionsPerSource ∧
    (rooms srv, sessions srv) = (rooms (w_srv w), sessions (w_srv w)) ∧
    gate srv = ({[w_next w]} ∪ clients (w_srv w), connectionSlots (w_srv w) + 1,
      <[requestSource rq := source_count (requestSource rq) (w_srv w) + 1]> (sources (w_srv w)),
      pumps (w_srv w) + 1, false, persisted (w_srv w))).
Proof.
  intros Hso. unfold handleWebSocket. case_decide as Hsd.
  { intros [= <- <-]. left. exists (w_srv w). by destruct w. }
  case_decide as Hcc; [intros [= <- <-]; left; exists (w_srv w); by destruct w|].
  set (src := requestSource rq). destruct (acquireSource src (w_srv w)) as [ok srv1] eqn:Ha.
  case_decide; [intros [= <- <-]; left; exists (w_srv w); by destruct w|]. destruct ok; [|done].
  assert (source_count src (w_srv w) < MaxConnectionsPerSource ∧
    srv1 = (w_srv w) <| sources := <[src := source_count src (w_srv w) + 1]> (sources (w_srv w)) |>) as [Hlt Hsrv1].
  { unfold acquireSource in Ha. case_decide; [done|]. injection Ha as <-. split; [lia|done]. }
  assert (∀ srv2 a' : _, sources srv2 = sources srv1 → (∀ c, a' ≠ Accepted c) →
    (clients srv2, connectionSlots srv2, pumps srv2, shuttingDown srv2, persisted srv2) =
      (clients (w_srv w), connectionSlots (w_srv w), pumps (w_srv w), shuttingDown (w_srv w), persisted (w_srv w)) →
    (rooms srv2, sessions srv2) = (rooms (w_srv w), sessions (w_srv w)) →
    (a', setServer (λ _, releaseSource src srv2) w) = (a, w') →
    ∃ srv, w' = setServer (λ _, srv) w ∧ gate srv = gate (w_srv w) ∧
      (rooms srv, sessions srv) = (rooms (w_srv w), sessions (w_srv w)) ∧ ∀ c, a ≠ Accepted c) as Hrel.
  { intros srv2 a' Hs Hn Hg Hrs [= <- <-]. eexists. split_and!; [done|by eapply released_gate| |done].
    rewrite <- Hrs. unfold releaseSource. by case_decide. }
  unfold tryAcquireConnectionSlot. case_decide as Hsl; cbv beta iota zeta;
    [|rewrite decide_True by done; intros Heq; left; by eapply Hrel; [..|exact Heq]; subst srv1].
  rewrite decide_False by done.
  assert (∀ n, (rooms (srv1 <| connectionSlots := n |>), sessions (srv1 <| connectionSlots := n |>)) =
    (rooms (w_srv w), sessions (w_srv w))) as Hrs by by subst srv1.
  destruct (decide (up = false)); [|destruct (decide (resolve _ _ = uaBlock)) as [|Hblock];
    [|destruct (decide (MaxClients ≤ _ ∨ _)) as [|Hlate]]].
  1-3: intros Heq; left; eapply Hrel; [..|exact Heq]; subst srv1; cbn; try done; do 4 f_equal; lia.
  intros [= <- <-]. right. do 2 eexists. subst srv1. cbn in *.
  split_and!; try done; try lia; [by destruct (shuttingDown (w_srv w))|].
  unfold gate. cbn. by destruct (shuttingDown (w_srv w)).
Qed.

End Connections.

(** ** The accounts of connections *)

Definition from_source (source : string) (w : World) : gset ClientRef :=
  filter (λ c, c_source (getClient c w) = source) (clients (w_srv w)).

Record accounts_ok (w : World) : Prop := {
  ac_client c : c ∈ clients (w_srv w) →
    (c < w_next w)%nat ∧ c_connectionSlot (getClient c w) = true ∧ client_ok (getClient c w) ∧
    c_uaTier (getClient c w) ≠ uaBlock;
  ac_slots : connectionSlots (w_srv w) = client_count (w_srv w);
  ac_pumps : pumps (w_srv w) = client_count (w_srv w);
  ac_max : client_count (w_srv w) ≤ MaxClients;
  ac_sources source : source_count source (w_srv w) = Z.of_nat (size (from_source source w));
  ac_sources_ok : sources_ok (w_srv w)
}.

Lemma gate_eqs s s' :
  gate s' = gate s → clients s' = clients s ∧ connectionSlots s' = connectionSlots s ∧ sources s' = sources s ∧
  pumps s' = pumps s ∧ shuttingDown s' = shuttingDown s ∧ persisted s' = persisted s.
Proof. unfold gate. intros [= H1 H2 H3 H4 H5 H6]. by split_and!. Qed.

Lemma steady_accounts w w' : steady w w' → accounts_ok w → accounts_ok w'.
Proof.
  intros [Hk Hg Hn] [A1 A2 A3 A4 A5 A6]. destruct (gate_eqs _ _ Hg) as (G1 & G2 & G3 & G4 & G5 & _).
  assert (∀ c, gate_of (getClient c w') = gate_of (getClient c w)) as Hgc by (intros c; apply Hk).
  assert (∀ src, from_source src w' = from_source src w) as Hf.
  { intros src. unfold from_source. rewrite G1. apply set_eq. intros c. rewrite !elem_of_filter.
    specialize (Hgc c). unfold gate_of in Hgc. injection Hgc as -> _ _ _. done. }
  split; unfold client_count, sources_ok, source_count in *; rewrite ?G1, ?G2, ?G3, ?G4; try done.
  - intros c Hc. destruct (A1 c Hc) as (B1 & B2 & B3 & B4). specialize (Hgc c). unfold gate_of in Hgc.
    injection Hgc as _ H2 H3 _. split_and!; [lia|congruence|by apply Hk|congruence].
  - intros src. rewrite Hf. apply A5.
Qed.

Lemma connect_accounts `{WireFormat, UnicodeTables} e rq up w a w' :
  handleWebSocket e rq up w = (a, w') → accounts_ok w → accounts_ok w'.
Proof.
  intros Hh Hac. pose proof Hac as [A1 A2 A3 A4 A5 A6].
  destruct (handleWebSocket_cases e rq up w a w' A6 Hh) as
    [(srv & -> & Hg & _ & _)|(cl & srv & _ & _ & -> & -> & Hb & H1 & H2 & H3 & _ & Hg)].
  { eapply steady_accounts; [|done]. split; [done|done|done]. }
  unfold gate in Hg. injection Hg as G1 G2 G3 G4 G5 _.
  set (w' := update_field _ _). set (cl := update_field _ _ : Client) in *. set (src := requestSource rq) in *.
  assert (∀ d, getClient d w' = if decide (d = w_next w) then cl else getClient d w) as Hgc.
  { intros d. unfold w', getClient. cbn. destruct (decide (d = w_next w)) as [->|];
      [apply lookup_total_insert_eq|by apply lookup_total_insert_ne]. }
  assert (w_next w ∉ clients (w_srv w)) as Hnew by (intros (? & _)%A1; lia).
  assert (client_count (w_srv w') = client_count (w_srv w) + 1) as Hcount.
  { unfold client_count. cbn. rewrite G1, size_union, size_singleton by set_solver. lia. }
  assert (∀ x, from_source x w' = (if decide (x = src) then {[w_next w]} else ∅) ∪ from_source x w) as Hf.
  { intros x. apply set_eq. intros d. unfold from_source.
    rewrite elem_of_union, !elem_of_filter, Hgc. unfold w'. cbn. rewrite G1, elem_of_union, elem_of_singleton.
    destruct (decide (d = w_next w)) as [->|]; repeat case_decide; set_solver. }
  split; rewrite ?Hcount; [| | |lia| |]; cbn -[client_count]; rewrite ?G1, ?G2, ?G4; [|lia|lia| |].
  - intros c. rewrite elem_of_union, elem_of_singleton, Hgc. case_decide; [intros _; subst|intros [?|Hc]; [done|]].
    + split_and!; [lia|done| |done]. split; try done; [|cbn; lia].
      destruct (newClient_send_ok (e_userID e)) as (ch & Hch & []). exists ch. split; [done|by split].
    + destruct (A1 c Hc) as (B1 & B2 & B3 & B4). split_and!; [lia|done..].
  - intros x. unfold source_count. rewrite G3, lookup_insert, Hf. destruct (decide (src = x)) as [<-|].
    + rewrite (decide_True (P := src = src)), size_union, size_singleton, A5 by
        (done || (unfold from_source; set_solver)). cbn. lia.
    + rewrite decide_False by done. rewrite (union_empty_l_L (from_source x w)). apply A5.
  - unfold sources_ok. rewrite G3. pose proof (source_count_range src _ A6).
    apply map_Forall_insert_2; [lia|done].
Qed.

Lemma w_srv_setServer h w : w_srv (setServer h w) = h (w_srv w).
Proof. done. Qed.

Section HangingUp.
Context `{WireFormat, UnicodeTables}.

Lemma removeClient_steady e c w :
  steady (setServer (λ srv, srv <| clients := clients srv ∖ {[c]} |>) w) (removeClient e c w).
Proof.
  unfold removeClient. set (w0 := setServer _ w).
  assert (steady w0 (setClient c closeSend w0)) as Hs
    by (apply steady_setClient; [intros; apply kept_closeSendWith|done]).
  destruct (currentRoom c (setClient c closeSend w0)); [by apply steady_disconnect|].
  assert (steady w0 (removePendingJoin c (setClient c closeSend w0))) by by apply steady_removePendingJoin.
  case_match; [by apply steady_disconnect|done].
Qed.

Lemma hang_up_accounts e c w : c ∈ clients (w_srv w) → accounts_ok w → accounts_ok (hang_up e c w).
Proof.
  intros Hc [A1 A2 A3 A4 A5 A6]. unfold hang_up. set (w0 := setServer (λ srv, srv <| clients := clients srv ∖ {[c]} |>) w).
  set (w1 := setClient c _ (removeClient e c w)).
  assert (steady w0 w1) as [Hk Hg Hn] by (apply steady_assign; [done|apply removeClient_steady]).
  destruct (gate_eqs _ _ Hg) as (G1 & G2 & G3 & G4 & _). cbn in G1, G2, G3, G4.
  assert (∀ d, gate_of (getClient d w1) = gate_of (getClient d w)) as Hgc by (intros d; apply Hk).
  destruct (A1 c Hc) as (_ & Hslot & _ & _).
  assert (c_connectionSlot (getClient c w1) = true ∧ c_source (getClient c w1) = c_source (getClient c w)) as [-> ->].
  { specialize (Hgc c). unfold gate_of in Hgc. injection Hgc as H1 H2 _ _. split; congruence. }
  set (src := c_source (getClient c w)).
  set (h := λ srv : Server, releaseSource _ _).
  assert (clients (h (w_srv w1)) = clients (w_srv w) ∖ {[c]} ∧
    connectionSlots (h (w_srv w1)) = connectionSlots (w_srv w) - 1 ∧ pumps (h (w_srv w1)) = pumps (w_srv w) - 1) as (H1 & H2 & H3).
  { unfold h, releaseSource. case_decide; cbn; rewrite G1, G2, G4; done. }
  assert (sources_ok (w_srv w1)) as Hso by (unfold sources_ok; cbn; by rewrite G3).
  assert (∀ x, source_count x (w_srv w1) = source_count x (w_srv w)) as Hsc by (intros; unfold source_count; cbn; by rewrite G3).
  assert (∀ x, from_source x w = (if decide (x = src) then {[c]} else ∅) ∪ from_source x (setServer h w1)) as Hf.
  { intros x. apply set_eq. intros d. unfold from_source.
    rewrite elem_of_union, !elem_of_filter, w_srv_setServer, H1, elem_of_difference, elem_of_singleton.
    change (getClient d (setServer h w1)) with (getClient d w1).
    specialize (Hgc d). unfold gate_of in Hgc. injection Hgc as -> _ _ _.
    destruct (decide (d = c)) as [->|]; case_decide; set_solver. }
  assert (∀ x, c ∉ from_source x (setServer h w1)) as Hnc by (intros x; unfold from_source; cbn; set_solver).
  assert (1 ≤ source_count src (w_srv w1)) as Hpos.
  { rewrite Hsc, A5, Hf, decide_True, size_union, size_singleton by (done || set_solver). lia. }
  assert (client_count (w_srv (setServer h w1)) = client_count (w_srv w) - 1) as Hcount.
  { unfold client_count. rewrite w_srv_setServer, H1, size_difference, size_singleton by set_solver.
    assert (size (clients (w_srv w)) ≠ 0%nat) by (intros ?%size_empty_inv; set_solver). lia. }
  split; rewrite ?Hcount, ?w_srv_setServer; [|lia|lia|lia| |].
  - rewrite H1. intros d [Hd _]%elem_of_difference. rewrite getClient_setServer. destruct (A1 d Hd) as (B1 & B2 & B3 & B4).
    specialize (Hgc d). unfold gate_of in Hgc. injection Hgc as _ E2 E3 _.
    split_and!; [cbn in *; lia|congruence|by apply (Hk d)|congruence].
  - intros x. unfold h. rewrite releaseSource_count by done. change (source_count x _) with (source_count x (w_srv w1)).
    rewrite Hsc, A5, Hf. destruct (decide (src = x)) as [<-|].
    + rewrite decide_True, size_union, size_singleton by (done || set_solver). fold h. lia.
    + rewrite decide_False by done. rewrite (union_empty_l_L (from_source x _)). fold h. lia.
  - unfold h. by apply releaseSource_ok.
Qed.

End HangingUp.

(** ** The state machine *)

Section Machine.
Context `{WireFormat, UnicodeTables}.

(** A connection between the two critical sections of a reconnection: it has
    claimed session [s] with token [t] and waits for the room.  Its read pump
    does nothing else meanwhile, so it stays in no room; the token leads to the
    session until somebody removes it, and the session keeps its flags. *)
Record reconnecting (c : ClientRef) (t : string) (s : SessionRef) (w : World) : Prop := {
  rc_client : c ∈ clients (w_srv w) ∧ c_ConnOpen (getClient c w) = true;
  rc_idle : currentRoom c w = None ∧ currentPendingRoom c w = None;
  rc_token : t ≠ "" ∧ ∀ s', sessions (w_srv w) !! t = Some s' → s' = s;
  rc_claimed : se_claimed (getSession s w) = true;
  rc_host : se_IsHost (getSession s w) = true → canHostClient c w
}.

(** What the process does besides expiring sessions.  A read pump handles
    messages of its connection while that is open and ends once; the identifiers
    a step draws are text (as [generated_utf8] of Identifiers shows of the
    generators) and new, also to those in [taken]. *)
Inductive event (taken : gset string) : World → World → Prop :=
  | step_connect e rq upgraded w a w' :
      utf8_env e → fresh_id (e_userID e) w → e_userID e ∉ taken → handleWebSocket e rq upgraded w = (a, w') →
      event taken w w'
  | step_receive e receivedAt c data w :
      c ∈ clients (w_srv w) → c_ConnOpen (getClient c w) = true → utf8_env e → fresh_env e w → e_userID e ∉ taken →
      event taken w (receive e receivedAt c data w)
  | step_replace e c t w : c ∈ clients (w_srv w) → utf8_env e → event taken w (replaceLiveSession e c t w).2
  | step_claim e c t s w w' : claim e c t w = (inr s, w') → event taken w w'
  | step_resume e c t s w : reconnecting c t s w → event taken w (finish_reconnect e c t s w)
  | step_hang_up e c w : c ∈ clients (w_srv w) → utf8_env e → event taken w (hang_up e c w)
  | step_write c frames cl w : writePump (getClient c w) frames cl → event taken w (setClient c (λ _, cl) w)
  | step_pong nowNano c w : event taken w (setClient c (pongHandler nowNano) w)
  | step_lost c w : event taken w (setClient c (λ cl, cl <| c_ConnOpen := false |>) w)
  | step_empty now w : event taken w (cleanupEmptyRoomsOnce now w)
  | step_failover now w : event taken w (failoverHostsOnce now w)
  | step_policy policy w : event taken w (setServer (SetUAPolicy policy) w)
  | step_restart w : event taken w (announceRestart w)
  | step_drain w : event taken w (drainClients w)
  | step_close_all w : event taken w (closeAllClients w)
  | step_stop w : event taken w (setServer Close w).

(** Steps of the process, with a round of expiry in one. *)
Inductive step : World → World → Prop :=
  | step_event w w' : event ∅ w w' → step w w'
  | step_expire now w : step w (cleanupExpiredSessionsOnce now w).

Definition start (now : Time) : World := mkWorld ∅ ∅ ∅ 0 (NewServer now).
Definition reachable (now : Time) (w : World) : Prop := rtc step (start now) w.

(** A claim that succeeds leaves its connection reconnecting. *)
Lemma claim_reconnecting e c t s w w' :
  c ∈ clients (w_srv w) → c_ConnOpen (getClient c w) = true → currentRoom c w = None → currentPendingRoom c w = None →
  t ≠ "" → claim e c t w = (inr s, w') → reconnecting c t s w'.
Proof.
  intros Hc Ho Hr Hp Ht Hcl. pose proof (claim_cases e c t w) as Hcs. rewrite Hcl in Hcs. destruct Hcs as (Hs & -> & Hh).
  split; try done.
  - split; [done|]. intros s'. rewrite srv_setSession. congruence.
  - by rewrite getSession_setSession_eq.
  - rewrite getSession_setSession_eq. exact Hh.
Qed.

(** *** Steps of one connection *)

Lemma writePump_calm cl fs cl' : writePump cl fs cl' → calm cl cl' ∧ kept cl cl'.
Proof.
  intros Hw. pose proof (writePump_send_ok _ _ _ Hw) as Hs.
  assert (calm cl cl' ∧ (c_codec cl', c_rateMessageCount cl', gate_of cl') = (c_codec cl, c_rateMessageCount cl, gate_of cl)
    ∧ (length (default [] (c_pongs cl')) ≤ length (default [] (c_pongs cl)))%nat) as (Hc & Hg & Hp).
  { assert (∀ cl fs cl', writePriority cl fs cl' → (ident cl', c_ConnOpen cl', c_closed cl', c_codec cl', c_rateMessageCount cl', gate_of cl') =
        (ident cl, c_ConnOpen cl, c_closed cl, c_codec cl, c_rateMessageCount cl, gate_of cl) ∧
        (length (default [] (c_pongs cl')) ≤ length (default [] (c_pongs cl)))%nat) as Hpr.
    { clear. induction 1 as [|cl cl' nowMs pong rest fs Hp _ [-> IH]|cl cl' nowNano fs _ [-> IH]]; [done|..|done].
      split; [done|]. rewrite Hp. cbn in *. lia. }
    destruct Hw as [cl nowMs pong rest Hp|cl nowNano|cl cl1 cl2 fs msg Hw Hn|cl cl1 fs ch Hw _ _ _].
    - split_and!; [by apply calm_quiet|done|]. rewrite Hp. cbn. lia.
    - split_and!; [by apply calm_quiet|done|done].
    - destruct (Hpr _ _ _ Hw) as [[= ] ?]. unfold writeNext in Hn. destruct (c_Send cl1) as [ch|]; [|done].
      destruct (ch_buf ch); [done|]. injection Hn as _ <-. unfold gate_of, ident in *.
      split_and!; [apply calm_quiet; [unfold ident; cbn; congruence|cbn; congruence|intros ?; cbn; congruence]|cbn; congruence|done].
    - destruct (Hpr _ _ _ Hw) as [[= ] ?]. unfold gate_of, ident in *.
      split_and!; [split; [unfold ident; cbn; congruence|done|cbn; congruence]|cbn; congruence|done]. }
  split; [done|]. injection Hg as G1 G2 G3 G4 G5 G6. split; [unfold gate_of; congruence|].
  intros []. split; [auto|congruence|congruence|lia|congruence].
Qed.

(** *** Steps over all connections *)

Lemma foldl_clients_core (f : World → ClientRef → World) l w :
  (∀ w c, same_core w (f w c)) → same_core w (foldl f w l).
Proof. apply foldl_core. Qed.

Lemma announceRestart_core w :
  same_core (setServer (λ srv, srv <| shuttingDown := true |>) w) (announceRestart w) ∧
  steady (setServer (λ srv, srv <| shuttingDown := true |>) w) (announceRestart w).
Proof.
  unfold announceRestart. split; [apply foldl_core|apply steady_foldl; [|done]]; intros W c; intros; case_match;
    [apply sendMessage_core|done|by apply steady_sendMessage|done].
Qed.

Lemma drainClients_core w : same_core w (drainClients w) ∧ steady w (drainClients w).
Proof.
  unfold drainClients. split; [apply foldl_core|apply steady_foldl; [|done]]; intros.
  - apply setClient_core. intros. apply calm_closeSendWith.
  - apply steady_setClient; [intros; apply kept_closeSendWith|done].
Qed.

Lemma closeAllClients_core w : same_core w (closeAllClients w) ∧ steady w (closeAllClients w).
Proof.
  unfold closeAllClients. split; [apply foldl_core|apply steady_foldl; [|done]]; intros.
  - apply setClient_core. intros cl. etrans; [|apply calm_closeSendWith]. by split.
  - apply steady_setClient; [|done]. intros cl. etrans; [|apply kept_closeSendWith]. by apply kept_wiring.
Qed.

Lemma server_accounts f w :
  accounts_ok w →
  (clients (f (w_srv w)), connectionSlots (f (w_srv w)), sources (f (w_srv w)), pumps (f (w_srv w))) =
    (clients (w_srv w), connectionSlots (w_srv w), sources (w_srv w), pumps (w_srv w)) →
  accounts_ok (setServer f w).
Proof.
  intros [A1 A2 A3 A4 A5 A6] [= E1 E2 E3 E4].
  split; unfold client_count, sources_ok, source_count, from_source in *; rewrite ?w_srv_setServer, ?E1, ?E2, ?E3, ?E4; done.
Qed.

(** ** The invariant *)

Definition invariant (w : World) : Prop := world_ok ∅ w ∧ accounts_ok w.

(** Events keep the books and, up to those the host puts out, the seats of the
    sessions that wait to be expired. *)
Lemma event_spares E taken w w' : event taken w w' → world_ok E w → accounts_ok w → spares E w w' ∧ accounts_ok w'.
Proof.
  intros Hstep Hok Hac.
  assert (∀ W W', world_ok E W → accounts_ok W → same_core W W' → steady W W' → world_ok E W' ∧ accounts_ok W') as Hquiet.
  { intros W W' ? ? Hc Hs. split; [by eapply world_core|by eapply steady_accounts]. }
  destruct Hstep as [e rq up w a w' _ Hf _ Hh|e at' c data w Hc Ho _ Hf _|e c t w Hc _|e c t s w w' Hcl|e c t s w Hrc|e c w Hc _|c fs cl w Hw|nano c w|c w|now w|now w
    |pol w|w|w|w|w];
    match goal with |- spares _ _ (receive _ _ _ _ _) ∧ _ => idtac | |- spares E ?W ?W' ∧ ?A => enough (world_ok E W' ∧ A) as [? ?]
      by (split; [by apply ok_spares|done]) end.
  - split; [|by eapply connect_accounts].
    destruct (handleWebSocket_cases e rq up w a w' (ac_sources_ok _ Hac) Hh) as
      [(srv & -> & _ & Hrs & _)|(cl & srv & _ & _ & -> & -> & _ & _ & _ & _ & Hrs & _)]; [by apply world_server|].
    by apply (admitted_ok E w _ (λ _, srv)).
  - split; [by apply receive_spares|]. eapply steady_accounts; [apply steady_receive|done].
  - split; [by apply replaceLiveSession_ok|]. eapply steady_accounts; [by apply steady_replaceLive|done].
  - pose proof (claim_cases e c t w) as Hcs. rewrite Hcl in Hcs. destruct Hcs as (_ & -> & _).
    split; [by apply claimed_ok|]. eapply steady_accounts; [by apply steady_setSession|done].
  - destruct Hrc as [[Hc _] [Hi1 Hi2] [Ht1 Ht2] _ Hh]. destruct (ac_client _ Hac c Hc) as [Hlt _].
    split; [by apply finish_reconnect_ok|]. eapply steady_accounts; [by apply steady_finish|done].
  - split; [by apply hang_up_ok|by apply hang_up_accounts].
  - destruct (writePump_calm _ _ _ Hw) as [Hcalm Hkept]. apply (Hquiet w); [done|done| |].
    + split; try done. intros d. rewrite getClient_setClient. by case_decide; subst.
    + by apply steady_replace.
  - apply (Hquiet w); [done|done|..].
    + apply setClient_core. intros cl. unfold pongHandler. repeat case_decide; by apply calm_quiet.
    + apply steady_setClient; [|done]. intros cl. unfold pongHandler. repeat case_decide; by apply kept_wiring.
  - apply (Hquiet w); [done|done|..].
    + apply setClient_core. by split.
    + apply steady_setClient; [|done]. intros cl. by apply kept_wiring.
  - split; [by apply cleanupEmptyRoomsOnce_ok|]. eapply steady_accounts; [apply steady_cleanupEmpty|done].
  - split; [by apply failoverHostsOnce_ok|]. eapply steady_accounts; [apply steady_failover|done].
  - split; [by apply world_server|by apply server_accounts].
  - destruct (announceRestart_core w) as [Hc Hs]. eapply Hquiet; [| |exact Hc|exact Hs]; [by apply world_server|by apply server_accounts].
  - destruct (drainClients_core w) as [Hc Hs]. by apply (Hquiet w).
  - destruct (closeAllClients_core w) as [Hc Hs]. by apply (Hquiet w).
  - split; [by apply world_server|by apply server_accounts].
Qed.

Lemma step_invariant w w' : step w w' → invariant w → invariant w'.
Proof.
  intros [W W' He|now W] [Hok Hac].
  - destruct (event_spares ∅ ∅ W W' He Hok Hac) as [Hs ?]. split; [by eapply spares_empty|done].
  - split; [by apply cleanupExpiredSessionsOnce_ok|]. eapply steady_accounts; [apply steady_cleanupExpired|done].
Qed.

Lemma start_invariant now : invariant (start now).
Proof.
  assert (∀ c, getClient c (start now) = zero_client) as Hc
    by (intros; unfold getClient; cbn; by rewrite lookup_total_empty).
  assert (∀ k, rooms (w_srv (start now)) !! k = None) as Hno by (intros; apply lookup_empty).
  assert (∀ k, sessions (w_srv (start now)) !! k = None) as Hns by (intros; apply lookup_empty).
  assert (∀ r, ¬ registered r (start now)) as Hr by (intros r; unfold registered; by rewrite Hno).
  assert (∀ c, ¬ holder c (start now)) as Hh.
  { intros c. unfold holder, currentRoom, currentPendingRoom. rewrite Hc. cbn. intros [?|[[? ?]|[? ?]]]; done. }
  assert (∀ c r, currentRoom c (start now) ≠ Some r) as Hcr.
  { intros c r Hx. apply (Hh c). right; left. by rewrite Hx. }
  assert (∀ c r, currentPendingRoom c (start now) ≠ Some r) as Hpr.
  { intros c r Hx. apply (Hh c). right; right. by rewrite Hx. }
  assert (∀ s, ¬ indexed ∅ s (start now)) as Hix.
  { intros s [?%elem_of_empty|[t Ht]]; [done|]. by rewrite Hns in Ht. }
  split.
  - split; [split|..]; intros *;
      try first [by rewrite Hno|by intros ?%Hr|by intros ?%Hcr|by intros ?%Hpr|by intros ?%Hh|by rewrite Hns].
    split; intros *; [by intros ?%Hr|by intros ?%Hix|by rewrite Hns|by intros ?%Hix|by intros ?%Hr|by intros ?%Hr].
  - by split.
Qed.

Lemma reachable_invariant now w : reachable now w → invariant w.
Proof.
  unfold reachable. intros Hr. assert (invariant (start now)) as Hs by apply start_invariant. revert Hs.
  induction Hr as [|w1 w2 w3 Hst _ IH]; [done|]. intros Hi. apply IH. by eapply step_invariant.
Qed.

End Machine.
