(* ===== verification/Scenario.v ===== *)
(** Scenario: a short concrete run, the common ground of the witnesses.

    A stand-in for the wire format (the bytes of a message name its type and
    payload), and a run of the state machine with it: Ann connects and creates a
    room, Bob connects, applies and is approved, Cid applies, Bob suggests a
    track, and Bob's connection ends.  Every world of the run is computed. *)

From S2P Require Import Prelude Protocol Utf8 Validation UAPolicy World Client Pumps Roster Hosts Playback Limits Identifiers Members Rooms Lifecycle RoomOk Safety Server Steady Reachable.

Definition song (id : string) : TrackInfo := mkTrackInfo id "Song" "Artist" "" 180000 "" "".

(** Payloads by message type and bytes. *)
Definition toy_payload (msgType payload : string) : option Payload :=
  if decide (msgType = MsgTypeCreateRoom) then Some (PCreateRoom (mkCreateRoomPayload payload))
  else if decide (msgType = MsgTypeJoinRoom) then Some (PJoinRoom (mkJoinRoomPayload "AB12CD34" payload))
  else if decide (msgType = MsgTypeApproveJoin) then Some (PApproveJoin (mkApproveJoinPayload payload))
  else if decide (msgType = MsgTypeKickUser) then Some (PKickUser (mkKickUserPayload payload ""))
  else if decide (msgType = MsgTypeTransferHost) then Some (PTransferHost (mkTransferHostPayload payload))
  else if decide (msgType = MsgTypeReconnect) then Some (PReconnect (mkReconnectPayload payload))
  else if decide (msgType = MsgTypeSuggestTrack) then Some (PSuggestTrack (mkSuggestTrackPayload (Some (song payload))))
  else if decide (msgType = MsgTypeApproveSuggestion)
  then Some (PApproveSuggestion (mkApproveSuggestionPayload payload))
  else if decide (msgType = MsgTypePlaybackAction)
  then Some (PPlaybackAction (zero_action <| pa_Action := ActionChangeTrack |> <| pa_TrackInfo := Some (song payload) |>))
  else if decide (msgType = MsgTypeClientCapabilities)
  then Some (PClientCapabilities (mkClientCapabilitiesPayload true false "" [payload]))
  else None.

(** A message is written as its type, a space, and its payload; an answer to a
    request ends in a mark. *)
Fixpoint split_space (s : string) : string * string :=
  match s with
  | EmptyString => ("", "")
  | String a s =>
    if decide (Ascii.nat_of_ascii a = 32)%nat then ("", s)
    else let '(x, y) := split_space s in (String a x, y)
  end.
#[export] Instance toy_wire : WireFormat := {|
  encodeProtobuf _ msgType _ id := Some (if decide (id = 0) then msgType else msgType +:+ "#");
  fromProtoMessage := toy_payload;
  decodeProtobuf data := let '(m, p) := split_space data in inl (m, p, 7)
|}.
#[export] Instance toy_tables : UnicodeTables := ascii_tables.

(** ** Checking freshness in a computed world *)

Lemma fresh_id_by w i :
  i ≠ "" → map_Forall (λ _ cl, c_id cl ≠ i) (w_clients w) →
  map_Forall (λ _ room, DisconnectedUsers room !! i = None) (w_rooms w) → fresh_id i w.
Proof.
  intros Hn Hc Hr. split; [done| |].
  - intros d Hd. unfold holder, currentRoom, currentPendingRoom, clientID, getClient in *.
    destruct (w_clients w !! d) as [cl|] eqn:Hl; [rewrite (lookup_total_correct _ _ _ Hl); by eapply Hc|].
    rewrite lookup_total_alt, Hl in Hd. destruct Hd as [?|[[? ?]|[? ?]]]; done.
  - intros r _. unfold getRoom. destruct (w_rooms w !! r) as [room|] eqn:Hl.
    + rewrite (lookup_total_correct _ _ _ Hl). by eapply Hr.
    + by rewrite lookup_total_alt, Hl.
Qed.

Lemma fresh_token_by w t :
  t ≠ "" → sessions (w_srv w) !! t = None → map_Forall (λ _ cl, c_sessionToken cl ≠ t) (w_clients w) →
  fresh_token t w.
Proof.
  intros Hn Hs Hc. split; [done|done|]. intros d r Hd. unfold currentRoom, session, getClient in *.
  destruct (w_clients w !! d) as [cl|] eqn:Hl; [rewrite (lookup_total_correct _ _ _ Hl); by eapply Hc|].
  by rewrite lookup_total_alt, Hl in Hd.
Qed.

Definition fresh_check (e : Env) (w : World) : bool :=
  bool_decide (e_userID e ≠ "" ∧ map_Forall (λ _ cl, c_id cl ≠ e_userID e) (w_clients w) ∧
    map_Forall (λ _ room, DisconnectedUsers room !! e_userID e = None) (w_rooms w)) &&
  bool_decide (e_token e ≠ "" ∧ sessions (w_srv w) !! e_token e = None ∧
    map_Forall (λ _ cl, c_sessionToken cl ≠ e_token e) (w_clients w)).
Lemma fresh_checked e w : fresh_check e w = true → fresh_env e w.
Proof.
  unfold fresh_check. intros [[H1 [H2 H3]]%bool_decide_eq_true [H4 [H5 H6]]%bool_decide_eq_true]%andb_true_iff.
  split; [by apply fresh_id_by|by apply fresh_token_by].
Qed.

(** ** The run *)

Inductive act := Connect (rq : Request) | Say (c : ClientRef) (data : string) | HangUp (c : ClientRef).

(** The environment of the n-th step: everything drawn is named after n. *)
Definition numeral (n : nat) : string := String (Ascii.ascii_of_nat (48 + n)) "".
Definition env_at (n : nat) : Env :=
  mkEnv (Second * Z.of_nat (S n)) (1000 * Z.of_nat (S n)) ("user_" +:+ numeral n) ("token_" +:+ numeral n)
    (λ _, "AB12CD34") ("sug_" +:+ numeral n).
Definition utf8_check (n : nat) : bool :=
  ValidString (e_userID (env_at n)) && ValidString (e_token (env_at n)) && ValidString (e_suggestionID (env_at n)).
Lemma utf8_checked n : utf8_check n = true → utf8_env (env_at n).
Proof. intros [[H1 H2]%andb_true_iff H3]%andb_true_iff. split; [done|done| |done]. intros i. by vm_compute. Qed.

Definition perform (n : nat) (a : act) (w : World) : World :=
  match a with
  | Connect rq => (handleWebSocket (env_at n) rq true w).2
  | Say c data => receive (env_at n) (e_nowMs (env_at n)) c data w
  | HangUp c => hang_up (env_at n) c w
  end.
Definition allowed (n : nat) (a : act) (w : World) : bool :=
  utf8_check n && fresh_check (env_at n) w &&
  match a with
  | Connect _ => true
  | Say c _ => bool_decide (c ∈ clients (w_srv w)) && c_ConnOpen (getClient c w)
  | HangUp c => bool_decide (c ∈ clients (w_srv w))
  end.
Fixpoint run (n : nat) (acts : list act) (w : World) : World :=
  match acts with [] => w | a :: acts => run (S n) acts (perform n a w) end.
Fixpoint run_allowed (n : nat) (acts : list act) (w : World) : bool :=
  match acts with [] => true | a :: acts => allowed n a w && run_allowed (S n) acts (perform n a w) end.

Lemma run_reachable now n acts w :
  reachable now w → run_allowed n acts w = true → reachable now (run n acts w).
Proof.
  revert n w. induction acts as [|a acts IH]; intros n w Hr; cbn; [done|].
  intros [[[Hu%utf8_checked Hf]%andb_true_iff Ha]%andb_true_iff Hrest]%andb_true_iff. apply IH; [|done].
  eapply rtc_r; [exact Hr|]. pose proof (fresh_checked _ _ Hf) as [Hfi Hft]. destruct a as [rq|c data|c]; cbn in *.
  - eapply step_event, (step_connect _ (env_at n)); [exact Hu|exact Hfi|done|]. apply surjective_pairing.
  - apply andb_true_iff in Ha as [Hc%bool_decide_eq_true Ho]. by apply step_event, step_receive.
  - apply bool_decide_eq_true in Ha. by apply step_event, step_hang_up.
Qed.

Definition visitor : Request := mkRequest "" "10.0.0.1:4000" "Metrolist".
Definition party : list act :=
  [Connect visitor; Say 0 "create_room Ann"; Connect visitor; Say 2 "join_room Bob"; Say 0 "approve_join user_2";
   Say 0 "playback_action songA"; Say 2 "suggest_track songB"].

Definition party_world : World := run 0 party (start 0).
Lemma party_reachable : reachable 0 party_world.
Proof. apply run_reachable; [apply rtc_refl|]. by vm_compute. Qed.

(** The room has reference 1, Ann is client 0 and Bob client 2. *)
Example party_room :
  rooms (w_srv party_world) !! "AB12CD34" = Some 1%nat ∧
  map_to_list (Clients (getRoom 1 party_world)) = [("user_2", 2%nat); ("user_0", 0%nat)] ∧
  Host (getRoom 1 party_world) = Some 0%nat ∧ sessions (w_srv party_world) = ∅.
Proof. by vm_compute. Qed.
