(* ===== verification/Store.v ===== *)
(** Store: the key-value database behind [useragents.go] and [persistence.go].

    The server uses [go.etcd.io/bbolt] through buckets of byte strings: reads
    inside a view, writes inside a transaction that either commits as a whole
    or leaves the database as it was.  [Store] is that interface, with the laws
    the server relies on; [MapStore] is an implementation of it.  The module
    also holds the eight-byte integers the server stores. *)

From S2P Require Import Prelude Protocol Utf8.

(** ** Transactions *)

Inductive Write :=
  | Put (bucket key value : string)
  | Remove (bucket key : string)
  | NextSequence (bucket : string)
  | CreateBucketIfNotExists (bucket : string).

(** The effect of a write on one bucket, and on its sequence number. *)
Definition write_bucket (b : string) (m : gmap string string) (w : Write) : gmap string string :=
  match w with
  | Put b' k v => if decide (b' = b) then <[k := v]> m else m
  | Remove b' k => if decide (b' = b) then delete k m else m
  | NextSequence _ | CreateBucketIfNotExists _ => m
  end.
Definition write_sequence (b : string) (n : Z) (w : Write) : Z :=
  match w with
  | NextSequence b' => if decide (b' = b) then n + 1 else n
  | _ => n
  end.

Class Store (DB : Type) := {
  (** the keys and values of a bucket; a missing bucket reads as an empty one *)
  bucket : DB → string → gmap string string;
  sequence : DB → string → Z;
  (** [db.Update] and [db.Batch]: [None] when the transaction fails *)
  update : DB → list Write → option DB
}.

Class StoreLaws (DB : Type) `{Store DB} := {
  update_bucket d ws d' b : update d ws = Some d' → bucket d' b = foldl (write_bucket b) (bucket d b) ws;
  update_sequence d ws d' b : update d ws = Some d' → sequence d' b = foldl (write_sequence b) (sequence d b) ws
}.

(** ** An implementation *)

Record MapStore := mkMapStore { ms_buckets : gmap string (gmap string string); ms_sequence : gmap string Z }.
Definition ms_bucket (d : MapStore) (b : string) : gmap string string := default ∅ (ms_buckets d !! b).
Definition ms_next (d : MapStore) (b : string) : Z := default 0 (ms_sequence d !! b).
Definition ms_write (d : MapStore) (w : Write) : MapStore :=
  match w with
  | Put b _ _ | Remove b _ => mkMapStore (<[b := write_bucket b (ms_bucket d b) w]> (ms_buckets d)) (ms_sequence d)
  | NextSequence b => mkMapStore (ms_buckets d) (<[b := ms_next d b + 1]> (ms_sequence d))
  | CreateBucketIfNotExists b => mkMapStore (<[b := ms_bucket d b]> (ms_buckets d)) (ms_sequence d)
  end.
#[export] Instance MapStore_store : Store MapStore := {|
  bucket := ms_bucket;
  sequence := ms_next;
  update d ws := Some (foldl ms_write d ws)
|}.

Lemma ms_write_ok d w b :
  ms_bucket (ms_write d w) b = write_bucket b (ms_bucket d b) w ∧
  ms_next (ms_write d w) b = write_sequence b (ms_next d b) w.
Proof.
  unfold ms_bucket, ms_next. destruct w as [b' k v|b' k|b'|b']; cbn; rewrite lookup_insert; case_decide; subst;
    cbn; rewrite ?decide_True by done; done.
Qed.

#[export] Instance MapStore_laws : StoreLaws MapStore.
Proof.
  split; intros d ws d' b [= <-]; revert d; induction ws as [|w ws IH]; intros d; cbn; [done| |done|];
    destruct (ms_write_ok d w b) as [Hb Hs]; cbn in IH; by rewrite IH, ?Hb, ?Hs.
Qed.

(** A loop that stores entries with distinct keys adds them to the map. *)
Lemma foldl_insert {A B} (k : A → string) (v : A → B) (l : list A) (m : gmap string B) :
  NoDup (k <$> l) → foldl (λ m x, <[k x := v x]> m) m l = list_to_map ((λ x, (k x, v x)) <$> l) ∪ m.
Proof.
  revert m. induction l as [|x l IH]; intros m Hnd; cbn in *; [by rewrite map_empty_union|].
  apply NoDup_cons in Hnd as [Hk Hnd]. rewrite IH, <- insert_union_l, <- insert_union_r; [done| |done].
  apply not_elem_of_list_to_map_1. by rewrite <- list_fmap_compose.
Qed.

(** ** Eight-byte integers: [binary.BigEndian] *)

Fixpoint be_bytes (n : nat) (z : Z) : list Z :=
  match n with O => [] | S n => be_bytes n (z / 256) ++ [z mod 256] end.
Definition PutUint64 (z : Z) : string := implode (be_bytes 8 z).
Definition Uint64 (s : string) : Z := foldl (λ acc b, acc * 256 + b) 0 (explode s).

Lemma be_bytes_length n z : length (be_bytes n z) = n.
Proof. revert z. induction n; intros; cbn; [done|]. rewrite length_app, IHn. cbn. lia. Qed.

Lemma be_bytes_ok n z : Forall is_byte (be_bytes n z).
Proof.
  revert z. induction n; intros; cbn; [constructor|]. apply Forall_app. split; [auto|].
  constructor; [|constructor]. unfold is_byte. apply Z.mod_pos_bound. lia.
Qed.

Lemma be_bytes_value n z : 0 ≤ z < 256 ^ Z.of_nat n → foldl (λ acc b, acc * 256 + b) 0 (be_bytes n z) = z.
Proof.
  revert z. induction n as [|n IH]; intros z Hz; cbn [be_bytes]; [cbn in *; lia|].
  rewrite foldl_app. cbn. rewrite IH.
  - pose proof (Z.div_mod z 256). lia.
  - split; [apply Z.div_pos; lia|]. apply Z.div_lt_upper_bound; [lia|].
    rewrite Nat2Z.inj_succ, Z.pow_succ_r in Hz by lia. lia.
Qed.

Lemma PutUint64_length z : len (PutUint64 z) = 8.
Proof. unfold len, PutUint64. by rewrite length_implode, be_bytes_length. Qed.

Lemma Uint64_Put z : is_uint64 z → Uint64 (PutUint64 z) = z.
Proof.
  intros Hz. unfold Uint64, PutUint64. rewrite explode_implode by apply be_bytes_ok. apply be_bytes_value.
  unfold is_uint64, uint64_max in Hz. change (256 ^ Z.of_nat 8) with (2 ^ 64). lia.
Qed.

Lemma be_value_range l n :
  Forall is_byte l → length l = n → 0 ≤ foldl (λ acc b, acc * 256 + b) 0 l < 256 ^ Z.of_nat n.
Proof.
  revert n. induction l as [|b l IH] using rev_ind; intros n Hl <-; cbn; [lia|].
  apply Forall_app in Hl as [Hl [Hb _]%Forall_cons]. rewrite foldl_app, length_app. cbn.
  specialize (IH _ Hl eq_refl). unfold is_byte in Hb.
  rewrite Nat2Z.inj_add, Z.pow_add_r by lia. cbn [Z.of_nat length]. lia.
Qed.

Lemma Uint64_range s : len s = 8 → is_uint64 (Uint64 s).
Proof.
  intros Hl. unfold Uint64. pose proof (be_value_range (explode s) 8 (explode_bytes s)) as Hr.
  rewrite length_explode in Hr. unfold len in Hl. specialize (Hr ltac:(lia)).
  unfold is_uint64, uint64_max. change (256 ^ Z.of_nat 8) with (2 ^ 64) in Hr. lia.
Qed.
