(* ===== verification/Codec.v ===== *)
(** Codec: [src/internal/server/codec.go].

    The generated package [proto] is not part of the sources: its messages are
    modelled by the fields the codec sets and reads, with the types Go's
    assignments force.  The protobuf runtime and [compress/gzip] are the
    interface [Protobuf], with the documented laws the codec relies on.
    [codec_wire] is the instance of [WireFormat] that the rest of the server
    uses. *)

From S2P Require Import Prelude Protocol Utf8 Validation UAPolicy World Client Hosts Playback Members.

Definition MaxEnvelopeTypeLength : Z := 64.
Definition MaxDecodedPayloadSize : Z := 2 * 1024 * 1024.
Definition MaxQueueInputSize : Z := MaxQueueSize * 2.
Definition MaxClientFeatures : Z := 32.
Definition MaxFeatureNameLength : Z := 64.
Definition MaxReadMessageSize : Z := 524288.

(** ** Messages of the package [proto] *)

Record pb_TrackInfo := mk_pb_TrackInfo {
  pbt_Id : string; pbt_Title : string; pbt_Artist : string; pbt_Album : string;
  pbt_Duration : Z; pbt_Thumbnail : string; pbt_SuggestedBy : string }.
Record pb_UserInfo := mk_pb_UserInfo {
  pbu_UserId : string; pbu_Username : string; pbu_IsHost : bool; pbu_IsConnected : bool }.
Record pb_RoomState := mk_pb_RoomState {
  pbs_RoomCode : string; pbs_HostId : string; pbs_Users : list pb_UserInfo;
  pbs_CurrentTrack : option pb_TrackInfo; pbs_IsPlaying : bool; pbs_Position : Z; pbs_LastUpdate : Z;
  pbs_Volume : spec_float; pbs_Queue : list pb_TrackInfo; pbs_Revision : Z; pbs_QueueTitle : string }.
Record pb_Action := mk_pb_Action {
  pba_Action : string; pba_TrackId : string; pba_Position : Z; pba_TrackInfo : option pb_TrackInfo;
  pba_InsertNext : bool; pba_Queue : list pb_TrackInfo; pba_QueueTitle : string; pba_Volume : spec_float;
  pba_ServerTime : Z; pba_Revision : Z; pba_CapturedAtServerTime : Z; pba_ReplaceQueue : bool;
  pba_OriginUserId : string; pba_HostSequence : Z }.
Record pb_SyncState := mk_pb_SyncState {
  pby_CurrentTrack : option pb_TrackInfo; pby_IsPlaying : bool; pby_Position : Z; pby_LastUpdate : Z;
  pby_Volume : spec_float; pby_Queue : list pb_TrackInfo; pby_Revision : Z; pby_QueueTitle : string }.

Inductive ProtoMessage :=
  | pb_Envelope (Type_ Payload : string) (Compressed : bool) (RequestId : Z)
  | pb_CreateRoomPayload (Username : string)
  | pb_JoinRoomPayload (RoomCode Username : string)
  | pb_ApproveJoinPayload (UserId : string)
  | pb_RejectJoinPayload (UserId Reason : string)
  | pb_PlaybackActionPayload (action : pb_Action)
  | pb_BufferReadyPayload (TrackId : string) (TrackRevision : Z)
  | pb_PingPayload (ClientTime Sequence : Z) (HasPosition : bool) (TrackId : string)
      (Position PositionCapturedAtServerTime : Z) (HasStateHash : bool) (StateHash : Z)
  | pb_PongPayload (ClientTime ServerReceiveTime ServerSendTime Sequence : Z) (DriftValid : bool) (DriftMs : Z)
      (StateMismatch : bool)
  | pb_KickUserPayload (UserId Reason : string)
  | pb_TransferHostPayload (NewHostId : string)
  | pb_SuggestTrackPayload (TrackInfo : option pb_TrackInfo)
  | pb_ApproveSuggestionPayload (SuggestionId : string)
  | pb_RejectSuggestionPayload (SuggestionId Reason : string)
  | pb_ReconnectPayload (SessionToken : string)
  | pb_ClientCapabilities (SupportsProtobuf SupportsCompression : bool) (ClientVersion : string)
      (Features : list string)
  | pb_ServerCapabilities (SupportsProtobuf SupportsCompression : bool) (ServerVersion : string)
      (Features : list string) (CanHost : bool)
  | pb_RoomCreatedPayload (RoomCode UserId SessionToken : string)
  | pb_JoinRequestPayload (UserId Username : string)
  | pb_JoinApprovedPayload (RoomCode UserId SessionToken : string) (State : option pb_RoomState)
  | pb_JoinRejectedPayload (Reason : string)
  | pb_UserJoinedPayload (UserId Username : string)
  | pb_UserLeftPayload (UserId Username : string)
  | pb_BufferWaitPayload (TrackId : string) (WaitingFor : list string)
  | pb_BufferCompletePayload (TrackId : string)
  | pb_ErrorPayload (Code Message : string)
  | pb_HostChangedPayload (NewHostId NewHostName : string)
  | pb_KickedPayload (Reason : string)
  | pb_SyncStatePayload (sync : pb_SyncState)
  | pb_ReconnectedPayload (RoomCode UserId : string) (State : option pb_RoomState) (IsHost : bool)
  | pb_UserReconnectedPayload (UserId Username : string)
  | pb_UserDisconnectedPayload (UserId Username : string)
  | pb_SuggestionReceivedPayload (SuggestionId FromUserId FromUsername : string) (TrackInfo : option pb_TrackInfo)
  | pb_SuggestionApprovedPayload (SuggestionId : string) (TrackInfo : option pb_TrackInfo)
  | pb_SuggestionRejectedPayload (SuggestionId Reason : string)
  | pb_ServerRestartingPayload (EtaMs : Z) (Reason : string)
  | pb_SuggestionSubmittedPayload (SuggestionId : string) (TrackInfo : option pb_TrackInfo).

(** The message type, as the position of its constructor; [proto.Unmarshal] is
    told which type to fill. *)
Definition kind_of (m : ProtoMessage) : nat :=
  match m with
  | pb_Envelope _ _ _ _ => 0 | pb_CreateRoomPayload _ => 1 | pb_JoinRoomPayload _ _ => 2
  | pb_ApproveJoinPayload _ => 3 | pb_RejectJoinPayload _ _ => 4 | pb_PlaybackActionPayload _ => 5
  | pb_BufferReadyPayload _ _ => 6 | pb_PingPayload _ _ _ _ _ _ _ _ => 7 | pb_PongPayload _ _ _ _ _ _ _ => 8
  | pb_KickUserPayload _ _ => 9 | pb_TransferHostPayload _ => 10 | pb_SuggestTrackPayload _ => 11
  | pb_ApproveSuggestionPayload _ => 12 | pb_RejectSuggestionPayload _ _ => 13 | pb_ReconnectPayload _ => 14
  | pb_ClientCapabilities _ _ _ _ => 15 | pb_ServerCapabilities _ _ _ _ _ => 16 | pb_RoomCreatedPayload _ _ _ => 17
  | pb_JoinRequestPayload _ _ => 18 | pb_JoinApprovedPayload _ _ _ _ => 19 | pb_JoinRejectedPayload _ => 20
  | pb_UserJoinedPayload _ _ => 21 | pb_UserLeftPayload _ _ => 22 | pb_BufferWaitPayload _ _ => 23
  | pb_BufferCompletePayload _ => 24 | pb_ErrorPayload _ _ => 25 | pb_HostChangedPayload _ _ => 26
  | pb_KickedPayload _ => 27 | pb_SyncStatePayload _ => 28 | pb_ReconnectedPayload _ _ _ _ => 29
  | pb_UserReconnectedPayload _ _ => 30 | pb_UserDisconnectedPayload _ _ => 31
  | pb_SuggestionReceivedPayload _ _ _ _ => 32 | pb_SuggestionApprovedPayload _ _ => 33
  | pb_SuggestionRejectedPayload _ _ => 34 | pb_ServerRestartingPayload _ _ => 35
  | pb_SuggestionSubmittedPayload _ _ => 36
  end%nat.

(** ** The runtime libraries *)

(** [gunzip] is the stream a gzip reader yields: [None] when the header is bad,
    otherwise the bytes before its end and whether it ends cleanly.  The
    functions of [protowire] return a negative length on malformed input, here
    [None]. *)
Class Protobuf := {
  Marshal : ProtoMessage → option string;
  Unmarshal : nat → string → option ProtoMessage;
  gzip : string → option string;
  gunzip : string → option (string * bool);
  ConsumeTag : string → option (Z * Z * nat);
  ConsumeFieldValue : Z → Z → string → option nat
}.
Class ProtobufLaws `{Protobuf} := {
  unmarshal_marshal m data : Marshal m = Some data → Unmarshal (kind_of m) data = Some m;
  unmarshal_kind k data m : Unmarshal k data = Some m → kind_of m = k;
  marshal_typed t p c i data : Marshal (pb_Envelope t p c i) = Some data → t ≠ "" → data ≠ "";
  gunzip_gzip data z : gzip data = Some z → gunzip z = Some (data, true);
  tag_length data n t k : ConsumeTag data = Some (n, t, k) → (1 ≤ k ≤ String.length data)%nat;
  value_length n t data k : ConsumeFieldValue n t data = Some k → (k ≤ String.length data)%nat
}.

(** ** [float32(x)] and [float64(x)] *)

Definition convert_float (prec emax : Z) (x : spec_float) : spec_float :=
  match x with
  | S754_finite s m e => binary_normalize prec emax (cond_Zopp s (Zpos m)) e s
  | _ => x
  end.
Definition float32 : spec_float → spec_float := convert_float 24 128.
Definition float64 : spec_float → spec_float := convert_float 53 1024.

(** ** Conversions *)

Definition trackInfoToProto (t : TrackInfo) : pb_TrackInfo :=
  mk_pb_TrackInfo (ti_ID t) (ti_Title t) (ti_Artist t) (ti_Album t) (ti_Duration t) (ti_Thumbnail t) (ti_SuggestedBy t).
Definition protoToTrackInfo (p : pb_TrackInfo) : TrackInfo :=
  mkTrackInfo (pbt_Id p) (pbt_Title p) (pbt_Artist p) (pbt_Album p) (pbt_Duration p) (pbt_Thumbnail p) (pbt_SuggestedBy p).
Definition userInfoToProto (u : UserInfo) : pb_UserInfo :=
  mk_pb_UserInfo (ui_UserID u) (ui_Username u) (ui_IsHost u) (ui_IsConnected u).
Definition roomStateToProto (r : RoomState) : pb_RoomState :=
  mk_pb_RoomState (rs_RoomCode r) (rs_HostID r) (userInfoToProto <$> rs_Users r)
    (trackInfoToProto <$> rs_CurrentTrack r) (rs_IsPlaying r) (rs_Position r) (rs_LastUpdate r)
    (float32 (rs_Volume r)) (trackInfoToProto <$> rs_Queue r) (rs_Revision r) (rs_QueueTitle r).

Definition actionToProto (p : PlaybackActionPayload) : pb_Action :=
  mk_pb_Action (pa_Action p) (pa_TrackID p) (pa_Position p) (trackInfoToProto <$> pa_TrackInfo p) (pa_InsertNext p)
    (trackInfoToProto <$> pa_Queue p) (pa_QueueTitle p) (float32 (pa_Volume p)) (pa_ServerTime p) (pa_Revision p)
    (pa_CapturedAtServerTime p) (pa_ReplaceQueue p) (pa_OriginUserID p) (pa_HostSequence p).
Definition syncToProto (p : SyncStatePayload) : pb_SyncState :=
  mk_pb_SyncState (trackInfoToProto <$> ssy_CurrentTrack p) (ssy_IsPlaying p) (ssy_Position p) (ssy_LastUpdate p)
    (float32 (ssy_Volume p)) (trackInfoToProto <$> ssy_Queue p) (ssy_Revision p) (ssy_QueueTitle p).

(** An [interface{}] holds a payload struct or a pointer to one. *)
Inductive any := Pointer (p : Payload) | Value (p : Payload).

(** The cases for pointers, which every payload but three has. *)
Definition pointerToProto (p : Payload) : option ProtoMessage :=
  match p with
  | PCreateRoom p => Some (pb_CreateRoomPayload (crp_Username p))
  | PJoinRoom p => Some (pb_JoinRoomPayload (jrp_RoomCode p) (jrp_Username p))
  | PApproveJoin p => Some (pb_ApproveJoinPayload (ajp_UserID p))
  | PRejectJoin p => Some (pb_RejectJoinPayload (rjp_UserID p) (rjp_Reason p))
  | PPlaybackAction p => Some (pb_PlaybackActionPayload (actionToProto p))
  | PBufferReady p => Some (pb_BufferReadyPayload (brp_TrackID p) (brp_TrackRevision p))
  | PPing p => Some (pb_PingPayload (ping_ClientTime p) (ping_Sequence p) (ping_HasPosition p) (ping_TrackID p)
      (ping_Position p) (ping_PositionCapturedAtServerTime p) (ping_HasStateHash p) (ping_StateHash p))
  | PPong p => Some (pb_PongPayload (pong_ClientTime p) (pong_ServerReceiveTime p) (pong_ServerSendTime p)
      (pong_Sequence p) (pong_DriftValid p) (pong_DriftMs p) (pong_StateMismatch p))
  | PKickUser p => Some (pb_KickUserPayload (kup_UserID p) (kup_Reason p))
  | PTransferHost p => Some (pb_TransferHostPayload (thp_NewHostID p))
  | PSuggestTrack p => Some (pb_SuggestTrackPayload (trackInfoToProto <$> stp_TrackInfo p))
  | PApproveSuggestion p => Some (pb_ApproveSuggestionPayload (asp_SuggestionID p))
  | PRejectSuggestion p => Some (pb_RejectSuggestionPayload (rsp_SuggestionID p) (rsp_Reason p))
  | PReconnect p => Some (pb_ReconnectPayload (rcn_SessionToken p))
  | PClientCapabilities p => Some (pb_ClientCapabilities (ccp_SupportsProtobuf p) (ccp_SupportsCompression p)
      (ccp_ClientVersion p) (ccp_Features p))
  | PServerCapabilities p => Some (pb_ServerCapabilities (scp_SupportsProtobuf p) (scp_SupportsCompression p)
      (scp_ServerVersion p) (scp_Features p) (scp_CanHost p))
  | PRoomCreated p => Some (pb_RoomCreatedPayload (rcp_RoomCode p) (rcp_UserID p) (rcp_SessionToken p))
  | PJoinRequest p => Some (pb_JoinRequestPayload (jqp_UserID p) (jqp_Username p))
  | PJoinApproved p => Some (pb_JoinApprovedPayload (jap_RoomCode p) (jap_UserID p) (jap_SessionToken p)
      (roomStateToProto <$> jap_State p))
  | PJoinRejected p => Some (pb_JoinRejectedPayload (jdp_Reason p))
  | PUserJoined p => Some (pb_UserJoinedPayload (ujp_UserID p) (ujp_Username p))
  | PUserLeft p => Some (pb_UserLeftPayload (ulp_UserID p) (ulp_Username p))
  | PBufferWait p => Some (pb_BufferWaitPayload (bwp_TrackID p) (bwp_WaitingFor p))
  | PBufferComplete p => Some (pb_BufferCompletePayload (bcp_TrackID p))
  | PError p => Some (pb_ErrorPayload (ep_Code p) (ep_Message p))
  | PHostChanged p => Some (pb_HostChangedPayload (hcp_NewHostID p) (hcp_NewHostName p))
  | PKicked p => Some (pb_KickedPayload (kp_Reason p))
  | PSyncState p => Some (pb_SyncStatePayload (syncToProto p))
  | PReconnected p => Some (pb_ReconnectedPayload (rcd_RoomCode p) (rcd_UserID p) (roomStateToProto <$> rcd_State p)
      (rcd_IsHost p))
  | PUserReconnected p => Some (pb_UserReconnectedPayload (urp_UserID p) (urp_Username p))
  | PUserDisconnected p => Some (pb_UserDisconnectedPayload (udp_UserID p) (udp_Username p))
  | PSuggestionReceived p => Some (pb_SuggestionReceivedPayload (sgr_SuggestionID p) (sgr_FromUserID p)
      (sgr_FromUsername p) (trackInfoToProto <$> sgr_TrackInfo p))
  | PSuggestionApproved p => Some (pb_SuggestionApprovedPayload (sga_SuggestionID p) (trackInfoToProto <$> sga_TrackInfo p))
  | PSuggestionRejected p => Some (pb_SuggestionRejectedPayload (sgj_SuggestionID p) (sgj_Reason p))
  | PServerRestarting _ | PSuggestionSubmitted _ | PRoomState _ => None
  end.

(** The cases for structs: what the server sends, and nothing it only receives. *)
Definition valueToProto (p : Payload) : option ProtoMessage :=
  match p with
  | PServerRestarting p => Some (pb_ServerRestartingPayload (srp_EtaMs p) (srp_Reason p))
  | PSuggestionSubmitted p => Some (pb_SuggestionSubmittedPayload (ssp_SuggestionID p) (trackInfoToProto <$> ssp_TrackInfo p))
  | PCreateRoom _ | PJoinRoom _ | PApproveJoin _ | PRejectJoin _ | PBufferReady _ | PKickUser _ | PTransferHost _
  | PSuggestTrack _ | PApproveSuggestion _ | PRejectSuggestion _ | PReconnect _ | PClientCapabilities _
  | PRoomState _ => None
  | PRoomCreated _ | PJoinRequest _ | PJoinApproved _ | PJoinRejected _ | PUserJoined _ | PUserLeft _
  | PBufferWait _ | PBufferComplete _ | PError _ | PHostChanged _ | PKicked _ | PSyncState _ | PReconnected _
  | PUserReconnected _ | PUserDisconnected _ | PSuggestionReceived _ | PSuggestionApproved _ | PSuggestionRejected _
  | PPlaybackAction _ | PPing _ | PPong _ | PServerCapabilities _ => pointerToProto p
  end.
Definition toProtoMessage (payload : any) : option ProtoMessage :=
  match payload with Pointer p => pointerToProto p | Value p => valueToProto p end.

(** ** Envelopes *)

Section Envelopes.
Context `{Protobuf}.

Definition compressData (data : string) : option string := gzip data.
(** At most one byte more than the limit is read. *)
Definition decompressData (data : string) : string + bool :=
  match gunzip data with
  | None => inr false
  | Some (out, clean) =>
    if decide (MaxDecodedPayloadSize < len out) then inr true else if clean then inl out else inr false
  end.

(** The payload as it is put in the envelope. *)
Definition maybe_compress (compressionEnabled : bool) (payloadBytes : string) : string * bool :=
  if decide (compressionEnabled = true ∧ 100 < len payloadBytes) then
    match compressData payloadBytes with
    | Some compressedBytes =>
      if decide (len compressedBytes < len payloadBytes) then (compressedBytes, true) else (payloadBytes, false)
    | None => (payloadBytes, false)
    end
  else (payloadBytes, false).
Definition payload_bytes (payload : option any) : option string :=
  match payload with
  | None => Some ""
  | Some payload => toProtoMessage payload ≫= Marshal
  end.
Definition encodeProtobuf (compressionEnabled : bool) (msgType : string) (payload : option any) (requestID : Z)
    : option string :=
  payloadBytes ← payload_bytes payload;
  let '(payloadBytes, compressed) := maybe_compress compressionEnabled payloadBytes in
  Marshal (pb_Envelope msgType payloadBytes compressed requestID).
Definition Encode (c : bool) msgType payload := encodeProtobuf c msgType payload 0.
Definition EncodeReply (c : bool) msgType payload requestID := encodeProtobuf c msgType payload requestID.

(** On failure the request ID and whether the error is [errMessageTooLarge]. *)
Definition decodeProtobuf (data : string) : (string * string * Z) + (Z * bool) :=
  if decide (data = "") then inr (0, false)
  else match Unmarshal 0 data with
  | Some (pb_Envelope msgType payload compressed requestID) =>
    if decide (MaxEnvelopeTypeLength < len msgType) then inr (requestID, false)
    else if decide (MaxReadMessageSize < len payload) then inr (requestID, true)
    else match (if compressed then decompressData payload else inl payload) with
    | inr too_large => inr (requestID, too_large)
    | inl payloadBytes =>
      if decide (MaxDecodedPayloadSize < len payloadBytes) then inr (requestID, true)
      else inl (msgType, payloadBytes, requestID)
    end
  | _ => inr (0, false)
  end.
Definition Decode (data : string) : option (string * string) :=
  match decodeProtobuf data with inl (msgType, payload, _) => Some (msgType, payload) | inr _ => None end.

(** ** Requests *)

Fixpoint slice_from (s : string) (n : nat) : string :=
  match n, s with
  | O, _ => s
  | S n, String _ s => slice_from s n
  | S _, EmptyString => EmptyString
  end.

Definition queueFieldNumber : Z := 6.
Definition BytesType : Z := 2.
(** [Some true] when the loop accepts, [Some false] on an error, [None] when
    the fuel is used up; every round consumes at least one byte. *)
Fixpoint count_queue (fuel : nat) (data : string) (queueEntries : Z) : option bool :=
  match fuel with
  | O => None
  | S fuel =>
    if decide (data = "") then Some true
    else match ConsumeTag data with
    | None => Some false
    | Some (number, wireType, tagLength) =>
      let data := slice_from data tagLength in
      match ConsumeFieldValue number wireType data with
      | None => Some false
      | Some fieldLength =>
        let queueEntries :=
          if decide (number = queueFieldNumber ∧ wireType = BytesType) then queueEntries + 1 else queueEntries in
        if decide (MaxQueueInputSize < queueEntries) then Some false
        else count_queue fuel (slice_from data fieldLength) queueEntries
      end
    end
  end.
Definition validatePlaybackActionCardinality (data : string) : bool :=
  default false (count_queue (S (String.length data)) data 0).

Definition actionFromProto (p : pb_Action) : PlaybackActionPayload :=
  mkPlaybackActionPayload (pba_Action p) (pba_TrackId p) (pba_Position p) (protoToTrackInfo <$> pba_TrackInfo p)
    (pba_InsertNext p) (protoToTrackInfo <$> pba_Queue p) (pba_QueueTitle p) (float64 (pba_Volume p))
    (pba_ServerTime p) (pba_Revision p) (pba_CapturedAtServerTime p) (pba_ReplaceQueue p) "" (pba_HostSequence p).

Definition features_within (features : list string) : Prop :=
  Z.of_nat (length features) ≤ MaxClientFeatures ∧ Forall (λ f, len f ≤ MaxFeatureNameLength) features.
#[export] Instance features_within_dec fs : Decision (features_within fs).
Proof. unfold features_within. apply _. Defined.

Definition fromProtoMessage (msgType data : string) : option Payload :=
  if decide (msgType = MsgTypeCreateRoom) then
    match Unmarshal 1 data with
    | Some (pb_CreateRoomPayload u) => Some (PCreateRoom (mkCreateRoomPayload u)) | _ => None end
  else if decide (msgType = MsgTypeJoinRoom) then
    match Unmarshal 2 data with
    | Some (pb_JoinRoomPayload r u) => Some (PJoinRoom (mkJoinRoomPayload r u)) | _ => None end
  else if decide (msgType = MsgTypeApproveJoin) then
    match Unmarshal 3 data with
    | Some (pb_ApproveJoinPayload u) => Some (PApproveJoin (mkApproveJoinPayload u)) | _ => None end
  else if decide (msgType = MsgTypeRejectJoin) then
    match Unmarshal 4 data with
    | Some (pb_RejectJoinPayload u r) => Some (PRejectJoin (mkRejectJoinPayload u r)) | _ => None end
  else if decide (msgType = MsgTypePlaybackAction) then
    if validatePlaybackActionCardinality data then
      match Unmarshal 5 data with
      | Some (pb_PlaybackActionPayload p) =>
        if decide (MaxQueueInputSize < Z.of_nat (length (pba_Queue p))) then None
        else Some (PPlaybackAction (actionFromProto p))
      | _ => None
      end
    else None
  else if decide (msgType = MsgTypeBufferReady) then
    match Unmarshal 6 data with
    | Some (pb_BufferReadyPayload t r) => Some (PBufferReady (mkBufferReadyPayload t r)) | _ => None end
  else if decide (msgType = MsgTypePing) then
    match Unmarshal 7 data with
    | Some (pb_PingPayload a b c d e f g h) => Some (PPing (mkPingPayload a b c d e f g h)) | _ => None end
  else if decide (msgType = MsgTypeKickUser) then
    match Unmarshal 9 data with
    | Some (pb_KickUserPayload u r) => Some (PKickUser (mkKickUserPayload u r)) | _ => None end
  else if decide (msgType = MsgTypeTransferHost) then
    match Unmarshal 10 data with
    | Some (pb_TransferHostPayload u) => Some (PTransferHost (mkTransferHostPayload u)) | _ => None end
  else if decide (msgType = MsgTypeSuggestTrack) then
    match Unmarshal 11 data with
    | Some (pb_SuggestTrackPayload t) => Some (PSuggestTrack (mkSuggestTrackPayload (protoToTrackInfo <$> t)))
    | _ => None end
  else if decide (msgType = MsgTypeApproveSuggestion) then
    match Unmarshal 12 data with
    | Some (pb_ApproveSuggestionPayload i) => Some (PApproveSuggestion (mkApproveSuggestionPayload i)) | _ => None end
  else if decide (msgType = MsgTypeRejectSuggestion) then
    match Unmarshal 13 data with
    | Some (pb_RejectSuggestionPayload i r) => Some (PRejectSuggestion (mkRejectSuggestionPayload i r)) | _ => None end
  else if decide (msgType = MsgTypeReconnect) then
    match Unmarshal 14 data with
    | Some (pb_ReconnectPayload t) => Some (PReconnect (mkReconnectPayload t)) | _ => None end
  else if decide (msgType = MsgTypeClientCapabilities) then
    match Unmarshal 15 data with
    | Some (pb_ClientCapabilities p c v fs) =>
      if decide (features_within fs) then Some (PClientCapabilities (mkClientCapabilitiesPayload p c v fs)) else None
    | _ => None end
  else None.

(** The codec as the server uses it: payloads are passed by value, except the
    snapshots of [syncSnapshotLocked], which both cases encode alike. *)
#[export] Instance codec_wire : WireFormat := {|
  World.encodeProtobuf c msgType payload requestID := encodeProtobuf c msgType (Value <$> payload) requestID;
  World.fromProtoMessage := fromProtoMessage;
  World.decodeProtobuf := decodeProtobuf
|}.

End Envelopes.

(** ** Lemmas: fields *)

Lemma protoToTrackInfo_to t : protoToTrackInfo (trackInfoToProto t) = t.
Proof. by destruct t. Qed.
Lemma tracks_roundtrip (o : option TrackInfo) : protoToTrackInfo <$> (trackInfoToProto <$> o) = o.
Proof. destruct o; cbn; by rewrite ?protoToTrackInfo_to. Qed.
Lemma queue_roundtrip (q : list TrackInfo) : protoToTrackInfo <$> (trackInfoToProto <$> q) = q.
Proof. rewrite <- list_fmap_compose. apply fmap_id_Forall, Forall_true. apply protoToTrackInfo_to. Qed.

Lemma len_slice_from s n : (n ≤ String.length s)%nat → String.length (slice_from s n) = (String.length s - n)%nat.
Proof. revert s. induction n as [|n IH]; intros [|a s] Hn; cbn in *; try lia. apply IH. lia. Qed.

(** The type of message a request payload belongs to. *)
Definition request_type (p : Payload) : option string :=
  match p with
  | PCreateRoom _ => Some MsgTypeCreateRoom | PJoinRoom _ => Some MsgTypeJoinRoom
  | PApproveJoin _ => Some MsgTypeApproveJoin | PRejectJoin _ => Some MsgTypeRejectJoin
  | PPlaybackAction _ => Some MsgTypePlaybackAction | PBufferReady _ => Some MsgTypeBufferReady
  | PPing _ => Some MsgTypePing | PKickUser _ => Some MsgTypeKickUser
  | PTransferHost _ => Some MsgTypeTransferHost | PSuggestTrack _ => Some MsgTypeSuggestTrack
  | PApproveSuggestion _ => Some MsgTypeApproveSuggestion | PRejectSuggestion _ => Some MsgTypeRejectSuggestion
  | PReconnect _ => Some MsgTypeReconnect | PClientCapabilities _ => Some MsgTypeClientCapabilities
  | _ => None
  end.

(** What the server makes of a request: a volume travels as a [float32], and a
    client cannot name the origin of an action. *)
Definition received (p : Payload) : Payload :=
  match p with
  | PPlaybackAction p => PPlaybackAction (p <| pa_Volume := float64 (float32 (pa_Volume p)) |> <| pa_OriginUserID := "" |>)
  | _ => p
  end.

Section CodecFacts.
Context `{Protobuf, !ProtobufLaws}.

Lemma maybe_compress_inverse b payload payload' compressed :
  maybe_compress b payload = (payload', compressed) → len payload ≤ MaxDecodedPayloadSize →
  len payload' ≤ len payload ∧ (if compressed then decompressData payload' else inl payload') = inl payload.
Proof.
  unfold maybe_compress, compressData. intros Hc Hl. case_decide; [|by injection Hc as <- <-].
  destruct (gzip payload) as [z|] eqn:Hz; [|by injection Hc as <- <-].
  case_decide as Hlt; injection Hc as <- <-; [|done]. split; [lia|]. unfold decompressData.
  rewrite (gunzip_gzip _ _ Hz), decide_False by lia. done.
Qed.

(** *** The cardinality check *)

(** [data] is a sequence of well-formed fields with these numbers and types. *)
Inductive fields : string → list (Z * Z) → Prop :=
  | fields_nil : fields "" []
  | fields_cons data number wireType tagLength fieldLength fs :
      data ≠ "" → ConsumeTag data = Some (number, wireType, tagLength) →
      ConsumeFieldValue number wireType (slice_from data tagLength) = Some fieldLength →
      fields (slice_from (slice_from data tagLength) fieldLength) fs →
      fields data ((number, wireType) :: fs).

Definition is_queue_field (f : Z * Z) : Prop := f.1 = queueFieldNumber ∧ f.2 = BytesType.
#[local] Instance is_queue_field_dec f : Decision (is_queue_field f).
Proof. unfold is_queue_field. apply _. Defined.
Definition queue_fields (fs : list (Z * Z)) : Z := Z.of_nat (length (filter is_queue_field fs)).

(** Every round consumes a byte, so the fuel is never used up. *)
Lemma count_queue_total fuel data n : (String.length data < fuel)%nat → is_Some (count_queue fuel data n).
Proof.
  revert data n. induction fuel as [|fuel IH]; intros data n Hf; [lia|]. cbn. case_decide; [eauto|].
  destruct (ConsumeTag data) as [[[number wireType] k]|] eqn:Ht; [|eauto]. apply tag_length in Ht.
  destruct (ConsumeFieldValue _ _ _) as [k'|] eqn:Hv; [|eauto]. apply value_length in Hv.
  rewrite len_slice_from in Hv by lia.
  destruct (decide (MaxQueueInputSize < _)); [eauto|]. apply IH. rewrite !len_slice_from; rewrite ?len_slice_from; lia.
Qed.

Lemma count_queue_spec fuel data n b :
  count_queue fuel data n = Some b → n ≤ MaxQueueInputSize →
  b = true ↔ ∃ fs, fields data fs ∧ n + queue_fields fs ≤ MaxQueueInputSize.
Proof.
  revert data n. induction fuel as [|fuel IH]; intros data n; cbn; [done|].
  case_decide as Hd; [intros [= <-] Hn; split; [|done]; intros _; subst; exists []; split; [constructor|]|].
  { unfold queue_fields. cbn. lia. }
  destruct (ConsumeTag data) as [[[number wireType] k]|] eqn:Ht.
  2: { intros [= <-] _. split; [done|]. intros (fs & Hf & _). inversion Hf; subst; congruence. }
  destruct (ConsumeFieldValue _ _ _) as [k'|] eqn:Hv.
  2: { intros [= <-] _. split; [done|]. intros (fs & Hf & _). inversion Hf; subst; congruence. }
  assert (∀ fs, fields data fs → ∃ fs', fs = (number, wireType) :: fs' ∧
    fields (slice_from (slice_from data k) k') fs') as Hinv.
  { intros fs Hf. inversion Hf; subst; [congruence|]. simplify_eq. eauto. }
  set (n' := if decide (number = queueFieldNumber ∧ wireType = BytesType) then n + 1 else n).
  assert (∀ fs, n + queue_fields ((number, wireType) :: fs) = n' + queue_fields fs) as Hq.
  { intros fs. unfold queue_fields, n'. rewrite filter_cons. unfold is_queue_field at 1. cbn [fst snd].
    repeat case_decide; cbn [length]; first [lia|tauto]. }
  case_decide as Hbig; intros Hc Hn.
  - injection Hc as <-. split; [done|]. intros (fs & (fs' & -> & _)%Hinv & Hle). rewrite Hq in Hle.
    unfold queue_fields in Hle. lia.
  - rewrite (IH _ _ Hc) by lia. split.
    + intros (fs & Hf & Hle). exists ((number, wireType) :: fs). rewrite Hq. split; [by econstructor|done].
    + intros (fs & (fs' & -> & Hf)%Hinv & Hle). rewrite Hq in Hle. eauto.
Qed.

(** C36: the cardinality check is exact and terminates: a playback action is
    accepted exactly when its bytes are a sequence of well-formed fields of
    which at most [MaxQueueInputSize] are queue entries. *)
Theorem cardinality_exact data :
  is_Some (count_queue (S (String.length data)) data 0) ∧
  (validatePlaybackActionCardinality data = true ↔
   ∃ fs, fields data fs ∧ queue_fields fs ≤ MaxQueueInputSize).
Proof.
  unfold validatePlaybackActionCardinality.
  destruct (count_queue_total (S (String.length data)) data 0) as [b Hb]; [lia|]. rewrite Hb. cbn. split; [done|].
  apply (count_queue_spec _ _ _ _ Hb). by vm_compute.
Qed.

(** *** Envelopes *)

(** C34: compression is transparent: whatever the compression setting, an
    encoded message is decoded to the same type, payload bytes and request ID,
    as long as the payload is within the limits of the protocol. *)
Theorem envelope_roundtrip compression msgType payload requestID bytes data :
  msgType ≠ "" → len msgType ≤ MaxEnvelopeTypeLength →
  payload_bytes payload = Some bytes → len bytes ≤ MaxDecodedPayloadSize →
  len (maybe_compress compression bytes).1 ≤ MaxReadMessageSize →
  encodeProtobuf compression msgType payload requestID = Some data →
  decodeProtobuf data = inl (msgType, bytes, requestID).
Proof.
  intros Hn Ht Hp Hl Hz. unfold encodeProtobuf. rewrite Hp. cbn.
  destruct (maybe_compress compression bytes) as [bytes' compressed] eqn:Hc.
  destruct (maybe_compress_inverse _ _ _ _ Hc Hl) as [_ Hinv]. intros Hm. unfold decodeProtobuf.
  rewrite decide_False by by eapply marshal_typed.
  pose proof (unmarshal_marshal _ _ Hm) as Hu. cbn [kind_of] in Hu. rewrite Hu.
  rewrite !decide_False by (cbn in *; lia). rewrite Hinv. by rewrite decide_False by lia.
Qed.

(** limits of what is decoded: the type of a decoded message has at most
    [MaxEnvelopeTypeLength] bytes and its payload at most
    [MaxDecodedPayloadSize], compressed or not. *)
Theorem decode_bounds data msgType payload requestID :
  decodeProtobuf data = inl (msgType, payload, requestID) →
  len msgType ≤ MaxEnvelopeTypeLength ∧ len payload ≤ MaxDecodedPayloadSize.
Proof.
  unfold decodeProtobuf. case_decide; [done|]. destruct (Unmarshal 0 data) as [[]|]; try done.
  case_decide; [done|]. case_decide; [done|].
  destruct (if Compressed then _ else _) as [bytes|]; [|done]. case_decide; [done|].
  intros [= <- <- <-]. lia.
Qed.

(** *** Requests *)

(** C37: decoding is type safe and enforces the limits: the payload decoded for
    a message type is of that type's struct, a queue has at most
    [MaxQueueInputSize] entries, and declared features are few and short. *)
Theorem decoded_type msgType data p :
  fromProtoMessage msgType data = Some p →
  request_type p = Some msgType ∧
  match p with
  | PPlaybackAction a => Z.of_nat (length (pa_Queue a)) ≤ MaxQueueInputSize ∧ pa_OriginUserID a = ""
  | PClientCapabilities c => features_within (ccp_Features c)
  | _ => True
  end.
Proof.
  unfold fromProtoMessage. intros Hp.
  repeat match type of Hp with (if decide (_ = ?t) then ?here else _) = _ =>
    destruct (decide (msgType = t)) as [->|_]; [try (destruct (validatePlaybackActionCardinality data); [|discriminate Hp]);
      destruct (Unmarshal _ data) as [[]|]; try discriminate Hp; try case_decide; try discriminate Hp;
      injection Hp as <-; try done|]
  end; [|discriminate Hp].
  cbn. rewrite length_fmap. split; [done|]. split; [lia|done].
Qed.

(** A payload within the limits the server puts on its type. *)
Definition acceptable (p : Payload) (bytes : string) : Prop :=
  match p with
  | PPlaybackAction a => validatePlaybackActionCardinality bytes = true ∧ Z.of_nat (length (pa_Queue a)) ≤ MaxQueueInputSize
  | PClientCapabilities c => features_within (ccp_Features c)
  | _ => True
  end.

Lemma actionFromProto_to p :
  actionFromProto (actionToProto p) = p <| pa_Volume := float64 (float32 (pa_Volume p)) |> <| pa_OriginUserID := "" |>.
Proof. unfold actionFromProto, actionToProto. cbn. by rewrite tracks_roundtrip, queue_roundtrip. Qed.

(** C35: a request reads back as what the client sent: every payload a client
    may send, encoded and decoded for its message type, is the same payload,
    but for the volume (rounded to a [float32]) and the origin (never taken
    from a client). *)
Theorem request_roundtrip p msgType m bytes :
  request_type p = Some msgType → toProtoMessage (Pointer p) = Some m → Marshal m = Some bytes →
  acceptable p bytes → fromProtoMessage msgType bytes = Some (received p).
Proof.
  intros Ht Hm Hb Ha. pose proof (unmarshal_marshal _ _ Hb) as Hu.
  destruct p as [[]|?|[]|?|[]|[]|?|?|?|?|a|[]|?|?|?|[]|?|[]|[]|?|?|[]|?|?|?|[]|[]|?|?|?|[]|[]|?|?|?|?|?]; try done;
    injection Ht as <-; injection Hm as <-; cbn [kind_of] in Hu; unfold fromProtoMessage;
    repeat (rewrite decide_False by done); rewrite decide_True by done; cbn [acceptable] in Ha; try (by rewrite Hu).
  - destruct Ha as [-> Hq]. rewrite Hu. cbn [actionToProto pba_Queue]. rewrite length_fmap, decide_False by lia.
    cbn. by rewrite actionFromProto_to.
  - rewrite Hu. cbn. by rewrite tracks_roundtrip.
  - rewrite Hu. by rewrite decide_True.
Qed.

End CodecFacts.
