(* ===== verification/UserAgents.v ===== *)
(** UserAgents: [src/internal/server/useragents.go].

    Every handshake counts its User-Agent in a bucket of the database.  The
    bucket's sequence number counts the distinct agents, so the table stops
    growing at [MaxTrackedUserAgents] while known agents are still counted;
    counters saturate.  The statistics are served to an administrator who
    presents the token.  Opening the file is [openDatabase]. *)

From S2P Require Import Prelude Protocol Utf8 Validation Store.

Definition MaxUserAgentLength : Z := 512.
Definition MaxTrackedUserAgents : Z := 10000.
Definition userAgentsBucket : string := "user_agents".

Section Counting.
Context {DB : Type} `{Store DB}.

(** [bbolt.Open] and [os.Chmod] as they turn out; a file whose rights or bucket
    cannot be set is closed again. *)
Definition openDatabase (Open : string → option DB) (Chmod : string → bool) (path : string) : option DB :=
  need db := Open path orelse None in
  refuse ¬ Chmod path by None in
  update db [CreateBucketIfNotExists userAgentsBucket].

(** The count after one more handshake. *)
Definition next_count (value : option string) : Z :=
  match value with
  | None => 1
  | Some v => let count := Uint64 v in if decide (count < uint64_max) then count + 1 else count
  end.

(** [None] is the error; a missing database counts nothing. *)
Definition recordUserAgent (userAgent : string) (d : option DB) : option (option DB) :=
  match d with
  | None => Some None
  | Some db =>
    let userAgent := sanitizeString userAgent MaxUserAgentLength in
    refuse userAgent = "" by Some d in
    let value := bucket db userAgentsBucket !! userAgent in
    let put := Put userAgentsBucket userAgent (PutUint64 (next_count value)) in
    match value with
    | None =>
      refuse MaxTrackedUserAgents ≤ sequence db userAgentsBucket by Some d in
      Some <$> update db [NextSequence userAgentsBucket; put]
    | Some v =>
      refuse len v ≠ 8 by None in
      Some <$> update db [put]
    end
  end.

Definition userAgentCounts (d : option DB) : option (gmap string Z) :=
  match d with
  | None => Some ∅
  | Some db =>
    let m := bucket db userAgentsBucket in
    if decide (map_Forall (λ _ v, len v = 8) m) then Some (Uint64 <$> m) else None
  end.

(** *** The statistics endpoint *)

Inductive Response := Failure (status : Z) | Statistics (counts : gmap string Z).

Definition CutPrefix (s prefix : string) : string :=
  if HasPrefix s prefix then implode (drop (String.length prefix) (explode s)) else s.

Definition userAgentsHandler (sha256 : string → string) (adminToken method authorization : string)
    (d : option DB) : Response :=
  refuse method ≠ "GET" by Failure 405 in
  let provided := CutPrefix authorization "Bearer " in
  refuse adminToken = "" ∨ sha256 adminToken ≠ sha256 provided by Failure 401 in
  match userAgentCounts d with
  | None => Failure 500
  | Some counts => Statistics counts
  end.

(** ** Lemmas *)

(** The table of agents: at most as many keys as the sequence number, which
    stays within its limit, and every value is a positive counter. *)
Record agents_ok (db : DB) : Prop := {
  ag_size : Z.of_nat (size (bucket db userAgentsBucket)) ≤ sequence db userAgentsBucket;
  ag_limit : sequence db userAgentsBucket ≤ MaxTrackedUserAgents;
  ag_values k v : bucket db userAgentsBucket !! k = Some v → len v = 8 ∧ 1 ≤ Uint64 v;
  ag_keys k : is_Some (bucket db userAgentsBucket !! k) →
    ValidString k = true ∧ len k ≤ MaxUserAgentLength ∧ k ≠ ""
}.

Lemma next_count_range value :
  (∀ v, value = Some v → len v = 8 ∧ 1 ≤ Uint64 v) → is_uint64 (next_count value) ∧ 1 ≤ next_count value.
Proof.
  intros Hv. destruct value as [v|]; cbn; [|unfold is_uint64, uint64_max; lia].
  destruct (Hv v eq_refl) as [Hl Hp]. pose proof (Uint64_range v Hl) as Hr. unfold is_uint64 in *.
  case_decide; lia.
Qed.
End Counting.

Section Counted.
Context {DB : Type} `{StoreLaws DB}.

(** What a successful call does to the table. *)
Lemma record_cases ua db d' :
  agents_ok db → recordUserAgent ua (Some db) = Some d' →
  let key := sanitizeString ua MaxUserAgentLength in
  let m := bucket db userAgentsBucket in
  (d' = Some db ∧ (key = "" ∨ (m !! key = None ∧ MaxTrackedUserAgents ≤ sequence db userAgentsBucket))) ∨
  (∃ db', d' = Some db' ∧ key ≠ "" ∧
    bucket db' userAgentsBucket = <[key := PutUint64 (next_count (m !! key))]> m ∧
    sequence db' userAgentsBucket = sequence db userAgentsBucket + (if m !! key then 0 else 1) ∧
    (m !! key = None → sequence db userAgentsBucket < MaxTrackedUserAgents)).
Proof.
  intros Hok. unfold recordUserAgent. set (key := sanitizeString ua MaxUserAgentLength). cbv zeta.
  case_decide as Hk; [intros [= <-]; auto|].
  destruct (bucket db userAgentsBucket !! key) as [v|] eqn:Hm.
  - destruct (ag_values _ Hok _ _ Hm) as [Hl _]. rewrite decide_False by tauto.
    destruct (update db _) as [db'|] eqn:Hu; [|done]. intros [= <-]. right. exists db'.
    rewrite (update_bucket _ _ _ _ Hu), (update_sequence _ _ _ _ Hu). cbn. rewrite decide_True by done.
    split_and!; [done..|lia|done].
  - case_decide as Hq; [intros [= <-]; auto|].
    destruct (update db _) as [db'|] eqn:Hu; [|done]. intros [= <-]. right. exists db'.
    rewrite (update_bucket _ _ _ _ Hu), (update_sequence _ _ _ _ Hu). cbn.
    rewrite !decide_True by done. split_and!; [done..|lia].
Qed.

Lemma record_ok ua db d' :
  agents_ok db → recordUserAgent ua (Some db) = Some d' → ∃ db', d' = Some db' ∧ agents_ok db'.
Proof.
  intros Hok Hrec. destruct (record_cases _ _ _ Hok Hrec) as [[-> _]|(db' & -> & Hk & Hb & Hs & Hlt)]; [eauto|].
  exists db'. split; [done|]. destruct Hok as [S1 S2 S3 S4]. set (key := sanitizeString ua MaxUserAgentLength) in *.
  destruct (next_count_range (bucket db userAgentsBucket !! key)) as [Hr Hp]; [by eauto|].
  split; rewrite ?Hb, ?Hs.
  - rewrite map_size_insert. destruct (bucket db userAgentsBucket !! key); cbn; lia.
  - destruct (bucket db userAgentsBucket !! key); [lia|]. specialize (Hlt eq_refl). lia.
  - intros k v [[<- <-]|[_ ?]]%lookup_insert_Some; [|eauto]. by rewrite PutUint64_length, Uint64_Put.
  - intros k [v [[<- _]|[_ ?]]%lookup_insert_Some]; [|eauto].
    assert (4 ≤ MaxUserAgentLength) by done.
    split_and!; [by apply sanitizeString_valid|by apply sanitizeString_len|done].
Qed.

Lemma counts_ok db : agents_ok db → userAgentCounts (Some db) = Some (Uint64 <$> bucket db userAgentsBucket).
Proof. intros Hok. unfold userAgentCounts. rewrite decide_True; [done|]. intros k v Hk. by apply (ag_values _ Hok k v). Qed.

Definition record_all (uas : list string) (db : DB) : option (option DB) :=
  foldl (λ d ua, d ≫= recordUserAgent ua) (Some (Some db)) uas.

Lemma record_all_ok uas db d' :
  agents_ok db → record_all uas db = Some d' → ∃ db', d' = Some db' ∧ agents_ok db'.
Proof.
  intros Hok. revert d'. unfold record_all. induction uas as [|ua uas IH] using rev_ind; intros d'.
  - intros [= <-]. eauto.
  - rewrite foldl_snoc. destruct (foldl _ _ uas) as [d|]; [|done].
    destruct (IH d eq_refl) as (db1 & -> & Hok1). cbn. by apply record_ok.
Qed.

(** ** Properties *)

(** C38: however many handshakes are counted, the table holds at most
    [MaxTrackedUserAgents] agents of at most [MaxUserAgentLength] bytes of
    valid UTF-8, and the statistics can always be read. *)
Theorem agents_bounded uas db d' :
  agents_ok db → record_all uas db = Some d' →
  ∃ counts, userAgentCounts d' = Some counts ∧ Z.of_nat (size counts) ≤ MaxTrackedUserAgents ∧
    ∀ agent n, counts !! agent = Some n →
      1 ≤ n ≤ uint64_max ∧ ValidString agent = true ∧ len agent ≤ MaxUserAgentLength ∧ agent ≠ "".
Proof.
  intros Hok Hrec. destruct (record_all_ok _ _ _ Hok Hrec) as (db' & -> & Hok'). pose proof Hok' as [S1 S2 S3 S4].
  eexists. split_and!; [by apply counts_ok|rewrite map_size_fmap; lia|].
  intros agent n Hn. rewrite lookup_fmap_Some in Hn. destruct Hn as (v & <- & Hv).
  destruct (S3 _ _ Hv) as [Hl Hp]. pose proof (Uint64_range v Hl). unfold is_uint64 in *.
  split; [lia|]. apply S4. by rewrite Hv.
Qed.

(** a handshake that is counted adds one to its own agent, saturating at
    the largest counter, and nothing else changes; only an agent whose name is
    empty once cleaned, or a new one when the table is full, is not counted. *)
Theorem handshake_counted ua db db' counts :
  agents_ok db → userAgentCounts (Some db) = Some counts → recordUserAgent ua (Some db) = Some (Some db') →
  let key := sanitizeString ua MaxUserAgentLength in
  userAgentCounts (Some db') = Some
    (if decide (key = "" ∨ (counts !! key = None ∧ MaxTrackedUserAgents ≤ sequence db userAgentsBucket)) then counts
     else <[key := Z.min uint64_max (default 0 (counts !! key) + 1)]> counts).
Proof.
  intros Hok Hc Hrec. rewrite counts_ok in Hc by done. injection Hc as <-. cbv zeta.
  set (key := sanitizeString ua MaxUserAgentLength).
  destruct (record_ok _ _ _ Hok Hrec) as (db1 & [= <-] & Hok'). rewrite counts_ok by done. f_equal.
  destruct (record_cases _ _ _ Hok Hrec) as [[[= ->] Hn]|(db1 & [= <-] & Hk & Hb & _ & Hlt)];
    [change (sanitizeString ua MaxUserAgentLength) with key in Hn|
     change (sanitizeString ua MaxUserAgentLength) with key in Hk, Hb, Hlt].
  - rewrite decide_True; [done|]. destruct Hn as [?|[Hm ?]]; [by left|right]. by rewrite lookup_fmap, Hm.
  - rewrite decide_False; last first.
    { intros [?|[Hm Hle]]; [done|]. rewrite lookup_fmap in Hm. apply fmap_None in Hm. specialize (Hlt Hm). lia. }
    rewrite Hb, fmap_insert. f_equal. rewrite lookup_fmap, Uint64_Put.
    + destruct (bucket db userAgentsBucket !! key) as [v|] eqn:Hv; cbn; [|done].
      destruct (ag_values _ Hok _ _ Hv) as [Hl _]. pose proof (Uint64_range v Hl) as Hr.
      unfold is_uint64 in Hr. case_decide; lia.
    + apply next_count_range. intros v. apply (ag_values _ Hok).
Qed.

(** the statistics are served exactly to a GET request whose token hashes
    like the configured one, so with a hash that separates the two tokens only
    the right token opens them; without a configured token nothing does. *)
Theorem statistics_guarded sha256 adminToken method authorization db :
  agents_ok db →
  (∃ counts, userAgentsHandler sha256 adminToken method authorization (Some db) = Statistics counts) ↔
  method = "GET" ∧ adminToken ≠ "" ∧ sha256 adminToken = sha256 (CutPrefix authorization "Bearer ").
Proof.
  intros Hok. unfold userAgentsHandler. rewrite counts_ok by done. split.
  - case_decide as Hm; [intros [? [=]]|]. cbv zeta. case_decide as Ha; [intros [? [=]]|]. intros _.
    split_and!; [done|tauto|]. apply dec_stable. tauto.
  - intros (-> & Ht & Hs). rewrite decide_False by tauto. cbv zeta. rewrite decide_False by tauto. eauto.
Qed.
End Counted.

(** ** Witnesses *)

Definition no_agents : MapStore := mkMapStore ∅ ∅.
Lemma no_agents_ok : agents_ok no_agents.
Proof. split; [done|done|intros k v; done|intros k [v Hv]; done]. Qed.

Lemma agents_bounded_witness :
  ∃ d counts, record_all ["Metrolist"; "curl"; "Metrolist"] no_agents = Some d ∧
    userAgentCounts d = Some counts ∧ Z.of_nat (size counts) ≤ MaxTrackedUserAgents.
Proof.
  destruct (record_all ["Metrolist"; "curl"; "Metrolist"] no_agents) as [d|] eqn:Hr; [|by vm_compute in Hr].
  destruct (agents_bounded _ _ _ no_agents_ok Hr) as (counts & Hc & Hs & _).
  exists d, counts. by split_and!.
Defined.

Lemma handshake_counted_witness :
  ∃ db, recordUserAgent "curl" (Some no_agents) = Some (Some db) ∧
    userAgentCounts (Some db) = Some (<["curl" := Z.min uint64_max (0 + 1)]> ∅).
Proof.
  destruct (recordUserAgent "curl" (Some no_agents)) as [[db|]|] eqn:Hr; [|by vm_compute in Hr..].
  exists db. split; [done|]. pose proof (handshake_counted "curl" no_agents db ∅ no_agents_ok eq_refl Hr) as Hc.
  cbv zeta in Hc. rewrite Hc. vm_compute. reflexivity.
Defined.

Lemma statistics_guarded_witness :
  ∃ counts, userAgentsHandler (λ s, s) "secret" "GET" "Bearer secret" (Some no_agents) = Statistics counts.
Proof. apply (statistics_guarded (λ s, s) "secret" "GET" "Bearer secret" no_agents no_agents_ok). by vm_compute. Defined.
