(* ===== verification/Persistence.v ===== *)
(** Persistence: [src/internal/server/persistence.go].

    Rooms are written behind: every flush encodes all rooms, writes the records
    that changed and deletes those that are gone, in one transaction; after a
    restart [LoadState] rebuilds the rooms with every member away, their
    reserved seats reachable by the tokens they already hold.  JSON is the
    interface [Json]; the database is the interface [Store]. *)

From stdpp Require Import sorting.
From S2P Require Import Prelude Protocol Utf8 Validation UAPolicy World Client Roster Hosts Playback Limits Members Rooms Lifecycle Store.

Definition flushHeartbeat : Duration := 30 * Second.
Definition MaxStateFileSize : Z := 50 * 1024 * 1024.
Definition serverStateBucket : string := "server_state".
Definition serverStateKey : string := "latest".
Definition roomsBucket : string := "rooms".
Definition metaBucket : string := "meta".
Definition flushedAtKey : string := "flushed_at".

(** ** Records *)

Record PersistentSuggestion := mkPersistentSuggestion {
  psg_ID : string; psg_FromUserID : string; psg_FromUsername : string; psg_Track : option TrackInfo }.
Record PersistentSession := mkPersistentSession {
  pse_Token : string; pse_UserID : string; pse_Username : string; pse_RoomCode : string;
  pse_IsHost : bool; pse_DisconnectAt : Time }.
Record PersistentRoom := mkPersistentRoom {
  pr_Code : string; pr_HostID : string; pr_OwnerID : string; pr_TrackRevision : Z;
  pr_State : option RoomState; pr_DisconnectedUsers : gmap string Session;
  pr_PendingSuggestions : list PersistentSuggestion; pr_HostDisconnectedAt : option Time }.
#[export] Instance PersistentRoom_eta : Eta PersistentRoom := fun r =>
  mkPersistentRoom (pr_Code r) (pr_HostID r) (pr_OwnerID r) (pr_TrackRevision r) (pr_State r)
    (pr_DisconnectedUsers r) (pr_PendingSuggestions r) (pr_HostDisconnectedAt r).
Record roomRecord := mk_roomRecord { rr_Room : PersistentRoom; rr_Sessions : list PersistentSession }.
Record PersistentState := mkPersistentState {
  pst_ServerShutdownTime : Time; pst_Rooms : list PersistentRoom; pst_Sessions : list PersistentSession }.

(** The strings of a record. *)
Definition track_strings (t : TrackInfo) : list string :=
  [ti_ID t; ti_Title t; ti_Artist t; ti_Album t; ti_Thumbnail t; ti_SuggestedBy t].
Definition state_strings (state : RoomState) : list string :=
  rs_RoomCode state :: rs_HostID state :: rs_QueueTitle state ::
  mjoin ((λ u, [ui_UserID u; ui_Username u]) <$> rs_Users state) ++
  mjoin (track_strings <$> option_list (rs_CurrentTrack state) ++ rs_Queue state).
Definition record_strings (record : roomRecord) : list string :=
  let room := rr_Room record in
  [pr_Code room; pr_HostID room; pr_OwnerID room] ++
  mjoin (state_strings <$> option_list (pr_State room)) ++
  mjoin ((λ e : string * Session, [e.1; se_UserID e.2; se_Username e.2; se_RoomCode e.2]) <$>
    map_to_list (pr_DisconnectedUsers room)) ++
  mjoin ((λ p, psg_ID p :: psg_FromUserID p :: psg_FromUsername p ::
    mjoin (track_strings <$> option_list (psg_Track p))) <$> pr_PendingSuggestions room) ++
  mjoin ((λ p, [pse_Token p; pse_UserID p; pse_Username p; pse_RoomCode p]) <$> rr_Sessions record).

(** [encoding/json] on these types.  [claimed] is not exported, so it is not
    written; text comes back as it was when it is valid UTF-8; an encoding is
    never empty. *)
Class Json := {
  marshal_room : roomRecord → option string;
  unmarshal_room : string → option roomRecord;
  unmarshal_state : string → option PersistentState
}.
Definition unclaimed (s : Session) : Session := s <| se_claimed := false |>.
Definition json_view (record : roomRecord) : roomRecord :=
  mk_roomRecord ((rr_Room record) <| pr_DisconnectedUsers ::= fmap unclaimed |>)
    (rr_Sessions record).
Class JsonLaws `{Json} := {
  json_roundtrip record data :
    Forall (λ s, ValidString s = true) (record_strings record) →
    marshal_room record = Some data → unmarshal_room data = Some (json_view record);
  json_nonempty record data : marshal_room record = Some data → data ≠ ""
}.

(** ** Snapshots *)

Definition string_le (a b : string) : Prop := ¬ string_lt b a.
#[export] Instance string_le_dec a b : Decision (string_le a b) := not_dec _.
(** [sort.Slice] by a string key *)
Definition sort_by {A} (key : A → string) : list A → list A := merge_sort (λ x y, string_le (key x) (key y)).

Definition disconnect_all (state : RoomState) : RoomState :=
  state <| rs_Users ::= fmap (λ u, u <| ui_IsConnected := false |>) |>.

(** The entries of the session table that belong to a room. *)
Definition sessionsByRoom (code : string) (w : World) : list PersistentSession :=
  (λ e : string * SessionRef, let s := getSession e.2 w in
    mkPersistentSession e.1 (se_UserID s) (se_Username s) (se_RoomCode s) (se_IsHost s) (se_DisconnectAt s)) <$>
  filter (λ e : string * SessionRef, e.1 ≠ "" ∧ se_RoomCode (getSession e.2 w) = code)
    (map_to_list (sessions (w_srv w))).

(** A member's token; [draw] is what the generator returns for the member. *)
Definition member_token (draw : ClientRef → string) (c : ClientRef) (w : World) : string :=
  if decide (session c w = "") then draw c else session c w.
Definition give_tokens (draw : ClientRef → string) (w : World) (cs : list ClientRef) : World :=
  foldl (λ w c, if decide (session c w = "") then setSessionToken c (draw c) w else w) w cs.

Definition persistRoomLocked (draw : ClientRef → string) (r : RoomRef) (sessions : list PersistentSession)
    (w : World) : roomRecord * World :=
  let room := getRoom r w in
  let isHost := λ id : string, bool_decide (rs_HostID (State room) = id) in
  let seated := map_to_list (Clients room) in
  let away := (λ s, getSession s w) <$> DisconnectedUsers room in
  let here := map_imap (λ id c, Some (mkSession id (userName c w) (Code room) (isHost id) 0 false)) (Clients room) in
  let tokens := (λ e : string * ClientRef,
    mkPersistentSession (member_token draw e.2 w) e.1 (userName e.2 w) (Code room) (isHost e.1) 0) <$> seated in
  let suggestions := (λ sg : Suggestion,
    mkPersistentSuggestion (sg_ID sg) (sg_FromUserID sg) (sg_FromUsername sg) (cloneTrackInfo (sg_Track sg))) <$>
      (map_to_list (PendingSuggestions room)).*2 in
  (mk_roomRecord
     (mkPersistentRoom (Code room) (rs_HostID (State room)) (OwnerID room) (TrackRevision room)
        (Some (disconnect_all (cloneRoomState (State room)))) (here ∪ away) (sort_by psg_ID suggestions)
        (HostDisconnectedAt room))
     (sort_by pse_Token (sessions ++ tokens)),
   give_tokens draw w seated.*2).

Section Snapshots.
Context `{Json}.

Definition snapshot_step (draw : ClientRef → string) (w0 : World) (acc : option (gmap string string) * World)
    (entry : string * RoomRef) : option (gmap string string) * World :=
  match acc with
  | (Some records, w) =>
    let '(record, w) := persistRoomLocked draw entry.2 (sessionsByRoom entry.1 w0) w in
    match marshal_room record with
    | Some data => (Some (<[entry.1 := data]> records), w)
    | None => (None, w)
    end
  | (None, w) => (None, w)
  end.
Definition snapshotRooms (draw : ClientRef → string) (w : World) : option (gmap string string) * World :=
  foldl (snapshot_step draw w) (Some ∅, w) (map_to_list (rooms (w_srv w))).
End Snapshots.

(** ** Flushing *)

Definition changed_records (old records : gmap string string) : gmap string string :=
  filter (λ e, default "" (old !! e.1) ≠ e.2) records.
Definition removed_records (old records : gmap string string) : list string :=
  (map_to_list (filter (λ e, records !! e.1 = None) old)).*1.
Definition flush_writes (now : Time) (changed : gmap string string) (removed : list string) : list Write :=
  CreateBucketIfNotExists roomsBucket ::
  ((λ e : string * string, Put roomsBucket e.1 e.2) <$> map_to_list changed) ++ (Remove roomsBucket <$> removed) ++
  [CreateBucketIfNotExists metaBucket; Put metaBucket flushedAtKey (PutUint64 (uint64_wrap (UnixMilli now)))].

Section Flushing.
Context `{Json} {DB : Type} `{Store DB}.

(** Whether it succeeded, the database and the world. *)
Definition flushState (draw : ClientRef → string) (force : bool) (now : Time) (d : option DB) (w : World)
    : bool * option DB * World :=
  match d with
  | None => (false, d, w)
  | Some db =>
    match snapshotRooms draw w with
    | (None, w) => (false, d, w)
    | (Some records, w) =>
      let old := persisted (w_srv w) in
      let changed := changed_records old records in
      let removed := removed_records old records in
      if decide (force = false ∧ changed = ∅ ∧ removed = [] ∧ Sub now (lastFlush (w_srv w)) < flushHeartbeat)
      then (true, d, w)
      else match update db (flush_writes now changed removed) with
      | None => (false, d, w)
      | Some db' =>
        (true, Some db', setServer (λ srv, srv
          <| persisted := changed ∪ filter (λ e, is_Some (records !! e.1)) old |> <| lastFlush := now |>) w)
      end
    end
  end.
Definition FlushState draw := flushState draw false.
Definition SaveState draw := flushState draw true.
End Flushing.

(** ** Loading *)

(** [time.UnixMilli] *)
Definition Time_UnixMilli (ms : Z) : Time := ms * Millisecond + 62135596800 * Second.

(** [server_state.json], as [os.Stat] and [os.ReadFile] find it *)
Inductive LegacyFile :=
  | NoFile
  | StatFails
  | ReadFails
  | FileHolds (data : string).
#[export] Instance LegacyFile_eq_dec : EqDecision LegacyFile.
Proof. solve_decision. Defined.

Definition disconnectedAt (flushedAt : Time) (offline : Duration) (now t : Time) : Time :=
  (if decide (IsZero t) then (if decide (IsZero flushedAt) then now else flushedAt) else t) + offline.

(** A track that ended during the outage is parked at its end. *)
Definition park (nowMs : Z) (state : RoomState) : RoomState :=
  match rs_CurrentTrack state with
  | Some track =>
    if decide (rs_IsPlaying state = true ∧ 0 < ti_Duration track ∧
               ti_Duration track ≤ livePlaybackPosition state nowMs)
    then state <| rs_IsPlaying := false |> <| rs_Position := ti_Duration track |> <| rs_LastUpdate := nowMs |>
    else state
  | None => state
  end.
Definition restored_state (nowMs : Z) (state : RoomState) : RoomState :=
  park nowMs ((disconnect_all state) <| rs_Queue ::= sanitizeQueue |>).

Definition restored_suggestions (l : list PersistentSuggestion) : gmap string Suggestion :=
  foldl (λ m p, <[psg_ID p := mkSuggestion (psg_ID p) (psg_FromUserID p) (psg_FromUsername p) (psg_Track p)]> m) ∅ l.

(** Members that hold a token; a record without any token keeps everybody. *)
Definition reconnectable (record : roomRecord) (userID : string) : Prop :=
  rr_Sessions record = [] ∨ Exists (λ p, pse_UserID p = userID ∧ pse_Token p ≠ "") (rr_Sessions record).
#[export] Instance reconnectable_dec record id : Decision (reconnectable record id).
Proof. unfold reconnectable. destruct (rr_Sessions record); [by left; left|]. apply _. Defined.

Definition restore_member (record : roomRecord) (since : Time → Time) (acc : Room * World)
    (entry : string * Session) : Room * World :=
  let '(room, w) := acc in
  if decide (reconnectable record entry.1) then
    let '(s, w) := newSession (entry.2 <| se_DisconnectAt ::= since |>) w in
    (room <| DisconnectedUsers ::= <[entry.1 := s]> |>, w)
  else (setState (λ st, st <| rs_Users ::= λ users, withoutUser users entry.1 |>) room, w).

Definition restored_session (since : Time → Time) (p : PersistentSession) : Session :=
  mkSession (pse_UserID p) (pse_Username p) (pse_RoomCode p) (pse_IsHost p) (since (pse_DisconnectAt p)) false.
Definition restore_token (since : Time → Time) (w : World) (p : PersistentSession) : World :=
  if decide (pse_Token p = "") then w
  else let '(s, w) := newSession (restored_session since p) w in
    setServer (λ srv, srv <| sessions ::= <[pse_Token p := s]> |>) w.

(** When the host went away: as recorded, or when its seat became reserved. *)
Definition restored_host_away (offline : Duration) (pr : PersistentRoom) (room : Room) (w : World) : option Time :=
  match pr_HostDisconnectedAt pr with
  | Some t => Some (t + offline)
  | None =>
    if decide (pr_HostID pr = "") then None
    else (λ s, se_DisconnectAt (getSession s w)) <$> (DisconnectedUsers room !! pr_HostID pr)
  end.

Definition restoreRoomLocked (e : Env) (flushedAt : Time) (offline : Duration) (record : roomRecord) (w : World)
    : World :=
  let pr := rr_Room record in
  match pr_State pr with
  | None => w
  | Some state =>
    let since := disconnectedAt flushedAt offline (e_now e) in
    let room := mkRoom (pr_Code pr) None ∅ ∅ (restored_suggestions (pr_PendingSuggestions pr)) ∅
      (restored_state (e_nowMs e) state) None None (pr_OwnerID pr) 0 (pr_TrackRevision pr) ∅ in
    let '(room, w) := foldl (restore_member record since) (room, w) (map_to_list (pr_DisconnectedUsers pr)) in
    let '(r, w) := newRoom (room <| HostDisconnectedAt := restored_host_away offline pr room w |>) w in
    let w := setServer (λ srv, srv <| rooms ::= <[pr_Code pr := r]> |>) w in
    foldl (restore_token since) w (rr_Sessions record)
  end.

Section Loading.
Context `{Json} {DB : Type} `{Store DB}.

Definition saveServerState (data : string) (d : option DB) : bool * option DB :=
  match d with
  | None => (false, d)
  | Some db => match update db [CreateBucketIfNotExists serverStateBucket; Put serverStateBucket serverStateKey data] with
    | Some db' => (true, Some db') | None => (false, d) end
  end.
Definition loadServerState (db : DB) : string := default "" (bucket db serverStateBucket !! serverStateKey).
Definition consumeServerState (d : option DB) : bool * option DB :=
  match d with
  | None => (false, d)
  | Some db => match update db [Remove serverStateBucket serverStateKey] with
    | Some db' => (true, Some db') | None => (false, d) end
  end.

Definition stamp_time (stamp : string) : Time :=
  if decide (len stamp = 8) then Time_UnixMilli (int64_wrap (Uint64 stamp)) else 0.
Definition loadRoomRecords (db : DB) : gmap string string * Time :=
  (bucket db roomsBucket, stamp_time (default "" (bucket db metaBucket !! flushedAtKey))).

(** [inr None] when there is nothing to migrate, [inl] on an error *)
Definition readLegacyState (file : LegacyFile) (db : DB) : unit + option (list roomRecord * Time) :=
  let parse := λ data,
    match unmarshal_state data with
    | None => inl tt
    | Some state => inr (Some (
        (λ room, mk_roomRecord room (filter (λ p, pse_RoomCode p = pr_Code room) (pst_Sessions state))) <$>
          pst_Rooms state, pst_ServerShutdownTime state))
    end in
  let data := loadServerState db in
  if decide (data = "") then
    match file with
    | NoFile => inr None
    | StatFails | ReadFails => inl tt
    | FileHolds data => if decide (MaxStateFileSize < len data) then inl tt else parse data
    end
  else parse data.

Definition offline_for (now flushedAt : Time) : Duration :=
  if decide (¬ IsZero flushedAt ∧ flushedAt < now) then Sub now flushedAt else 0.

(** [removed] is whether [os.Remove] of the legacy file succeeds. *)
Definition LoadState (draw : ClientRef → string) (e : Env) (file : LegacyFile) (removed : bool) (d : option DB)
    (w : World) : bool * option DB * LegacyFile * World :=
  match d with
  | None => (false, d, file, w)
  | Some db =>
    let '(raw, flushedAt) := loadRoomRecords db in
    match mapM (λ entry : string * string, unmarshal_room entry.2) (map_to_list raw), readLegacyState file db with
    | None, _ | _, inl _ => (false, d, file, w)
    | Some records, inr legacy =>
      let '(records, flushedAt) := match records, legacy with
        | [], Some old => old
        | _, _ => (records, flushedAt)
        end in
      let offline := offline_for (e_now e) flushedAt in
      let w := foldl (λ w record, restoreRoomLocked e flushedAt offline record w) w records in
      match legacy with
      | Some _ =>
        match SaveState draw (e_now e) d w with
        | (false, d, w) => (false, d, file, w)
        | (true, d, w) =>
          match consumeServerState d with
          | (false, d) => (false, d, file, w)
          | (true, d) => if removed then (true, d, NoFile, w)
            else if decide (file = NoFile) then (true, d, file, w) else (false, d, file, w)
          end
        end
      | None => (true, d, file, setServer (λ srv, srv <| persisted ::= λ m, raw ∪ m |>) w)
      end
    end
  end.
End Loading.
