(* ===== verification/Flush.v ===== *)
(** Flush: write-behind keeps the database a copy of the rooms.

    A flush writes only what changed since the last one, yet leaves in the
    database exactly the encoding of every room; a failed transaction changes
    neither the database nor the server's record of it; a server on which
    nothing happens writes nothing but its heartbeat. *)

From stdpp Require Import sorting.
From S2P Require Import Prelude Protocol Utf8 Validation UAPolicy World Client Roster Hosts Playback Limits Members Rooms Lifecycle Store Persistence.

(** ** Transactions as map updates *)

Lemma puts_bucket b (l : list (string * string)) (m : gmap string string) :
  NoDup l.*1 → foldl (write_bucket b) m ((λ e, Put b e.1 e.2) <$> l) = list_to_map l ∪ m.
Proof.
  intros Hnd. transitivity (foldl (λ m e, <[e.1 := e.2]> m) m l).
  { rewrite foldl_fmap. revert m. clear. induction l; intros m; cbn; [done|]. by rewrite decide_True. }
  rewrite foldl_insert by done. f_equal. f_equal. induction l as [|[] ? IH]; [done|]. cbn. f_equal. apply IH.
  by apply NoDup_cons in Hnd as [_ ?].
Qed.

Lemma removes_bucket b l (m : gmap string string) :
  foldl (write_bucket b) m (Remove b <$> l) = filter (λ e, e.1 ∉ l) m.
Proof.
  revert m. induction l as [|k l IH]; intros m; cbn.
  { symmetry. apply map_filter_id. intros ? ? _. apply not_elem_of_nil. }
  rewrite decide_True, IH by done. apply map_eq. intros i. apply option_eq. intros v.
  rewrite !map_lookup_filter_Some, lookup_delete_Some, not_elem_of_cons. naive_solver.
Qed.

Lemma flush_writes_rooms now changed removed m :
  foldl (write_bucket roomsBucket) m (flush_writes now changed removed) =
  filter (λ e, e.1 ∉ removed) (changed ∪ m).
Proof.
  unfold flush_writes. cbn [foldl write_bucket]. rewrite !foldl_app. cbn [foldl write_bucket]. rewrite decide_False by done.
  rewrite puts_bucket by apply NoDup_fst_map_to_list. by rewrite list_to_map_to_list, removes_bucket.
Qed.

Lemma flush_writes_meta now changed removed m :
  foldl (write_bucket metaBucket) m (flush_writes now changed removed) !! flushedAtKey =
  Some (PutUint64 (uint64_wrap (UnixMilli now))).
Proof. unfold flush_writes. cbn [foldl write_bucket]. rewrite !foldl_app. cbn. rewrite decide_True by done. by rewrite lookup_insert_eq. Qed.

Lemma flush_writes_other b now changed removed m :
  b ≠ roomsBucket → b ≠ metaBucket → foldl (write_bucket b) m (flush_writes now changed removed) = m.
Proof.
  intros Hr Hm. unfold flush_writes. cbn [foldl write_bucket]. rewrite !foldl_app. cbn. rewrite decide_False by done.
  assert (∀ l (x : gmap string string), foldl (write_bucket b) x (Remove roomsBucket <$> l) = x) as ->.
  { induction l; intros; cbn; [done|]. by rewrite decide_False. }
  generalize (map_to_list changed). intros l. revert m. induction l as [|[] l IH]; intros m; cbn; [done|].
  by rewrite decide_False.
Qed.

(** ** The change set *)

Section Delta.
Context (old records : gmap string string).
Hypothesis records_full : ∀ code data, records !! code = Some data → data ≠ "".

Lemma changed_lookup code data :
  changed_records old records !! code = Some data ↔ records !! code = Some data ∧ old !! code ≠ Some data.
Proof.
  unfold changed_records. rewrite map_lookup_filter_Some. cbn. split; intros [Hr Ho]; (split; [done|]).
  - intros Hc. by rewrite Hc in Ho.
  - destruct (old !! code) eqn:E; cbn; [congruence|]. intros <-. by apply (records_full _ _ Hr).
Qed.

Lemma removed_elem code : code ∈ removed_records old records ↔ is_Some (old !! code) ∧ records !! code = None.
Proof.
  unfold removed_records. rewrite list_elem_of_fmap. split.
  - intros ([k v] & -> & [Hv Hk]%elem_of_map_to_list%map_lookup_filter_Some). cbn in *. eauto.
  - intros [[v Hv] Hc]. exists (code, v). split; [done|]. apply elem_of_map_to_list.
    by rewrite map_lookup_filter_Some.
Qed.

(** Applying the changes to the old records gives the new ones. *)
Lemma delta_bucket : filter (λ e, e.1 ∉ removed_records old records) (changed_records old records ∪ old) = records.
Proof.
  apply map_eq. intros code. apply option_eq. intros data.
  rewrite map_lookup_filter_Some, lookup_union_Some_raw, changed_lookup, removed_elem. cbn. split.
  - intros [[[? _]|[Hc Ho]] Hr]; [done|].
    destruct (records !! code) as [v|] eqn:E; [|by contradict Hr; eauto].
    destruct (decide (old !! code = Some v)); [congruence|].
    pose proof (proj2 (changed_lookup code v) (conj E n)). congruence.
  - intros Hr. split; [|intros [_ ?]; congruence].
    destruct (decide (old !! code = Some data)) as [Ho|]; [|by left].
    right. split; [|done]. apply eq_None_not_Some. intros [v [? ?]%changed_lookup]. congruence.
Qed.

Lemma delta_mirror :
  changed_records old records ∪ filter (λ e, is_Some (records !! e.1)) old = records.
Proof.
  etransitivity; [|apply delta_bucket]. apply map_eq. intros code. apply option_eq. intros data.
  rewrite map_lookup_filter_Some, !lookup_union_Some_raw, map_lookup_filter_Some, changed_lookup, removed_elem. cbn.
  rewrite <- not_eq_None_Some. destruct (records !! code) eqn:?; naive_solver.
Qed.

Lemma delta_empty : changed_records old records = ∅ → removed_records old records = [] → old = records.
Proof.
  intros Hc Hr. pose proof delta_mirror as Hd. rewrite Hc, map_empty_union in Hd.
  rewrite <- Hd. symmetry. apply map_filter_id.
  intros code v Hv. cbn. apply not_eq_None_Some. intros Hn.
  assert (code ∈ removed_records old records) as Hx by (apply removed_elem; eauto). rewrite Hr in Hx.
  by apply elem_of_nil in Hx.
Qed.

End Delta.

(** ** Snapshots *)

(** Every member of a registered room holds a token. *)
Definition tokens_held (w : World) : Prop :=
  ∀ code r id c, rooms (w_srv w) !! code = Some r → Clients (getRoom r w) !! id = Some c → session c w ≠ "".

Lemma roster_tokens_held E w : roster_ok E w → tokens_held w.
Proof.
  intros Hro code r id c Hr Hc. apply (ro_token E w Hro c r).
  apply (ro_seat E w Hro r id c); [|done]. by apply (registered_code E w Hro code).
Qed.

(** The record of a room all of whose members hold a token. *)
Definition record_of (r : RoomRef) (w : World) : roomRecord :=
  (persistRoomLocked (λ _, "") r (sessionsByRoom (Code (getRoom r w)) w) w).1.

Lemma persist_held draw r code w :
  (∀ id c, Clients (getRoom r w) !! id = Some c → session c w ≠ "") → Code (getRoom r w) = code →
  persistRoomLocked draw r (sessionsByRoom code w) w = (record_of r w, w).
Proof.
  intros Hh <-. unfold record_of, persistRoomLocked. cbn [fst]. f_equal.
  - f_equal. f_equal. f_equal. apply list_fmap_ext. intros i [id c] Hi%list_elem_of_lookup_2%elem_of_map_to_list.
    unfold member_token. cbn. by rewrite !decide_False by eauto.
  - unfold give_tokens.
    assert (∀ c, c ∈ (map_to_list (Clients (getRoom r w))).*2 → session c w ≠ "") as Hc.
    { intros c ([id ?] & -> & ?%elem_of_map_to_list)%list_elem_of_fmap. eauto. }
    induction ((map_to_list (Clients (getRoom r w))).*2) as [|c cs IH]; [done|]. cbn.
    rewrite decide_False by (apply Hc; left). apply IH. intros. apply Hc. by right.
Qed.

Section Snapshot.
Context `{Json}.

Lemma snapshot_fold draw w l acc :
  tokens_held w →
  (∀ e, e ∈ l → rooms (w_srv w) !! e.1 = Some e.2 ∧ Code (getRoom e.2 w) = e.1) →
  NoDup l.*1 →
  match foldl (snapshot_step draw w) (Some acc, w) l with
  | (Some records, w') => w' = w ∧
      (∀ code r, (code, r) ∈ l → marshal_room (record_of r w) = records !! code ∧ is_Some (records !! code)) ∧
      (∀ code, code ∉ l.*1 → records !! code = acc !! code)
  | (None, w') => w' = w ∧ ∃ e, e ∈ l ∧ marshal_room (record_of e.2 w) = None
  end.
Proof.
  intros Hh. revert acc. induction l as [|[code r] l IH]; intros acc Hl Hnd; cbn [foldl].
  { split; [done|]. split; [by intros ? ? ?%elem_of_nil|done]. }
  destruct (Hl (code, r)) as [Hr Hc]; [by left|]. cbn in Hr, Hc. apply NoDup_cons in Hnd as [Hn Hnd].
  unfold snapshot_step at 2. cbn [fst snd]. rewrite (persist_held draw r code w) by eauto. destruct (marshal_room (record_of r w)) as [data|] eqn:Hm.
  - specialize (IH (<[code := data]> acc)). destruct (foldl _ _ l) as [[records|] w'].
    + destruct IH as (-> & Hin & Hout); [intros; apply Hl; by right|done|].
      assert (records !! code = Some data) as Hd by (rewrite Hout by done; by rewrite lookup_insert_eq).
      split; [done|]. split.
      * intros code' r' [[= -> ->]|Hx]%elem_of_cons; [rewrite Hd; eauto|by apply Hin].
      * intros code' [? ?]%not_elem_of_cons. rewrite Hout by done. by rewrite lookup_insert_ne.
    + destruct IH as (-> & e & ? & ?); [intros; apply Hl; by right|done|]. split; [done|]. exists e.
      split; [by right|done].
  - assert (foldl (snapshot_step draw w) (None, w) l = (None, w)) as ->.
    { clear. by induction l. }
    split; [done|]. exists (code, r). split; [by left|done].
Qed.

(** [records] is the encoding of every room of [w], and of nothing else. *)
Definition encodes (records : gmap string string) (w : World) : Prop :=
  dom records = dom (rooms (w_srv w)) ∧
  ∀ code r, rooms (w_srv w) !! code = Some r → records !! code = marshal_room (record_of r w).

(** A snapshot holds the encoding of every room and changes nothing. *)
Lemma snapshot_spec E draw w :
  roster_ok E w →
  match snapshotRooms draw w with
  | (Some records, w') => w' = w ∧ encodes records w
  | (None, w') => w' = w ∧ ∃ code r, rooms (w_srv w) !! code = Some r ∧ marshal_room (record_of r w) = None
  end.
Proof.
  intros Hro. unfold snapshotRooms.
  pose proof (snapshot_fold draw w (map_to_list (rooms (w_srv w))) ∅ (roster_tokens_held _ _ Hro)) as Hf.
  destruct (foldl _ _ _) as [[records|] w'].
  - destruct Hf as (-> & Hin & Hout); [|apply NoDup_fst_map_to_list|].
    { intros [code r] Hx%elem_of_map_to_list. split; [done|]. by apply (registered_code E w Hro). }
    split; [done|]. split.
    + apply set_eq. intros code. rewrite !elem_of_dom. split; intros [x Hx].
      * destruct (rooms (w_srv w) !! code) eqn:Hr; [done|]. rewrite Hout in Hx; [by rewrite lookup_empty in Hx|].
        intros ([? ?] & -> & ?%elem_of_map_to_list)%list_elem_of_fmap. cbn in *. congruence.
      * apply (Hin code x). by apply elem_of_map_to_list.
    + intros code r Hr. symmetry. apply Hin. by apply elem_of_map_to_list.
  - destruct Hf as (-> & [code r] & Hin%elem_of_map_to_list & Hm); [|apply NoDup_fst_map_to_list|eauto].
    intros [code r] Hx%elem_of_map_to_list. split; [done|]. by apply (registered_code E w Hro).
Qed.

Lemma encodes_unique records records' w : encodes records w → encodes records' w → records = records'.
Proof.
  intros [Hd He] [Hd' He']. apply map_eq. intros code. destruct (rooms (w_srv w) !! code) as [r|] eqn:Hr.
  - by rewrite (He _ _ Hr), (He' _ _ Hr).
  - assert (code ∉ dom (rooms (w_srv w))) as Hn by by apply not_elem_of_dom.
    rewrite (proj1 (not_elem_of_dom records code)), (proj1 (not_elem_of_dom records' code)); congruence.
Qed.

(** A world whose rooms have been encoded before can be encoded again. *)
Lemma encodes_again E draw records w :
  roster_ok E w → encodes records w → snapshotRooms draw w = (Some records, w).
Proof.
  intros Hro He. pose proof (snapshot_spec E draw w Hro) as Hf.
  destruct (snapshotRooms draw w) as [[records'|] w'].
  - destruct Hf as [-> He']. by rewrite (encodes_unique _ _ _ He He').
  - destruct Hf as (-> & code & r & Hr & Hm). destruct He as [Hd He]. rewrite <- (He _ _ Hr) in Hm.
    apply not_elem_of_dom in Hm. rewrite Hd in Hm. contradict Hm. apply elem_of_dom. eauto.
Qed.

Lemma encodes_full `{!JsonLaws} records w code data : encodes records w → records !! code = Some data → data ≠ "".
Proof.
  intros [Hd He] Hc. assert (is_Some (rooms (w_srv w) !! code)) as [r Hr].
  { apply elem_of_dom. rewrite <- Hd. apply elem_of_dom. eauto. }
  rewrite (He _ _ Hr) in Hc. by eapply json_nonempty.
Qed.

End Snapshot.

(** ** Flushing *)

Section Flush.
Context `{Json, !JsonLaws} {DB : Type} `{Store DB, !StoreLaws DB}.

(** The server's record of what the database holds is right. *)
Definition mirror (d : DB) (w : World) : Prop := bucket d roomsBucket = persisted (w_srv w).

Lemma flush_cases E draw force now d w :
  roster_ok E w →
  (∃ reason : bool, flushState draw force now (Some d) w = (reason, Some d, w) ∧
     (reason = true → force = false ∧ encodes (persisted (w_srv w)) w)) ∨
  ∃ records d',
    encodes records w ∧
    update d (flush_writes now (changed_records (persisted (w_srv w)) records)
      (removed_records (persisted (w_srv w)) records)) = Some d' ∧
    flushState draw force now (Some d) w =
      (true, Some d', setServer (λ srv, srv <| persisted := records |> <| lastFlush := now |>) w).
Proof.
  intros Hro. unfold flushState. pose proof (snapshot_spec E draw w Hro) as Hs.
  destruct (snapshotRooms draw w) as [[records|] w']; [|destruct Hs as [-> _]; left; by exists false].
  destruct Hs as [-> He]. pose proof (λ code data, encodes_full records w code data He) as Hfull.
  case_decide as Hskip; [left; exists true; split; [done|intros _]|].
  - destruct Hskip as (-> & Hc & Hr & _). by rewrite (delta_empty _ _ Hfull Hc Hr).
  - destruct (update _ _) as [d'|] eqn:Hu; [right|by left; exists false].
    exists records, d'. by rewrite delta_mirror.
Qed.

(** What the flush records does not concern the roster or the encodings. *)
Lemma flushed_roster E records now w :
  roster_ok E w → roster_ok E (setServer (λ srv, srv <| persisted := records |> <| lastFlush := now |>) w).
Proof. intros Hro. by apply (roster_frame E w). Qed.

(** C18: write-behind refines writing everything.  If the server's record of the
    stored rooms is right, it is right after a flush; a flush that succeeds
    leaves in the database the encoding of every room and no other record, one
    that fails leaves the database and the server as they were; the other
    buckets are never touched. *)
Theorem flush_mirrors E draw force now d w ok d2 w' :
  roster_ok E w → mirror d w → flushState draw force now (Some d) w = (ok, d2, w') →
  ∃ d', d2 = Some d' ∧ mirror d' w' ∧
    (if ok then encodes (bucket d' roomsBucket) w' else d' = d ∧ w' = w) ∧
    ∀ b, b ≠ roomsBucket → b ≠ metaBucket → bucket d' b = bucket d b.
Proof.
  intros Hro Hm Hf. destruct (flush_cases E draw force now d w Hro) as [(ok' & Hf' & Hok)|(records & d' & He & Hu & Hf')];
    rewrite Hf' in Hf; injection Hf as <- <- <-.
  - exists d. split_and!; [done|done| |done]. destruct ok'; [|done]. rewrite Hm. by apply Hok.
  - assert (bucket d' roomsBucket = records) as Hb.
    { rewrite (update_bucket _ _ _ _ Hu), flush_writes_rooms, Hm. apply delta_bucket. intros code data.
      by apply (encodes_full records w). }
    exists d'. split_and!; [done|done|by rewrite Hb|].
    intros b Hr Hme. by rewrite (update_bucket _ _ _ _ Hu), flush_writes_other.
Qed.

(** a quiet server writes nothing: after a flush, a second one within
    [flushHeartbeat] succeeds without a transaction. *)
Theorem quiet_flush E draw draw' force now d w d' w' now' :
  roster_ok E w → flushState draw force now (Some d) w = (true, Some d', w') →
  Sub now' (lastFlush (w_srv w')) < flushHeartbeat →
  FlushState draw' now' (Some d') w' = (true, Some d', w').
Proof.
  intros Hro Hf Hq.
  assert (roster_ok E w' ∧ encodes (persisted (w_srv w')) w') as [Hro' He].
  { destruct (flush_cases E draw force now d w Hro) as [(ok' & Hf' & Hok)|(records & d2 & He & Hu & Hf')];
      rewrite Hf' in Hf; [|by injection Hf as _ <-; split; [apply flushed_roster|]].
    injection Hf as -> _ <-. split; [done|by apply Hok]. }
  unfold FlushState, flushState. rewrite (encodes_again E draw' _ w' Hro' He).
  rewrite decide_True; [done|]. split_and!; try done.
  - unfold changed_records. apply map_empty. intros code. apply map_lookup_filter_None. right. intros data Hd Hn.
    apply Hn. cbn. by rewrite Hd.
  - unfold removed_records.
    assert (filter (λ e, persisted (w_srv w') !! e.1 = None) (persisted (w_srv w')) = ∅) as ->.
    { apply map_empty. intros code. apply map_lookup_filter_None. right. intros data Hd Hn. cbn in *. congruence. }
    done.
Qed.
End Flush.
