(* ===== verification/Restart.v ===== *)
(** Restart: what a server reads back is what the last one wrote.

    [LoadState] on a database flushed by [SaveState] rebuilds every room with
    its playback, queue, roles and suggestions, all members away; every
    reconnect token, including those of members who were connected at the last
    flush, resumes exactly the seat it resumed before. *)

From Stdlib Require Import OrdersEx.
From stdpp Require Import sorting.
From S2P Require Import Prelude Protocol Utf8 Validation UAPolicy World Client Roster Hosts Playback Limits Members Rooms Lifecycle RoomOk Safety Server Steady Store Persistence Flush.

(** ** Sorting *)

#[export] Instance string_lt_strict : StrictOrder string_lt.
Proof. exact String_as_OT.lt_strorder. Qed.
#[export] Instance string_le_total : Total string_le.
Proof.
  intros a b. unfold string_le. destruct (string_lt_total a b) as [H|[->|H]]; [left|left|right]; intros H'.
  - exact (asymmetry H H').
  - exact (irreflexivity string_lt _ H').
  - exact (asymmetry H H').
Qed.
Lemma string_le_cases a b : string_le a b ↔ string_lt a b ∨ a = b.
Proof.
  unfold string_le. split.
  - intros H. destruct (string_lt_total a b) as [?|[?|?]]; [by left|by right|done].
  - intros [H| ->] H'; [exact (asymmetry H H')|exact (irreflexivity string_lt _ H')].
Qed.
#[export] Instance string_le_trans : Transitive string_le.
Proof.
  intros a b c [H| ->]%string_le_cases [H'| ->]%string_le_cases; apply string_le_cases; auto.
  left. by transitivity b.
Qed.
#[export] Instance string_le_antisym : AntiSymm (=) string_le.
Proof. intros a b [H| ->]%string_le_cases H'; [|done]. by contradict H. Qed.

Lemma sort_by_Permutation {A} (key : A → string) l : sort_by key l ≡ₚ l.
Proof. apply merge_sort_Permutation. Qed.
Lemma sort_by_elem {A} (key : A → string) l x : x ∈ sort_by key l ↔ x ∈ l.
Proof. by rewrite sort_by_Permutation. Qed.

(** With distinct keys the result does not depend on the order of the input. *)
Lemma sort_by_unique {A} (key : A → string) l l' :
  NoDup (key <$> l) → l ≡ₚ l' → sort_by key l = sort_by key l'.
Proof.
  intros Hnd Hp. set (R := λ x y, string_le (key x) (key y)).
  assert (Transitive R) by (intros x y z; unfold R; apply string_le_trans).
  assert (Total R) by (intros x y; unfold R; apply string_le_total).
  apply (Sorted_unique_strong R).
  - intros x y Hx%sort_by_elem Hy%sort_by_elem Hxy Hyx. rewrite <- Hp in Hy.
    assert (key x = key y) as Hk by by apply (anti_symm string_le).
    apply list_elem_of_lookup in Hx as [i Hi], Hy as [j Hj].
    assert (i = j) as ->; [|congruence].
    apply (NoDup_lookup (key <$> l) i j (key x)); [done| |]; rewrite list_lookup_fmap, ?Hi, ?Hj; cbn; congruence.
  - by apply Sorted_merge_sort.
  - by apply Sorted_merge_sort.
  - by rewrite !sort_by_Permutation.
Qed.

(** ** Restoring allocates *)

(** Everything allocated before is as it was. *)
Record keeps (w w' : World) : Prop := {
  kp_next : (w_next w ≤ w_next w')%nat;
  kp_clients : w_clients w' = w_clients w;
  kp_srv_gate : gate (w_srv w') = gate (w_srv w);
  kp_room x : (x < w_next w)%nat → getRoom x w' = getRoom x w;
  kp_session x : (x < w_next w)%nat → getSession x w' = getSession x w
}.
#[export] Instance keeps_preorder : PreOrder keeps.
Proof.
  split; [by split|]. intros w1 w2 w3 [Hn Hc Hg Hr Hs] [Hn' Hc' Hg' Hr' Hs']. split; [lia|congruence|congruence|..]; intros x Hx.
  - rewrite Hr' by lia. by apply Hr.
  - rewrite Hs' by lia. by apply Hs.
Qed.

Lemma keeps_newSession s w : keeps w (newSession s w).2.
Proof.
  unfold newSession. split; cbn; [lia|done|done|done|]. intros x Hx. unfold getSession. cbn.
  by rewrite lookup_total_insert_ne by lia.
Qed.
Lemma keeps_newRoom r w : keeps w (newRoom r w).2.
Proof.
  unfold newRoom. split; cbn; [lia|done|done| |done]. intros x Hx. unfold getRoom. cbn.
  by rewrite lookup_total_insert_ne by lia.
Qed.
Lemma keeps_setServer f w : gate (f (w_srv w)) = gate (w_srv w) → keeps w (setServer f w).
Proof. by split. Qed.
Lemma newSession_get s w : getSession (newSession s w).1 (newSession s w).2 = s.
Proof. unfold newSession, getSession. cbn. apply lookup_total_insert_eq. Qed.
Lemma newRoom_get r w : getRoom (newRoom r w).1 (newRoom r w).2 = r.
Proof. unfold newRoom, getRoom. cbn. apply lookup_total_insert_eq. Qed.

(** Tokens: each gets a session of its own. *)
Record tokens_restored (since : Time → Time) (l : list PersistentSession) (w w' : World) : Prop := {
  tr_keeps : keeps w w';
  tr_rooms : rooms (w_srv w') = rooms (w_srv w);
  tr_persisted : persisted (w_srv w') = persisted (w_srv w);
  tr_in p : p ∈ l → ∃ s, sessions (w_srv w') !! pse_Token p = Some s ∧ (s < w_next w')%nat ∧
    getSession s w' = restored_session since p;
  tr_out t : t ∉ pse_Token <$> l → sessions (w_srv w') !! t = sessions (w_srv w) !! t
}.

Lemma restore_token_step since p w :
  pse_Token p ≠ "" → let w' := restore_token since w p in
  tokens_restored since [p] w w'.
Proof.
  intros Hp. unfold restore_token. rewrite decide_False by done.
  pose proof (newSession_get (restored_session since p) w) as Hg.
  pose proof (keeps_newSession (restored_session since p) w) as Hk.
  assert ((newSession (restored_session since p) w).1 < w_next (newSession (restored_session since p) w).2)%nat
    as Hlt by (cbn; lia).
  assert (w_srv (newSession (restored_session since p) w).2 = w_srv w) as Hs by done.
  destruct (newSession _ w) as [s w1]. cbn in *. split; cbn; rewrite ?Hs; try done.
  - etrans; [exact Hk|by apply keeps_setServer].
  - intros p' ->%list_elem_of_singleton. exists s. by rewrite lookup_insert_eq.
  - intros t Ht%not_elem_of_cons. by rewrite lookup_insert_ne by naive_solver.
Qed.

Lemma restore_tokens_spec since l w :
  NoDup (pse_Token <$> l) → Forall (λ p, pse_Token p ≠ "") l →
  tokens_restored since l w (foldl (restore_token since) w l).
Proof.
  revert w. induction l as [|p l IH]; intros w Hnd Hne; cbn.
  { split; try done. by intros ? ?%elem_of_nil. }
  apply NoDup_cons in Hnd as [Hn Hnd]. apply Forall_cons in Hne as [Hp Hne].
  destruct (restore_token_step since p w Hp) as [Hk1 Hr1 Hp1 Hin1 Hout1].
  destruct (IH (restore_token since w p) Hnd Hne) as [Hk2 Hr2 Hp2 Hin2 Hout2].
  split; [by etrans|congruence|congruence| |].
  - intros p' [->|Hin]%elem_of_cons; [|by apply Hin2].
    destruct (Hin1 p) as (s & Hs & Hlt & Hg); [by left|]. exists s. rewrite Hout2 by done.
    split_and!; [done| |by rewrite (kp_session _ _ Hk2)]. pose proof (kp_next _ _ Hk2). lia.
  - intros t [? ?]%not_elem_of_cons. rewrite Hout2 by done. apply Hout1. cbn.
    by rewrite list_elem_of_singleton.
Qed.

(** Seats: each gets a session of its own as well. *)
Record members_restored (since : Time → Time) (l : list (string * Session)) (room : Room) (w : World)
    (room' : Room) (w' : World) : Prop := {
  mr_keeps : keeps w w';
  mr_srv : w_srv w' = w_srv w;
  mr_room : room' = room <| DisconnectedUsers := DisconnectedUsers room' |>;
  mr_in e : e ∈ l → ∃ s, DisconnectedUsers room' !! e.1 = Some s ∧ (s < w_next w')%nat ∧
    getSession s w' = e.2 <| se_DisconnectAt ::= since |>;
  mr_out id : id ∉ l.*1 → DisconnectedUsers room' !! id = DisconnectedUsers room !! id
}.

Lemma restore_members_spec record since l room w :
  NoDup l.*1 → Forall (λ e, reconnectable record e.1) l →
  let '(room', w') := foldl (restore_member record since) (room, w) l in
  members_restored since l room w room' w'.
Proof.
  revert room w. induction l as [|[id sess] l IH]; intros room w Hnd Hre; cbn [foldl].
  { split; try done; [by destruct room|by intros ? ?%elem_of_nil]. }
  apply NoDup_cons in Hnd as [Hn Hnd]. apply Forall_cons in Hre as [Hr Hre]. cbn in Hn, Hr.
  unfold restore_member at 2. cbn [fst snd]. rewrite decide_True by done.
  set (s := sess <| se_DisconnectAt ::= since |>).
  pose proof (newSession_get s w) as Hg. pose proof (keeps_newSession s w) as Hk.
  assert ((newSession s w).1 < w_next (newSession s w).2)%nat as Hlt by (cbn; lia).
  assert (w_srv (newSession s w).2 = w_srv w) as Hs by done.
  destruct (newSession s w) as [x w1]. cbn [fst snd] in *.
  specialize (IH (room <| DisconnectedUsers ::= <[id := x]> |>) w1 Hnd Hre).
  destruct (foldl _ _ l) as [room' w']. destruct IH as [Hk2 Hs2 Hroom2 Hin2 Hout2].
  split; [by etrans|congruence|exact Hroom2| |].
  - intros e [->|Hin]%elem_of_cons; [|by apply Hin2]. exists x. cbn. rewrite (Hout2 id) by done. cbn.
    rewrite lookup_insert_eq. split_and!; [done| |by rewrite (kp_session _ _ Hk2)].
    pose proof (kp_next _ _ Hk2). lia.
  - intros id' [? ?]%not_elem_of_cons. rewrite Hout2 by done. cbn. by rewrite lookup_insert_ne.
Qed.

Lemma members_restored_lookup since m room w room' w' :
  members_restored since (map_to_list m) room w room' w' → DisconnectedUsers room = ∅ →
  ∀ id, match m !! id with
    | Some sess => ∃ s, DisconnectedUsers room' !! id = Some s ∧ (s < w_next w')%nat ∧
        getSession s w' = sess <| se_DisconnectAt ::= since |>
    | None => DisconnectedUsers room' !! id = None
    end.
Proof.
  intros [_ _ _ Hin Hout] Hemp id. destruct (m !! id) as [sess|] eqn:Hm.
  - apply (Hin (id, sess)). by apply elem_of_map_to_list.
  - rewrite Hout, Hemp; [done|]. intros ([? ?] & -> & ?%elem_of_map_to_list)%list_elem_of_fmap. cbn in *. congruence.
Qed.

(** ** One room *)

(** [room'] is the room [pr] describes, with every member away. *)
Record room_restored (e : Env) (since : Time → Time) (offline : Duration) (pr : PersistentRoom) (state : RoomState)
    (room' : Room) (w' : World) : Prop := {
  rd_code : Code room' = pr_Code pr;
  rd_owner : OwnerID room' = pr_OwnerID pr;
  rd_revision : TrackRevision room' = pr_TrackRevision pr;
  rd_state : State room' = restored_state (e_nowMs e) state;
  rd_suggestions : PendingSuggestions room' = restored_suggestions (pr_PendingSuggestions pr);
  rd_nobody : Host room' = None ∧ Clients room' = ∅ ∧ PendingJoins room' = ∅ ∧ PendingNotices room' = ∅;
  rd_dom : dom (DisconnectedUsers room') = dom (pr_DisconnectedUsers pr);
  rd_seat id sess : pr_DisconnectedUsers pr !! id = Some sess →
    ∃ s, DisconnectedUsers room' !! id = Some s ∧ (s < w_next w')%nat ∧
      getSession s w' = sess <| se_DisconnectAt ::= since |>;
  rd_host : HostDisconnectedAt room' =
    match pr_HostDisconnectedAt pr with
    | Some t => Some (t + offline)
    | None => if decide (pr_HostID pr = "") then None
              else (λ s, since (se_DisconnectAt s)) <$> (pr_DisconnectedUsers pr !! pr_HostID pr)
    end
}.

Lemma room_restored_keeps e since offline pr state room' w w' :
  keeps w w' → room_restored e since offline pr state room' w → room_restored e since offline pr state room' w'.
Proof.
  intros Hk []. split; try done. intros id sess Hid. destruct (rd_seat0 _ _ Hid) as (s & ? & ? & ?). exists s.
  split_and!; [done| |by rewrite (kp_session _ _ Hk)]. pose proof (kp_next _ _ Hk). lia.
Qed.

(** A record that can be restored without loss. *)
Record restorable (record : roomRecord) (state : RoomState) : Prop := {
  rb_state : pr_State (rr_Room record) = Some state;
  rb_tokens : NoDup (pse_Token <$> rr_Sessions record);
  rb_named : Forall (λ p, pse_Token p ≠ "") (rr_Sessions record);
  rb_members id : is_Some (pr_DisconnectedUsers (rr_Room record) !! id) → reconnectable record id
}.

Lemma restoreRoom_spec e flushedAt offline record state w :
  let since := disconnectedAt flushedAt offline (e_now e) in
  let pr := rr_Room record in
  restorable record state →
  ∃ r w1, rooms (w_srv w1) = <[pr_Code pr := r]> (rooms (w_srv w)) ∧ sessions (w_srv w1) = sessions (w_srv w) ∧
    persisted (w_srv w1) = persisted (w_srv w) ∧ keeps w w1 ∧ (w_next w ≤ r < w_next w1)%nat ∧
    room_restored e since offline pr state (getRoom r w1) w1 ∧
    tokens_restored since (rr_Sessions record) w1 (restoreRoomLocked e flushedAt offline record w).
Proof.
  intros since pr [Hst Hnd Hne Hre]. unfold restoreRoomLocked. rewrite Hst. fold since pr.
  set (room := mkRoom _ _ _ _ _ _ _ _ _ _ _ _ _).
  pose proof (restore_members_spec record since (map_to_list (pr_DisconnectedUsers pr)) room w) as Hm.
  destruct (foldl (restore_member _ _) _ _) as [room' w1].
  assert (members_restored since (map_to_list (pr_DisconnectedUsers pr)) room w room' w1) as Hmr.
  { apply Hm; [apply NoDup_fst_map_to_list|]. apply Forall_forall. intros [id s] Hx%elem_of_map_to_list.
    apply Hre. by exists s. }
  pose proof (members_restored_lookup _ _ _ _ _ _ Hmr eq_refl) as Hlook. destruct Hmr as [Hk Hs Hroom _ _].
  set (room2 := room' <| HostDisconnectedAt := _ |>).
  pose proof (newRoom_get room2 w1) as Hg. pose proof (keeps_newRoom room2 w1) as Hk2.
  assert ((newRoom room2 w1).1 = w_next w1 ∧ w_next (newRoom room2 w1).2 = S (w_next w1)) as [Hn1 Hn2] by done.
  assert (w_srv (newRoom room2 w1).2 = w_srv w1) as Hs2 by done.
  destruct (newRoom room2 w1) as [r w2]. cbn [fst snd] in *.
  set (w3 := setServer _ w2). exists r, w3. subst w3. cbn. rewrite !Hs2, !Hs.
  pose proof (kp_next _ _ Hk). split_and!; try done; [by etrans; [|etrans; [|by apply keeps_setServer]]|lia|lia| |].
  - rewrite getRoom_setServer, Hg.
    apply (room_restored_keeps _ _ _ _ _ _ w1); [etrans; [exact Hk2|by apply keeps_setServer]|].
    subst room2. rewrite Hroom. split; cbn; try done.
    + apply set_eq. intros id. rewrite !elem_of_dom. specialize (Hlook id).
      destruct (pr_DisconnectedUsers pr !! id); [destruct Hlook as (? & -> & _); split; eauto|by rewrite Hlook].
    + intros id sess Hid. specialize (Hlook id). by rewrite Hid in Hlook.
    + unfold restored_host_away. destruct (pr_HostDisconnectedAt pr); [done|]. case_decide; [done|].
      specialize (Hlook (pr_HostID pr)). destruct (pr_DisconnectedUsers pr !! pr_HostID pr) as [sess|]; cbn.
      * destruct Hlook as (s & -> & _ & Hgs). cbn. by rewrite Hgs.
      * by rewrite Hlook.
  - by apply restore_tokens_spec.
Qed.

(** ** All rooms *)

Definition record_code (record : roomRecord) : string := pr_Code (rr_Room record).
Definition all_tokens (l : list roomRecord) : list PersistentSession := mjoin (rr_Sessions <$> l).

Record all_restored (e : Env) (since : Time → Time) (offline : Duration) (l : list roomRecord) (w w' : World)
    : Prop := {
  ar_keeps : keeps w w';
  ar_persisted : persisted (w_srv w') = persisted (w_srv w);
  ar_room record state : record ∈ l → pr_State (rr_Room record) = Some state →
    ∃ r, rooms (w_srv w') !! record_code record = Some r ∧ (r < w_next w')%nat ∧
      room_restored e since offline (rr_Room record) state (getRoom r w') w';
  ar_other code : code ∉ record_code <$> l → rooms (w_srv w') !! code = rooms (w_srv w) !! code;
  ar_token p : p ∈ all_tokens l → ∃ s, sessions (w_srv w') !! pse_Token p = Some s ∧ (s < w_next w')%nat ∧
    getSession s w' = restored_session since p;
  ar_none t : t ∉ pse_Token <$> all_tokens l → sessions (w_srv w') !! t = sessions (w_srv w) !! t
}.

Lemma restore_all_spec e flushedAt offline l w :
  let since := disconnectedAt flushedAt offline (e_now e) in
  Forall (λ record, ∃ state, restorable record state) l →
  NoDup (record_code <$> l) → NoDup (pse_Token <$> all_tokens l) →
  all_restored e since offline l w (foldl (λ w record, restoreRoomLocked e flushedAt offline record w) w l).
Proof.
  intros since. revert w. induction l as [|record l IH]; intros w Hre Hcodes Htok; cbn [foldl].
  { split; try done; intros *; by intros ?%elem_of_nil. }
  apply Forall_cons in Hre as [[state Hrec] Hre]. apply NoDup_cons in Hcodes as [Hcode Hcodes].
  unfold all_tokens in Htok. rewrite fmap_cons, mjoin_cons, fmap_app in Htok.
  apply NoDup_app in Htok as (_ & Hdisj & Htok).
  destruct (restoreRoom_spec e flushedAt offline record state w Hrec)
    as (r & w1 & Hrooms & Hsess & Hpers & Hk1 & Hlt & Hroom & [Hk2 Hr2 Hp2 Hin2 Hout2]).
  set (w2 := restoreRoomLocked _ _ _ _ w) in *.
  destruct (IH w2 Hre Hcodes Htok) as [Hk3 Hp3 Hroom3 Hother3 Htok3 Hnone3].
  fold since in Hk2, Hin2, Hroom, Hk3, Hroom3, Htok3. set (w3 := foldl _ w2 l) in *.
  split; [by do 2 (etrans; [eassumption|])|congruence| | | |].
  - intros record' state' [->|Hin]%elem_of_cons Hst; [|by apply Hroom3].
    rewrite (rb_state _ _ Hrec) in Hst. injection Hst as <-. exists r.
    rewrite Hother3, Hr2, Hrooms by done. split; [apply lookup_insert_eq|].
    pose proof (kp_next _ _ Hk2). pose proof (kp_next _ _ Hk3). split; [lia|].
    rewrite (kp_room _ _ Hk3), (kp_room _ _ Hk2) by lia. eapply room_restored_keeps; [|exact Hroom]. by etrans.
  - intros code [Hc Hl]%not_elem_of_cons. rewrite Hother3, Hr2, Hrooms by done. by rewrite lookup_insert_ne.
  - intros p [Hp|Hp]%elem_of_app; [|by apply Htok3]. destruct (Hin2 p Hp) as (s & Hs & Hlts & Hg). exists s.
    rewrite Hnone3 by (apply Hdisj, list_elem_of_fmap_2, Hp). pose proof (kp_next _ _ Hk3).
    split_and!; [done|lia|by rewrite (kp_session _ _ Hk3)].
  - intros t Ht. unfold all_tokens in Ht. rewrite fmap_cons, mjoin_cons, fmap_app in Ht.
    apply not_elem_of_app in Ht as [? ?]. by rewrite Hnone3, Hout2, Hsess.
Qed.

(** ** The records of a server in order *)

Lemma NoDup_fmap_mjoin {A B C} (f : B → C) (g : A → list B) (l : list A) :
  NoDup l → (∀ x, x ∈ l → NoDup (f <$> g x)) →
  (∀ x y p q, x ∈ l → y ∈ l → p ∈ g x → q ∈ g y → f p = f q → x = y) → NoDup (f <$> mjoin (g <$> l)).
Proof.
  intros Hnd Hg Hd. induction Hnd as [|x l Hx Hnd IH]; [constructor|].
  rewrite fmap_cons, mjoin_cons, fmap_app. apply NoDup_app. split_and!.
  - apply Hg. by left.
  - intros y (p & -> & Hp)%list_elem_of_fmap (q & Hq & (b & Hqb & (z & -> & Hz)%list_elem_of_fmap)%list_elem_of_join)%list_elem_of_fmap.
    assert (x = z) as ->; [|done]. eapply (Hd x z p q); [by left|by right|done|done|done].
  - apply IH; [intros; apply Hg; by right|]. intros y z p q Hy Hz. apply Hd; by right.
Qed.

(** Token [t] resumes seat [id] of room [code]. *)
Inductive token_seat (w : World) (t id code : string) : Prop :=
  | seat_away s :
      sessions (w_srv w) !! t = Some s → se_UserID (getSession s w) = id → se_RoomCode (getSession s w) = code →
      token_seat w t id code
  | seat_taken r c :
      rooms (w_srv w) !! code = Some r → Clients (getRoom r w) !! id = Some c → session c w = t →
      token_seat w t id code.

Section Records.
Context (w : World) (Hok : world_ok ∅ w).
Implicit Types (r : RoomRef) (p : PersistentSession).

Let Hro : roster_ok ∅ w := wo_roster ∅ w Hok.

Definition away_entry (s : SessionRef) (t : string) : PersistentSession :=
  let se := getSession s w in
  mkPersistentSession t (se_UserID se) (se_Username se) (se_RoomCode se) (se_IsHost se) (se_DisconnectAt se).
Definition seated_entry (r : RoomRef) (id : string) (c : ClientRef) : PersistentSession :=
  mkPersistentSession (session c w) id (userName c w) (Code (getRoom r w))
    (bool_decide (rs_HostID (State (getRoom r w)) = id)) 0.

Lemma record_sessions code r p :
  rooms (w_srv w) !! code = Some r →
  p ∈ rr_Sessions (record_of r w) ↔
    (∃ t s, sessions (w_srv w) !! t = Some s ∧ se_RoomCode (getSession s w) = code ∧ p = away_entry s t) ∨
    (∃ id c, Clients (getRoom r w) !! id = Some c ∧ p = seated_entry r id c).
Proof.
  intros Hr. destruct (registered_code _ _ Hro _ _ Hr) as [Hreg Hcode]. unfold record_of, persistRoomLocked. cbn.
  rewrite sort_by_elem, elem_of_app. unfold sessionsByRoom. rewrite !list_elem_of_fmap. f_equiv.
  - split.
    + intros ([t s] & -> & [[Hn Hc] Hx%elem_of_map_to_list]%list_elem_of_filter). exists t, s. rewrite <- Hcode.
      done.
    + intros (t & s & Hs & Hc & ->). exists (t, s). split; [done|]. apply list_elem_of_filter.
      rewrite elem_of_map_to_list. cbn. destruct (aw_token _ _ (ro_away _ _ Hro) _ _ _ Hs Hs) as (_ & _ & ?).
      split; [|done]. split; [done|]. exact (eq_trans Hc (eq_sym Hcode)).
  - assert (∀ id c, Clients (getRoom r w) !! id = Some c → member_token (λ _, "") c w = session c w) as Ht.
    { intros id c Hc. unfold member_token. rewrite decide_False; [done|]. by eapply (roster_tokens_held ∅). }
    split.
    + intros ([id c] & -> & Hx%elem_of_map_to_list). exists id, c. unfold seated_entry. cbn. by erewrite Ht.
    + intros (id & c & Hc & ->). exists (id, c). rewrite elem_of_map_to_list. unfold seated_entry. cbn.
      by erewrite Ht.
Qed.

(** Where the tokens of a record lead. *)
Lemma record_token_seat code r p :
  rooms (w_srv w) !! code = Some r → p ∈ rr_Sessions (record_of r w) →
  token_seat w (pse_Token p) (pse_UserID p) (pse_RoomCode p) ∧ pse_RoomCode p = code ∧ pse_Token p ≠ "".
Proof.
  intros Hr [(t & s & Hs & Hc & ->)|(id & c & Hc & ->)]%(record_sessions _ _ _ Hr); cbn.
  - split_and!; [by eapply seat_away|done|]. by destruct (aw_token _ _ (ro_away _ _ Hro) _ _ _ Hs Hs) as (_ & _ & ?).
  - destruct (registered_code _ _ Hro _ _ Hr) as [Hreg ->]. split_and!; [by eapply seat_taken|done|].
    by eapply (roster_tokens_held ∅).
Qed.

(** A token leads to one seat. *)
Lemma token_seat_unique t id code id' code' :
  token_seat w t id code → token_seat w t id' code' → id = id' ∧ code = code'.
Proof.
  assert (∀ r c id code, rooms (w_srv w) !! code = Some r → Clients (getRoom r w) !! id = Some c →
    currentRoom c w = Some r ∧ clientID c w = id ∧ Code (getRoom r w) = code) as Hseat.
  { intros r c i k Hr Hc. destruct (registered_code _ _ Hro _ _ Hr) as [Hreg ?].
    by destruct (ro_seat _ _ Hro _ _ _ Hreg Hc). }
  intros [s Hs <- <-|r c Hr Hc Ht] [s' Hs' <- <-|r' c' Hr' Hc' Ht'].
  - split; congruence.
  - destruct (Hseat _ _ _ _ Hr' Hc') as (Hx & _). destruct (ro_token _ _ Hro _ _ Hx) as [_ Hy]. congruence.
  - destruct (Hseat _ _ _ _ Hr Hc) as (Hx & _). destruct (ro_token _ _ Hro _ _ Hx) as [_ Hy]. congruence.
  - destruct (Hseat _ _ _ _ Hr Hc) as (Hx & Hi & Hk), (Hseat _ _ _ _ Hr' Hc') as (Hx' & Hi' & Hk').
    assert (c = c') as -> by (eapply (ro_token_one _ _ Hro); [done|done|congruence]). by simplify_eq.
Qed.

Lemma record_tokens_nodup code r : rooms (w_srv w) !! code = Some r → NoDup (pse_Token <$> rr_Sessions (record_of r w)).
Proof.
  intros Hr. unfold record_of, persistRoomLocked. cbn [fst rr_Sessions]. rewrite sort_by_Permutation, fmap_app.
  assert (∀ id c, Clients (getRoom r w) !! id = Some c →
    member_token (λ _, "") c w = session c w ∧ currentRoom c w = Some r ∧ clientID c w = id) as Ht.
  { intros id c Hc. destruct (registered_code _ _ Hro _ _ Hr) as [Hreg _].
    destruct (ro_seat _ _ Hro _ _ _ Hreg Hc). split; [|done].
    unfold member_token. rewrite decide_False; [done|]. by eapply (roster_tokens_held ∅). }
  apply NoDup_app. split_and!.
  - unfold sessionsByRoom. rewrite <- list_fmap_compose.
    apply NoDup_fmap_2_strong; [|apply NoDup_filter, NoDup_map_to_list].
    intros [t s] [t' s'] [_ Hs%elem_of_map_to_list]%list_elem_of_filter [_ Hs'%elem_of_map_to_list]%list_elem_of_filter.
    cbn. intros <-. congruence.
  - intros t Ht1 Ht2. rewrite <- list_fmap_compose in Ht2. apply list_elem_of_fmap in Ht2 as ([id c] & -> & Hc%elem_of_map_to_list).
    destruct (Ht _ _ Hc) as (Hm & Hcr & _). cbn in Ht1. rewrite Hm in Ht1.
    unfold sessionsByRoom in Ht1. rewrite <- list_fmap_compose in Ht1.
    apply list_elem_of_fmap in Ht1 as ([t s] & Heq & [_ Hs%elem_of_map_to_list]%list_elem_of_filter). cbn in Heq.
    destruct (ro_token _ _ Hro _ _ Hcr) as [_ ?]. congruence.
  - rewrite <- list_fmap_compose. apply NoDup_fmap_2_strong; [|apply NoDup_map_to_list].
    intros [id c] [id' c'] Hc%elem_of_map_to_list Hc'%elem_of_map_to_list. cbn.
    destruct (Ht _ _ Hc) as (-> & Hcr & <-), (Ht _ _ Hc') as (-> & Hcr' & <-). intros Heq.
    by rewrite (ro_token_one _ _ Hro _ _ _ _ Hcr Hcr' Heq).
Qed.

(** The seats of a record: those who are here, and those who are away. *)
Lemma record_seats r id :
  registered r w →
  pr_DisconnectedUsers (rr_Room (record_of r w)) !! id =
    match Clients (getRoom r w) !! id with
    | Some c => Some (mkSession id (userName c w) (Code (getRoom r w))
        (bool_decide (rs_HostID (State (getRoom r w)) = id)) 0 false)
    | None => (λ s, getSession s w) <$> (DisconnectedUsers (getRoom r w) !! id)
    end.
Proof.
  intros _. unfold record_of, persistRoomLocked. cbn [fst rr_Room pr_DisconnectedUsers].
  rewrite lookup_union, map_lookup_imap, lookup_fmap.
  destruct (Clients (getRoom r w) !! id) as [c|]; cbn.
  - by destruct (DisconnectedUsers (getRoom r w) !! id).
  - by destruct (DisconnectedUsers (getRoom r w) !! id).
Qed.

Lemma record_restorable code r :
  rooms (w_srv w) !! code = Some r →
  restorable (json_view (record_of r w)) (disconnect_all (State (getRoom r w))) ∧
  record_code (json_view (record_of r w)) = code.
Proof.
  intros Hr. destruct (registered_code _ _ Hro _ _ Hr) as [Hreg Hcode]. split; [|done].
  split; [done|by eapply record_tokens_nodup| |].
  - apply Forall_forall. intros p Hp. by eapply record_token_seat.
  - intros id Hid. right. apply Exists_exists.
    change (is_Some ((unclaimed <$> pr_DisconnectedUsers (rr_Room (record_of r w))) !! id)) in Hid.
    rewrite lookup_fmap, fmap_is_Some, (record_seats r id Hreg) in Hid. cbn [rr_Sessions json_view].
    destruct (Clients (getRoom r w) !! id) as [c|] eqn:Hc.
    + exists (seated_entry r id c). split; [|split; [done|by eapply (roster_tokens_held ∅)]].
      apply (record_sessions _ _ _ Hr). right. eauto.
    + apply fmap_is_Some in Hid as [s Hs].
      destruct (aw_entry _ _ (ro_away _ _ Hro) _ _ _ Hreg Hs) as (Hu & Hk & _ & x & [?%elem_of_empty|[t Ht]] & Hx); [done|].
      injection Hx as Hxu Hxc _.
      exists (away_entry x t). split; [|split; [cbn; congruence|by destruct (aw_token _ _ (ro_away _ _ Hro) _ _ _ Ht Ht) as (_ & _ & ?)]].
      apply (record_sessions _ _ _ Hr). left. exists t, x. split_and!; [done|congruence|done].
Qed.

(** Every seat token is in exactly one record. *)
Lemma seat_in_record t id code :
  token_seat w t id code →
  ∃ r p, rooms (w_srv w) !! code = Some r ∧ p ∈ rr_Sessions (record_of r w) ∧
    pse_Token p = t ∧ pse_UserID p = id ∧ pse_RoomCode p = code.
Proof.
  intros [s Hs <- <-|r c Hr Hc <-].
  - destruct (aw_session _ _ (ro_away _ _ Hro) s) as (_ & r & x & Hr & Hd); [right; eauto|].
    exists r, (away_entry s t). split_and!; try done. apply (record_sessions _ _ _ Hr). left. eauto.
  - destruct (registered_code _ _ Hro _ _ Hr) as [Hreg Hcode].
    exists r, (seated_entry r id c). split_and!; try done. apply (record_sessions _ _ _ Hr). right. eauto.
Qed.

End Records.

(** ** The round trip *)

Lemma suggestions_roundtrip (m : gmap string Suggestion) :
  (∀ k sg, m !! k = Some sg → sg_ID sg = k) →
  restored_suggestions (sort_by psg_ID ((λ sg : Suggestion,
    mkPersistentSuggestion (sg_ID sg) (sg_FromUserID sg) (sg_FromUsername sg) (cloneTrackInfo (sg_Track sg))) <$>
      (map_to_list m).*2)) = m.
Proof.
  intros Hid. set (f := λ sg : Suggestion, mkPersistentSuggestion _ _ _ _). unfold restored_suggestions.
  assert (psg_ID <$> (f <$> (map_to_list m).*2) = (map_to_list m).*1) as Hkeys.
  { rewrite <- !list_fmap_compose. apply list_fmap_ext. intros i [k sg] Hx%list_elem_of_lookup_2%elem_of_map_to_list.
    by apply Hid. }
  assert (NoDup (psg_ID <$> sort_by psg_ID (f <$> (map_to_list m).*2))) as Hnd
    by (rewrite sort_by_Permutation, Hkeys; apply NoDup_fst_map_to_list).
  rewrite foldl_insert by done. rewrite map_union_empty.
  rewrite <- (list_to_map_to_list m) at 2. apply list_to_map_proper.
  - by rewrite <- list_fmap_compose.
  - rewrite sort_by_Permutation, <- !list_fmap_compose. match goal with |- ?a ≡ₚ ?b => assert (a = b) as ->; [|done] end. symmetry.
    transitivity (id <$> map_to_list m); [by rewrite list_fmap_id|]. apply list_fmap_ext.
    intros i [k [a b c t]] Hx%list_elem_of_lookup_2%elem_of_map_to_list. cbn. by rewrite <- (Hid _ _ Hx).
Qed.

Lemma disconnect_all_idemp state : disconnect_all (disconnect_all state) = disconnect_all state.
Proof.
  unfold disconnect_all. destruct state. unfold update_field. cbn. f_equal. rewrite <- list_fmap_compose.
  by apply list_fmap_ext.
Qed.

(** [room'] is [room] after a restart, as seen through the heaps: playback,
    queue, roles and suggestions as they were, every member away. *)
Record same_room (nowMs : Z) (room room' : Room) : Prop := {
  sr_code : Code room' = Code room;
  sr_state : State room' = restored_state nowMs (State room);
  sr_owner : OwnerID room' = OwnerID room;
  sr_revision : TrackRevision room' = TrackRevision room;
  sr_suggestions : PendingSuggestions room' = PendingSuggestions room;
  sr_away : Host room' = None ∧ Clients room' = ∅ ∧ PendingJoins room' = ∅;
  sr_members id : is_Some (DisconnectedUsers room' !! id) ↔ is_member id room
}.

Lemma restored_same_room e since offline r w room' w' :
  world_ok ∅ w → registered r w →
  room_restored e since offline (rr_Room (json_view (record_of r w))) (disconnect_all (State (getRoom r w))) room' w' →
  same_room (e_nowMs e) (getRoom r w) room'.
Proof.
  intros Hok Hreg [Hc Ho Hr Hst Hsg (Hh & Hcl & Hpj & _) Hdom _ _]. pose proof (wo_rooms _ _ Hok r Hreg) as Hrk. split.
  - exact Hc.
  - rewrite Hst. unfold restored_state. by rewrite disconnect_all_idemp.
  - exact Ho.
  - exact Hr.
  - rewrite Hsg. apply suggestions_roundtrip. intros k sg Hk.
    by destruct (ex_authors _ (rk_extras _ _ _ Hrk) _ _ Hk) as (_ & _ & ?).
  - done.
  - intros id. rewrite <- elem_of_dom, Hdom, elem_of_dom.
    change (is_Some ((unclaimed <$> pr_DisconnectedUsers (rr_Room (record_of r w))) !! id) ↔ is_member id (getRoom r w)).
    rewrite lookup_fmap, fmap_is_Some, record_seats by done. unfold is_member.
    destruct (Clients (getRoom r w) !! id); [split; eauto|]. rewrite fmap_is_Some. split; [by right|].
    intros [[? ?]|?]; done.
Qed.

Section RoundTrip.
Context `{Json, !JsonLaws} {DB : Type} `{Store DB, !StoreLaws DB}.

(** Every string the server would write is valid UTF-8. *)
Definition utf8_rooms (w : World) : Prop :=
  ∀ code r, rooms (w_srv w) !! code = Some r → Forall (λ s, ValidString s = true) (record_strings (record_of r w)).

Definition stored_record (w : World) (entry : string * string) : roomRecord :=
  json_view (record_of (default 0%nat (rooms (w_srv w) !! entry.1)) w).

Section Stored.
Context (records : gmap string string) (w : World).
Hypotheses (Hok : world_ok ∅ w) (Henc : encodes records w) (Hutf : utf8_rooms w).

Lemma stored_room entry :
  entry ∈ map_to_list records → ∃ r, rooms (w_srv w) !! entry.1 = Some r ∧
    stored_record w entry = json_view (record_of r w) ∧ unmarshal_room entry.2 = Some (stored_record w entry).
Proof.
  destruct entry as [code data]. intros Hin%elem_of_map_to_list. destruct Henc as [Hdom He]. cbn [fst snd].
  assert (is_Some (rooms (w_srv w) !! code)) as [r Hr].
  { apply elem_of_dom. rewrite <- Hdom. apply elem_of_dom. eauto. }
  exists r. unfold stored_record. cbn [fst snd]. rewrite Hr. cbn [from_option]. split_and!; [done|done|].
  apply json_roundtrip; [by eapply Hutf|]. rewrite <- Hin. symmetry. by apply He.
Qed.

Lemma stored_parse :
  mapM (λ entry : string * string, unmarshal_room entry.2) (map_to_list records) =
  Some (stored_record w <$> map_to_list records).
Proof.
  pose proof stored_room as Hs. induction (map_to_list records) as [|entry l IH]; [done|]. cbn.
  destruct (Hs entry) as (r & _ & _ & ->); [by left|]. cbn. rewrite IH; [done|]. intros. apply Hs. by right.
Qed.

Lemma stored_restored e flushedAt offline w0 :
  let l := stored_record w <$> map_to_list records in
  all_restored e (disconnectedAt flushedAt offline (e_now e)) offline l w0
    (foldl (λ w record, restoreRoomLocked e flushedAt offline record w) w0 l).
Proof.
  intros l. apply restore_all_spec; unfold l.
  - apply Forall_fmap, Forall_forall. intros entry Hin. destruct (stored_room _ Hin) as (r & Hr & Heq & _). unfold compose.
    rewrite Heq. eexists. by eapply (record_restorable w Hok).
  - rewrite <- list_fmap_compose. assert (record_code ∘ stored_record w <$> map_to_list records = (map_to_list records).*1) as ->.
    { apply list_fmap_ext. intros i entry Hin%list_elem_of_lookup_2. destruct (stored_room _ Hin) as (r & Hr & Heq & _).
      unfold compose. rewrite Heq. by eapply (record_restorable w Hok). }
    apply NoDup_fst_map_to_list.
  - unfold all_tokens. rewrite <- list_fmap_compose. apply NoDup_fmap_mjoin; [apply NoDup_map_to_list|..].
    + intros entry Hin. destruct (stored_room _ Hin) as (r & Hr & Heq & _). unfold compose. rewrite Heq.
      by eapply (record_tokens_nodup w Hok).
    + intros [code data] [code' data'] p q Hin Hin'. destruct (stored_room _ Hin) as (r & Hr & Heq & _), (stored_room _ Hin') as (r' & Hr' & Heq' & _).
      unfold compose. rewrite Heq, Heq'. cbn in Hr, Hr' |- *. intros Hp Hq Ht.
      destruct (record_token_seat w Hok _ _ _ Hr Hp) as (Hs & Hk & _), (record_token_seat w Hok _ _ _ Hr' Hq) as (Hs' & Hk' & _).
      rewrite Ht in Hs. destruct (token_seat_unique w Hok _ _ _ _ _ Hs Hs').
      apply elem_of_map_to_list in Hin, Hin'. congruence.
Qed.

(** The tokens of the stored records are the seat tokens. *)
Lemma stored_tokens t id code :
  token_seat w t id code ↔ ∃ p, p ∈ all_tokens (stored_record w <$> map_to_list records) ∧
    pse_Token p = t ∧ pse_UserID p = id ∧ pse_RoomCode p = code.
Proof.
  unfold all_tokens. setoid_rewrite list_elem_of_join. split.
  - intros (r & p & Hr & Hp & Heq)%(seat_in_record w Hok). exists p. split; [|done].
    assert (is_Some (records !! code)) as [data Hd]
      by (apply elem_of_dom; rewrite (proj1 Henc); apply elem_of_dom; eauto).
    exists (rr_Sessions (record_of r w)). split; [done|].
    apply list_elem_of_fmap. exists (stored_record w (code, data)). unfold stored_record at 1. cbn. rewrite Hr.
    split; [done|]. by apply list_elem_of_fmap_2, elem_of_map_to_list.
  - intros (p & (l & Hp & (record & -> & (entry & -> & Hin)%list_elem_of_fmap)%list_elem_of_fmap) & <- & <- & <-).
    destruct (stored_room _ Hin) as (r & Hr & Heq & _). rewrite Heq in Hp. by eapply (record_token_seat w Hok).
Qed.

End Stored.

Section Restored.
Context (e : Env) (since : Time → Time) (offline : Duration) (records : gmap string string) (w w0 w2 : World).
Hypotheses (Hok : world_ok ∅ w) (Henc : encodes records w) (Hutf : utf8_rooms w).
Hypotheses (Hr0 : rooms (w_srv w0) = ∅) (Hs0 : sessions (w_srv w0) = ∅).
Hypothesis Hall : all_restored e since offline (stored_record w <$> map_to_list records) w0 w2.

Lemma restored_room code r :
  rooms (w_srv w) !! code = Some r →
  ∃ r2, rooms (w_srv w2) !! code = Some r2 ∧ same_room (e_nowMs e) (getRoom r w) (getRoom r2 w2).
Proof.
  intros Hr. assert (is_Some (records !! code)) as [data Hd]
    by (apply elem_of_dom; rewrite (proj1 Henc); apply elem_of_dom; eauto).
  apply elem_of_map_to_list in Hd. destruct (stored_room records w Henc Hutf _ Hd) as (r' & Hr' & Heq & _).
  cbn in Hr'. rewrite Hr in Hr'. injection Hr' as <-. destruct (record_restorable w Hok _ _ Hr) as [Hre Hcode].
  destruct (ar_room _ _ _ _ _ _ Hall (stored_record w (code, data)) (disconnect_all (State (getRoom r w))))
    as (r2 & Hr2 & _ & Hrr); [by apply list_elem_of_fmap_2|by rewrite Heq|].
  rewrite Heq in Hr2, Hrr. rewrite Hcode in Hr2. exists r2. split; [done|].
  eapply restored_same_room; [done| |exact Hrr]. by eapply (registered_code _ _ (wo_roster _ _ Hok)).
Qed.

Lemma restored_only code r2 : rooms (w_srv w2) !! code = Some r2 → is_Some (rooms (w_srv w) !! code).
Proof.
  intros Hr2. destruct (rooms (w_srv w) !! code) as [r|] eqn:Hr; [eauto|].
  rewrite (ar_other _ _ _ _ _ _ Hall), Hr0 in Hr2; [done|].
  intros (? & Hc & (entry & -> & Hin)%list_elem_of_fmap)%list_elem_of_fmap.
  destruct (stored_room records w Henc Hutf _ Hin) as (r' & Hr' & Heq & _). rewrite Heq in Hc.
  destruct (record_restorable w Hok _ _ Hr') as [_ Hcode]. congruence.
Qed.

Lemma restored_tokens t id code : token_seat w2 t id code ↔ token_seat w t id code.
Proof.
  rewrite (stored_tokens records w Hok Henc Hutf). split.
  - intros [s Hs <- <-|r2 c Hr2 Hc _].
    + destruct (decide (t ∈ pse_Token <$> all_tokens (stored_record w <$> map_to_list records)))
        as [(p & -> & Hin)%list_elem_of_fmap|Hn]; [|by rewrite (ar_none _ _ _ _ _ _ Hall), Hs0 in Hs].
      destruct (ar_token _ _ _ _ _ _ Hall _ Hin) as (s' & Hs' & _ & Hg). exists p. rewrite Hs in Hs'.
      injection Hs' as <-. by rewrite Hg.
    + destruct (restored_only _ _ Hr2) as [r Hr]. destruct (restored_room _ _ Hr) as (r2' & Hr2' & Hsame).
      rewrite Hr2 in Hr2'. injection Hr2' as <-. destruct (sr_away _ _ _ Hsame) as (_ & Hcl & _).
      by rewrite Hcl, lookup_empty in Hc.
  - intros (p & Hin & <- & <- & <-). destruct (ar_token _ _ _ _ _ _ Hall _ Hin) as (s & Hs & _ & Hg).
    by apply (seat_away _ _ _ _ s); [done|rewrite Hg..].
Qed.

End Restored.

(** Loading a database that holds the rooms of [w], with nothing to migrate. *)
Lemma load_restored draw e removed d w w0 :
  world_ok ∅ w → utf8_rooms w → encodes (bucket d roomsBucket) w →
  bucket d serverStateBucket !! serverStateKey = None →
  ∃ since offline w1,
    LoadState draw e NoFile removed (Some d) w0 =
      (true, Some d, NoFile, setServer (λ srv, srv <| persisted ::= λ m, bucket d roomsBucket ∪ m |>) w1) ∧
    all_restored e since offline (stored_record w <$> map_to_list (bucket d roomsBucket)) w0 w1.
Proof.
  intros Hok Hutf Henc Hleg. unfold LoadState, loadRoomRecords.
  rewrite (stored_parse _ w Henc Hutf). unfold readLegacyState, loadServerState. rewrite Hleg. cbn [from_option id].
  rewrite decide_True by done.
  set (at' := stamp_time _). set (offline := offline_for (e_now e) at').
  set (l := stored_record w <$> _).
  assert (match l with [] => (l, at') | _ :: _ => (l, at') end = (l, at')) as -> by by destruct l.
  pose proof (stored_restored _ w Hok Henc Hutf e at' offline w0) as Hall. fold l in Hall. cbv zeta.
  eexists _, offline, _. split; [reflexivity|]. exact Hall.
Qed.

Lemma load_stored draw e removed d w w0 :
  world_ok ∅ w → utf8_rooms w → encodes (bucket d roomsBucket) w →
  bucket d serverStateBucket !! serverStateKey = None →
  rooms (w_srv w0) = ∅ → sessions (w_srv w0) = ∅ →
  ∃ w2, LoadState draw e NoFile removed (Some d) w0 = (true, Some d, NoFile, w2) ∧
    dom (rooms (w_srv w2)) = dom (rooms (w_srv w)) ∧
    (∀ code r, rooms (w_srv w) !! code = Some r →
      ∃ r2, rooms (w_srv w2) !! code = Some r2 ∧ same_room (e_nowMs e) (getRoom r w) (getRoom r2 w2)) ∧
    (∀ t id code, token_seat w2 t id code ↔ token_seat w t id code) ∧
    persisted (w_srv w2) = bucket d roomsBucket ∪ persisted (w_srv w0).
Proof.
  intros Hok Hutf Henc Hleg Hr0 Hs0.
  destruct (load_restored draw e removed d w w0 Hok Hutf Henc Hleg) as (since & offline & w1 & Hl & Hall).
  eexists. split; [exact Hl|].
  pose proof (restored_room _ _ _ _ _ _ _ Hok Henc Hutf Hall) as Hsame.
  pose proof (restored_only _ _ _ _ _ _ _ Hok Henc Hutf Hr0 Hall) as Honly. split_and!.
  - apply set_eq. intros code. rewrite !elem_of_dom. split; [intros [r2 Hr2]; by eapply Honly|].
    intros [r Hr]. destruct (Hsame _ _ Hr) as (r2 & Hr2 & _). by exists r2.
  - exact Hsame.
  - intros t id code. rewrite <- (restored_tokens _ _ _ _ _ _ _ Hok Henc Hutf Hr0 Hs0 Hall t id code). split.
    + intros [s ? ? ?|r c ? ? ?]; [by apply (seat_away _ _ _ _ s)|by apply (seat_taken _ _ _ _ r c)].
    + intros [s ? ? ?|r c ? ? ?]; [by apply (seat_away _ _ _ _ s)|by apply (seat_taken _ _ _ _ r c)].
  - rewrite <- (ar_persisted _ _ _ _ _ _ Hall). done.
Qed.

(** C17: a restart loses nothing.  If a server in order saves its state and a
    new one loads it, loading succeeds, exactly the same rooms exist with the
    same code, host, owner, playback, queue, revisions and suggestions, their
    members are exactly the old ones, all away, and a token resumes a seat
    after the restart exactly when it led to that seat before, whether its
    holder was away or connected. *)
Theorem restart_roundtrip draw draw' now e removed d w d' w' w0 :
  world_ok ∅ w → utf8_rooms w → mirror d w → bucket d serverStateBucket !! serverStateKey = None →
  SaveState draw now (Some d) w = (true, Some d', w') →
  w_srv w0 = NewServer (e_now e) →
  ∃ w2, LoadState draw' e NoFile removed (Some d') w0 = (true, Some d', NoFile, w2) ∧
    dom (rooms (w_srv w2)) = dom (rooms (w_srv w)) ∧
    (∀ code r, rooms (w_srv w) !! code = Some r →
      ∃ r2, rooms (w_srv w2) !! code = Some r2 ∧ same_room (e_nowMs e) (getRoom r w) (getRoom r2 w2)) ∧
    (∀ t id code, token_seat w2 t id code ↔ token_seat w t id code) ∧
    mirror d' w2.
Proof.
  intros Hok Hutf Hm Hleg Hsave Hnew.
  destruct (flush_cases ∅ draw true now d w (wo_roster _ _ Hok)) as [(ok & Hf & Hnf)|(records & d2 & He & Hu & Hf)];
    unfold SaveState in Hsave; rewrite Hf in Hsave; [by injection Hsave as -> _ _; destruct (Hnf eq_refl)|].
  injection Hsave as -> <-.
  assert (bucket d' roomsBucket = records) as Hb.
  { rewrite (update_bucket _ _ _ _ Hu), flush_writes_rooms, Hm. apply delta_bucket. intros code data.
    by apply (encodes_full records w). }
  destruct (load_stored draw' e removed d' w w0) as (w2 & Hl & Hd & Hs & Ht & Hp); try by rewrite ?Hb, ?Hnew.
  { by rewrite (update_bucket _ _ _ _ Hu), flush_writes_other. }
  exists w2. split_and!; try done. unfold mirror. rewrite Hp, Hnew. cbn. by rewrite map_union_empty.
Qed.

End RoundTrip.

(** ** Time spent offline *)

(** an outage does not use up anybody's grace period.  After a restart at
    [now], a member who was connected at the last flush has the whole period
    left, and a member who was away has expired only if the period had run out
    by the last flush. *)
Theorem outage_not_counted now flushedAt s :
  ¬ IsZero flushedAt → flushedAt < now → now - flushedAt ≤ int64_max →
  let s' := s <| se_DisconnectAt ::= disconnectedAt flushedAt (offline_for now flushedAt) now |> in
  session_expired now s' ↔ se_DisconnectAt s ≠ 0 ∧ session_expired flushedAt s.
Proof.
  intros Hz Hlt Hmax. unfold session_expired, disconnectedAt, offline_for. cbn.
  rewrite (decide_True (P := ¬ IsZero flushedAt ∧ flushedAt < now)) by done.
  rewrite (decide_False (P := IsZero flushedAt)) by done.
  assert (Sub now flushedAt = now - flushedAt) as -> by (unfold Sub, int64_min, int64_max in *; lia).
  destruct (decide (IsZero (se_DisconnectAt s))) as [Hs|Hs]; unfold IsZero in Hs.
  - replace (flushedAt + (now - flushedAt)) with now by lia. rewrite Sub_id. split; [|by intros [? _]].
    intros H. by vm_compute in H.
  - replace (Sub now (se_DisconnectAt s + (now - flushedAt))) with (Sub flushedAt (se_DisconnectAt s))
      by (unfold Sub; f_equal; f_equal; lia). tauto.
Qed.

Lemma outage_not_counted_witness :
  ¬ session_expired (1000 * Minute) (mkSession "u" "Ann" "AB12CD34" true
      (disconnectedAt (100 * Minute) (offline_for (1000 * Minute) (100 * Minute)) (1000 * Minute) (90 * Minute)) false).
Proof.
  intros H. apply (outage_not_counted (1000 * Minute) (100 * Minute)
    (mkSession "u" "Ann" "AB12CD34" true (90 * Minute) false)) in H; [|by vm_compute|by vm_compute|by vm_compute].
  destruct H as [_ H]. by vm_compute in H.
Defined.

(** A record whose only member holds no token is restored with that member,
    who can neither come back nor expire: no token leads to the seat. *)
Lemma tokenless_member_kept e w id sess state :
  rooms (w_srv w) = ∅ → sessions (w_srv w) = ∅ →
  let pr := mkPersistentRoom "AB12CD34" "" "" 0 (Some state) {[id := sess]} [] None in
  let w' := restoreRoomLocked e 0 0 (mk_roomRecord pr []) w in
  (∃ r, rooms (w_srv w') !! "AB12CD34" = Some r ∧ is_Some (DisconnectedUsers (getRoom r w') !! id)) ∧
  sessions (w_srv w') = ∅.
Proof.
  intros Hr Hs pr w'.
  assert (restorable (mk_roomRecord pr []) state) as Hre
    by (split; [done|constructor|constructor|intros; by left]).
  destruct (restoreRoom_spec e 0 0 _ _ w Hre) as (r & w1 & Hr1 & Hs1 & _ & _ & Hlt & Hroom & [Hk Hr2 _ _ Hout]).
  fold w' in Hk, Hr2, Hout. split.
  - exists r. rewrite Hr2, Hr1, (kp_room _ _ Hk) by lia. split; [apply lookup_insert_eq|].
    destruct (rd_seat _ _ _ _ _ _ _ Hroom id sess) as (s & -> & _); [apply lookup_singleton_eq|eauto].
  - apply map_eq. intros t. rewrite Hout by apply not_elem_of_nil. by rewrite Hs1, Hs.
Qed.
