(* ===== verification/Texts.v ===== *)
(** Texts: everything the server keeps is text.

    The names, identifiers, tokens and track fields in the server's state are
    valid UTF-8 in every state it reaches: what clients send is cleaned before
    it is stored, and what the server draws comes from its generators.  JSON
    has no other strings, so this is what makes the records written to the
    database come back as they were. *)

From S2P Require Import Prelude Protocol Utf8 Validation UAPolicy World Client Pumps Roster Hosts Playback Limits Identifiers Members Rooms Lifecycle RoomOk Safety Preserve Server Steady Reachable Store Persistence Flush Restart.

#[local] Arguments ValidString : simpl never.

(** ** The invariant *)

Record client_texts (cl : Client) : Prop := {
  ct_id : utf8 (c_id cl);
  ct_username : utf8 (c_username cl);
  ct_token : utf8 (c_sessionToken cl)
}.
Record session_texts (s : Session) : Prop := {
  st_user : utf8 (se_UserID s);
  st_username : utf8 (se_Username s);
  st_code : utf8 (se_RoomCode s)
}.
Definition some_track_utf8 (t : option TrackInfo) : Prop := from_option track_utf8 True t.
Record suggestion_texts (sg : Suggestion) : Prop := {
  sgt_id : utf8 (sg_ID sg);
  sgt_from : utf8 (sg_FromUserID sg);
  sgt_username : utf8 (sg_FromUsername sg);
  sgt_track : some_track_utf8 (sg_Track sg)
}.
Record user_texts (u : UserInfo) : Prop := { ut_id : utf8 (ui_UserID u); ut_name : utf8 (ui_Username u) }.
Record state_texts (st : RoomState) : Prop := {
  rst_code : utf8 (rs_RoomCode st);
  rst_host : utf8 (rs_HostID st);
  rst_title : utf8 (rs_QueueTitle st);
  rst_users : Forall user_texts (rs_Users st);
  rst_track : some_track_utf8 (rs_CurrentTrack st);
  rst_queue : Forall track_utf8 (rs_Queue st)
}.
Record room_texts (room : Room) : Prop := {
  rt_code : utf8 (Code room);
  rt_owner : utf8 (OwnerID room);
  rt_here : map_Forall (λ id _, utf8 id) (Clients room);
  rt_away : map_Forall (λ id _, utf8 id) (DisconnectedUsers room);
  rt_suggestions : map_Forall (λ _ sg, suggestion_texts sg) (PendingSuggestions room);
  rt_state : state_texts (State room)
}.
Record texts (w : World) : Prop := {
  tx_client c : client_texts (getClient c w);
  tx_room r : room_texts (getRoom r w);
  tx_session s : session_texts (getSession s w);
  tx_token : map_Forall (λ t _, utf8 t) (sessions (w_srv w))
}.

(** ** Updates *)

Lemma texts_setClient c f w :
  (client_texts (getClient c w) → client_texts (f (getClient c w))) → texts w → texts (setClient c f w).
Proof.
  intros Hf [Hc Hr Hs Ht]. split; try done. intros d. rewrite getClient_setClient.
  case_decide; subst; auto.
Qed.
Lemma texts_setRoom r f w :
  (room_texts (getRoom r w) → room_texts (f (getRoom r w))) → texts w → texts (setRoom r f w).
Proof.
  intros Hf [Hc Hr Hs Ht]. split; try done. intros x. rewrite getRoom_setRoom. case_decide; subst; auto.
Qed.
Lemma texts_setSession s f w :
  (session_texts (getSession s w) → session_texts (f (getSession s w))) → texts w → texts (setSession s f w).
Proof.
  intros Hf [Hc Hr Hs Ht]. split; try done. intros x. rewrite getSession_setSession. case_decide; subst; auto.
Qed.
Lemma texts_setServer f w :
  (map_Forall (λ t _, utf8 t) (sessions (w_srv w)) → map_Forall (λ t _, utf8 t) (sessions (f (w_srv w)))) →
  texts w → texts (setServer f w).
Proof. intros Hf [Hc Hr Hs Ht]. split; try done. rewrite srv_setServer. auto. Qed.
Lemma texts_newRoom room w : room_texts room → texts w → texts (newRoom room w).2.
Proof.
  intros Hroom [Hc Hr Hs Ht]. split; try done. intros x. unfold newRoom, getRoom; cbn.
  destruct (decide (x = w_next w)) as [->|]; [by rewrite lookup_total_insert_eq|].
  rewrite lookup_total_insert_ne by done. apply Hr.
Qed.
Lemma texts_newSession se w : session_texts se → texts w → texts (newSession se w).2.
Proof.
  intros Hse [Hc Hr Hs Ht]. split; try done. intros x. unfold newSession, getSession; cbn.
  destruct (decide (x = w_next w)) as [->|]; [by rewrite lookup_total_insert_eq|].
  rewrite lookup_total_insert_ne by done. apply Hs.
Qed.
Lemma texts_core w w' : same_core w w' → texts w → texts w'.
Proof.
  intros Hc [H1 H2 H3 H4]. split.
  - intros c. destruct (H1 c). pose proof (core_ident _ _ c Hc) as Hi. unfold ident in Hi.
    split; [replace (c_id (getClient c w')) with (c_id (getClient c w)) by congruence
           |replace (c_username (getClient c w')) with (c_username (getClient c w)) by congruence
           |replace (c_sessionToken (getClient c w')) with (c_sessionToken (getClient c w)) by congruence]; done.
  - intros r. rewrite (core_getRoom _ _ _ Hc). apply H2.
  - intros s. rewrite (core_getSession _ _ _ Hc). apply H3.
  - by rewrite (core_srv _ _ Hc).
Qed.
Lemma texts_foldl {A} (f : World → A → World) l w :
  (∀ w x, texts w → texts (f w x)) → texts w → texts (foldl f w l).
Proof. intros Hf. revert w. induction l; cbn; auto. Qed.

(** A change of a client that leaves its texts alone. *)
Lemma client_texts_same cl cl' :
  (c_id cl', c_username cl', c_sessionToken cl') = (c_id cl, c_username cl, c_sessionToken cl) →
  client_texts cl → client_texts cl'.
Proof. intros [= H1 H2 H3] []. split; congruence. Qed.

(** ** Values *)

Lemma utf8_empty : utf8 "".
Proof. done. Qed.
Lemma utf8_clientID c w : texts w → utf8 (clientID c w).
Proof. intros Hw. apply (tx_client _ Hw c). Qed.
Lemma utf8_userName c w : texts w → utf8 (userName c w).
Proof. intros Hw. apply (tx_client _ Hw c). Qed.
Lemma utf8_session c w : texts w → utf8 (session c w).
Proof. intros Hw. apply (tx_client _ Hw c). Qed.
Lemma utf8_sanitized s m : 4 ≤ m → utf8 (sanitizeString s m).
Proof. apply sanitizeString_valid. Qed.
Lemma validTrackID_utf8 id : validTrackID id = true → utf8 id.
Proof. unfold validTrackID. case_decide as Hd; [done|]. intros _. destruct (ValidString id); [done|tauto]. Qed.

Lemma sanitizeTrackInfo_utf8 t t' : sanitizeTrackInfo t = Some t' → track_utf8 t'.
Proof.
  unfold sanitizeTrackInfo. destruct (validTrackID (ti_ID t)) eqn:Hid; [|done].
  intros Ht. apply (inj Some) in Ht as <-. apply validTrackID_utf8 in Hid.
  unfold track_utf8. repeat case_decide; cbn; repeat constructor; try done; by apply utf8_sanitized.
Qed.

Lemma sanitizeQueue_utf8 q : Forall track_utf8 (sanitizeQueue q).
Proof.
  unfold sanitizeQueue. generalize 0. induction q as [|t q IH]; intros n; cbn; [constructor|].
  destruct (sanitizeTrackInfo t) as [t'|] eqn:Ht; [|apply IH]. apply sanitizeTrackInfo_utf8 in Ht.
  case_decide; (constructor; [done|]); [constructor|apply IH].
Qed.

Create HintDb texts.
#[export] Hint Resolve utf8_empty utf8_clientID utf8_userName utf8_session sanitizeTrackInfo_utf8
  sanitizeQueue_utf8 tx_client tx_room tx_session : texts.
#[export] Hint Resolve ue_user ue_token ue_code ue_suggestion ct_id ct_username ct_token st_user st_username st_code
  rt_code rt_owner rst_code rst_host rst_title rt_state : texts.
#[export] Hint Extern 1 (ValidString (sanitizeString _ _) = true) => apply utf8_sanitized; by vm_compute : texts.

(** ** Rooms *)

(** Changes that touch no text. *)
Definition texts_of (room : Room) :=
  (Code room, OwnerID room, Clients room, DisconnectedUsers room, PendingSuggestions room, State room).
Lemma room_texts_same room room' : texts_of room' = texts_of room → room_texts room → room_texts room'.
Proof. unfold texts_of. intros [= H1 H2 H3 H4 H5 H6] []. by split; rewrite ?H1, ?H2, ?H3, ?H4, ?H5, ?H6. Qed.

Lemma room_texts_setState f room :
  (state_texts (State room) → state_texts (f (State room))) → room_texts room → room_texts (setState f room).
Proof. intros Hf []. split; cbn; auto. Qed.

Definition state_texts_of (st : RoomState) :=
  (rs_RoomCode st, rs_HostID st, rs_QueueTitle st, rs_Users st, rs_CurrentTrack st, rs_Queue st).
Lemma state_texts_same st st' : state_texts_of st' = state_texts_of st → state_texts st → state_texts st'.
Proof. unfold state_texts_of. intros [= H1 H2 H3 H4 H5 H6] []. by split; rewrite ?H1, ?H2, ?H3, ?H4, ?H5, ?H6. Qed.

Lemma map_Forall_delete_key {A} (P : string → A → Prop) (m : gmap string A) k :
  map_Forall P m → map_Forall P (delete k m).
Proof. intros Hm i x Hi. apply lookup_delete_Some in Hi as [_ Hi]. by apply Hm. Qed.
Lemma map_Forall_filter_sub {A} (P : string → A → Prop) (Q : string * A → Prop) `{!∀ x, Decision (Q x)}
  (m : gmap string A) : map_Forall P m → map_Forall P (filter Q m).
Proof. intros Hm i x Hi. apply map_lookup_filter_Some in Hi as [Hi _]. by apply Hm. Qed.
Lemma map_Forall_put {A} (P : string → A → Prop) (m : gmap string A) k x :
  P k x → map_Forall P m → map_Forall P (<[k := x]> m).
Proof. intros. by apply map_Forall_insert_2. Qed.
#[export] Hint Resolve map_Forall_delete_key map_Forall_filter_sub map_Forall_put : texts.

Lemma withoutUser_texts us id : Forall user_texts us → Forall user_texts (withoutUser us id).
Proof. unfold withoutUser. rewrite !Forall_forall. intros Hu u [_ Hin]%list_elem_of_filter. auto. Qed.
Lemma setConnected_texts id b us : Forall user_texts us → Forall user_texts (setConnected id b us).
Proof.
  induction 1 as [|u us [] Hus IH]; cbn; [constructor|]. case_decide; by repeat constructor.
Qed.
Lemma user_fmap_texts (f : UserInfo → UserInfo) us :
  (∀ u, (ui_UserID (f u), ui_Username (f u)) = (ui_UserID u, ui_Username u)) →
  Forall user_texts us → Forall user_texts (f <$> us).
Proof.
  intros Hf Hu. apply Forall_fmap. eapply Forall_impl; [exact Hu|]. intros u [].
  pose proof (Hf u) as Hfu. split; cbn; congruence.
Qed.

Lemma forget_user_texts id room : room_texts room → room_texts (forget_user id room).
Proof.
  intros [? ? ? ? ? []]. unfold forget_user, removeUserSuggestionsLocked.
  case_decide; split; cbn; auto with texts; split; cbn; auto using withoutUser_texts.
Qed.
Lemma unseat_texts id room : room_texts room → room_texts (unseat id room).
Proof. intros []. unfold unseat. apply forget_user_texts. split; cbn; auto with texts. Qed.
Lemma seat_texts id name c room : utf8 id → utf8 name → room_texts room → room_texts (seat id name c room).
Proof.
  intros Hi Hn [? ? ? ? ? []]. split; cbn; auto with texts. split; cbn; auto.
  apply Forall_app. split; [done|]. by repeat constructor.
Qed.
Lemma unplug_texts now id s b room : utf8 id → room_texts room → room_texts (unplug now id s b room).
Proof.
  intros Hi [? ? ? ? ? []]. unfold unplug. destruct b; split; cbn; auto with texts;
    split; cbn; auto using setConnected_texts.
Qed.
Lemma replug_texts id c room : utf8 id → room_texts room → room_texts (replug id c room).
Proof. intros Hi [? ? ? ? ? []]. split; cbn; auto with texts. split; cbn; auto using setConnected_texts. Qed.
Lemma room_with_host_texts h id room : utf8 id → room_texts room → room_texts (room_with_host h id room).
Proof.
  intros Hi [? ? ? ? ? []]. split; cbn; auto. split; cbn; auto. by apply user_fmap_texts.
Qed.
Lemma queueNotice_texts id m p room : room_texts room → room_texts (queueNoticeLocked id m p room).
Proof. apply room_texts_same. unfold queueNoticeLocked. by repeat (case_match || case_decide). Qed.
#[export] Hint Resolve forget_user_texts unseat_texts seat_texts unplug_texts replug_texts room_with_host_texts
  queueNotice_texts : texts.

(** ** Playback actions *)

Definition result_room (res : ActionResult) : Room :=
  match res with Applied room _ | Refused room _ _ | Ignored room => room end.

Lemma after_track_utf8 q id q' : after_track q id = Some q' → Forall track_utf8 q → Forall track_utf8 q'.
Proof.
  induction q as [|t q IH]; cbn; [done|]. intros Hq [Ht Hqs]%Forall_cons. case_decide; [|auto]. by injection Hq as <-.
Qed.
Lemma advanceQueue_utf8 q id : Forall track_utf8 q → Forall track_utf8 (advanceQueue q id).
Proof. unfold advanceQueue. destruct (after_track q id) as [q'|] eqn:E; cbn; [|done]. by eapply after_track_utf8. Qed.
Lemma filter_tracks_utf8 (P : TrackInfo → Prop) `{!∀ t, Decision (P t)} q :
  Forall track_utf8 q → Forall track_utf8 (filter P q).
Proof. rewrite !Forall_forall. intros Hq t [_ Ht]%list_elem_of_filter. auto. Qed.
Lemma playing_texts room : room_texts room → Forall track_utf8 (rs_Queue (State room)).
Proof. intros [_ _ _ _ _ []]. done. Qed.

(** A change of the state that sets the track, the queue or its title. *)
Lemma setState_texts f room :
  room_texts room →
  (rs_RoomCode (f (State room)), rs_HostID (f (State room)), rs_Users (f (State room))) =
    (rs_RoomCode (State room), rs_HostID (State room), rs_Users (State room)) →
  utf8 (rs_QueueTitle (f (State room))) → some_track_utf8 (rs_CurrentTrack (f (State room))) →
  Forall track_utf8 (rs_Queue (f (State room))) → room_texts (setState f room).
Proof.
  intros Hr [= H1 H2 H3] Ht Hc Hq. apply room_texts_setState; [|done].
  intros []. split; rewrite ?H1, ?H2, ?H3; done.
Qed.

Lemma actChangeTrack_texts nowMs room p :
  room_texts room → utf8 (pa_QueueTitle p) → room_texts (result_room (actChangeTrack nowMs room p)).
Proof.
  intros Hr Hp. unfold actChangeTrack. destruct (pa_TrackInfo p) as [info|]; [|done].
  destruct (sanitizeTrackInfo info) as [t|] eqn:Ht; [|done]. apply sanitizeTrackInfo_utf8 in Ht. cbv zeta.
  pose proof (rt_state _ Hr) as [? ? ? ? ? Hq].
  set (b := bool_decide _). set (q := if b then _ else _). set (room1 := if b then _ else _).
  assert (Forall track_utf8 q) as Hqu by (unfold q; destruct b; auto using sanitizeQueue_utf8, advanceQueue_utf8).
  assert (room_texts room1) as Hr1 by (unfold room1; destruct b; [apply setState_texts|]; done).
  case_decide; [done|]. pose proof (rt_state _ Hr1) as []. by apply setState_texts.
Qed.

Lemma actQueueAdd_texts room p : room_texts room → room_texts (result_room (actQueueAdd room p)).
Proof.
  intros Hr. unfold actQueueAdd. destruct (pa_TrackInfo p) as [info|]; [|done].
  destruct (sanitizeTrackInfo info) as [t|] eqn:Ht; [|done]. apply sanitizeTrackInfo_utf8 in Ht. cbv zeta.
  pose proof (rt_state _ Hr) as [? ? ? ? ? Hq]. do 3 (case_decide; [done|]). apply setState_texts; try done.
  cbn. destruct (pa_InsertNext p); [by constructor|]. apply Forall_app. split; [done|]. by constructor.
Qed.

(** Whatever the action, the room it leaves holds only text. *)
Lemma apply_action_texts nowMs rtt room p :
  room_texts room → utf8 (pa_QueueTitle p) → room_texts (result_room (apply_action nowMs rtt room p)).
Proof.
  intros Hr Hp. pose proof (rt_state _ Hr) as [? ? ? ? ? Hq]. unfold apply_action. cbv zeta.
  case_decide; [unfold actPlay; cbv zeta; repeat (case_decide; [done|]); case_match; [by apply setState_texts|done]|].
  case_decide; [unfold actPause; cbv zeta; repeat (case_decide; [done|]); case_match; [by apply setState_texts|done]|].
  case_decide; [unfold actSeek; cbv zeta; repeat (case_decide; [done|]); case_match; [by apply setState_texts|done]|].
  case_decide; [by apply actChangeTrack_texts|]. case_decide; [done|]. case_decide; [by apply actQueueAdd_texts|].
  case_decide; [unfold actQueueRemove; case_decide; [done|]; apply setState_texts; try done; by apply filter_tracks_utf8|].
  case_decide; [by apply setState_texts|].
  case_decide; [unfold actSyncQueue; cbv zeta; case_decide; [done|]; apply setState_texts; try done; apply sanitizeQueue_utf8|].
  case_decide.
  { unfold actUpdateTrack. destruct (pa_TrackInfo p ≫= sanitizeTrackInfo) as [t|] eqn:Ht; [|done]. cbv zeta.
    apply bind_Some in Ht as (t0 & _ & Ht%sanitizeTrackInfo_utf8). case_decide; [done|]. by apply setState_texts. }
  case_decide; [|done]. unfold actSetVolume. case_decide; [done|]. by apply setState_texts.
Qed.

Lemma finish_action_texts nowMs id room p : room_texts room → room_texts (finish_action nowMs id room p).1.
Proof.
  intros Hr. pose proof (rt_state _ Hr) as []. unfold finish_action. cbv zeta. cbn [fst].
  assert (room_texts (setState (λ st, st <| rs_Revision := uint64_wrap (rs_Revision st + 1) |>) room))
    by by apply setState_texts.
  repeat case_decide; try done; by eapply room_texts_same; [|eassumption].
Qed.

Lemma insert_suggestion_texts id sg room :
  room_texts room → suggestion_texts sg →
  match insert_suggestion id sg room with inl (room', _, _) => room_texts room' | inr (room', _) => room_texts room' end.
Proof.
  intros Hr Hsg. unfold insert_suggestion. destruct (sg_Track sg) as [t|] eqn:Ht; [|done].
  repeat (case_decide; [done|]). cbv zeta.
  assert (track_utf8 (t <| ti_SuggestedBy := sg_FromUsername sg |>)) as Htu.
  { destruct Hsg as [_ _ Hn Hst]. rewrite Ht in Hst. unfold some_track_utf8, track_utf8 in *. cbn in *.
    rewrite !Forall_cons in *. tauto. }
  set (room1 := room <| PendingSuggestions := _ |>).
  assert (room_texts room1) as Hr1.
  { destruct Hr, Hsg. split; cbn; auto. apply map_Forall_put; [|done]. by split. }
  pose proof (rt_state _ Hr1) as []. case_decide; [done|]. apply setState_texts; try done. by constructor.
Qed.

(** ** Handlers *)

Section Delivering.
Context `{WireFormat}.
Lemma texts_sendMessage c m p w : texts w → texts (sendMessage c m p w).
Proof. apply texts_core, sendMessage_core. Qed.
Lemma texts_reply c m p w : texts w → texts (reply c m p w).
Proof. apply texts_core, reply_core. Qed.
Lemma texts_sendError c code m w : texts w → texts (sendError c code m w).
Proof. apply texts_core, sendError_core. Qed.
Lemma texts_broadcast cs m p w : texts w → texts (sendMessageToClients cs m p w).
Proof. apply texts_core, sendMessageToClients_core. Qed.
Lemma texts_queuePong c p w : texts w → texts (queuePong c p w).
Proof. apply texts_core, queuePong_core. Qed.
Lemma texts_replayHostWork h js ss w : texts w → texts (replayHostWork h js ss w).
Proof. apply texts_core, replayHostWork_core. Qed.
Lemma texts_deliverHostChange cs change w : texts w → texts (deliverHostChange cs change w).
Proof. apply texts_core, deliverHostChange_core. Qed.
Lemma texts_snapshot c st w : texts w → texts (sendPolicyQueueSnapshot c st w).
Proof. intros Hw. unfold sendPolicyQueueSnapshot. case_decide; [done|]. by apply texts_sendMessage. Qed.
End Delivering.

(** The automation: peel one operation off the world at a time. *)
Ltac texts_peel :=
  first [simple apply texts_sendMessage|simple apply texts_reply|simple apply texts_sendError
        |simple apply texts_broadcast|simple apply texts_queuePong|simple apply texts_replayHostWork
        |simple apply texts_deliverHostChange|simple apply texts_snapshot].
Ltac texts_step :=
  lazymatch goal with
  | H : texts ?w |- texts ?w => exact H
  | |- texts (setClient _ _ _) =>
      apply texts_setClient; [first [by apply client_texts_same|solve [intros []; split; cbn; eauto with texts]|idtac]|]
  | |- texts (setRoom _ _ _) =>
      apply texts_setRoom; [first [by apply room_texts_same|solve [intros ?; eauto with texts]
        |solve [intros []; split; cbn; eauto with texts]|idtac]|]
  | |- texts (setSession _ _ _) =>
      apply texts_setSession; [first [solve [intros []; split; cbn; eauto with texts]|idtac]|]
  | |- texts (setServer _ _) => apply texts_setServer; [first [solve [cbn; eauto with texts]|idtac]|]
  | |- texts (foldl _ _ _) => apply texts_foldl; [intros|]
  | |- texts (if decide _ then _ else _) => case_decide
  | |- texts (match ?x with _ => _ end) =>
      lazymatch type of x with
      | (_ * World)%type =>
        let Hw := fresh "Hw" in
        assert (texts x.2) as Hw; [|destruct x; cbn in Hw]
      | _ => destruct x
      end
  | |- texts _ => texts_peel
  end.
Ltac texts := repeat (cbv zeta beta; cbn [fst snd]; texts_step).
#[export] Hint Extern 5 (texts _) => solve [texts] : texts.

Section Clients.
Context `{WireFormat}.
Context (w : World) (Hw : texts w).
Lemma texts_clearRoom c r : texts (clearRoom c r w).
Proof. unfold clearRoom. texts. Qed.
Lemma texts_clearPendingRoom c r : texts (clearPendingRoom c r w).
Proof. unfold clearPendingRoom. texts. Qed.
Lemma texts_setClientID c i : utf8 i → texts (setClientID c i w).
Proof. intros Hi. unfold setClientID. texts. Qed.
Lemma texts_setUsername c i : utf8 i → texts (setUsername c i w).
Proof. intros Hi. unfold setUsername. texts. Qed.
Lemma texts_setSessionToken c i : utf8 i → texts (setSessionToken c i w).
Proof. intros Hi. unfold setSessionToken. texts. Qed.
Lemma texts_trySetRoom c r : texts (trySetRoom c r w).2.
Proof. unfold trySetRoom, markAffiliationStarted. case_match; cbn [snd]; texts. Qed.
Lemma texts_trySetPendingRoom c r : texts (trySetPendingRoom c r w).2.
Proof.
  unfold trySetPendingRoom, markAffiliationStarted, clearPendingRoom.
  repeat case_match; cbn [snd]; texts.
Qed.
Lemma texts_assignHost r h : texts (assignHostLocked r h w).2.
Proof.
  rewrite assignHostLocked_world. apply texts_setRoom; [|done]. apply room_with_host_texts.
  destruct h; cbn; auto with texts.
Qed.
Lemma texts_dropSessions (P : Session → Prop) `{!∀ s, Decision (P s)} : texts (dropSessions P w).
Proof. unfold dropSessions. texts. Qed.
Lemma texts_room_create_allowed now c : texts (room_create_allowed now c w).2.
Proof.
  unfold room_create_allowed. case_decide; cbn [snd]; [done|]. unfold allowRoomCreate, count_create.
  repeat (case_match || case_decide); cbn [snd]; simplify_eq; texts.
Qed.
Lemma texts_drop_token t : texts (drop_token t w).
Proof. unfold drop_token. texts. Qed.
End Clients.
Ltac texts_peel_clients :=
  first [simple apply texts_clearRoom|simple apply texts_clearPendingRoom|simple apply texts_trySetRoom
        |simple apply texts_trySetPendingRoom|simple apply texts_assignHost|simple apply texts_dropSessions
        |simple apply texts_room_create_allowed|simple apply texts_drop_token
        |simple apply texts_setClientID; [|solve [eauto with texts]]
        |simple apply texts_setUsername; [|solve [eauto with texts]]
        |simple apply texts_setSessionToken; [|solve [eauto with texts]]].
Ltac texts ::= repeat (cbv zeta beta; cbn [fst snd]; first [texts_step|texts_peel_clients]).

Section Compound.
Context `{WireFormat}.
Context (w : World) (Hw : texts w).
Lemma texts_removePendingJoin c : texts (removePendingJoin c w).
Proof. unfold removePendingJoin. texts. Qed.
Lemma texts_deleteRoomIfEmpty r : texts (deleteRoomIfEmpty r w).2.
Proof. unfold deleteRoomIfEmpty, rejectPending. case_decide; cbn [snd]; texts. Qed.
Lemma texts_closeRoom r reason : texts (closeRoom r reason w).
Proof.
  unfold closeRoom, kickMember, rejectPending, unregister. texts.
  generalize (getRoom r). intros g []. split; try done; apply map_Forall_empty.
Qed.
Lemma texts_dropPending r i c : texts (dropPending r i c w).
Proof. unfold dropPending. texts. Qed.
End Compound.
Lemma texts_announce_departure `{WireFormat} w r elect id name bt :
  texts w → (∀ V, texts V → texts (bt V)) → texts (announce_departure r elect id name bt w).
Proof.
  intros Hw Hbt. unfold announce_departure. set (p := if elect then _ else _).
  assert (texts p.2) as Hp by (unfold p; destruct elect; [apply texts_assignHost|]; done).
  destruct p as [change w1]. cbn in Hp. specialize (Hbt _ Hp). cbv zeta.
  case_bool_decide; [apply texts_closeRoom|]; texts.
Qed.
Ltac texts_peel_rooms :=
  first [simple apply texts_removePendingJoin|simple apply texts_deleteRoomIfEmpty
        |simple apply texts_closeRoom|simple apply texts_dropPending
        |simple apply texts_announce_departure; [|intros; done || by apply texts_drop_token]].
Ltac texts ::= repeat (cbv zeta beta; cbn [fst snd]; first [texts_step|texts_peel_clients|texts_peel_rooms]).

Lemma texts_openRoom `{WireFormat} w e c code name : texts w → utf8_env e → utf8 code → utf8 name → texts (openRoom e c code name w).
Proof.
  intros Hw He Hc Hn. unfold openRoom. cbv zeta.
  assert (texts (newRoom (fresh_room (e_nowMs e) c code (clientID c w) name) w).2) as Hr.
  { apply texts_newRoom; [|done]. unfold fresh_room. split; cbn; try done.
    - apply map_Forall_insert_2; [auto with texts|apply map_Forall_empty].
    - split; cbn; auto with texts. repeat constructor; cbn; auto with texts. }
  destruct (newRoom _ w) as [r w1]. cbn in Hr. texts.
Qed.

Section MessageHandlers.
Context `{WireFormat, UnicodeTables}.
Context (w : World) (Hw : texts w).

Lemma texts_handlePlaybackAction e c payload : texts (handlePlaybackAction e c payload w).
Proof.
  unfold handlePlaybackAction, publish_action. destruct (currentRoom c w) as [r|]; [|texts]. case_decide; [texts|].
  destruct (decodePayload _ _ _) as [p|]; [|texts]. cbv zeta. case_decide; [texts|].
  set (p' := p <| pa_QueueTitle := _ |>).
  assert (utf8 (pa_QueueTitle p')) as Hp by (cbn; eauto with texts).
  destruct (host_sequence p' _) as [room|] eqn:Hh; [|texts].
  assert (room_texts room) as Hr.
  { pose proof (tx_room _ Hw r). unfold host_sequence in Hh. repeat case_decide; simplify_eq; try done;
      by eapply room_texts_same; [|eassumption]. }
  pose proof (apply_action_texts (e_nowMs e) (roundTripMs c w) room p' Hr Hp) as Ha.
  destruct (apply_action _ _ _ _) as [room' q|room' code m|room']; cbn in Ha.
  - pose proof (finish_action_texts (e_nowMs e) (clientID c w) room' q Ha) as Hf.
    destruct (finish_action _ _ _ _) as [room2 q2]. cbn in Hf. apply texts_broadcast. by apply texts_setRoom.
  - apply texts_sendError. by apply texts_setRoom.
  - by apply texts_setRoom.
Qed.

Lemma texts_handleBufferReady e c payload : texts (handleBufferReady e c payload w).
Proof. unfold handleBufferReady. texts. Qed.

Lemma texts_handleSuggestTrack e c payload : utf8_env e → texts (handleSuggestTrack e c payload w).
Proof.
  intros He. unfold handleSuggestTrack. destruct (decodePayload _ _ _) as [p|]; [|texts].
  destruct (currentRoom c w) as [r|]; [|texts]. destruct (stp_TrackInfo p) as [t0|]; [|texts].
  destruct (sanitizeTrackInfo t0) as [t|] eqn:Ht; [|texts]. apply sanitizeTrackInfo_utf8 in Ht. cbv zeta.
  do 5 (case_decide; [texts|]). set (w1 := setRoom _ _ _).
  assert (texts w1) by (apply texts_setRoom; [|done]; intros []; split; cbn; auto;
    apply map_Forall_put; [split; cbn|]; eauto with texts).
  clearbody w1. texts.
Qed.

Lemma texts_handleApproveSuggestion e c payload : texts (handleApproveSuggestion e c payload w).
Proof.
  unfold handleApproveSuggestion. destruct (decodePayload _ _ _) as [p|]; [|texts]. cbv zeta. case_decide; [texts|].
  destruct (currentRoom c w) as [r|]; [|texts]. case_decide; [texts|].
  pose proof (tx_room _ Hw r) as Hr. destruct (PendingSuggestions _ !! _) as [sg|] eqn:Hsg; [|texts].
  pose proof (insert_suggestion_texts (asp_SuggestionID p) sg _ Hr (rt_suggestions _ Hr _ _ Hsg)) as Hi.
  destruct (insert_suggestion _ _ _) as [[[room code] m]|[room t]].
  { apply texts_sendError. by apply texts_setRoom. }
  set (room1 := setState _ _). assert (room_texts room1) as Hr1.
  { apply room_texts_setState; [by apply state_texts_same|]. destruct Hi. split; cbn; auto with texts. }
  clearbody room1. destruct (Clients room1 !! sg_FromUserID sg); [apply texts_sendMessage|]; apply texts_broadcast;
    apply texts_setRoom; auto using queueNotice_texts.
Qed.

Lemma texts_handleRejectSuggestion c payload : texts (handleRejectSuggestion c payload w).
Proof.
  unfold handleRejectSuggestion. destruct (decodePayload _ _ _) as [p|]; [|texts]. cbv zeta. case_decide; [texts|].
  destruct (currentRoom c w) as [r|]; [|texts]. case_decide; [texts|].
  destruct (PendingSuggestions _ !! _) as [sg|]; [|texts]. set (room := _ <| PendingSuggestions := _ |>).
  assert (room_texts room) by (pose proof (tx_room _ Hw r) as []; split; cbn; auto with texts).
  clearbody room. destruct (Clients room !! _); texts.
Qed.

Lemma draw_code_utf8 taken draws i n code b :
  (∀ i, utf8 (draws i)) → utf8 code → utf8 (draw_code taken draws i n code b).1.
Proof. intros Hd. revert i code b. induction n as [|n IH]; intros i code b Hc; cbn; [done|]. case_match; [auto|apply Hd]. Qed.

Lemma texts_handleCreateRoom e c payload : utf8_env e → texts (handleCreateRoom e c payload w).
Proof.
  intros He. unfold handleCreateRoom. case_decide; [texts|]. destruct (decodePayload _ _ _) as [p|]; [|texts].
  cbv zeta. do 4 (case_decide; [texts|]).
  pose proof (draw_code_utf8 (rooms (w_srv w)) (e_roomCode e) 0 maxRetries "" false (ue_code _ He) eq_refl) as Hc.
  destruct (draw_code _ _ _ _ _ _) as [code ex]. cbn in Hc. do 2 (case_decide; [texts|]).
  pose proof (texts_room_create_allowed w Hw (e_now e) c) as Ha. destruct (room_create_allowed _ _ _) as [ok w1].
  cbn in Ha. case_decide; [texts|]. apply texts_openRoom; auto with texts.
Qed.

Lemma texts_handleJoinRoom c payload : texts (handleJoinRoom c payload w).
Proof. unfold handleJoinRoom. texts. Qed.

Lemma texts_handleApproveJoin e c payload : utf8_env e → texts (handleApproveJoin e c payload w).
Proof. intros He. unfold handleApproveJoin. texts. Qed.

Lemma texts_handleRejectJoin c payload : texts (handleRejectJoin c payload w).
Proof. unfold handleRejectJoin. texts. Qed.

Lemma texts_handleKickUser c payload : texts (handleKickUser c payload w).
Proof. unfold handleKickUser, kickConnected, kickOffline. texts. Qed.

Lemma texts_handleTransferHost c payload : texts (handleTransferHost c payload w).
Proof. unfold handleTransferHost. texts. Qed.
End MessageHandlers.

Section Moving.
Context `{WireFormat}.
Lemma texts_leaveSeat e c r w : texts w → texts (leaveSeat e c r w).
Proof. intros Hw. unfold leaveSeat. texts. Qed.
Lemma texts_leaveRoom e c w : utf8_env e → texts w → texts (leaveRoom e c w).
Proof.
  intros He Hw. unfold leaveRoom. destruct (currentRoom c w); [by apply texts_leaveSeat|]. cbv zeta.
  case_match; [apply texts_leaveSeat|]; texts.
Qed.

Lemma texts_disconnect e c w : utf8_env e → texts w → texts (handleClientDisconnect e c w).
Proof.
  intros He Hw. unfold handleClientDisconnect. destruct (currentRoom c w) as [r|]; [|done]. cbv zeta.
  assert (texts (ensure_token e c w).2 ∧ utf8 (ensure_token e c w).1) as [Ht Hu].
  { unfold ensure_token. case_decide; cbn [fst snd]; split; texts; auto with texts. }
  destruct (ensure_token e c w) as [t w1]. cbn in Ht, Hu. case_decide; [texts|].
  set (se := mkSession _ _ _ _ _ _). assert (session_texts se) as Hse.
  { split; cbn; auto with texts. }
  pose proof (texts_newSession se w1 Hse Ht) as Hn. destruct (newSession se w1) as [s w2]. cbn in Hn.
  clearbody se. texts.
Qed.

Lemma texts_removeClient e c w : utf8_env e → texts w → texts (removeClient e c w).
Proof.
  intros He Hw. unfold removeClient. cbv zeta. set (w1 := setClient _ _ _).
  assert (texts w1) as Hw1.
  { apply (texts_core (setServer (λ srv, srv <| clients := clients srv ∖ {[c]} |>) w)); [|by apply texts_setServer].
    apply setClient_core. intros. apply calm_closeSendWith. }
  clearbody w1. destruct (currentRoom c w1); [by apply texts_disconnect|].
  case_match; [apply texts_disconnect; [done|]|]; by apply texts_removePendingJoin.
Qed.

Lemma texts_hang_up e c w : utf8_env e → texts w → texts (hang_up e c w).
Proof.
  intros He Hw. unfold hang_up. cbv zeta. pose proof (texts_removeClient e c w He Hw) as Hr.
  set (w1 := setClient _ _ _). assert (texts w1) as Hw1 by (unfold w1; texts). clearbody w1.
  case_match; [|done]. apply texts_setServer; [|done]. unfold releaseSource. by case_decide.
Qed.

Lemma texts_claim e c t w : texts w → texts (claim e c t w).2.
Proof. intros Hw. unfold claim. repeat (case_match || case_decide); cbn [snd]; texts. Qed.

Lemma texts_readmit c t s r w : utf8 t → texts w → texts (readmit c t s r w).2.
Proof.
  intros Ht Hw. destruct (tx_session _ Hw s) as [Hi Hn _]. unfold readmit. cbv zeta. set (w1 := setRoom _ _ _).
  assert (texts w1) as Hw1.
  { apply texts_setRoom; [by apply replug_texts|]. apply texts_setSessionToken; [|done].
    apply texts_setUsername; [|done]. apply texts_setClientID; [|done]. texts. }
  clearbody w1. unfold reclaim_host.
  case_decide; [|done]. pose proof (texts_assignHost w1 Hw1 r (Some c)) as Ha.
  destruct (assignHostLocked _ _ _) as [change w2]. cbn [snd] in *. apply texts_setRoom; [|done].
  intros Hroom. case_decide; [|done]. by destruct Hroom; split.
Qed.

Lemma texts_welcome_back e c r change w : texts w → texts (welcome_back e c r change w).
Proof. intros Hw. unfold welcome_back. texts. Qed.

(** The token is one of the table, whatever the client sent. *)
Lemma texts_resume e c t s r w : texts w → texts (resume e c t s r w).
Proof.
  intros Hw. unfold resume, unclaim. cbv zeta. case_decide as Hd; [texts|].
  assert (utf8 t) as Ht.
  { destruct (sessions (w_srv w) !! t) as [s'|] eqn:Hs; [by apply (tx_token _ Hw _ _ Hs)|]. destruct Hd. by left. }
  pose proof (texts_trySetRoom w Hw c r) as Hs. destruct (trySetRoom c r w) as [ok w1]. cbn in Hs.
  case_decide; [texts|]. pose proof (texts_readmit c t s r w1 Ht Hs) as Hr. destruct (readmit _ _ _ _ _).
  by apply texts_welcome_back.
Qed.

Lemma texts_replaceLive e c t w : utf8_env e → texts w → texts (replaceLiveSession e c t w).2.
Proof.
  intros He Hw. unfold replaceLiveSession. destruct (list_find _ _) as [[]|]; cbn [snd]; [|done].
  apply texts_setClient; [by apply client_texts_same|].
  eapply texts_core; [apply setClient_core; intros; apply calm_closeSendWith|]. by apply texts_disconnect.
Qed.
Lemma texts_finish e c t s w : texts w → texts (finish_reconnect e c t s w).
Proof. intros Hw. unfold finish_reconnect. case_match; [by apply texts_resume|unfold unclaim; texts]. Qed.

Lemma texts_handleReconnect e c payload w : utf8_env e → texts w → texts (handleReconnect e c payload w).
Proof.
  intros He Hw. unfold handleReconnect. destruct (decodePayload _ _ _) as [p|]; [|texts]. cbv zeta.
  do 3 (case_decide; [texts|]). set (o := let '(_, _) := claim _ _ _ _ in _).
  assert (texts o.2) as Ho.
  { unfold o. pose proof (texts_claim e c (rcn_SessionToken p) w Hw) as Hx. destruct (claim e c _ w) as [x w1].
    cbn in Hx. case_decide; [|done].
    pose proof (texts_replaceLive e c (rcn_SessionToken p) w1 He Hx) as Hr.
    destruct (replaceLiveSession _ _ _ _) as [[] w2]; cbn in *; auto using texts_claim. }
  destruct o as [[code|s] w1]; cbn in Ho; [texts|by apply texts_finish].
Qed.
End Moving.

Section Rounds.
Context `{WireFormat, UnicodeTables}.

Lemma texts_replace c cl w : texts w → ident cl = ident (getClient c w) → texts (setClient c (λ _, cl) w).
Proof. intros Hw [= H1 H2 H3 H4]. apply texts_setClient; [|done]. apply client_texts_same. congruence. Qed.

Lemma texts_allowSync now c w : texts w → texts (setClient c (λ _, (allowSyncResponse now (getClient c w)).2) w).
Proof. intros Hw. apply texts_replace; [done|]. unfold allowSyncResponse. by repeat (case_match || case_decide). Qed.

Lemma texts_handlePing e at' c payload w : texts w → texts (handlePing e at' c payload w).
Proof.
  intros Hw. unfold handlePing. destruct (if decide _ then _ else _) as [p|]; [|texts]. cbv zeta.
  destruct (currentRoom c w) as [r|]; [|texts]. case_decide; [|texts]. case_decide; [|texts].
  pose proof (texts_allowSync (e_now e) c w Hw) as Hk. destruct (allowSyncResponse _ _) as [ok cl]. cbn in Hk.
  destruct ok; texts.
Qed.

Lemma texts_handleRequestSync e c w : texts w → texts (handleRequestSync e c w).
Proof.
  intros Hw. unfold handleRequestSync. destruct (currentRoom c w) as [r|]; [|texts]. cbv zeta. case_decide; [texts|].
  pose proof (texts_allowSync (e_now e) c w Hw) as Hk. destruct (allowSyncResponse _ _) as [ok cl]. cbn in Hk.
  destruct ok; texts.
Qed.

Lemma texts_handleClientCapabilities c payload w : texts w → texts (handleClientCapabilities c payload w).
Proof. intros Hw. unfold handleClientCapabilities, setFeatures. texts. Qed.

Lemma texts_dispatch e at' c m payload w : utf8_env e → texts w → texts (dispatch e at' c m payload w).
Proof.
  intros He Hw. unfold dispatch.
  repeat (case_decide; [auto using texts_handleCreateRoom, texts_handleJoinRoom, texts_leaveRoom,
    texts_handleApproveJoin, texts_handleRejectJoin, texts_handlePlaybackAction, texts_handleBufferReady,
    texts_handleKickUser, texts_handleTransferHost, texts_handlePing, texts_handleRequestSync,
    texts_handleReconnect, texts_handleSuggestTrack, texts_handleApproveSuggestion,
    texts_handleRejectSuggestion, texts_handleClientCapabilities|]).
  by apply texts_sendError.
Qed.

Lemma texts_handleMessage e at' c data w : utf8_env e → texts w → texts (handleMessage e at' c data w).
Proof.
  intros He Hw. unfold handleMessage.
  assert (∀ id, texts (begin_request id c w)) as Hb by (intros; unfold begin_request; texts).
  assert (∀ id V, texts V → texts (acknowledge id c V)) as Ha by (intros; unfold acknowledge; texts).
  destruct (decodeProtobuf data) as [[[m p] id]|[id big]]; apply Ha.
  - case_decide; [by apply texts_sendError|by apply texts_dispatch].
  - destruct big; by apply texts_sendError.
Qed.

Lemma texts_receive e at' c data w : utf8_env e → texts w → texts (receive e at' c data w).
Proof.
  intros He Hw. unfold receive.
  assert (texts (setClient c (λ _, (allowMessage (e_now e) (getClient c w)).2) w)) as Hk.
  { apply texts_replace; [done|]. unfold allowMessage. by repeat case_decide. }
  destruct (allowMessage _ _) as [ok cl]. cbn in Hk. destruct ok; [by apply texts_handleMessage|].
  set (w1 := setClient c _ w) in *. clearbody w1.
  assert (texts (setClient c (λ _, (shouldNotifyRateLimit (getClient c w1)).2) w1)) as Hn.
  { apply texts_replace; [done|]. unfold shouldNotifyRateLimit. by case_match. }
  destruct (shouldNotifyRateLimit _) as [b cl']. cbn in Hn. destruct b; texts.
Qed.

Lemma texts_cleanupExpired now w : texts w → texts (cleanupExpiredSessionsOnce now w).
Proof.
  intros Hw. unfold cleanupExpiredSessionsOnce. cbv zeta. apply texts_foldl; [|by apply texts_dropSessions].
  intros W s HW. unfold expire_one. case_match; [|done]. unfold expireSession. cbv zeta. case_match; [|done].
  set (W1 := setRoom _ _ W). assert (texts W1) as HW1.
  { apply texts_setRoom; [|done]. intros []. apply forget_user_texts. split; cbn; auto with texts. }
  clearbody W1. case_decide; [|by apply texts_announce_departure].
  apply texts_deleteRoomIfEmpty. destruct (bool_decide (rs_HostID _ = _)); [by apply texts_assignHost|done].
Qed.

Lemma texts_cleanupEmpty now w : texts w → texts (cleanupEmptyRoomsOnce now w).
Proof. intros Hw. unfold cleanupEmptyRoomsOnce. apply texts_foldl; [|done]. intros W r HW. unfold cleanup_room. texts. Qed.

Lemma texts_failover now w : texts w → texts (failoverHostsOnce now w).
Proof.
  intros Hw. unfold failoverHostsOnce. apply texts_foldl; [|done]. intros W r HW. unfold failoverRoom. cbv zeta.
  case_decide; [|done]. destruct (pickDeputy _ _); [|done]. set (W1 := setRoom _ _ W).
  assert (texts W1) as HW1.
  { apply texts_setRoom; [|done]. intros Hr. pose proof (rt_state _ Hr) as []. case_decide; [|done]. by destruct Hr; split. }
  clearbody W1. pose proof (texts_assignHost W1 HW1 r (Some n)) as Ha. destruct (assignHostLocked _ _ _).
  by apply texts_deliverHostChange.
Qed.

Lemma texts_connect e rq upgraded w : utf8_env e → texts w → texts (handleWebSocket e rq upgraded w).2.
Proof.
  intros He Hw. unfold handleWebSocket.
  assert (∀ f : Server → Server, sessions (f (w_srv w)) = sessions (w_srv w) → texts (setServer f w)) as Hset.
  { intros f Hf. apply texts_setServer; [|done]. by rewrite Hf. }
  assert (∀ src s, sessions (releaseSource src s) = sessions s) as Hrel by (intros; unfold releaseSource; by case_decide).
  assert (sessions (acquireSource (requestSource rq) (w_srv w)).2 = sessions (w_srv w)) as Hac
    by (unfold acquireSource; by repeat case_decide).
  do 2 (case_decide; [done|]). destruct (acquireSource _ _) as [ok srv]. cbn in Hac.
  assert (sessions (tryAcquireConnectionSlot srv).2 = sessions srv) as Htr
    by (unfold tryAcquireConnectionSlot; by repeat case_decide).
  case_decide; [done|]. destruct (tryAcquireConnectionSlot srv) as [ok' srv']. cbn in Htr.
  assert (∀ src, texts (setServer (λ _, releaseSource src srv') w)) as Hr1 by (intros; apply Hset; rewrite Hrel; congruence).
  assert (∀ src, texts (setServer (λ _, releaseSource src (releaseConnectionSlot srv')) w)) as Hr2
    by (intros; apply Hset; rewrite Hrel; cbn; congruence).
  case_decide; [exact (Hr1 _)|]. do 3 (case_decide; [exact (Hr2 _)|]). destruct Hw as [Hcl Hro Hse Hto]. split; try done; cbn.
  - intros c. unfold getClient; cbn. destruct (decide (c = w_next w)) as [->|].
    + rewrite lookup_total_insert_eq. by split; cbn; auto with texts.
    + rewrite lookup_total_insert_ne by done. apply Hcl.
  - by rewrite Htr, Hac.
Qed.

(** Every step keeps the server's texts valid. *)
Lemma step_texts w w' : step w w' → texts w → texts w'.
Proof.
  intros Hstep Hw.
  destruct Hstep as [W W' [e rq up w a w' He _ _ Hh|e at' c data w _ _ He _ _|e c t w _ He|e c t s w w' Hcl|e c t s w _|e c w _ He|c fs cl w Hwr
    |nano c w|c w|now w|now w|policy w|w|w|w|w]|now w].
  - pose proof (texts_connect e rq up w He Hw) as Hc. by rewrite Hh in Hc.
  - by apply texts_receive.
  - by apply texts_replaceLive.
  - pose proof (texts_claim e c t w Hw) as Hc. by rewrite Hcl in Hc.
  - by apply texts_finish.
  - by apply texts_hang_up.
  - apply texts_replace; [done|]. apply (writePump_calm _ _ _ Hwr).
  - apply texts_setClient; [|done]. apply client_texts_same. unfold pongHandler. by repeat case_decide.
  - by apply texts_setClient; [apply client_texts_same|].
  - by apply texts_cleanupEmpty.
  - by apply texts_failover.
  - by apply texts_setServer.
  - eapply texts_core; [apply announceRestart_core|by apply texts_setServer].
  - by eapply texts_core; [apply drainClients_core|].
  - by eapply texts_core; [apply closeAllClients_core|].
  - by apply texts_setServer.
  - by apply texts_cleanupExpired.
Qed.
End Rounds.

Lemma start_texts now : texts (start now).
Proof. by split. Qed.

(** ** Records *)

(** A record all of whose strings are text. *)
Definition record_texts (record : roomRecord) : Prop := Forall (λ s, utf8 s) (record_strings record).

Lemma Forall_mjoin_fmap {A} (P : string → Prop) (f : A → list string) l :
  Forall P (mjoin (f <$> l)) ↔ Forall (λ x, Forall P (f x)) l.
Proof.
  induction l as [|x l IH]; [done|]. rewrite fmap_cons, mjoin_cons, Forall_app, Forall_cons, IH. done.
Qed.

Definition session_record_texts (p : PersistentSession) : Prop :=
  Forall (λ s, utf8 s) [pse_Token p; pse_UserID p; pse_Username p; pse_RoomCode p].
Definition suggestion_record_texts (p : PersistentSuggestion) : Prop :=
  Forall (λ s, utf8 s) [psg_ID p; psg_FromUserID p; psg_FromUsername p] ∧ some_track_utf8 (psg_Track p).

Lemma track_texts_option t : Forall (λ s, utf8 s) (mjoin (track_strings <$> option_list t)) ↔ some_track_utf8 t.
Proof. rewrite Forall_mjoin_fmap. destruct t as [t|]; cbn; [|by split]. rewrite Forall_singleton. done. Qed.

Lemma state_strings_texts st : Forall (λ s, utf8 s) (state_strings st) ↔ state_texts st.
Proof.
  unfold state_strings. rewrite !Forall_cons, Forall_app, !Forall_mjoin_fmap, Forall_app.
  assert (Forall (λ u, Forall (λ s, utf8 s) [ui_UserID u; ui_Username u]) (rs_Users st) ↔ Forall user_texts (rs_Users st)) as ->.
  { apply Forall_iff. intros u. rewrite !Forall_cons. split; [intros (? & ? & _); by split|intros []; by split_and!]. }
  assert (Forall (λ t, Forall (λ s, utf8 s) (track_strings t)) (option_list (rs_CurrentTrack st)) ↔
    some_track_utf8 (rs_CurrentTrack st)) as -> by (rewrite <- Forall_mjoin_fmap; apply track_texts_option).
  split; [intros (? & ? & ? & ? & ? & ?); by split|intros []; by split_and!].
Qed.

(** What a record says, field by field. *)
Lemma record_texts_iff record :
  let room := rr_Room record in
  record_texts record ↔
  utf8 (pr_Code room) ∧ utf8 (pr_HostID room) ∧ utf8 (pr_OwnerID room) ∧
  from_option state_texts True (pr_State room) ∧
  map_Forall (λ id s, utf8 id ∧ session_texts s) (pr_DisconnectedUsers room) ∧
  Forall suggestion_record_texts (pr_PendingSuggestions room) ∧ Forall session_record_texts (rr_Sessions record).
Proof.
  intros room. unfold record_texts, record_strings. fold room. rewrite !Forall_app, !Forall_cons, !Forall_mjoin_fmap.
  assert (Forall (λ st, Forall (λ s, utf8 s) (state_strings st)) (option_list (pr_State room)) ↔
    from_option state_texts True (pr_State room)) as ->.
  { destruct (pr_State room); cbn; [|by split]. by rewrite Forall_singleton, state_strings_texts. }
  assert (Forall (λ e : string * Session, Forall (λ s, utf8 s) [e.1; se_UserID e.2; se_Username e.2; se_RoomCode e.2])
      (map_to_list (pr_DisconnectedUsers room)) ↔
    map_Forall (λ id s, utf8 id ∧ session_texts s) (pr_DisconnectedUsers room)) as ->.
  { rewrite map_Forall_to_list. apply Forall_iff. intros [id s]. cbn. rewrite !Forall_cons.
    split; [intros (? & ? & ? & ? & _); by split|intros [? []]; by split_and!]. }
  assert (Forall (λ p, Forall (λ s, utf8 s) (psg_ID p :: psg_FromUserID p :: psg_FromUsername p ::
      mjoin (track_strings <$> option_list (psg_Track p)))) (pr_PendingSuggestions room) ↔
    Forall suggestion_record_texts (pr_PendingSuggestions room)) as ->.
  { apply Forall_iff. intros p. unfold suggestion_record_texts. rewrite !Forall_cons, track_texts_option. 
    split; [intros (? & ? & ? & ?)|intros [(? & ? & ? & _) ?]]; by split_and!. }
  pose proof (List.Forall_nil (λ s, utf8 s)). unfold session_record_texts. tauto.
Qed.

(** What a server writes about a room is text when its state is. *)
Lemma record_of_texts r w : texts w → record_texts (record_of r w).
Proof.
  intros Hw. pose proof (tx_room _ Hw r) as [Hc Ho Hh Ha Hs Hst]. apply record_texts_iff.
  unfold record_of, persistRoomLocked. cbn [rr_Room rr_Sessions pr_Code pr_HostID pr_OwnerID pr_State
    pr_DisconnectedUsers pr_PendingSuggestions fst]. split_and!; [done|by destruct Hst|done| | | |].
  - cbn. destruct Hst. split; cbn; try done. by apply user_fmap_texts.
  - intros id s [Hid|[_ Hid]]%lookup_union_Some_raw.
    + rewrite map_lookup_imap in Hid. apply bind_Some in Hid as (c & Hcl & [= <-]). pose proof (Hh _ _ Hcl).
      split; [done|]. split; cbn; auto with texts.
    + rewrite lookup_fmap in Hid. apply fmap_Some in Hid as (s' & Hs' & ->). split; [by apply (Ha _ _ Hs')|apply Hw].
  - apply Forall_forall. intros p. rewrite sort_by_elem. intros (sg & -> & (e & -> & He)%list_elem_of_fmap)%list_elem_of_fmap.
    destruct e as [k sg]. apply elem_of_map_to_list in He. destruct (Hs _ _ He). split; [|done]. by repeat constructor.
  - apply Forall_forall. intros p. rewrite sort_by_elem, elem_of_app.
    intros [(e & -> & (_ & He)%list_elem_of_filter)%list_elem_of_fmap|(e & -> & He)%list_elem_of_fmap]; destruct e as [k x];
      apply elem_of_map_to_list in He; cbn [fst snd].
    + destruct (tx_session _ Hw x). pose proof (tx_token _ Hw _ _ He). by repeat constructor.
    + pose proof (Hh _ _ He). assert (utf8 (member_token (λ _, "") x w)).
      { unfold member_token. case_decide; [done|]. by apply utf8_session. }
      repeat constructor; cbn; auto with texts.
Qed.

Lemma texts_utf8_rooms w : texts w → utf8_rooms w.
Proof. intros Hw code r _. by apply record_of_texts. Qed.

Lemma json_view_texts record : record_texts record → record_texts (json_view record).
Proof.
  rewrite !record_texts_iff. cbn. intros (? & ? & ? & ? & Hd & ? & ?). split_and!; try done.
  intros id s. rewrite lookup_fmap. intros (s' & Hs & ->)%fmap_Some. destruct (Hd _ _ Hs) as [? []]. by repeat split.
Qed.

(** ** Loading *)

Lemma restored_state_texts nowMs st : state_texts st → state_texts (restored_state nowMs st).
Proof.
  intros []. assert (state_texts ((disconnect_all st) <| rs_Queue ::= sanitizeQueue |>)) as Hs.
  { split; cbn; try done; [by apply user_fmap_texts|apply sanitizeQueue_utf8]. }
  unfold restored_state, park. case_match; [|done]. case_decide; [|done]. by eapply state_texts_same; [|exact Hs].
Qed.

Lemma restored_suggestions_texts l :
  Forall suggestion_record_texts l → map_Forall (λ _ sg, suggestion_texts sg) (restored_suggestions l).
Proof.
  unfold restored_suggestions. intros Hl.
  assert (map_Forall (λ _ sg, suggestion_texts sg) (∅ : gmap string Suggestion)) as Hm by apply map_Forall_empty.
  revert Hm. generalize (∅ : gmap string Suggestion). induction Hl as [|p l [Hp Ht] _ IH]; intros m Hm; cbn; [done|].
  apply IH, map_Forall_put; [|done]. rewrite !Forall_cons in Hp. destruct Hp as (? & ? & ? & _). by split.
Qed.

Lemma restore_member_texts record since room w entry :
  room_texts room → texts w → utf8 entry.1 → session_texts entry.2 →
  room_texts (restore_member record since (room, w) entry).1 ∧ texts (restore_member record since (room, w) entry).2.
Proof.
  intros Hr Hw Hi [H1 H2 H3]. unfold restore_member. case_decide.
  - set (s := entry.2 <| se_DisconnectAt ::= since |>). assert (session_texts s) as Hs by by split.
    pose proof (texts_newSession s w Hs Hw) as Hn. destruct (newSession s w) as [x w1]. cbn in Hn. split; [|done].
    destruct Hr. split; cbn; try done. by apply map_Forall_put.
  - split; [|done]. apply room_texts_setState; [|done]. intros []. split; cbn; try done. by apply withoutUser_texts.
Qed.

Lemma restore_members_texts record since l room w :
  room_texts room → texts w → Forall (λ e, utf8 e.1 ∧ session_texts e.2) l →
  room_texts (foldl (restore_member record since) (room, w) l).1 ∧
  texts (foldl (restore_member record since) (room, w) l).2.
Proof.
  intros Hr Hw Hl. revert room w Hr Hw. induction Hl as [|e l [Hi Hs] _ IH]; intros room w Hr Hw; [done|].
  cbn [foldl]. destruct (restore_member_texts record since room w e Hr Hw Hi Hs) as [Hr1 Hw1].
  destruct (restore_member record since (room, w) e) as [room1 w1]. by apply IH.
Qed.

Lemma restore_token_texts since w p : texts w → session_record_texts p → texts (restore_token since w p).
Proof.
  intros Hw Hp. unfold session_record_texts in Hp. rewrite !Forall_cons in Hp. destruct Hp as (Ht & ? & ? & ? & _).
  unfold restore_token. case_decide; [done|].
  pose proof (texts_newSession (restored_session since p) w ltac:(by split) Hw) as Hn.
  destruct (newSession _ w) as [s w1]. cbn in Hn. apply texts_setServer; [|done]. intros Hm. by apply map_Forall_put.
Qed.

Lemma restoreRoom_texts e flushedAt offline record w :
  record_texts record → texts w → texts (restoreRoomLocked e flushedAt offline record w).
Proof.
  intros (Hc & Hh & Ho & Hst & Hd & Hsg & Hse)%record_texts_iff Hw. unfold restoreRoomLocked.
  destruct (pr_State (rr_Room record)) as [st|]; [|done]. cbv zeta. set (room := mkRoom _ _ _ _ _ _ _ _ _ _ _ _ _).
  assert (room_texts room) as Hroom.
  { split; cbn; try done; [by apply restored_suggestions_texts|by apply restored_state_texts]. }
  destruct (restore_members_texts record (disconnectedAt flushedAt offline (e_now e))
    (map_to_list (pr_DisconnectedUsers (rr_Room record))) room w) as [Hr1 Hw1]; [done|done| |].
  { apply map_Forall_to_list in Hd. eapply Forall_impl; [exact Hd|]. by intros []. }
  clearbody room. destruct (foldl _ (room, w) _) as [room1 w1]. cbn in Hr1, Hw1.
  set (room2 := room1 <| HostDisconnectedAt := _ |>).
  pose proof (texts_newRoom room2 w1 ltac:(by eapply room_texts_same; [|exact Hr1]) Hw1) as Hn.
  destruct (newRoom room2 w1) as [r w2]. cbn in Hn.
  assert (texts (setServer (λ srv, srv <| rooms ::= <[pr_Code (rr_Room record) := r]> |>) w2)) as Hw3 by by apply texts_setServer.
  revert Hw3. generalize (setServer (λ srv, srv <| rooms ::= <[pr_Code (rr_Room record) := r]> |>) w2).
  induction Hse as [|p l Hp _ IH]; intros w3 Hw3; [done|]. cbn [foldl]. by apply IH, restore_token_texts.
Qed.

Section Loading.
Context `{Json, !JsonLaws} {DB : Type} `{Store DB, !StoreLaws DB}.

(** A server that loads what another wrote holds only text. *)
Lemma load_texts draw e removed d saved w0 :
  texts saved → encodes (bucket d roomsBucket) saved → bucket d serverStateBucket !! serverStateKey = None →
  texts w0 → texts (LoadState draw e NoFile removed (Some d) w0).2.
Proof.
  intros Hs Henc Hleg Hw0. unfold LoadState, loadRoomRecords. pose proof (texts_utf8_rooms _ Hs) as Hutf.
  rewrite (stored_parse _ saved Henc Hutf). unfold readLegacyState, loadServerState. rewrite Hleg. cbn [from_option id].
  rewrite decide_True by done. set (at' := stamp_time _). set (l := stored_record saved <$> _).
  assert (match l with [] => (l, at') | _ :: _ => (l, at') end = (l, at')) as -> by by destruct l.
  cbv zeta. cbn [snd]. apply texts_setServer; [done|].
  assert (Forall record_texts l) as Hl.
  { apply Forall_fmap, Forall_forall. intros entry Hin. unfold compose.
    destruct (stored_room _ saved Henc Hutf _ Hin) as (r & _ & -> & _). by apply json_view_texts, record_of_texts. }
  clearbody l. revert w0 Hw0. induction Hl as [|record l Hr _ IH]; intros w0 Hw0; [done|]. cbn [foldl].
  by apply IH, restoreRoom_texts.
Qed.
End Loading.
