(* ===== verification/Conduct.v ===== *)
(** Conduct: what the handlers do for the people in a room.

    The invariant says that the books agree; this file says that the right
    thing happens: only hosts command, a kick removes every way back, a lost
    connection costs nobody the seat, a token brings its holder back, absent
    hosts are replaced and seats that ran out are given up. *)

From S2P Require Import Prelude Protocol Utf8 Validation UAPolicy World Client Roster Hosts Playback Limits Members Rooms Lifecycle RoomOk Safety Preserve PreserveRooms PreserveLife Server Steady Reachable Store Persistence Flush Restart.

(** ** Commands of the host *)

Section Commands.
Context `{WireFormat, UnicodeTables}.

Definition host_commands (e : Env) (c : ClientRef) (payload : string) : list (World → World) :=
  [handleApproveJoin e c payload; handleRejectJoin c payload; handleKickUser c payload;
   handleTransferHost c payload; handleApproveSuggestion e c payload; handleRejectSuggestion c payload].

(** C20: nobody but the host commands a room: each of the six commands, sent by
    a client that is not the host of the room it is in, or is in none, changes
    nothing and answers with an error. *)
Theorem only_hosts_command e c payload w command :
  command ∈ host_commands e c payload →
  (∀ r, currentRoom c w = Some r → ¬ is_room_host (getRoom r w) c) →
  ∃ code message, command w = sendError c code message w.
Proof.
  intros Hin Hnot. unfold host_commands in Hin. rewrite !elem_of_cons in Hin.
  destruct Hin as [->|[->|[->|[->|[->|[->|?%not_elem_of_nil]]]]]]; [..|done];
    unfold handleApproveJoin, handleRejectJoin, handleKickUser, handleTransferHost, handleApproveSuggestion,
      handleRejectSuggestion;
    (destruct (decodePayload _ _ _) as [p|]; [|eauto]); (case_decide; [eauto|]);
    (destruct (currentRoom c w) as [r|]; [|eauto]); rewrite decide_True by auto; eauto.
Qed.

End Commands.

(** ** Ways back into a room *)

Section WaysBack.
Context `{WireFormat}.

Lemma token_seat_ext w w' t id code :
  rooms (w_srv w') = rooms (w_srv w) → sessions (w_srv w') = sessions (w_srv w) →
  (∀ r, Clients (getRoom r w') = Clients (getRoom r w)) → (∀ s, getSession s w' = getSession s w) →
  (∀ c, session c w' = session c w) →
  token_seat w' t id code ↔ token_seat w t id code.
Proof.
  intros Er Es Ec Eg Et. split; (intros [s Ht <- <-|r c Hr Hcl <-]; [apply (seat_away _ _ _ _ s)|apply (seat_taken _ _ _ _ r c)]);
    rewrite ?Er, ?Es, ?Ec, ?Eg, ?Et in *; congruence.
Qed.

(** Without a seat no token leads back. *)
Lemma no_seat_no_token w code r id t :
  world_ok ∅ w → rooms (w_srv w) !! code = Some r →
  Clients (getRoom r w) !! id = None → DisconnectedUsers (getRoom r w) !! id = None → ¬ token_seat w t id code.
Proof.
  intros Hok Hr Hc Hd [s Ht Hu Hrc|r' c Hr' Hcl _].
  - destruct (aw_session _ _ (ro_away _ _ (wo_roster _ _ Hok)) s) as (_ & r' & x & Hr' & Hx); [right; eauto|].
    rewrite Hrc in Hr'. congruence.
  - congruence.
Qed.

(** What [forget_user] leaves of somebody whose seat is gone. *)
Record gone (id code : string) (r : RoomRef) (w : World) : Prop := {
  gn_room : rooms (w_srv w) !! code = Some r;
  gn_clients : Clients (getRoom r w) !! id = None;
  gn_away : DisconnectedUsers (getRoom r w) !! id = None;
  gn_user : id ∉ ui_UserID <$> rs_Users (State (getRoom r w));
  gn_notices : PendingNotices (getRoom r w) !! id = None;
  gn_suggestions k sg : PendingSuggestions (getRoom r w) !! k = Some sg → sg_FromUserID sg ≠ id
}.
Lemma forgotten_gone id code r cs m p w :
  rooms (w_srv w) !! code = Some r → Clients (getRoom r w) !! id = None →
  DisconnectedUsers (getRoom r w) !! id = None →
  gone id code r (sendMessageToClients cs m p (setRoom r (forget_user id) w)).
Proof.
  intros Hr Hc Hd. pose proof (sendMessageToClients_core cs m p (setRoom r (forget_user id) w)) as Hcore.
  destruct (forget_user_fields id (getRoom r w)) as (_ & Fc & _ & Fd & Fs & _ & Fg & Fn & _).
  split; rewrite ?(core_srv _ _ Hcore), ?(core_getRoom _ _ _ Hcore), ?getRoom_setRoom_eq; [done|congruence|congruence|..].
  - rewrite Fs. cbn. intros (u & -> & [Hu _]%list_elem_of_filter)%list_elem_of_fmap. done.
  - rewrite Fn. apply lookup_delete_eq.
  - intros k sg. rewrite Fg. by intros [_ ?]%map_lookup_filter_Some.
Qed.

(** C19: a kick leaves no way back.  When the host kicks a member, connected or
    away, the member has no seat and no user entry afterwards, no suggestion
    or notice of theirs is kept, and no token leads to the room as them. *)
Theorem kick_revokes c payload p w r :
  let id := kup_UserID p in
  let code := Code (getRoom r w) in
  let w' := handleKickUser c payload w in
  world_ok ∅ w → decodePayload asKickUser payload MsgTypeKickUser = Some p → id ≠ "" →
  currentRoom c w = Some r → is_room_host (getRoom r w) c → id ≠ clientID c w →
  is_Some (Clients (getRoom r w) !! id) ∨ is_Some (DisconnectedUsers (getRoom r w) !! id) →
  gone id code r w' ∧ ∀ t, ¬ token_seat w' t id code.
Proof.
  intros id code w' Hok Hp Hn Hc Hh Hne Hm.
  destruct (room_seated ∅ c r w Hok Hc) as [Hreg _ _ _ _]. pose proof (wo_rooms _ _ Hok r Hreg) as Hrk.
  assert (world_ok ∅ w') as Hok' by (by apply (spares_empty w), handleKickUser_spares).
  assert (gone id code r w') as Hg; [|split; [done|]; intros t; by destruct Hg; eapply no_seat_no_token].
  unfold w', handleKickUser. rewrite Hp. fold id. rewrite decide_False, Hc by done.
  rewrite (decide_False (P := ¬ is_room_host _ _)) by tauto. rewrite decide_False by done.
  destruct (Clients (getRoom r w) !! id) as [target|] eqn:Hcl.
  - pose proof (mb_apart _ (rk_members _ _ _ Hrk) _ _ Hcl) as Hd. cbv zeta.
    set (reason := reason_or _ _). pose proof (sendMessage_core target MsgTypeKicked (PKicked (mkKickedPayload reason)) w) as Hcore.
    apply forgotten_gone; unfold kickConnected; rewrite ?getRoom_setRoom_eq; cbn.
    + unfold clearRoom. case_decide; cbn; by rewrite (core_srv _ _ Hcore).
    + apply lookup_delete_eq.
    + assert (getRoom r (clearRoom target r (sendMessage target MsgTypeKicked (PKicked (mkKickedPayload reason)) w)) = getRoom r w) as ->;
        [|done]. unfold clearRoom. case_decide; by rewrite ?getRoom_setClient, (core_getRoom _ _ _ Hcore).
  - destruct (DisconnectedUsers (getRoom r w) !! id) as [s|] eqn:Hd; [|by destruct Hm as [[? ?]|[? ?]]]. cbv zeta.
    apply forgotten_gone; unfold kickOffline, dropSessions; rewrite ?getRoom_setServer, ?getRoom_setRoom_eq; cbn;
      [done|done|apply lookup_delete_eq].
Qed.

(** *** Losing the connection *)

Record disconnected (now : Time) (c : ClientRef) (r : RoomRef) (w w' : World) : Prop := {
  dc_rooms : rooms (w_srv w') = rooms (w_srv w);
  dc_sessions : sessions (w_srv w') = <[session c w := w_next w]> (sessions (w_srv w));
  dc_new : getSession (w_next w) w' = mkSession (clientID c w) (userName c w) (Code (getRoom r w))
    (bool_decide (Host (getRoom r w) = Some c)) now false;
  dc_old s : s ≠ w_next w → getSession s w' = getSession s w;
  dc_seats x : Clients (getRoom x w') = if decide (x = r) then delete (clientID c w) (Clients (getRoom r w))
    else Clients (getRoom x w);
  dc_tokens d : session d w' = session d w;
  dc_out : currentRoom c w' = None
}.
Lemma disconnect_spec e c r w :
  world_ok ∅ w → currentRoom c w = Some r → disconnected (e_now e) c r w (handleClientDisconnect e c w).
Proof.
  intros Hok Hc. destruct (room_seated ∅ c r w Hok Hc) as [Hreg Hseat [Htn Htok] _ _].
  unfold handleClientDisconnect, ensure_token. rewrite Hc, decide_False by done.
  rewrite decide_False by tauto. cbv zeta. set (se := mkSession _ _ _ _ _ _).
  rewrite (surjective_pairing (newSession se w)). change (newSession se w).1 with (w_next w).
  rewrite clearRoom_seated by done. set (w1 := setServer _ _).
  match goal with |- disconnected _ _ _ _ (sendMessageToClients ?cs ?m ?p _) =>
    pose proof (sendMessageToClients_core cs m p w1) as Hcore end.
  assert (∀ x, getSession x w1 = if decide (x = w_next w) then se else getSession x w) as Hgs.
  { intros x. unfold w1, getSession. cbn. destruct (decide (x = w_next w)) as [->|];
      [apply lookup_total_insert_eq|by apply lookup_total_insert_ne]. }
  split.
  - by rewrite (core_srv _ _ Hcore).
  - by rewrite (core_srv _ _ Hcore).
  - by rewrite (core_getSession _ _ _ Hcore), Hgs, decide_True.
  - intros s Hs. by rewrite (core_getSession _ _ _ Hcore), Hgs, decide_False.
  - intros x. rewrite (core_getRoom _ _ _ Hcore). unfold w1. rewrite getRoom_setServer, getRoom_setClient, getRoom_setRoom.
    case_decide; [|done]. subst x. unfold unplug. by destruct (bool_decide _).
  - intros d. rewrite (core_session _ _ _ Hcore). unfold w1, session. rewrite getClient_setServer, getClient_setClient.
    by case_decide; subst.
  - rewrite (core_currentRoom _ _ _ Hcore). unfold w1, currentRoom. by rewrite getClient_setServer, getClient_setClient_eq.
Qed.

Lemma disconnect_seats e c r w t id code :
  world_ok ∅ w → currentRoom c w = Some r →
  token_seat (handleClientDisconnect e c w) t id code ↔ token_seat w t id code.
Proof.
  intros Hok Hc. pose proof Hok as [Hro _]. destruct (room_seated ∅ c r w Hok Hc) as [Hreg Hseat [Htn Htok] _ _].
  destruct (disconnect_spec e c r w Hok Hc) as [Dr Ds Dn Do Dc Dt _]. set (w' := handleClientDisconnect e c w) in *.
  assert (rooms (w_srv w) !! Code (getRoom r w) = Some r) as Hrr by done. split.
  - intros [s Ht <- <-|r' d Hr' Hcl <-].
    + rewrite Ds in Ht. apply lookup_insert_Some in Ht as [[<- <-]|[Hne Ht]].
      * rewrite Dn. by apply (seat_taken _ _ _ _ r c).
      * destruct (aw_session _ _ (ro_away _ _ Hro) s) as [Hlt _]; [right; eauto|].
        rewrite Do by lia. by apply (seat_away _ _ _ _ s).
    + rewrite Dt. rewrite Dr in Hr'. rewrite Dc in Hcl. apply (seat_taken _ _ _ _ r' d); [done| |done].
      case_decide; [subst r'; by apply lookup_delete_Some in Hcl as [_ ?]|done].
  - intros [s Ht <- <-|r' d Hr' Hcl <-].
    + destruct (aw_session _ _ (ro_away _ _ Hro) s) as [Hlt _]; [right; eauto|].
      apply (seat_away _ _ _ _ s); [rewrite Ds, lookup_insert_ne; [done|congruence]|by rewrite Do by lia..].
    + destruct (registered_code _ _ Hro _ _ Hr') as [Hreg' Hcode].
      destruct (ro_seat _ _ Hro _ _ _ Hreg' Hcl) as [Hid Hcur]. destruct (decide (d = c)) as [->|Hne].
      * rewrite Hc in Hcur. injection Hcur as ->. apply (seat_away _ _ _ _ (w_next w)); [|by rewrite Dn..].
        rewrite Ds. apply lookup_insert_eq.
      * apply (seat_taken _ _ _ _ r' d); [by rewrite Dr| |done]. rewrite Dc. destruct (decide (r' = r)) as [Hx|]; [|done]. subst r'.
        apply lookup_delete_Some. split; [|done]. intros Heq. congruence.
Qed.

Lemma removeClient_seats e c w t id code :
  world_ok ∅ w → token_seat (removeClient e c w) t id code ↔ token_seat w t id code.
Proof.
  intros Hok. unfold removeClient. set (w1 := setClient c closeSend _).
  assert (same_core (setServer (λ srv, srv <| clients := clients srv ∖ {[c]} |>) w) w1) as Hcore
    by (apply setClient_core; intros; apply calm_closeSendWith).
  assert (world_ok ∅ w1) as Hok1 by (eapply world_core; [done|]; by apply world_server).
  assert (token_seat w1 t id code ↔ token_seat w t id code) as <-.
  { apply token_seat_ext; intros; rewrite ?(core_srv _ _ Hcore), ?(core_getRoom _ _ _ Hcore),
      ?(core_getSession _ _ _ Hcore), ?(core_session _ _ _ Hcore); done. }
  destruct (currentRoom c w1) as [r|] eqn:Hc; [by eapply disconnect_seats|].
  rewrite removePendingJoin_room, Hc. unfold removePendingJoin, clearPendingRoom.
  destruct (currentPendingRoom c w1) as [r|]; [|done].
  apply token_seat_ext; intros; repeat case_decide; try done; unfold session;
    rewrite ?getClient_setClient, ?getRoom_setClient, ?getRoom_setRoom; try (case_decide; by subst); done.
Qed.

Lemma hang_up_seats e c w t id code :
  token_seat (hang_up e c w) t id code ↔ token_seat (removeClient e c w) t id code.
Proof.
  unfold hang_up. set (w1 := removeClient e c w). set (w2 := setClient c _ w1).
  transitivity (token_seat w2 t id code).
  - case_match; [|done]. unfold releaseSource. apply token_seat_ext; intros; try done; rewrite w_srv_setServer; by case_decide.
  - apply token_seat_ext; intros; try done. unfold session, w2. rewrite getClient_setClient. by case_decide; subst.
Qed.

(** C21: losing the connection costs nobody anything: when the read pump of a
    connection ends, exactly the same tokens lead to the same seats as before,
    those of the connection that ended included. *)
Theorem hang_up_keeps_seats e c w t id code :
  world_ok ∅ w → token_seat (hang_up e c w) t id code ↔ token_seat w t id code.
Proof. intros Hok. rewrite hang_up_seats. by apply removeClient_seats. Qed.

(** *** Coming back *)

(** The seat [id] of room [r] taken by connection [c] with token [t]. *)
Record resumed (c : ClientRef) (r : RoomRef) (t id name : string) (takes : bool) (w w' : World) : Prop := {
  rs_client : currentRoom c w' = Some r ∧ clientID c w' = id ∧ userName c w' = name ∧ session c w' = t;
  rs_seat : Clients (getRoom r w') = <[id := c]> (Clients (getRoom r w));
  rs_away : DisconnectedUsers (getRoom r w') = delete id (DisconnectedUsers (getRoom r w));
  rs_spent : sessions (w_srv w') = delete t (sessions (w_srv w));
  rs_host : Host (getRoom r w') = if takes then Some c else Host (getRoom r w);
  rs_others d : d ≠ c → currentRoom d w' = currentRoom d w
}.

Lemma resume_spec e c t s r w :
  let id := se_UserID (getSession s w) in
  sessions (w_srv w) !! t = Some s → is_Some (DisconnectedUsers (getRoom r w) !! id) →
  Clients (getRoom r w) !! id = None → currentRoom c w = None → currentPendingRoom c w = None →
  resumed c r t id (se_Username (getSession s w)) (bool_decide (takes_host id c (getRoom r w) w)) w (resume e c t s r w).
Proof.
  intros id Ht [x Hx] Hcl Hcr Hpe. unfold resume. fold id.
  rewrite decide_False by (intros [?|[?|?]]; congruence).
  rewrite (trySetRoom_idle c r w) by done. rewrite decide_False by done.
  pose proof (readmit_world c t s r w) as Hrw. cbv zeta in Hrw. fold id in Hrw.
  destruct (readmit c t s r _) as [change w2]. cbn [snd] in Hrw. destruct Hrw as [Hid2 Hrw].
  pose proof (welcome_back_core e c r change w2) as Hcore. cbv zeta in Hcore. rewrite Hid2, Hrw in Hcore.
  set (w' := welcome_back e c r change w2) in *. set (takes := bool_decide _) in *.
  destruct (settle_fields id c (getRoom r w) takes) as (_ & U2 & _ & U4 & _).
  split; unfold userName; rewrite ?(core_currentRoom _ _ _ Hcore), ?(core_clientID _ _ _ Hcore),
    ?(core_session _ _ _ Hcore), ?(core_getRoom _ _ _ Hcore), ?(core_srv _ _ Hcore), ?getRoom_setRoom_eq.
  - pose proof (core_userName _ _ c Hcore) as Hun. unfold userName in Hun. rewrite Hun.
    unfold currentRoom, clientID, session. by rewrite !getClient_setRoom, !getClient_setClient_eq.
  - exact U2.
  - exact U4.
  - done.
  - change (getRoom r (setClient _ _ _)) with (getRoom r w). unfold settle. destruct takes; cbn; by repeat case_decide.
  - intros d Hd. rewrite (core_currentRoom _ _ _ Hcore). unfold currentRoom.
    by rewrite getClient_setRoom, getClient_setClient, decide_False.
Qed.

(** What follows the claim of a session that nobody has claimed. *)
Lemma claimed_resumes e c t s w :
  let se := getSession s w in
  world_ok ∅ w → currentRoom c w = None → currentPendingRoom c w = None → sessions (w_srv w) !! t = Some s →
  se_claimed se = false → ¬ session_expired (e_now e) se → (se_IsHost se = true → canHostClient c w) →
  ∃ r w1, claim e c t w = (inr s, w1) ∧ rooms (w_srv w1) !! se_RoomCode (getSession s w1) = Some r ∧
    rooms (w_srv w) !! se_RoomCode se = Some r ∧
    resumed c r t (se_UserID se) (se_Username se)
      (bool_decide (takes_host (se_UserID se) c (getRoom r w) w)) w (resume e c t s r w1).
Proof.
  intros se Hok Hcr Hpe Ht Hun Hex Hcan. pose proof Hok as [Hro Hrooms].
  destruct (aw_session _ _ (ro_away _ _ Hro) s) as (_ & r & x & Hr & Hx); [right; eauto|].
  fold se in Hr, Hx. destruct (registered_code _ _ Hro _ _ Hr) as [Hreg _].
  assert (Clients (getRoom r w) !! se_UserID se = None) as Hnc.
  { destruct (Clients (getRoom r w) !! se_UserID se) eqn:Hc; [|done].
    pose proof (mb_apart _ (rk_members _ _ _ (Hrooms r Hreg)) _ _ Hc) as Hap. congruence. }
  unfold claim. rewrite Ht. fold se. rewrite Hun.
  rewrite (decide_False (P := session_expired _ _)) by done. rewrite (decide_False (P := _ ∧ _)) by tauto.
  set (w1 := setSession s _ w). exists r, w1.
  assert (getSession s w1 = se <| se_claimed := true |>) as Hse
    by (unfold w1; rewrite getSession_setSession; by rewrite decide_True).
  pose proof (resume_spec e c t s r w1) as Hres. cbv zeta in Hres. rewrite !Hse in Hres. rewrite Hse.
  split_and!; [done|exact Hr|exact Hr|]. by destruct Hres.
Qed.

(** C22: a token brings its holder back.  A connection that is in no room and
    presents the token of a reserved seat that has not run out and that nobody
    else is claiming, and may host if the seat was a host's, gets the seat: it is the member, under the member's
    ID and name, in the room; the token is spent from the table and held by the
    connection; and it is the host exactly when it takes the host role over. *)
Theorem reconnect_resumes e c payload p w s :
  let t := rcn_SessionToken p in
  let se := getSession s w in
  let w' := handleReconnect e c payload w in
  world_ok ∅ w → decodePayload asReconnect payload MsgTypeReconnect = Some p → t ≠ "" →
  currentRoom c w = None → currentPendingRoom c w = None → sessions (w_srv w) !! t = Some s →
  se_claimed se = false → ¬ session_expired (e_now e) se → (se_IsHost se = true → canHostClient c w) →
  ∃ r, rooms (w_srv w) !! se_RoomCode se = Some r ∧
    resumed c r t (se_UserID se) (se_Username se)
      (bool_decide (takes_host (se_UserID se) c (getRoom r w) w)) w w'.
Proof.
  intros t se w' Hok Hp Htn Hcr Hpe Ht Hun Hex Hcan.
  destruct (claimed_resumes e c t s w Hok Hcr Hpe Ht Hun Hex Hcan) as (r & w1 & Hcl & Hr1 & Hr & Hres).
  exists r. split; [done|]. unfold w', handleReconnect. rewrite Hp. fold t. rewrite decide_False by done.
  rewrite !decide_False by (rewrite ?Hcr, ?Hpe; by intros [? ?]).
  rewrite Hcl, decide_False by done. unfold finish_reconnect. by rewrite Hr1.
Qed.


(** The live holder of a token is found, whatever the order of the table. *)
Lemma live_found c t w old r :
  world_ok ∅ w → currentRoom old w = Some r → session old w = t → old ∈ clients (w_srv w) → old ≠ c →
  ∃ i, list_find (holds_token c t w) (elements (clients (w_srv w))) = Some (i, old).
Proof.
  intros Hok Hc Ht Hin Hne. pose proof (wo_roster _ _ Hok) as Hro.
  destruct (list_find_elem_of (holds_token c t w) (elements (clients (w_srv w))) old) as [[i d] Hf];
    [by apply elem_of_elements|split_and!; [done|done|by rewrite Hc]|].
  exists i. rewrite Hf. apply list_find_Some in Hf as (_ & (_ & Hd & [r' Hr']) & _).
  by rewrite (ro_token_one _ _ Hro d old r' r Hr' Hc) by congruence.
Qed.

(** C23: a token moves to the connection that presents it last.  If a live
    connection still holds the token and the seat, a connection that is in no
    room and presents the token (and may host if the other hosts) takes the
    seat over: it is the member now, and the other connection is out of the
    room. *)
Theorem reconnect_takes_over e c payload p w old r :
  let t := rcn_SessionToken p in
  let id := clientID old w in
  let w' := handleReconnect e c payload w in
  world_ok ∅ w → decodePayload asReconnect payload MsgTypeReconnect = Some p →
  currentRoom c w = None → currentPendingRoom c w = None →
  old ∈ clients (w_srv w) → currentRoom old w = Some r → session old w = t →
  (Host (getRoom r w) = Some old → canHostClient c w) →
  currentRoom c w' = Some r ∧ clientID c w' = id ∧ session c w' = t ∧
  Clients (getRoom r w') = <[id := c]> (delete id (Clients (getRoom r w))) ∧
  currentRoom old w' = None.
Proof.
  intros t id w' Hok Hp Hcr Hpe Hin Hold Ht Hcan.
  assert (old ≠ c) as Hne by congruence.
  destruct (room_seated ∅ old r w Hok Hold) as [Hreg Hseat [Htn Htok] _ _]. rewrite Ht in Htn, Htok.
  destruct (live_found c t w old r Hok Hold Ht Hin Hne) as [i Hf].
  destruct (replaceLiveSession_ok ∅ e c t w Hok) as [Hok' (B1 & B2 & B3 & _)].
  destruct (disconnect_spec e old r w Hok Hold) as [Dr Ds Dn Do Dc Dt Dx].
  assert (replaceLiveSession e c t w = (true, (replaceLiveSession e c t w).2)) as Hrep
    by (unfold replaceLiveSession; by rewrite Hf).
  set (w1 := (replaceLiveSession e c t w).2) in *.
  set (w0 := handleClientDisconnect e old w) in *.
  assert (w1 = setClient old (λ cl, cl <| c_ConnOpen := false |>) (setClient old closeSend w0)) as Hw1
    by (unfold w1, replaceLiveSession; by rewrite Hf).
  assert (same_core w0 w1) as Hcore.
  { rewrite Hw1. etrans; apply setClient_core; intros; [apply calm_closeSendWith|by split]. }
  pose proof (core_srv _ _ Hcore) as Hsrv.
  assert (getSession (w_next w) w1 = mkSession id (userName old w) (Code (getRoom r w))
    (bool_decide (Host (getRoom r w) = Some old)) (e_now e) false) as Hse
    by by rewrite (core_getSession _ _ _ Hcore).
  destruct (claimed_resumes e c t (w_next w) w1) as (r2 & w2 & Hcl & Hr1 & Hr & [(R1 & R2 & R3 & R4) R5 _ _ _ R6]);
    rewrite ?Hse; try done; [congruence..| | | |].
  - rewrite Hsrv, Ds, Ht. apply lookup_insert_eq.
  - unfold session_expired. cbn. rewrite Sub_id. intros Hx. by vm_compute in Hx.
  - intros Hh%bool_decide_eq_true. unfold canHostClient. rewrite B3. by apply Hcan.
  - rewrite Hse in Hr, R2, R5. cbn in Hr, R2, R5. rewrite Hsrv, Dr in Hr.
    assert (r2 = r) as -> by (unfold registered in Hreg; congruence).
    assert (claim e c t w = (inl "session_not_found", w)) as Hfirst by (unfold claim; by rewrite Htok).
    assert (w' = resume e c t (w_next w) r w2) as ->.
    { unfold w', handleReconnect. rewrite Hp. fold t. rewrite decide_False by done.
      rewrite !decide_False by (rewrite ?Hcr, ?Hpe; by intros [? ?]).
      rewrite Hfirst, decide_True, Hrep, Hcl by done. unfold finish_reconnect. by rewrite Hr1. }
    split_and!; [done|done|done| |].
    + rewrite R5, (core_getRoom _ _ _ Hcore), Dc. by rewrite decide_True.
    + rewrite R6 by done. by rewrite (core_currentRoom _ _ _ Hcore).
Qed.

End WaysBack.

(** ** Joining *)

Section Joining.
Context `{WireFormat, UnicodeTables}.

Lemma sendMessage_bystander c d m p w : d ≠ c → getClient d (sendMessage c m p w) = getClient d w.
Proof.
  intros Hne. unfold sendMessage. destruct (c_codec _); [|done]. destruct (c_Send _); [|done].
  destruct (encodeProtobuf _ _ _ _); [|done]. unfold sendEncodedMessage. by rewrite getClient_setClient, decide_False.
Qed.

(** An application on file. *)
Record applied (d : ClientRef) (r : RoomRef) (name : string) (w w' : World) : Prop := {
  ap_srv : w_srv w' = w_srv w;
  ap_room : getRoom r w' = (getRoom r w) <| PendingJoins ::= <[clientID d w := d]> |>;
  ap_client : currentRoom d w' = None ∧ currentPendingRoom d w' = Some r ∧ clientID d w' = clientID d w ∧
    userName d w' = name ∧ isClosed d w' = isClosed d w;
  ap_others c : c ≠ d → currentRoom c w' = currentRoom c w
}.

Lemma idle_free w d r :
  world_ok ∅ w → holder d w → currentRoom d w = None → currentPendingRoom d w = None → registered r w →
  Clients (getRoom r w) !! clientID d w = None ∧ PendingJoins (getRoom r w) !! clientID d w = None.
Proof.
  intros Hok Hh Hcr Hpe Hreg. pose proof (wo_roster _ _ Hok) as Hro. split.
  - destruct (Clients (getRoom r w) !! clientID d w) as [x|] eqn:Hx; [|done].
    destruct (ro_seat _ _ Hro _ _ _ Hreg Hx) as [Hid Hc].
    assert (x = d) as -> by (apply (ro_id_one _ _ Hro); [by right; left; rewrite Hc|done|done]). congruence.
  - destruct (PendingJoins (getRoom r w) !! clientID d w) as [x|] eqn:Hx; [|done].
    destruct (ro_applicant _ _ Hro _ _ _ Hreg Hx) as [Hid Hp].
    assert (x = d) as -> by (apply (ro_id_one _ _ Hro); [by right; right; rewrite Hp|done|done]). congruence.
Qed.

Lemma join_applies d payload p w r c :
  let name := sanitizeString (jrp_Username p) MaxUsernameLength in
  let code := sanitizeString (ToUpper (jrp_RoomCode p)) MaxRoomCodeLength in
  world_ok ∅ w → decodePayload asJoinRoom payload MsgTypeJoinRoom = Some p →
  jrp_Username p ≠ "" → jrp_RoomCode p ≠ "" → name ≠ "" → code ≠ "" →
  holder d w → currentRoom d w = None → currentPendingRoom d w = None → rooms (w_srv w) !! code = Some r →
  roomMembersLocked (getRoom r w) < MaxClientsPerRoom → map_len (PendingJoins (getRoom r w)) < MaxPendingJoins →
  connected_host (getRoom r w) = Some c → c ≠ d →
  applied d r name w (handleJoinRoom d payload w).
Proof.
  intros name code Hok Hp Hu Hrc Hname Hcode Hh Hcr Hpe Hr Hm Hj Hhost Hne.
  pose proof Hok as [Hro Hrooms]. destruct (registered_code _ _ Hro _ _ Hr) as [Hreg _].
  destruct (idle_free w d r Hok Hh Hcr Hpe Hreg) as [Hnc Hnp].
  assert (rs_HostID (State (getRoom r w)) ≠ "") as Hhid.
  { destruct (Hrooms r Hreg) as [_ _ [Hs _] _ _ _]. unfold host_seat_ok in Hs. unfold connected_host in Hhost.
    destruct (Host (getRoom r w)) as [h|]; [|done]. destruct (HostDisconnectedAt (getRoom r w)); [done|].
    destruct Hs as [Hseat _]. destruct (ro_seat _ _ Hro _ _ _ Hreg Hseat) as [<- Hc].
    apply (ro_named _ _ Hro). right. left. by rewrite Hc. }
  unfold handleJoinRoom. rewrite Hp. fold name code.
  rewrite !decide_False by (try done; rewrite ?Hcr, ?Hpe; by intros [? ?]). rewrite Hr.
  assert (clientID d (setUsername d name w) = clientID d w) as Hid
    by (unfold clientID, setUsername; by rewrite getClient_setClient_eq).
  cbv zeta. rewrite Hid. change (getRoom r (setUsername d name w)) with (getRoom r w).
  rewrite Hnc, Hnp. rewrite !decide_False by (try lia; try done; by intros [? ?]).
  rewrite trySetPendingRoom_idle by (unfold setUsername, currentRoom, currentPendingRoom in *;
    by rewrite getClient_setClient_eq).
  rewrite decide_False, Hhost by done. unfold setUsername. rewrite setClient_setClient.
  set (w1 := setRoom r _ _). set (msg := PJoinRequest _).
  pose proof (sendMessage_core c MsgTypeJoinRequest msg w1) as Hcore.
  pose proof (sendMessage_bystander c d MsgTypeJoinRequest msg w1 ltac:(done)) as Hd.
  assert (getClient d w1 = (getClient d w) <| c_username := name |> <| c_affiliationStarted := true |> <| c_pendingRoom := Some r |>) as Hd1
    by (unfold w1; by rewrite getClient_setRoom, getClient_setClient_eq).
  split.
  - by rewrite (core_srv _ _ Hcore).
  - rewrite (core_getRoom _ _ _ Hcore). unfold w1. by rewrite getRoom_setRoom_eq.
  - unfold currentRoom, currentPendingRoom, clientID, userName, isClosed in *. rewrite Hd, Hd1. by split_and!.
  - intros x Hx. rewrite (core_currentRoom _ _ _ Hcore). unfold currentRoom, w1.
    by rewrite getClient_setRoom, getClient_setClient, decide_False.
Qed.

Lemma approve_seats e c payload p w r d :
  let id := ajp_UserID p in
  let w' := handleApproveJoin e c payload w in
  decodePayload asApproveJoin payload MsgTypeApproveJoin = Some p → id ≠ "" →
  currentRoom c w = Some r → is_room_host (getRoom r w) c → PendingJoins (getRoom r w) !! id = Some d →
  isClosed d w = false → roomMembersLocked (getRoom r w) < MaxClientsPerRoom →
  currentRoom d w = None → currentPendingRoom d w = Some r → clientID d w = id →
  currentRoom d w' = Some r ∧ currentPendingRoom d w' = None ∧ clientID d w' = id ∧ session d w' = e_token e ∧
  getRoom r w' = seat id (userName d w) d ((getRoom r w) <| PendingJoins ::= delete id |>).
Proof.
  intros id w' Hp Hn Hc Hh Hj Hopen Hm Hcr Hpe Hid. unfold w', handleApproveJoin. rewrite Hp. fold id.
  rewrite decide_False, Hc by done. rewrite decide_False by tauto. rewrite Hj, Hopen.
  rewrite !decide_False by (done || lia). rewrite trySetRoom_idle by done. rewrite decide_False by done.
  set (g1 := λ cl : Client, cl <| c_affiliationStarted := true |> <| c_room := Some r |>).
  assert (clientID d (setClient d g1 w) = id ∧ userName d (setClient d g1 w) = userName d w) as [-> ->]
    by (unfold clientID, userName in *; by rewrite getClient_setClient_eq).
  unfold dropPending, clearPendingRoom. rewrite decide_True.
  2:{ unfold currentPendingRoom in *. by rewrite getClient_setRoom, getClient_setClient_eq. }
  unfold setSessionToken. rewrite !setClient_setRoom, !setClient_setClient, setRoom_setRoom. cbv zeta.
  set (w1 := setRoom r _ _).
  match goal with |- context [sendMessageToClients ?cs ?m ?pl (sendPolicyQueueSnapshot ?j ?st (sendMessage ?x ?m2 ?pl2 w1))] =>
    assert (same_core w1 (sendMessageToClients cs m pl (sendPolicyQueueSnapshot j st (sendMessage x m2 pl2 w1)))) as Hcore
      by (etrans; [apply sendMessage_core|]; etrans; [apply sendPolicyQueueSnapshot_core|apply sendMessageToClients_core]) end.
  rewrite (core_currentRoom _ _ _ Hcore), (core_currentPendingRoom _ _ _ Hcore), (core_clientID _ _ _ Hcore),
    (core_session _ _ _ Hcore), (core_getRoom _ _ _ Hcore).
  unfold currentRoom, currentPendingRoom, clientID, session, w1 in *.
  rewrite !getClient_setRoom, !getClient_setClient_eq, getRoom_setRoom_eq. by split_and!.
Qed.

(** C26: joining works.  A connection that is in no room and applies to a room
    with a connected host, with a name, a code and seats left, and whom the
    host then approves, is a member: it is in the room under its ID and the
    name it gave, holds a new token, no application of its is left, and the
    user list has one more entry, which is its. *)
Theorem join_then_approve e c d join approve pj pa w r :
  let name := sanitizeString (jrp_Username pj) MaxUsernameLength in
  let code := sanitizeString (ToUpper (jrp_RoomCode pj)) MaxRoomCodeLength in
  let id := clientID d w in
  let room := getRoom r w in
  let w' := handleApproveJoin e c approve (handleJoinRoom d join w) in
  world_ok ∅ w → decodePayload asJoinRoom join MsgTypeJoinRoom = Some pj →
  jrp_Username pj ≠ "" → jrp_RoomCode pj ≠ "" → name ≠ "" → code ≠ "" →
  holder d w → isClosed d w = false → currentRoom d w = None → currentPendingRoom d w = None →
  rooms (w_srv w) !! code = Some r → roomMembersLocked room < MaxClientsPerRoom →
  map_len (PendingJoins room) < MaxPendingJoins → currentRoom c w = Some r → is_room_host room c →
  decodePayload asApproveJoin approve MsgTypeApproveJoin = Some pa → ajp_UserID pa = id →
  currentRoom d w' = Some r ∧ clientID d w' = id ∧ session d w' = e_token e ∧
  Clients (getRoom r w') = <[id := d]> (Clients room) ∧ PendingJoins (getRoom r w') = PendingJoins room ∧
  rs_Users (State (getRoom r w')) = rs_Users (State room) ++ [mkUserInfo id name false true].
Proof.
  intros name code id room w' Hok Hpj Hu Hrc Hname Hcode Hh Hopen Hcr Hpe Hr Hm Hj Hc Hhost Hpa Hpid.
  pose proof (wo_roster _ _ Hok) as Hro. destruct (registered_code _ _ Hro _ _ Hr) as [Hreg _].
  assert (c ≠ d) as Hne by congruence.
  assert (connected_host room = Some c) as Hch by (unfold connected_host; by destruct Hhost as [-> ->]).
  destruct (join_applies d join pj w r c Hok Hpj Hu Hrc Hname Hcode Hh Hcr Hpe Hr Hm Hj Hch Hne)
    as [Hsrv Hroom (A1 & A2 & A3 & A4 & A5) Ho].
  destruct (idle_free w d r Hok Hh Hcr Hpe Hreg) as [_ Hnp].
  destruct (approve_seats e c approve pa (handleJoinRoom d join w) r d) as (S1 & _ & S2 & S3 & S4);
    rewrite ?Hroom, ?Hpid; try done.
  - apply (ro_named _ _ Hro d Hh).
  - by rewrite Ho.
  - apply lookup_insert_eq.
  - by rewrite A5.
  - rewrite Hpid in S2, S4. fold id in S2, S4. fold w' in S1, S2, S3, S4. split_and!; try done; rewrite S4, Hroom; cbn; [done| |].
    + rewrite delete_insert_id by done. done.
    + by rewrite A4.
Qed.

End Joining.

(** ** Absent hosts *)

Section Failover.
Context `{WireFormat}.

Lemma core_eligible w w' c : same_core w w' → eligible c w' → eligible c w.
Proof.
  intros Hc [Hcan Hopen]. pose proof (core_ident _ _ c Hc) as Hi. injection Hi as _ _ _ _ _ Ht _ _.
  split; [unfold canHostClient in *; congruence|]. unfold isClosed in *. destruct (c_closed (getClient c w)) eqn:Hcl; [|done].
  by rewrite (calm_closed _ _ (core_calm _ _ Hc c) Hcl) in Hopen.
Qed.

(** A room after its turn: nobody could take over and it is as it was, or a
    connected member hosts it. *)
Definition settled (room0 : Room) (r : RoomRef) (w : World) : Prop :=
  Clients (getRoom r w) = Clients room0 ∧
  ((getRoom r w = room0 ∧ ∀ id c, Clients room0 !! id = Some c → ¬ eligible c w) ∨
   (∃ id d, Clients room0 !! id = Some d ∧ Host (getRoom r w) = Some d ∧ HostDisconnectedAt (getRoom r w) = None ∧
     rs_HostID (State (getRoom r w)) = clientID d w)).

Lemma settled_core room0 r w w' : same_core w w' → settled room0 r w → settled room0 r w'.
Proof.
  intros Hc. unfold settled. rewrite (core_getRoom _ _ _ Hc). intros [Hcl [[Hr Hno]|(id & d & Hd)]]; (split; [done|]).
  - left. split; [done|]. intros id c Hin He. by apply (Hno id c Hin), (core_eligible _ _ _ Hc).
  - right. exists id, d. by rewrite (core_clientID _ _ _ Hc).
Qed.

Lemma failoverRoom_spec now w r :
  (failover_due now (getRoom r w) → settled (getRoom r w) r (failoverRoom now w r)) ∧
  (¬ failover_due now (getRoom r w) → failoverRoom now w r = w) ∧
  (∀ x, x ≠ r → getRoom x (failoverRoom now w r) = getRoom x w) ∧
  (∀ x room0, x ≠ r → settled room0 x w → settled room0 x (failoverRoom now w r)) ∧
  (∀ c, clientID c (failoverRoom now w r) = clientID c w).
Proof.
  unfold failoverRoom. destruct (decide (failover_due now (getRoom r w))) as [Hdue|Hnot]; [|done].
  destruct (pickDeputy (Clients (getRoom r w)) w) as [d|] eqn:Hp.
  - destruct (pickDeputy_Some _ _ _ Hp) as (id & Hin & _ & _). cbn [assignHostLocked]. cbv beta zeta iota.
    set (w1 := setRoom r _ w).
    match goal with |- context [deliverHostChange ?cs ?ch ?W] =>
      pose proof (deliverHostChange_core cs ch W) as Hcore; set (w2 := W) in * end.
    assert (∀ x, getRoom x w2 = if decide (x = r) then room_with_host (Some d) (clientID d w1) (own (getRoom r w)) else getRoom x w) as Hg.
    { intros x. unfold w2, w1, own. rewrite !getRoom_setRoom. by destruct (decide (x = r)) as [->|]. }
    split_and!.
    + intros _. eapply settled_core; [exact Hcore|]. unfold settled. rewrite Hg, decide_True by done.
      split; [by injection (own_slots (getRoom r w))|]. right. exists id, d. by split_and!.
    + done.
    + intros x Hx. by rewrite (core_getRoom _ _ _ Hcore), Hg, decide_False.
    + intros x room0 Hx Hs. eapply settled_core; [exact Hcore|]. unfold settled in *. by rewrite Hg, decide_False.
    + intros c. by rewrite (core_clientID _ _ _ Hcore).
  - split_and!; try done. intros _. split; [done|]. left. split; [done|]. by apply pickDeputy_None.
Qed.

Lemma failover_fold now l w r :
  NoDup l →
  let w' := foldl (failoverRoom now) w l in
  (r ∉ l → getRoom r w' = getRoom r w ∧ ∀ room0, settled room0 r w → settled room0 r w') ∧
  (r ∈ l → failover_due now (getRoom r w) → settled (getRoom r w) r w') ∧
  (∀ c, clientID c w' = clientID c w).
Proof.
  revert w. induction l as [|x l IH]; intros w Hnd; cbn; [split_and!; [done|by intros ?%not_elem_of_nil|done]|].
  apply NoDup_cons in Hnd as [Hx Hnd]. destruct (failoverRoom_spec now w x) as (F1 & F2 & F3 & F4 & F5).
  destruct (IH (failoverRoom now w x) Hnd) as (I1 & I2 & I3). split_and!.
  - intros [Hne Hnl]%not_elem_of_cons. destruct (I1 Hnl) as [-> Hs]. split; [by apply F3|].
    intros room0 Hs0. by apply Hs, F4.
  - intros [->|Hin]%elem_of_cons Hdue; [by apply (proj2 (I1 Hx)), F1|].
    assert (r ≠ x) by (intros ->; done). rewrite F3 in I2 by done. by apply I2.
  - intros c. by rewrite I3.
Qed.

Lemma rooms_NoDup w : roster_ok ∅ w → NoDup (map_to_list (rooms (w_srv w))).*2.
Proof.
  intros Hro. apply NoDup_fmap_2_strong; [|apply NoDup_map_to_list].
  intros [k x] [k' x'] Hk%elem_of_map_to_list Hk'%elem_of_map_to_list. cbn. intros <-.
  destruct (registered_code _ _ Hro _ _ Hk) as [_ <-], (registered_code _ _ Hro _ _ Hk') as [_ <-]. done.
Qed.

Lemma failover_rooms now l w : rooms (w_srv (foldl (failoverRoom now) w l)) = rooms (w_srv w).
Proof.
  revert w. induction l as [|x l IH]; intros w; cbn; [done|]. rewrite IH. unfold failoverRoom.
  destruct (decide _); [|done]. destruct (pickDeputy _ w); [|done]. cbn [assignHostLocked]. cbv beta zeta iota.
  by rewrite (core_srv _ _ (deliverHostChange_core _ _ _)).
Qed.

Lemma failover_quiet now l w r :
  NoDup l → ¬ failover_due now (getRoom r w) → getRoom r (foldl (failoverRoom now) w l) = getRoom r w.
Proof.
  revert w. induction l as [|x l IH]; intros w Hnd Hq; cbn; [done|]. apply NoDup_cons in Hnd as [_ Hnd].
  destruct (failoverRoom_spec now w x) as (_ & F2 & F3 & _). destruct (decide (r = x)) as [->|Hne].
  - rewrite F2 by done. by apply IH.
  - rewrite IH; rewrite ?F3; done.
Qed.

(** After a round no host is overdue in a room with a member who could take over. *)
Lemma failover_settles now w code r :
  let w' := failoverHostsOnce now w in
  roster_ok ∅ w → rooms (w_srv w') !! code = Some r → failover_due now (getRoom r w') →
  ∀ id c, Clients (getRoom r w') !! id = Some c → ¬ eligible c w'.
Proof.
  intros w' Hro Hr Hdue. unfold w' in Hr at 1. unfold failoverHostsOnce in Hr. rewrite failover_rooms in Hr.
  pose proof (rooms_NoDup w Hro) as Hnd. destruct (failover_fold now _ w r Hnd) as (_ & F2 & _).
  fold (failoverHostsOnce now w) in F2. fold w' in F2. destruct (decide (failover_due now (getRoom r w))) as [Hd|Hq].
  - destruct F2 as [Hcl [[_ Hno]|(id & d & _ & _ & Hat & _)]]; [|done|by rewrite Hcl|].
    + apply list_elem_of_fmap. exists (code, r). split; [done|]. by apply elem_of_map_to_list.
    + unfold failover_due in Hdue. by rewrite Hat in Hdue.
  - pose proof (failover_quiet now _ w r Hnd Hq) as Hsame. fold (failoverHostsOnce now w) in Hsame. fold w' in Hsame.
    by rewrite Hsame in Hdue.
Qed.

(** C27: absent hosts are replaced.  After a round of failover every room whose
    host had been away for [HostFailoverTimeout] has a connected member as its
    host, unless none of its members can take over. *)
Theorem failover_effective now w code r :
  let room := getRoom r w in
  let w' := failoverHostsOnce now w in
  world_ok ∅ w → rooms (w_srv w) !! code = Some r → failover_due now room →
  Clients (getRoom r w') = Clients room ∧
  ((∀ id c, Clients room !! id = Some c → ¬ eligible c w') ∨
   ∃ id d, Clients room !! id = Some d ∧ Host (getRoom r w') = Some d ∧ HostDisconnectedAt (getRoom r w') = None ∧
     rs_HostID (State (getRoom r w')) = id).
Proof.
  intros room w' Hok Hr Hdue. pose proof (wo_roster _ _ Hok) as Hro. pose proof (rooms_NoDup w Hro) as Hnd.
  destruct (failover_fold now _ w r Hnd) as (_ & F2 & F3). fold (failoverHostsOnce now w) in F2, F3. fold w' in F2, F3.
  destruct (registered_code _ _ Hro _ _ Hr) as [Hreg _].
  destruct F2 as [Hcl [[_ Hno]|(id & d & Hd & Hh & Hat & Hid)]]; [|done|split; [done|by left]|].
  - apply list_elem_of_fmap. exists (code, r). split; [done|]. by apply elem_of_map_to_list.
  - split; [done|]. right. exists id, d. split_and!; try done. rewrite Hid, F3. by apply (ro_seat _ _ Hro r).
Qed.

End Failover.

(** ** Seats that ran out *)

Section Expiring.
Context `{WireFormat}.

(** Rooms may go, with all their tokens; nothing else of the books changes. *)
Record pruned (w w' : World) : Prop := {
  pn_rooms code r : rooms (w_srv w') !! code = Some r → rooms (w_srv w) !! code = Some r;
  pn_code r : Code (getRoom r w') = Code (getRoom r w);
  pn_session s : getSession s w' = getSession s w;
  pn_old t s : sessions (w_srv w') !! t = Some s → sessions (w_srv w) !! t = Some s;
  pn_kept t s : sessions (w_srv w) !! t = Some s →
    sessions (w_srv w') !! t = Some s ∨ rooms (w_srv w') !! se_RoomCode (getSession s w) = None
}.
#[local] Instance pruned_preorder : PreOrder pruned.
Proof.
  split; [split; eauto|]. intros w1 w2 w3 [R1 C1 S1 O1 K1] [R2 C2 S2 O2 K2]. split; [auto|congruence|congruence|auto|].
  intros t s Ht. destruct (K1 t s Ht) as [Ht2|Hn].
  - destruct (K2 t s Ht2) as [?|Hn]; [by left|right]. by rewrite <- S1.
  - right. destruct (rooms (w_srv w3) !! _) as [r|] eqn:Hr; [|done]. apply R2 in Hr. congruence.
Qed.

Lemma pruned_core w w' : same_core w w' → pruned w w'.
Proof.
  intros Hc. split; intros *; rewrite ?(core_srv _ _ Hc), ?(core_getRoom _ _ _ Hc), ?(core_getSession _ _ _ Hc); auto.
Qed.
Lemma pruned_setClient c f w : pruned w (setClient c f w).
Proof. split; auto. Qed.
Lemma pruned_setRoom r f w : (∀ room, Code (f room) = Code room) → pruned w (setRoom r f w).
Proof. intros Hf. split; auto. intros x. rewrite getRoom_setRoom. by case_decide; subst. Qed.
Lemma pruned_foldl {A} (f : World → A → World) l w : (∀ w x, pruned w (f w x)) → pruned w (foldl f w l).
Proof. intros Hf. revert w. induction l as [|x l IH]; intros w; [done|]. cbn. by etrans; [apply Hf|]. Qed.
Lemma pruned_clearRoom c r w : pruned w (clearRoom c r w).
Proof. unfold clearRoom. case_decide; [apply pruned_setClient|done]. Qed.
Lemma pruned_rejectPending r reason w c : pruned w (rejectPending r reason w c).
Proof.
  unfold rejectPending. etrans; [apply pruned_core, sendMessage_core|]. unfold clearPendingRoom.
  case_decide; [apply pruned_setClient|done].
Qed.
Lemma pruned_kickMember r reason w c : pruned w (kickMember r reason w c).
Proof. unfold kickMember. etrans; [apply pruned_core, sendMessage_core|]. apply pruned_clearRoom. Qed.

Lemma pruned_delete r w : pruned w (deleteRoomIfEmpty r w).2.
Proof.
  unfold deleteRoomIfEmpty. case_decide; [|done]. cbn.
  etrans; [apply (pruned_foldl (rejectPending r "Room is no longer available")); intros; apply pruned_rejectPending|].
  etrans; [apply (pruned_setRoom r (λ room, room <| PendingJoins := ∅ |>)); done|].
  split; cbn; auto. by intros code x [_ ?]%lookup_delete_Some.
Qed.

(** Closing a room of the table takes its tokens along. *)
Lemma pruned_closeRoom r reason w :
  rooms (w_srv w) !! Code (getRoom r w) = Some r → pruned w (closeRoom r reason w).
Proof.
  intros Hr. unfold closeRoom. set (w1 := dropSessions _ _).
  assert (pruned w w1) as Hp.
  { unfold w1, unregister. rewrite decide_True by done. split; cbn; auto.
    - by intros code x [_ ?]%lookup_delete_Some.
    - by intros t s [? _]%map_lookup_filter_Some.
    - intros t s Ht. destruct (decide (se_RoomCode (getSession s w) = Code (getRoom r w))) as [->|Hne].
      + right. apply lookup_delete_eq.
      + left. by apply map_lookup_filter_Some. }
  etrans; [exact Hp|]. etrans; [apply (pruned_foldl (kickMember r reason)); intros; apply pruned_kickMember|].
  etrans; [apply (pruned_foldl (rejectPending r reason)); intros; apply pruned_rejectPending|].
  by apply pruned_setRoom.
Qed.

Lemma pruned_announce r elect id username w :
  rooms (w_srv w) !! Code (getRoom r w) = Some r → pruned w (announce_departure r elect id username (λ w, w) w).
Proof.
  intros Hr. unfold announce_departure.
  set (p := if elect then _ else _). assert (pruned w p.2 ∧ rooms (w_srv p.2) = rooms (w_srv w)) as [Hp Hreg].
  { unfold p. destruct elect; [|done]. rewrite (surjective_pairing (assignHostLocked _ _ _)). cbn.
    split; [|done]. by apply pruned_setRoom. }
  destruct p as [change w1]. cbn [snd] in *. cbv zeta.
  match goal with |- context [deliverHostChange ?cs change (sendMessageToClients ?cs2 ?m ?pl w1)] =>
    assert (same_core w1 (deliverHostChange cs change (sendMessageToClients cs2 m pl w1))) as Hcore
      by (etrans; [apply sendMessageToClients_core|apply deliverHostChange_core]);
    set (w2 := deliverHostChange cs change (sendMessageToClients cs2 m pl w1)) in * end.
  assert (pruned w w2) by (etrans; [exact Hp|by apply pruned_core]).
  case_match; [|done]. etrans; [done|]. apply pruned_closeRoom.
  rewrite (core_srv _ _ Hcore), (core_getRoom _ _ _ Hcore), Hreg, (pn_code _ _ Hp). done.
Qed.

Lemma pruned_expire_one now s w :
  (∀ code r, rooms (w_srv w) !! code = Some r → Code (getRoom r w) = code) → pruned w (expire_one now w s).
Proof.
  intros Hcodes. unfold expire_one. destruct (rooms (w_srv w) !! _) as [r|] eqn:Hr; [|done].
  unfold expireSession. destruct (DisconnectedUsers _ !! _); [|done]. cbv zeta.
  set (id := se_UserID _). set (w1 := setRoom r _ w).
  assert (pruned w w1) as Hp by (apply pruned_setRoom; intros room; unfold forget_user; cbn; by case_decide).
  assert (rooms (w_srv w1) !! Code (getRoom r w1) = Some r) as Hr1.
  { rewrite (pn_code _ _ Hp), (Hcodes _ _ Hr). exact Hr. }
  case_decide.
  - etrans; [exact Hp|]. etrans; [|apply pruned_delete]. case_match; [|done]. by apply pruned_setRoom.
  - etrans; [exact Hp|]. by apply pruned_announce.
Qed.

Lemma pruned_expire_all now l w :
  (∀ code r, rooms (w_srv w) !! code = Some r → Code (getRoom r w) = code) → pruned w (foldl (expire_one now) w l).
Proof.
  revert w. induction l as [|s l IH]; intros w Hcodes; [done|]. cbn. pose proof (pruned_expire_one now s w Hcodes) as Hp.
  etrans; [exact Hp|]. apply IH. intros code r Hr. rewrite (pn_code _ _ Hp). by apply Hcodes, Hp.
Qed.

Lemma cleanup_pruned now w :
  roster_ok ∅ w → pruned (dropSessions (session_expired now) w) (cleanupExpiredSessionsOnce now w).
Proof. intros Hro. apply pruned_expire_all. intros code r Hr. by apply (ro_code _ _ Hro). Qed.

Lemma cleanup_live now w t s :
  roster_ok ∅ w → sessions (w_srv (cleanupExpiredSessionsOnce now w)) !! t = Some s →
  sessions (w_srv w) !! t = Some s ∧ ¬ session_expired now (getSession s w).
Proof.
  intros Hro Ht%(pn_old _ _ (cleanup_pruned now w Hro)). by apply map_lookup_filter_Some in Ht.
Qed.

(** After a round every reserved seat has a token whose time is not up. *)
Lemma cleanup_settles now w code r id x :
  let w' := cleanupExpiredSessionsOnce now w in
  world_ok ∅ w → rooms (w_srv w') !! code = Some r → DisconnectedUsers (getRoom r w') !! id = Some x →
  ∃ t s, sessions (w_srv w') !! t = Some s ∧ sits id code s w' ∧ ¬ session_expired now (getSession s w').
Proof.
  intros w' Hok Hr Hx. pose proof (cleanupExpiredSessionsOnce_ok now w Hok) as Hok'. fold w' in Hok'.
  pose proof (wo_roster _ _ Hok) as Hro. pose proof (wo_roster _ _ Hok') as Hro'.
  destruct (registered_code _ _ Hro' _ _ Hr) as [Hreg <-].
  destruct (aw_entry _ _ (ro_away _ _ Hro') _ _ _ Hreg Hx) as (Hu & Hc & _ & s & [?%elem_of_empty|[t Ht]] & Hcl); [done|].
  exists t, s. injection Hcl as Hsu Hsc _. split_and!; [done|split; congruence|].
  unfold w'. rewrite (pn_session _ _ (cleanup_pruned now w Hro)). by apply (cleanup_live now w t s Hro Ht).
Qed.

(** C28: seats that ran out are given up, and only those.  After a round of
    cleanup a token is in the table exactly when it was there, its session has
    not expired and its room still exists; and every reserved seat of every
    room is reached by such a token. *)
Theorem expired_given_up now w :
  let w' := cleanupExpiredSessionsOnce now w in
  world_ok ∅ w →
  (∀ t s, sessions (w_srv w') !! t = Some s ↔
    sessions (w_srv w) !! t = Some s ∧ ¬ session_expired now (getSession s w) ∧
    is_Some (rooms (w_srv w') !! se_RoomCode (getSession s w))) ∧
  (∀ code r id x, rooms (w_srv w') !! code = Some r → DisconnectedUsers (getRoom r w') !! id = Some x →
    ∃ t s, sessions (w_srv w') !! t = Some s ∧ sits id code s w' ∧ ¬ session_expired now (getSession s w')).
Proof.
  intros w' Hok. pose proof (cleanupExpiredSessionsOnce_ok now w Hok) as Hok'. fold w' in Hok'.
  pose proof (wo_roster _ _ Hok) as Hro. pose proof (wo_roster _ _ Hok') as Hro'.
  split; [|by intros; eapply cleanup_settles]. intros t s. split.
  - intros Ht. destruct (cleanup_live now w t s Hro Ht). split_and!; [done|done|].
    destruct (aw_session _ _ (ro_away _ _ Hro') s) as (_ & r & x & Hr & _); [right; eauto|].
    unfold w' in Hr at 2. rewrite (pn_session _ _ (cleanup_pruned now w Hro)) in Hr. eauto.
  - intros (Ht & Hn & [r Hr]). destruct (pn_kept _ _ (cleanup_pruned now w Hro) t s) as [?|Hnone]; [|done|].
    + by apply map_lookup_filter_Some.
    + change (getSession s (dropSessions _ w)) with (getSession s w) in Hnone. fold w' in Hnone. congruence.
Qed.

End Expiring.
