(* ===== verification/Club.v ===== *)
(** Club: what the server promises about its rooms, as an abstract machine.

    A hall is a room without its connections, sessions and messages: who is
    there, who is away with the seat kept, who waits to be let in, who hosts,
    and whose role the host keeps warm.  Deeds are what can happen to a hall,
    each with its condition and with the actor it takes: a user by a message, a
    connection coming or going, or the server's clocks.  A club is the halls by
    code.  It moves by deeds and by closing a hall in which nobody is left or
    nobody left can host; apart from that a user founds a hall, or the host of
    one lets an applicant in or puts a member out.

    The lemmas here are about the machine alone: moves seat nobody new, and
    each actor's moves take only the seats that are its to take.  [Refine]
    shows that the server implements the machine. *)

From S2P Require Import Prelude Protocol Limits Members Rooms.

Inductive actor := User (id : string) | Network | Clock.

Record Hall := mkHall {
  h_here : gset string;
  h_away : gset string;
  h_waiting : gset string;
  h_host : string;
  h_owner : string
}.
Definition h_seats (h : Hall) : gset string := h_here h ∪ h_away h.
Notation Club := (gmap string Hall).

(** The owner's claim on the host role ends with the owner's seat. *)
Definition disown (id : string) (h : Hall) : string := if decide (h_owner h = id) then "" else h_owner h.
(** Who hosts after [id] is gone. *)
Definition succeed (id heir : string) (h : Hall) : string := if decide (h_host h = id) then heir else h_host h.

Inductive deed (who : actor) (h : Hall) : Hall → Prop :=
  | deed_apply u :
      who = User u → u ≠ "" → u ∉ h_here h → h_host h ≠ "" → Z.of_nat (size (h_seats h)) < MaxClientsPerRoom →
      deed who h (mkHall (h_here h) (h_away h) ({[u]} ∪ h_waiting h) (h_host h) (h_owner h))
  | deed_withdraw id : deed who h (mkHall (h_here h) (h_away h) (h_waiting h ∖ {[id]}) (h_host h) (h_owner h))
  | deed_hand_over u id :
      who = User u → u ≠ "" → h_host h = u → id ∈ h_here h →
      deed who h (mkHall (h_here h) (h_away h) (h_waiting h) id "")
  | deed_leave u heir :
      who = User u → u ≠ "" → u ∈ h_here h → heir = "" ∨ heir ∈ h_here h ∖ {[u]} →
      deed who h (mkHall (h_here h ∖ {[u]}) (h_away h) (h_waiting h ∖ {[u]}) (succeed u heir h) (disown u h))
  | deed_lose id :
      who ≠ Clock → id ∈ h_here h →
      deed who h (mkHall (h_here h ∖ {[id]}) ({[id]} ∪ h_away h) (h_waiting h) (h_host h) (h_owner h))
  | deed_return id :
      who ≠ Clock → id ∈ h_away h →
      deed who h (mkHall ({[id]} ∪ h_here h) (h_away h ∖ {[id]}) (h_waiting h) (h_host h) (h_owner h))
  | deed_reclaim id :
      who ≠ Clock → id ∈ h_here h → h_host h = id ∨ h_owner h = id ∨ h_host h = "" →
      deed who h (mkHall (h_here h) (h_away h) (h_waiting h) id (disown id h))
  | deed_expire id heir :
      who = Clock → id ∈ h_away h → heir = "" ∨ heir ∈ h_here h →
      deed who h (mkHall (h_here h) (h_away h ∖ {[id]}) (h_waiting h) (succeed id heir h) (disown id h))
  | deed_stand_in id :
      who = Clock → h_host h ∈ h_away h → id ∈ h_here h →
      deed who h (mkHall (h_here h) (h_away h) (h_waiting h) id (if decide (h_owner h = "") then h_host h else h_owner h)).

(** Nobody is left, or nobody who is left can host. *)
Definition closable (h : Hall) : Prop := h_away h = ∅ ∧ (h_here h = ∅ ∨ h_host h = "").

Inductive move (who : actor) (S : Club) : Club → Prop :=
  | move_close code h : who ≠ Network → S !! code = Some h → closable h → move who S (delete code S)
  | move_deed code h h' : S !! code = Some h → deed who h h' → move who S (<[code := h']> S).

(** How user [u] gives [id] a seat in hall [code]. *)
Inductive grant (u : string) (S : Club) (code id : string) : Club → Prop :=
  | grant_found : u ≠ "" → S !! code = None → id = u → grant u S code id (<[code := mkHall {[u]} ∅ ∅ u ""]> S)
  | grant_admit h :
      u ≠ "" → S !! code = Some h → h_host h = u → id ∈ h_waiting h → id ∉ h_seats h →
      Z.of_nat (size (h_seats h)) < MaxClientsPerRoom →
      grant u S code id
        (<[code := mkHall ({[id]} ∪ h_here h) (h_away h) (h_waiting h ∖ {[id]}) (h_host h) (h_owner h)]> S).

(** How user [u] takes it away. *)
Inductive kick (u : string) (S : Club) (code id : string) : Club → Prop :=
  | kick_out h :
      u ≠ "" → S !! code = Some h → h_host h = u → id ≠ u → id ∈ h_seats h →
      kick u S code id
        (<[code := mkHall (h_here h ∖ {[id]}) (h_away h ∖ {[id]}) (h_waiting h) (h_host h) (disown id h)]> S).

(** What one message, one end of a connection or one round of a clock amounts to. *)
Inductive club (who : actor) (S S' : Club) : Prop :=
  | club_moves : rtc (move who) S S' → club who S S'
  | club_grant u code id : who = User u → grant u S code id S' → club who S S'
  | club_kick u code id : who = User u → kick u S code id S' → club who S S'.

(** ** What the machine guarantees *)

Definition seated_at (id code : string) (S : Club) : Prop := ∃ h, S !! code = Some h ∧ id ∈ h_seats h.

Lemma deed_seats who h h' id : deed who h h' → id ∈ h_seats h' → id ∈ h_seats h.
Proof. unfold h_seats. intros []; cbn; set_solver. Qed.

Lemma moves_seats who S S' id code : rtc (move who) S S' → seated_at id code S' → seated_at id code S.
Proof.
  intros Hr. revert S' Hr. apply (rtc_ind_r (λ S', seated_at id code S' → _)); [done|].
  intros S1 S2 _ Hm IH (k & Hk & Hin). apply IH. destruct Hm as [code' h _ Hh Hc|code' h h' Hh Hd].
  - apply lookup_delete_Some in Hk as [_ Hk]. by exists k.
  - apply lookup_insert_Some in Hk as [[<- <-]|[_ Hk]]; [|by exists k]. exists h. eauto using deed_seats.
Qed.

Lemma grant_seats u S code' id' S' id code :
  grant u S code' id' S' → seated_at id code S' ↔ seated_at id code S ∨ (code = code' ∧ id = id').
Proof.
  unfold seated_at, h_seats. intros [Hw Hn ->|h Hw Hh _ _ _ _]; setoid_rewrite lookup_insert_Some; split.
  - intros (k & [[<- <-]|[_ Hk]] & Hin); [right; set_solver|left; by exists k].
  - intros [(k & Hk & Hin)|[-> ->]]; [|eexists; split; [by left|]; cbn; set_solver]. exists k. split; [|done]. right. split; [congruence|done].
  - intros (k & [[<- <-]|[_ Hk]] & Hin); [|left; by exists k]. cbn in Hin.
    destruct (decide (id = id')) as [->|]; [by right|]. left. exists h. set_solver.
  - intros [(k & Hk & Hin)|[-> ->]]; [|eexists; split; [by left|]; cbn; set_solver]. destruct (decide (code' = code)) as [->|].
    + rewrite Hh in Hk. injection Hk as ->. eexists. split; [by left|]. cbn. set_solver.
    + exists k. split; [|done]. by right.
Qed.

Lemma kick_seats u S code' id' S' id code :
  kick u S code' id' S' → seated_at id code S' ↔ seated_at id code S ∧ ¬ (code = code' ∧ id = id').
Proof.
  unfold seated_at, h_seats. intros [h Hw Hh _ _ _]. setoid_rewrite lookup_insert_Some. split.
  - intros (k & [[<- <-]|[Hne Hk]] & Hin); [|split; [by exists k|naive_solver]]. cbn in Hin. split; [exists h|]; set_solver.
  - intros [(k & Hk & Hin) Hnot]. destruct (decide (code' = code)) as [->|]; [|exists k; by auto].
    rewrite Hh in Hk. injection Hk as ->. eexists. split; [by left|]. cbn. set_solver.
Qed.

(** What an actor's moves may take: a clock the seats of those who are away, a
    user its own; a hall that is closed stays closed. *)
Definition takes (who : actor) (id code : string) (S : Club) : Prop :=
  match who with
  | User u => u = id
  | Network => False
  | Clock => ∃ h, S !! code = Some h ∧ id ∈ h_away h
  end.

Lemma deed_unseats who h h' id :
  deed who h h' → id ∈ h_seats h →
  id ∈ h_seats h' ∨ match who with User u => u = id | Network => False | Clock => id ∈ h_away h end.
Proof.
  unfold h_seats. intros [| |u id' -> ? ?|u heir -> ? ?|id'|id'|id'|id' heir -> ?|id' ->]; cbn; intros Hin; try (by left).
  - destruct (decide (u = id)) as [->|]; [by right|]. left. set_solver.
  - left. destruct (decide (id' = id)) as [->|]; set_solver.
  - left. destruct (decide (id' = id)) as [->|]; set_solver.
  - destruct (decide (id' = id)) as [->|]; [by right|]. left. set_solver.
Qed.

(** The clocks send nobody away. *)
Lemma clock_away who h h' id : who = Clock → deed who h h' → id ∈ h_away h' → id ∈ h_away h.
Proof. intros ->. intros []; cbn; try done; set_solver. Qed.

Lemma clock_moves_away S S' h' id code :
  rtc (move Clock) S S' → S' !! code = Some h' → id ∈ h_away h' → takes Clock id code S.
Proof.
  intros Hr. revert S' Hr h'. apply (rtc_ind_r (λ S', ∀ h', S' !! code = Some h' → id ∈ h_away h' → takes Clock id code S)); [intros h'; cbn; eauto|].
  intros S1 S2 _ [code' k _ Hk _|code' k k' Hk Hd] IH h'.
  - intros [_ Hh]%lookup_delete_Some. eauto.
  - intros [[<- <-]|[_ Hh]]%lookup_insert_Some Hin; [|by eauto]. apply (IH k Hk). by eapply clock_away.
Qed.

Lemma moves_unseat who S S' id code :
  rtc (move who) S S' → seated_at id code S → seated_at id code S' ∨ (who ≠ Network ∧ S' !! code = None) ∨ takes who id code S.
Proof.
  intros Hr Hs. revert S' Hr. apply rtc_ind_r; [by left|].
  intros S1 S2 Hr [code' k Hmay Hk _|code' k k' Hk Hd] IH; (destruct (decide (code' = code)) as [->|Hne];
    [|unfold seated_at; by rewrite ?lookup_delete_ne, ?lookup_insert_ne]).
  - right. left. split; [done|apply lookup_delete_eq].
  - destruct IH as [(h & Hh & Hin)|[[_ ?]|?]]; [|congruence|by right; right]. rewrite Hk in Hh. injection Hh as ->.
    destruct (deed_unseats _ _ _ _ Hd Hin) as [Hin'|Ht]; [left; exists k'; by rewrite lookup_insert_eq|].
    right. right. destruct who; [done|done|]. by eapply clock_moves_away.
Qed.
