(* ===== verification/Refine.v ===== *)
(** Refine: the server implements the abstract machine of [Club].

    [view] forgets everything of a world but its halls.  The lemmas follow the
    handlers: most leave the view alone, each of the others makes one or two
    deeds whose conditions come from the guards of the handler and from the
    invariant.  The theorem is a forward simulation: every step of the server
    is a run of deeds, on behalf of the connection whose message it handles or
    of the server itself. *)

From S2P Require Import Prelude Protocol Utf8 Validation UAPolicy World Client Pumps Roster Hosts Playback Limits Identifiers Members Rooms Lifecycle RoomOk Safety Preserve PreserveRooms PreserveLife Server Steady Reachable Conduct Club.

#[local] Opaque pickDeputy.

Definition hall_of (room : Room) : Hall :=
  mkHall (dom (Clients room)) (dom (DisconnectedUsers room)) (dom (PendingJoins room))
    (rs_HostID (State room)) (OwnerID room).
Definition view (w : World) : Club := (λ r, hall_of (getRoom r w)) <$> rooms (w_srv w).

(** A run of moves from one world to the other. *)
Definition plays (who : actor) (w w' : World) : Prop := rtc (move who) (view w) (view w').
#[export] Instance plays_preorder who : PreOrder (plays who).
Proof. split; [intros w; apply rtc_refl|]. intros w1 w2 w3 A B. unfold plays in *. by etrans. Qed.

(** ** Views of updates *)

Section View.
Context (who : actor).

Lemma view_lookup w code : view w !! code = (λ r, hall_of (getRoom r w)) <$> rooms (w_srv w) !! code.
Proof. apply lookup_fmap. Qed.

Lemma view_ext w w' :
  rooms (w_srv w') = rooms (w_srv w) →
  (∀ code r, rooms (w_srv w) !! code = Some r → hall_of (getRoom r w') = hall_of (getRoom r w)) → view w' = view w.
Proof.
  intros Hr Hh. apply map_eq. intros code. rewrite !view_lookup, Hr.
  destruct (rooms (w_srv w) !! code) as [r|] eqn:E; [|done]. cbn. by rewrite (Hh _ _ E).
Qed.

Lemma view_setRoom_same r f w : hall_of (f (getRoom r w)) = hall_of (getRoom r w) → view (setRoom r f w) = view w.
Proof. intros Hf. apply view_ext; [done|]. intros code x _. rewrite getRoom_setRoom. by case_decide; subst. Qed.

(** Rooms are registered under their own codes. *)
Definition coded (w : World) : Prop := ∀ code r, rooms (w_srv w) !! code = Some r → Code (getRoom r w) = code.
Lemma roster_coded E w : roster_ok E w → coded w.
Proof. intros Hro code r Hr. by apply (ro_code _ _ Hro). Qed.

Lemma view_room r w w' :
  coded w → registered r w → rooms (w_srv w') = rooms (w_srv w) → (∀ x, x ≠ r → getRoom x w' = getRoom x w) →
  view w' = <[Code (getRoom r w) := hall_of (getRoom r w')]> (view w).
Proof.
  intros Hco Hreg Hr Hx. apply map_eq. intros code. rewrite lookup_insert, !view_lookup, Hr. case_decide as Hc.
  - subst code. unfold registered in Hreg. by rewrite Hreg.
  - destruct (rooms (w_srv w) !! code) as [x|] eqn:E; [|done]. cbn. rewrite Hx; [done|].
    intros ->. by destruct (Hco _ _ E).
Qed.

Lemma view_core w w' : same_core w w' → view w' = view w.
Proof. intros Hc. apply view_ext; [by rewrite (core_srv _ _ Hc)|]. intros. by rewrite (core_getRoom _ _ _ Hc). Qed.

Lemma plays_view w w' : view w' = view w → plays who w w'.
Proof. intros E. unfold plays. by rewrite E. Qed.
Lemma plays_core w W W' : same_core W W' → plays who w W → plays who w W'.
Proof. intros Hc Hp. etrans; [exact Hp|]. by apply plays_view, view_core. Qed.

(** Moves, or one new member. *)
Definition acts (w w' : World) : Prop := club who (view w) (view w').
Lemma plays_acts w w' : plays who w w' → acts w w'.
Proof. apply club_moves. Qed.
Lemma acts_core w W W' : same_core W W' → acts w W → acts w W'.
Proof. intros Hc. unfold acts. by rewrite (view_core _ _ Hc). Qed.

(** One deed on the hall of room [r]. *)
Lemma plays_room r w w' :
  coded w → registered r w → rooms (w_srv w') = rooms (w_srv w) → (∀ x, x ≠ r → getRoom x w' = getRoom x w) →
  deed who (hall_of (getRoom r w)) (hall_of (getRoom r w')) → plays who w w'.
Proof.
  intros Hco Hreg Hr Hx Hd. apply rtc_once. rewrite (view_room r w w') by done. eapply move_deed; [|exact Hd].
  unfold registered in Hreg. by rewrite view_lookup, Hreg.
Qed.
Lemma plays_deed r f w h :
  coded w → registered r w → deed who (hall_of (getRoom r w)) h → hall_of (f (getRoom r w)) = h →
  plays who w (setRoom r f w).
Proof.
  intros Hco Hreg Hd <-. apply (plays_room r); try done; [|by rewrite getRoom_setRoom_eq].
  intros x Hx. by rewrite getRoom_setRoom, decide_False.
Qed.

Context (w : World).
Lemma plays_setClient W c f : plays who w W → plays who w (setClient c f W).
Proof. done. Qed.
Lemma plays_setSession W s f : plays who w W → plays who w (setSession s f W).
Proof. done. Qed.
Lemma plays_setServer W f : rooms (f (w_srv W)) = rooms (w_srv W) → plays who w W → plays who w (setServer f W).
Proof. intros Hf Hp. etrans; [exact Hp|]. by apply plays_view, view_ext. Qed.
Lemma plays_setRoom W r f :
  (∀ room, hall_of (f room) = hall_of room) → plays who w W → plays who w (setRoom r f W).
Proof. intros Hf Hp. etrans; [exact Hp|]. by apply plays_view, view_setRoom_same. Qed.
Lemma plays_newSession W se : plays who w W → plays who w (newSession se W).2.
Proof. done. Qed.
Lemma plays_foldl {A} (f : World → A → World) l W :
  (∀ W x, plays who w W → plays who w (f W x)) → plays who w W → plays who w (foldl f W l).
Proof. intros Hf. revert W. induction l; cbn; auto. Qed.
End View.

Section Updates.
Context `{WireFormat, UnicodeTables} (who : actor) (w W : World).
Lemma plays_sendMessage c m p : plays who w W → plays who w (sendMessage c m p W).
Proof. apply plays_core, sendMessage_core. Qed.
Lemma plays_reply c m p : plays who w W → plays who w (reply c m p W).
Proof. apply plays_core, reply_core. Qed.
Lemma plays_sendError c code m : plays who w W → plays who w (sendError c code m W).
Proof. apply plays_core, sendError_core. Qed.
Lemma plays_broadcast cs m p : plays who w W → plays who w (sendMessageToClients cs m p W).
Proof. apply plays_core, sendMessageToClients_core. Qed.
Lemma plays_snapshot c st : plays who w W → plays who w (sendPolicyQueueSnapshot c st W).
Proof. apply plays_core, sendPolicyQueueSnapshot_core. Qed.
Lemma plays_deliver cs ch : plays who w W → plays who w (deliverHostChange cs ch W).
Proof. apply plays_core, deliverHostChange_core. Qed.
Lemma plays_clearRoom c r : plays who w W → plays who w (clearRoom c r W).
Proof. intros. unfold clearRoom. by case_decide. Qed.
Lemma plays_clearPendingRoom c r : plays who w W → plays who w (clearPendingRoom c r W).
Proof. intros. unfold clearPendingRoom. by case_decide. Qed.
Lemma plays_dropSessions (P : Session → Prop) `{!∀ s, Decision (P s)} : plays who w W → plays who w (dropSessions P W).
Proof. by apply plays_setServer. Qed.
Lemma plays_drop_token t : plays who w W → plays who w (drop_token t W).
Proof. intros. unfold drop_token. case_decide; [done|by apply plays_setServer]. Qed.
End Updates.

Ltac plays_peel :=
  first [simple apply plays_sendMessage|simple apply plays_reply|simple apply plays_sendError
        |simple apply plays_broadcast|simple apply plays_snapshot|simple apply plays_deliver
        |simple apply plays_clearRoom|simple apply plays_clearPendingRoom|simple apply plays_dropSessions
        |simple apply plays_drop_token|simple apply plays_setClient|simple apply plays_setSession
        |simple apply plays_newSession].
Ltac plays_step :=
  lazymatch goal with
  | |- plays _ ?w ?w => reflexivity
  | H : plays ?who ?w ?W |- plays ?who ?w ?W => exact H
  | |- plays _ _ (setServer _ _) => apply plays_setServer; [reflexivity|]
  | |- plays _ _ (setRoom _ _ _) => apply plays_setRoom; [intros; reflexivity|]
  | |- plays _ _ (foldl _ _ _) => apply plays_foldl; [intros|]
  | |- plays _ _ (if decide _ then _ else _) => case_decide
  | |- plays _ _ (match ?x with _ => _ end) => destruct x
  | |- plays _ _ _ => plays_peel
  end.
Ltac plays := repeat (cbv zeta beta; cbn [fst snd]; plays_step).

(** ** Handlers that leave the halls alone *)

Section Quiet.
Context `{WireFormat, UnicodeTables} (who : actor) (w : World).

Lemma hall_of_seats room room' : seats room' = seats room → hall_of room' = hall_of room.
Proof. intros Hs. injection Hs. unfold hall_of. congruence. Qed.
Lemma hall_of_notice id m p room : hall_of (queueNoticeLocked id m p room) = hall_of room.
Proof. unfold queueNoticeLocked. case_match; [|done]. by case_decide. Qed.

Lemma plays_handlePlaybackAction e c payload : plays who w (handlePlaybackAction e c payload w).
Proof.
  destruct (handlePlaybackAction_outcome e c payload w)
    as [Hc|r p room room' Hr Hh Hs Ha Ht Hc|r p room room' p' Hr Hh Hs Ha Hc]; (eapply plays_core; [exact Hc|]); [done|..];
    destruct (host_sequence_frame _ _ _ Hs) as (Hse & _); apply plays_view, view_setRoom_same, hall_of_seats;
    pose proof (apply_action_seats (e_nowMs e) (roundTripMs c w) room p) as Has; rewrite Ha in Has.
  - congruence.
  - destruct (finish_action_frame (e_nowMs e) (clientID c w) room' p') as (Hfs & _). cbn in Has. congruence.
Qed.
Lemma plays_handleBufferReady e c payload : plays who w (handleBufferReady e c payload w).
Proof. unfold handleBufferReady. plays. Qed.
Lemma plays_handleRequestSync e c : plays who w (handleRequestSync e c w).
Proof. unfold handleRequestSync. plays. Qed.
Lemma plays_handlePing e at' c payload : plays who w (handlePing e at' c payload w).
Proof. unfold handlePing, queuePong. plays. Qed.
Lemma plays_handleClientCapabilities c payload : plays who w (handleClientCapabilities c payload w).
Proof. unfold handleClientCapabilities, setFeatures. plays. Qed.
Lemma plays_handleSuggestTrack e c payload : plays who w (handleSuggestTrack e c payload w).
Proof. unfold handleSuggestTrack. plays. Qed.
Lemma plays_replace r room : hall_of room = hall_of (getRoom r w) → plays who w (setRoom r (λ _, room) w).
Proof. intros. by apply plays_view, view_setRoom_same. Qed.

Lemma plays_handleRejectSuggestion c payload : plays who w (handleRejectSuggestion c payload w).
Proof.
  unfold handleRejectSuggestion. destruct (decodePayload _ _ _) as [p|]; [|plays]. cbv zeta. case_decide; [plays|].
  destruct (currentRoom c w) as [r|]; [|plays]. case_decide; [plays|].
  destruct (PendingSuggestions _ !! _); [|plays]. destruct (Clients _ !! _).
  - apply plays_sendMessage. by apply plays_replace.
  - apply plays_replace. by rewrite hall_of_notice.
Qed.

Lemma insert_suggestion_hall k sg room :
  match insert_suggestion k sg room with
  | inl (room', _, _) | inr (room', _) => hall_of room' = hall_of room
  end.
Proof. unfold insert_suggestion. destruct (sg_Track sg); [|done]. by repeat case_decide. Qed.

Lemma plays_handleApproveSuggestion e c payload : plays who w (handleApproveSuggestion e c payload w).
Proof.
  unfold handleApproveSuggestion. destruct (decodePayload _ _ _) as [p|]; [|plays]. cbv zeta. case_decide; [plays|].
  destruct (currentRoom c w) as [r|]; [|plays]. case_decide; [plays|].
  destruct (PendingSuggestions _ !! _) as [sg|]; [|plays].
  pose proof (insert_suggestion_hall (asp_SuggestionID p) sg (getRoom r w)) as Hi.
  destruct (insert_suggestion _ _ _) as [[[room code] msg]|[room track]].
  - apply plays_sendError. by apply plays_replace.
  - destruct (Clients _ !! _); [apply plays_sendMessage|]; apply plays_broadcast, plays_replace; [done|].
    by rewrite hall_of_notice.
Qed.
End Quiet.

(** ** The host's decisions *)

Lemma hall_forget id room :
  hall_of (forget_user id room) =
    mkHall (dom (Clients room)) (dom (DisconnectedUsers room)) (dom (PendingJoins room)) (rs_HostID (State room))
      (disown id (hall_of room)).
Proof. unfold forget_user, hall_of, disown. cbn. by case_decide. Qed.

Lemma hall_with_host host id room :
  hall_of (room_with_host host id room) =
    mkHall (dom (Clients room)) (dom (DisconnectedUsers room)) (dom (PendingJoins room)) id (OwnerID room).
Proof. done. Qed.

Lemma hall_size room : Z.of_nat (size (h_seats (hall_of room))) ≤ roomMembersLocked room.
Proof.
  unfold h_seats, roomMembersLocked, map_len. cbn. rewrite size_union_alt, <- !size_dom.
  pose proof (subseteq_size (dom (DisconnectedUsers room) ∖ dom (Clients room)) (dom (DisconnectedUsers room))). set_solver by lia.
Qed.

(** Rooms seen through updates of clients. *)
Lemma getRoom_clearRoom x c r w : getRoom x (clearRoom c r w) = getRoom x w.
Proof. unfold clearRoom. by case_decide. Qed.
Lemma srv_clearRoom c r w : w_srv (clearRoom c r w) = w_srv w.
Proof. unfold clearRoom. by case_decide. Qed.
Lemma srv_dropPending r id c w : w_srv (dropPending r id c w) = w_srv w.
Proof. unfold dropPending, clearPendingRoom. by case_decide. Qed.
Lemma getRoom_dropPending x r id c w :
  getRoom x (dropPending r id c w) =
    if decide (x = r) then (getRoom r w) <| PendingJoins := delete id (PendingJoins (getRoom r w)) |> else getRoom x w.
Proof.
  unfold dropPending. transitivity (getRoom x (setRoom r (λ room, room <| PendingJoins := delete id (PendingJoins room) |>) w)).
  - unfold clearPendingRoom. by case_decide.
  - rewrite getRoom_setRoom. by case_decide; subst.
Qed.
Lemma getRoom_setSessionToken x c t w : getRoom x (setSessionToken c t w) = getRoom x w.
Proof. done. Qed.
Lemma srv_setSessionToken c t w : w_srv (setSessionToken c t w) = w_srv w.
Proof. done. Qed.
#[local] Hint Rewrite getRoom_clearRoom srv_clearRoom srv_dropPending getRoom_dropPending getRoom_setSessionToken
  srv_setSessionToken : reads.

Section Deciding.
Context `{WireFormat, UnicodeTables} (E : gset SessionRef) (w : World) (Hok : world_ok E w).
Let Hro := wo_roster _ _ Hok.
Let Hco : coded w := roster_coded _ _ Hro.

Lemma plays_dropPending who W r id c :
  coded W → registered r W → plays who W (dropPending r id c W).
Proof.
  intros Hc Hr. unfold dropPending. apply plays_clearPendingRoom. eapply plays_deed; [done|done|apply (deed_withdraw _ _ id)|].
  unfold hall_of. cbn. by rewrite dom_delete_L.
Qed.

Lemma host_speaks r c :
  currentRoom c w = Some r → is_room_host (getRoom r w) c →
  registered r w ∧ rs_HostID (State (getRoom r w)) = clientID c w ∧ clientID c w ≠ "".
Proof.
  intros Hc Hh. destruct (host_seated E w Hok r c Hc Hh) as (Hreg & _ & Hid). split_and!; [done|done|].
  apply (ro_named _ _ Hro). right. left. by eexists.
Qed.

Lemma plays_handleRejectJoin c payload : plays (User (clientID c w)) w (handleRejectJoin c payload w).
Proof.
  unfold handleRejectJoin. destruct (decodePayload _ _ _) as [p|]; [|plays]. cbv zeta. case_decide; [plays|].
  destruct (currentRoom c w) as [r|] eqn:Hc; [|plays]. destruct (decide (¬ _)) as [|Hh]; [plays|]. apply dec_stable in Hh.
  destruct (host_speaks r c Hc Hh) as (Hreg & _). destruct (PendingJoins _ !! _) as [d|]; [|plays].
  match goal with |- plays _ _ (dropPending _ _ _ ?W) => assert (same_core w W) as Hs by apply sendMessage_core;
    transitivity W; [by apply plays_view, view_core|] end.
  apply plays_dropPending.
  - intros code x. rewrite (core_srv _ _ Hs), (core_getRoom _ _ _ Hs). apply Hco.
  - unfold registered. by rewrite (core_srv _ _ Hs), (core_getRoom _ _ _ Hs).
Qed.

(** An applicant is not a member. *)
Lemma applicant_out r id c :
  registered r w → PendingJoins (getRoom r w) !! id = Some c →
  clientID c w = id ∧ currentPendingRoom c w = Some r ∧ currentRoom c w = None ∧
  Clients (getRoom r w) !! id = None ∧ DisconnectedUsers (getRoom r w) !! id = None.
Proof.
  intros Hreg Hj. destruct (ro_applicant _ _ Hro _ _ _ Hreg Hj) as [Hid Hpe].
  assert (currentRoom c w = None) as Hcr.
  { destruct (currentRoom c w) eqn:Ex; [|done]. destruct (ro_room _ _ Hro _ _ Ex) as (_ & _ & ?). congruence. }
  assert (holder c w) as Hh by (do 2 right; by eexists). split_and!; try done.
  - destruct (Clients (getRoom r w) !! id) as [d|] eqn:Hd; [|done].
    destruct (ro_seat _ _ Hro _ _ _ Hreg Hd) as [Hdid Hdr].
    assert (d = c) as -> by (apply (ro_id_one _ _ Hro); [right; left; by eexists|done|congruence]). congruence.
  - rewrite <- Hid. by apply (ro_id_away _ _ Hro).
Qed.

Lemma acts_handleApproveJoin e c payload : acts (User (clientID c w)) w (handleApproveJoin e c payload w).
Proof.
  unfold handleApproveJoin. destruct (decodePayload _ _ _) as [p|]; [|by apply plays_acts; plays]. cbv zeta. case_decide; [by apply plays_acts; plays|].
  destruct (currentRoom c w) as [r|] eqn:Hc; [|by apply plays_acts; plays]. destruct (decide (¬ _)) as [|Hh]; [by apply plays_acts; plays|]. apply dec_stable in Hh.
  destruct (host_speaks r c Hc Hh) as (Hreg & Hhid & Hne).
  destruct (PendingJoins _ !! _) as [d|] eqn:Hd; [|by apply plays_acts; plays].
  destruct (applicant_out r _ d Hreg Hd) as (Hid & Hpe & Hcr & Hnc & Hnd).
  case_decide; [apply plays_acts, plays_sendError; by apply plays_dropPending|]. case_decide as Hfull; [by apply plays_acts; plays|].
  rewrite trySetRoom_idle by done. case_decide; [done|]. cbn [fst snd].
  eapply acts_core; [apply sendMessageToClients_core|]. eapply acts_core; [apply sendPolicyQueueSnapshot_core|].
  eapply acts_core; [apply sendMessage_core|].
  match goal with |- acts _ _ (setRoom _ (seat ?x _ _) _) => assert (x = ajp_UserID p) as -> by
    (unfold clientID in *; by rewrite getClient_setClient_eq) end.
  apply (club_grant _ _ _ (clientID c w) (Code (getRoom r w)) (ajp_UserID p)); [done|]. match goal with |- grant _ _ _ _ (view ?W) => rewrite (view_room r w W) end;
    try done; [|by autorewrite with reads|intros x Hx; autorewrite with reads; by rewrite !decide_False].
  autorewrite with reads. rewrite !decide_True by done.
  eapply eq_rect; [apply (grant_admit _ _ _ (ajp_UserID p) (hall_of (getRoom r w)))|]; cbn; try done.
  - unfold registered in Hreg. by rewrite view_lookup, Hreg.
  - by apply elem_of_dom.
  - unfold h_seats. cbn. by rewrite not_elem_of_union, !not_elem_of_dom.
  - pose proof (hall_size (getRoom r w)). lia.
  - unfold hall_of. cbn. by rewrite dom_insert_L, dom_delete_L.
Qed.

(** The hall of room [r] without [id], by the host's hand. *)
Lemma acts_kick c r id W :
  registered r w → rs_HostID (State (getRoom r w)) = clientID c w → clientID c w ≠ "" → id ≠ clientID c w →
  is_member id (getRoom r w) → rooms (w_srv W) = rooms (w_srv w) → (∀ x, x ≠ r → getRoom x W = getRoom x w) →
  hall_of (getRoom r W) = mkHall (dom (Clients (getRoom r w)) ∖ {[id]}) (dom (DisconnectedUsers (getRoom r w)) ∖ {[id]})
    (dom (PendingJoins (getRoom r w))) (rs_HostID (State (getRoom r w))) (disown id (hall_of (getRoom r w))) →
  acts (User (clientID c w)) w W.
Proof.
  intros Hreg Hhid Hne Hself Hm Hr Hx Hh. apply (club_kick _ _ _ (clientID c w) (Code (getRoom r w)) id); [done|].
  rewrite (view_room r w W), Hh by done. apply (kick_out _ _ _ _ (hall_of (getRoom r w))); try done.
  - unfold registered in Hreg. by rewrite view_lookup, Hreg.
  - unfold h_seats. cbn. rewrite elem_of_union, !elem_of_dom. exact Hm.
Qed.

Lemma acts_handleKickUser c payload : acts (User (clientID c w)) w (handleKickUser c payload w).
Proof.
  unfold handleKickUser. destruct (decodePayload _ _ _) as [p|]; [|by apply plays_acts; plays]. cbv zeta.
  case_decide; [by apply plays_acts; plays|]. destruct (currentRoom c w) as [r|] eqn:Hc; [|by apply plays_acts; plays].
  destruct (decide (¬ _)) as [|Hh]; [by apply plays_acts; plays|]. apply dec_stable in Hh.
  destruct (host_speaks r c Hc Hh) as (Hreg & Hhid & Hne). case_decide as Hself; [by apply plays_acts; plays|].
  set (id := kup_UserID p) in *. pose proof (mb_apart _ (rk_members _ _ _ (wo_rooms _ _ Hok r Hreg))) as Hap.
  destruct (Clients (getRoom r w) !! id) as [t|] eqn:Ht; [|destruct (DisconnectedUsers (getRoom r w) !! id) as [s|] eqn:Hs;
    [|by apply plays_acts; plays]]; (eapply acts_core; [apply sendMessageToClients_core|]); apply (acts_kick c r id); try done.
  - left. by eexists.
  - unfold kickConnected. autorewrite with reads. by rewrite (core_srv _ _ (sendMessage_core _ _ _ _)).
  - intros x Hx. unfold kickConnected. autorewrite with reads. rewrite !decide_False by done.
    apply (core_getRoom _ _ _ (sendMessage_core _ _ _ _)).
  - rewrite getRoom_setRoom_eq, hall_forget. unfold kickConnected. rewrite getRoom_setRoom_eq, getRoom_clearRoom.
    rewrite (core_getRoom _ _ _ (sendMessage_core _ _ _ _)). cbn. rewrite dom_delete_L. f_equal.
    symmetry. apply difference_disjoint_L, disjoint_singleton_r, not_elem_of_dom. by eapply Hap.
  - right. by eexists.
  - intros x Hx. unfold kickOffline, dropSessions. autorewrite with reads. by rewrite !decide_False.
  - rewrite getRoom_setRoom_eq, hall_forget. unfold kickOffline, dropSessions. rewrite getRoom_setServer, getRoom_setRoom_eq.
    cbn. rewrite dom_delete_L. f_equal. symmetry. by apply difference_disjoint_L, disjoint_singleton_r, not_elem_of_dom.
Qed.

Lemma plays_handleTransferHost c payload : plays (User (clientID c w)) w (handleTransferHost c payload w).
Proof.
  unfold handleTransferHost. destruct (decodePayload _ _ _) as [p|]; [|plays]. cbv zeta. case_decide; [plays|].
  destruct (currentRoom c w) as [r|] eqn:Hc; [|plays]. destruct (decide (¬ _)) as [|Hh]; [plays|]. apply dec_stable in Hh.
  destruct (host_speaks r c Hc Hh) as (Hreg & Hhid & Hne). case_decide; [plays|].
  destruct (Clients _ !! _) as [t|] eqn:Ht; [|plays]. case_decide; [plays|]. case_decide; [plays|].
  cbn [assignHostLocked fst snd]. apply plays_deliver. rewrite setRoom_setRoom.
  eapply plays_deed; [done|done|apply (deed_hand_over _ _ (clientID c w) (thp_NewHostID p)); try done; apply elem_of_dom; by eexists|].
  pose proof (proj1 (ro_seat _ _ Hro _ _ _ Hreg Ht)) as Hid. unfold hall_of. cbn. by f_equal.
Qed.
End Deciding.

(** ** Founding and applying *)

Section Joining.
Context `{WireFormat, UnicodeTables} (E : gset SessionRef) (w : World) (Hok : world_ok E w).
Let Hro := wo_roster _ _ Hok.
Let Hco : coded w := roster_coded _ _ Hro.

Lemma plays_handleJoinRoom c payload : holder c w → plays (User (clientID c w)) w (handleJoinRoom c payload w).
Proof.
  intros Hho. unfold handleJoinRoom. destruct (decodePayload _ _ _) as [p|]; [|plays]. cbv zeta. case_decide; [plays|].
  destruct (decide (is_Some (currentRoom c w))) as [|Hcr]; [plays|].
  destruct (decide (is_Some (currentPendingRoom c w))) as [|Hpe]; [plays|]. apply eq_None_not_Some in Hcr, Hpe.
  set (username := sanitizeString _ _). do 3 (case_decide; [plays|]).
  destruct (rooms (w_srv w) !! _) as [r|] eqn:Hr; [|plays]. destruct (registered_code _ _ Hro _ _ Hr) as [Hreg _].
  assert (clientID c (setUsername c username w) = clientID c w) as Hid.
  { unfold clientID, setUsername. by rewrite getClient_setClient_eq. }
  rewrite Hid. change (getRoom r (setUsername c username w)) with (getRoom r w).
  assert (plays (User (clientID c w)) w (setUsername c username w)) as Hq by (apply plays_setClient; reflexivity).
  case_decide as Hin; [plays|]. case_decide; [plays|]. case_decide as Hfull; [plays|]. do 2 (case_decide; [plays|]).
  rewrite trySetPendingRoom_idle by (unfold setUsername, currentRoom, currentPendingRoom in *;
    by rewrite getClient_setClient_eq).
  case_decide; [done|]. cbn [snd].
  assert (plays (User (clientID c w)) w (setRoom r (λ room, room <| PendingJoins := <[clientID c w := c]> (PendingJoins room) |>)
    (setClient c (λ cl, cl <| c_affiliationStarted := true |> <| c_pendingRoom := Some r |>) (setUsername c username w)))) as Hp.
  { unfold setUsername. rewrite <- !setClient_setRoom. do 2 apply plays_setClient.
    eapply plays_deed; [exact Hco|exact Hreg|apply (deed_apply _ _ (clientID c w) eq_refl)|].
    - by apply (ro_named _ _ Hro).
    - cbn. rewrite not_elem_of_dom. by apply eq_None_not_Some.
    - done.
    - pose proof (hall_size (getRoom r w)). lia.
    - unfold hall_of. cbn. by rewrite dom_insert_L. }
  plays.
Qed.

Lemma view_found r code W W' :
  rooms (w_srv W') = <[code := r]> (rooms (w_srv W)) →
  (∀ k x, rooms (w_srv W) !! k = Some x → getRoom x W' = getRoom x W) →
  view W' = <[code := hall_of (getRoom r W')]> (view W).
Proof.
  intros Hr Hx. apply map_eq. intros k. rewrite lookup_insert, !view_lookup, Hr, lookup_insert. case_decide; [done|].
  destruct (rooms (w_srv W) !! k) as [x|] eqn:Ek; [|done]. cbn. by rewrite (Hx _ _ Ek).
Qed.

Lemma acts_openRoom e c code username :
  currentRoom c w = None → clientID c w ≠ "" → rooms (w_srv w) !! code = None →
  acts (User (clientID c w)) w (openRoom e c code username w).
Proof.
  intros Hcr Hne Hfree. unfold openRoom. set (room := fresh_room _ _ _ _ _). rewrite (surjective_pairing (newRoom room w)).
  cbn [fst]. set (r := (newRoom room w).1). set (w1 := (newRoom room w).2). rewrite (trySetRoom_idle c r w1) by done.
  assert (∀ k x, rooms (w_srv w) !! k = Some x → getRoom x w1 = getRoom x w) as Hg.
  { intros k x Hx. destruct (ro_code _ _ Hro _ _ Hx) as [_ Hlt]. apply lookup_total_insert_ne. cbn. lia. }
  assert (plays (User (clientID c w)) w w1) as Hp by (apply plays_view, view_ext; [done|]; intros; f_equal; eauto).
  case_decide; [done|]. cbn [snd]. unfold setSessionToken, setUsername. do 2 (case_decide; [by apply plays_acts; plays|]).
  eapply acts_core; [apply reply_core|]. apply (club_grant _ _ _ (clientID c w) code (clientID c w)); [done|].
  match goal with |- grant _ _ _ _ (view ?W) => rewrite (view_found r code w W); [|reflexivity|exact Hg] end.
  assert (hall_of (getRoom r w1) = mkHall {[clientID c w]} ∅ ∅ (clientID c w) "") as Hhall.
  { unfold getRoom, w1. cbn. rewrite lookup_total_insert_eq. unfold hall_of. cbn. by rewrite dom_singleton_L, !dom_empty_L. }
  change (getRoom r (setServer _ _)) with (getRoom r w1). rewrite Hhall. apply grant_found; [done| |done].
  by rewrite view_lookup, Hfree.
Qed.

End Joining.

Lemma acts_handleCreateRoom `{WireFormat, UnicodeTables} E e c payload w :
  world_ok E w → c_ConnOpen (getClient c w) = true → acts (User (clientID c w)) w (handleCreateRoom e c payload w).
Proof.
  intros Hok Hopen. unfold handleCreateRoom. case_decide; [by apply plays_acts; plays|]. destruct (decodePayload _ _ _) as [p|]; [|by apply plays_acts; plays].
  cbv zeta. case_decide; [by apply plays_acts; plays|]. destruct (decide (is_Some (currentRoom c w))) as [|Hcr]; [by apply plays_acts; plays|].
  apply eq_None_not_Some in Hcr. do 2 (case_decide; [by apply plays_acts; plays|]). destruct (draw_code _ _ _ _ _ _) as [code ex] eqn:Hd.
  destruct (decide (code = "" ∨ ex = true)) as [|Hcode]; [by apply plays_acts; plays|]. case_decide; [by apply plays_acts; plays|].
  assert (rooms (w_srv w) !! code = None) as Hfree.
  { destruct ex; [naive_solver|]. by destruct (draw_code_free _ _ _ _ _ _ _ Hd) as [?|[? _]]. }
  destruct (room_create_allowed _ _ _) as [allowed w1] eqn:Ha.
  apply room_create_allowed_same in Ha as (srv & -> & Hsr & Hss).
  assert (plays (User (clientID c w)) w (setServer (λ _, srv) w)) as Hp by by apply plays_setServer.
  case_decide; [by apply plays_acts; plays|]. 
  assert (world_ok E (setServer (λ _, srv) w)) as Hok1 by (apply world_server; [done|by rewrite Hsr, Hss]).
  assert (view (setServer (λ _, srv) w) = view w) as Hv by by apply view_ext.
  unfold acts. rewrite <- Hv. apply (acts_openRoom E _ Hok1); [done| |cbn; by rewrite Hsr]. apply (ro_named _ _ (wo_roster _ _ Hok)). by left.
Qed.

(** ** Closing and leaving *)

Section Closing.
Context `{WireFormat, UnicodeTables} (who : actor) (Hmay : who ≠ Network).

(** Room [r] is gone from the table; what else became of it nobody sees. *)
Lemma view_gone r w w' :
  coded w → rooms (w_srv w') = delete (Code (getRoom r w)) (rooms (w_srv w)) →
  (∀ x, x ≠ r → getRoom x w' = getRoom x w) → view w' = delete (Code (getRoom r w)) (view w).
Proof.
  intros Hco Hr Hx. apply map_eq. intros code. rewrite lookup_delete, !view_lookup, Hr, lookup_delete.
  case_decide as Hc; [done|]. destruct (rooms (w_srv w) !! code) as [x|] eqn:Ek; [|done]. cbn. rewrite Hx; [done|].
  intros ->. by destruct (Hco _ _ Ek).
Qed.

Lemma plays_gone r w w' :
  coded w → registered r w → closable (hall_of (getRoom r w)) →
  rooms (w_srv w') = delete (Code (getRoom r w)) (rooms (w_srv w)) → (∀ x, x ≠ r → getRoom x w' = getRoom x w) →
  plays who w w'.
Proof.
  intros Hco Hreg Hcl Hr Hx. apply rtc_once. rewrite (view_gone r w w') by done.
  eapply move_close; [done| |exact Hcl]. unfold registered in Hreg. by rewrite view_lookup, Hreg.
Qed.

Lemma plays_closeRoom r reason w :
  coded w → registered r w → closable (hall_of (getRoom r w)) → plays who w (closeRoom r reason w).
Proof.
  intros Hco Hreg Hcl. unfold closeRoom, unregister. rewrite decide_True by done.
  set (w1 := dropSessions _ _). set (cs := roomClientsLocked _). set (ps := (map_to_list _).*2).
  pose proof (rl_heap _ _ _ (proj1 (kickMembers_released r reason cs w1))) as Hk. set (w2 := foldl _ w1 cs) in *.
  pose proof (rl_heap _ _ _ (proj1 (rejectPendings_released r reason ps w2))) as Hp. set (w3 := foldl _ w2 ps) in *.
  unfold heap in Hk, Hp. injection Hk as Hk1 _ _ Hk2. injection Hp as Hp1 _ _ Hp2.
  apply (plays_gone r); try done.
  - by rewrite srv_setRoom, Hp2, Hk2.
  - intros x Hx. rewrite getRoom_setRoom, decide_False by done. unfold getRoom. by rewrite Hp1, Hk1.
Qed.

Lemma deleteRoomIfEmpty_gone r w :
  registered r w → room_empty (getRoom r w) →
  rooms (w_srv (deleteRoomIfEmpty r w).2) = delete (Code (getRoom r w)) (rooms (w_srv w)) ∧
  ∀ x, x ≠ r → getRoom x (deleteRoomIfEmpty r w).2 = getRoom x w.
Proof.
  intros Hreg He. unfold deleteRoomIfEmpty. rewrite decide_True by done. cbn [snd].
  set (ps := (map_to_list _).*2).
  pose proof (rl_heap _ _ _ (proj1 (rejectPendings_released r "Room is no longer available" ps w))) as Hp.
  set (w1 := foldl _ w ps) in *. unfold heap in Hp. injection Hp as Hp1 _ _ Hp2. split.
  - cbn. by rewrite Hp2.
  - intros x Hx. rewrite getRoom_setServer, getRoom_setRoom, decide_False by done. unfold getRoom. by rewrite Hp1.
Qed.

Lemma plays_deleteRoomIfEmpty r w : coded w → plays who w (deleteRoomIfEmpty r w).2.
Proof.
  intros Hco. destruct (decide (rooms (w_srv w) !! Code (getRoom r w) = Some r ∧ room_empty (getRoom r w))) as [[Hreg He]|Hn].
  - destruct (deleteRoomIfEmpty_gone r w Hreg He) as [Hr Hx]. apply (plays_gone r); try done. destruct He as [Hc Hd].
    unfold closable, hall_of. cbn. rewrite Hc, Hd, !dom_empty_L. by split; [|left].
  - unfold deleteRoomIfEmpty. by rewrite decide_False.
Qed.

(** A hall that becomes empty with a deed and is closed at once. *)
Lemma plays_last r w w' h :
  coded w → registered r w → deed who (hall_of (getRoom r w)) h → closable h →
  rooms (w_srv w') = delete (Code (getRoom r w)) (rooms (w_srv w)) → (∀ x, x ≠ r → getRoom x w' = getRoom x w) →
  plays who w w'.
Proof.
  intros Hco Hreg Hd Hcl Hr Hx. pose proof Hreg as Hreg'. unfold registered in Hreg'.
  eapply rtc_l; [eapply (move_deed _ _ (Code (getRoom r w))); [by rewrite view_lookup, Hreg'|exact Hd]|].
  apply rtc_once. rewrite (view_gone r w w'), <- (delete_insert_eq (view w) (Code (getRoom r w)) h) by done.
  eapply move_close; [done|apply lookup_insert_eq|exact Hcl].
Qed.

Lemma plays_last_delete r f w h :
  coded w → registered r w → Code (f (getRoom r w)) = Code (getRoom r w) → room_empty (f (getRoom r w)) →
  deed who (hall_of (getRoom r w)) h → closable h → plays who w (deleteRoomIfEmpty r (setRoom r f w)).2.
Proof.
  intros Hco Hreg Hcode He Hd Hcl.
  destruct (deleteRoomIfEmpty_gone r (setRoom r f w)) as [Hr Hx];
    [unfold registered; by rewrite getRoom_setRoom_eq, Hcode|by rewrite getRoom_setRoom_eq|].
  apply (plays_last r w _ h); try done; [by rewrite Hr, getRoom_setRoom_eq, Hcode|].
  intros x Hne. by rewrite Hx, getRoom_setRoom, decide_False.
Qed.

(** Who is elected: nobody, or somebody who is there. *)
Lemma elected_heir room w :
  (∀ id h, Clients room !! id = Some h → clientID h w = id) →
  let heir := host_id (pickDeputy (Clients room) w) w in heir = "" ∨ heir ∈ dom (Clients room).
Proof.
  intros Hids. cbn. destruct (pickDeputy (Clients room) w) as [h|] eqn:Hp; [|by left]. right. cbn.
  apply pickDeputy_Some in Hp as (id & Hx & _). rewrite (Hids _ _ Hx). apply elem_of_dom. by eexists.
Qed.

Lemma plays_announce r elect id name bt w :
  let w1 := if elect : bool then (assignHostLocked r (pickDeputy (Clients (getRoom r w)) w) w).2 else w in
  coded w1 → registered r w1 → (∀ W, w_rooms (bt W) = w_rooms W ∧ rooms (w_srv (bt W)) = rooms (w_srv W)) →
  plays who w1 (announce_departure r elect id name bt w).
Proof.
  intros w1 Hco Hreg Hbt. unfold announce_departure.
  assert (∃ change, (if elect then let '(change, w) := assignHostLocked r (pickDeputy (Clients (getRoom r w)) w) w in
    (Some change, w) else (None, w)) = (change, w1)) as [change ->].
  { subst w1. destruct elect; [|eauto]. eexists. reflexivity. }
  set (w2 := sendMessageToClients _ _ _ (bt w1)). set (w3 := deliverHostChange _ change w2).
  assert (same_core (bt w1) w3) as Hc.
  { etrans; [apply sendMessageToClients_core|apply deliverHostChange_core]. }
  destruct (Hbt w1) as [Hb1 Hb2].
  assert (∀ x, getRoom x w3 = getRoom x w1) as Hg by (intros x; rewrite (core_getRoom _ _ x Hc); unfold getRoom; by rewrite Hb1).
  assert (rooms (w_srv w3) = rooms (w_srv w1)) as Hr by by rewrite (core_srv _ _ Hc).
  assert (plays who w1 w3) as Hp by (apply plays_view, view_ext; [done|]; intros; by rewrite Hg).
  case_bool_decide as Hdead; [|done]. destruct Hdead as (Hh & _ & Hde). etrans; [exact Hp|]. apply plays_closeRoom.
  - intros code x. rewrite Hr, Hg. apply Hco.
  - unfold registered. by rewrite Hr, Hg.
  - rewrite Hg. unfold closable, hall_of. cbn. rewrite Hde, dom_empty_L. by split; [|right].
Qed.
End Closing.

Section Departing.
Context `{WireFormat, UnicodeTables} (E : gset SessionRef) (w : World) (Hok : world_ok E w).
Let Hro := wo_roster _ _ Hok.
Let Hco : coded w := roster_coded _ _ Hro.

Lemma plays_removePendingJoin who c : plays who w (removePendingJoin c w).
Proof.
  unfold removePendingJoin. destruct (currentPendingRoom c w) as [r|] eqn:Hp; [|done].
  destruct (ro_pending _ _ Hro _ _ Hp) as [Hreg Hj]. cbv zeta. apply plays_clearPendingRoom. rewrite decide_True by done.
  eapply plays_deed; [done|done|apply (deed_withdraw _ _ (clientID c w))|]. unfold hall_of. cbn. by rewrite dom_delete_L.
Qed.

(** The hall after [c] left and, if it must, elected a successor. *)
Lemma hall_unseat id room :
  DisconnectedUsers room !! id = None →
  hall_of (unseat id room) = mkHall (dom (Clients room) ∖ {[id]}) (dom (DisconnectedUsers room)) (dom (PendingJoins room) ∖ {[id]})
    (rs_HostID (State room)) (disown id (hall_of room)).
Proof. intros Hd. unfold unseat. rewrite hall_forget. cbn. by rewrite (delete_id _ _ Hd), !dom_delete_L. Qed.

#[local] Opaque unseat forget_user.
Lemma code_empty_since room at' : Code (room <| EmptySince := at' |>) = Code room.
Proof. done. Qed.

(** The others after [c] left, with a successor where needed. *)
Lemma plays_departed c r :
  currentRoom c w = Some r →
  let id := clientID c w in
  let w1 := clearRoom c r (setRoom r (unseat id) w) in
  let elect := bool_decide (Host (getRoom r w) = Some c) in
  plays (User id) w (if elect then (assignHostLocked r (pickDeputy (Clients (getRoom r w1)) w1) w1).2 else w1).
Proof.
  intros Hc id w1 elect. destruct (room_seated E c r w Hok Hc) as [Hreg Hseat _ Hnaw Hnpj].
  pose proof (host_is_member E w r c id Hok Hreg Hseat) as Hhost. pose proof (hall_unseat id (getRoom r w) Hnaw) as Hhall.
  assert (getRoom r w1 = unseat id (getRoom r w)) as Hg by (unfold w1; by rewrite getRoom_clearRoom, getRoom_setRoom_eq).
  assert (∀ x, x ≠ r → getRoom x w1 = getRoom x w) as Hgx
    by (intros; unfold w1; by rewrite getRoom_clearRoom, getRoom_setRoom, decide_False).
  assert (rooms (w_srv w1) = rooms (w_srv w)) as Hrm by (unfold w1; by rewrite srv_clearRoom).
  assert (id ∈ dom (Clients (getRoom r w))) as Hin by (apply elem_of_dom; by eexists).
  assert (∀ i h, Clients (getRoom r w1) !! i = Some h → clientID h w1 = i) as Hids.
  { rewrite Hg, (rv_clients _ _ _ (unseat_removed id (getRoom r w))). intros i h [_ Hx]%lookup_delete_Some.
    destruct (ro_seat _ _ Hro _ _ _ Hreg Hx) as [Hi _]. unfold w1. rewrite clearRoom_seated by done.
    unfold clientID in *. rewrite getClient_setClient. by case_decide; subst. }
  pose proof (elected_heir (getRoom r w1) w1 Hids) as Hheir. cbv zeta in Hheir. rewrite Hg in Hheir.
  injection Hhall as E1 E2 E3 E4 E5. rewrite E1 in Hheir.
  assert (id ≠ "") as Hne by (apply (ro_named _ _ Hro); right; left; by eexists).
  pose proof (deed_leave (User id) (hall_of (getRoom r w)) id _ eq_refl Hne Hin Hheir) as Hleave. cbn in Hleave. unfold succeed in Hleave. cbn in Hleave.
  apply (plays_room _ r); try done.
  - by destruct elect.
  - intros x Hx. destruct elect; [|by apply Hgx]. rewrite assignHostLocked_world, getRoom_setRoom, decide_False by done.
    by apply Hgx.
  - unfold elect. case_bool_decide as Hh.
    + rewrite decide_True in Hleave by tauto. rewrite assignHostLocked_world, getRoom_setRoom_eq, hall_with_host, Hg, E1, E2, E3, E5. exact Hleave.
    + rewrite decide_False in Hleave by tauto. rewrite Hg. unfold hall_of at 2. rewrite E1, E2, E3, E4, E5. exact Hleave.
Qed.

Lemma plays_leaveSeat e c r : currentRoom c w = Some r → plays (User (clientID c w)) w (leaveSeat e c r w).
Proof.
  intros Hc. destruct (room_seated E c r w Hok Hc) as [Hreg Hseat [_ Htok] Hnaw Hnpj].
  unfold leaveSeat. rewrite decide_False by tauto. cbv zeta.
  pose proof (plays_departed c r Hc) as Hdep. destruct (departed_ok E w r c Hok Hc) as (Hok2 & Hreg2 & _). cbv zeta in Hdep.
  set (id := clientID c w) in *.
  destruct (decide (room_empty _)) as [Hemp|Hemp].
  - rewrite drop_token_none by (by rewrite srv_setRoom, srv_clearRoom).
    rewrite getRoom_clearRoom, getRoom_setRoom_eq in Hemp. rewrite clearRoom_seated by done.
    rewrite setClient_setRoom, setRoom_setRoom.
    transitivity (setClient c (λ cl, cl <| c_room := None |>) w); [apply plays_setClient; reflexivity|].
    assert (id ≠ "") as Hne by (apply (ro_named _ _ Hro); right; left; by eexists).
    assert (id ∈ dom (Clients (getRoom r w))) as Hin by (apply elem_of_dom; by eexists).
    apply (plays_last_delete (User id) ltac:(done) r _ (setClient c (λ cl, cl <| c_room := None |>) w) _ Hco Hreg) with
      (3 := deed_leave (User id) (hall_of (getRoom r w)) id "" eq_refl Hne Hin (or_introl eq_refl)).
    + rewrite code_empty_since. by injection (unseat_slots id (getRoom r w) Hnaw Hnpj).
    + by apply room_empty_since.
    + destruct Hemp as [He1 He2]. unfold closable. injection (hall_unseat id (getRoom r w) Hnaw). cbn.
      intros _ _ _ <- <-. rewrite He1, He2, !dom_empty_L. by split; [|left].
  - etrans; [exact Hdep|]. apply plays_announce; [done|apply (roster_coded E), Hok2|exact Hreg2|].
    intros W. unfold drop_token. by destruct (decide (session c w = "")).
Qed.
End Departing.

Lemma plays_leaveRoom `{WireFormat, UnicodeTables} E e c w : world_ok E w → plays (User (clientID c w)) w (leaveRoom e c w).
Proof.
  intros Hok. unfold leaveRoom. destruct (currentRoom c w) as [r|] eqn:Hc; [by apply (plays_leaveSeat E)|]. cbv zeta.
  rewrite removePendingJoin_room, Hc. apply plays_setClient. by apply (plays_removePendingJoin E).
Qed.

(** ** The server's own deeds *)

Section Expiring.
Context `{WireFormat, UnicodeTables}.

Lemma hall_vacate id room :
  hall_of (vacate id room) = mkHall (dom (Clients room)) (dom (DisconnectedUsers room) ∖ {[id]}) (dom (PendingJoins room))
    (rs_HostID (State room)) (disown id (hall_of room)).
Proof. unfold vacate. rewrite hall_forget. cbn. by rewrite dom_delete_L. Qed.
#[local] Opaque vacate.

Lemma plays_vacated E w r id y :
  let w1 := setRoom r (vacate id) w in
  let elect := bool_decide (rs_HostID (State (getRoom r w1)) = id) in
  world_ok E w → registered r w → DisconnectedUsers (getRoom r w) !! id = Some y →
  plays Clock w (if elect then (assignHostLocked r (pickDeputy (Clients (getRoom r w1)) w1) w1).2 else w1).
Proof.
  intros w1 elect Hok Hreg Hd. pose proof (wo_roster _ _ Hok) as Hro. pose proof (hall_vacate id (getRoom r w)) as Hhall.
  assert (getRoom r w1 = vacate id (getRoom r w)) as Hg by apply getRoom_setRoom_eq.
  assert (∀ x, x ≠ r → getRoom x w1 = getRoom x w) as Hgx by (intros; unfold w1; by rewrite getRoom_setRoom, decide_False).
  assert (id ∈ dom (DisconnectedUsers (getRoom r w))) as Hin by (apply elem_of_dom; by eexists).
  assert (∀ i h, Clients (getRoom r w1) !! i = Some h → clientID h w1 = i) as Hids.
  { rewrite Hg, (rv_clients _ _ _ (proj1 (vacate_removed E w Hok r id y Hreg Hd))). intros i h [_ Hx]%lookup_delete_Some.
    by destruct (ro_seat _ _ Hro _ _ _ Hreg Hx). }
  pose proof (elected_heir (getRoom r w1) w1 Hids) as Hheir. cbv zeta in Hheir. rewrite Hg in Hheir.
  injection Hhall as E1 E2 E3 E4 E5. rewrite E1 in Hheir.
  pose proof (deed_expire Clock (hall_of (getRoom r w)) id _ eq_refl Hin Hheir) as Hexp. cbn in Hexp. unfold succeed in Hexp. cbn in Hexp.
  apply (plays_room _ r); try done; [by apply (roster_coded E)|by destruct elect| |].
  - intros x Hx. destruct elect; [|by apply Hgx]. rewrite assignHostLocked_world, getRoom_setRoom, decide_False by done.
    by apply Hgx.
  - unfold elect. rewrite Hg, E4. case_bool_decide as Hh.
    + rewrite decide_True in Hexp by done. rewrite assignHostLocked_world, getRoom_setRoom_eq, hall_with_host, Hg, E1, E2, E3, E5.
      exact Hexp.
    + rewrite decide_False in Hexp by done. rewrite Hg. unfold hall_of at 2. rewrite E1, E2, E3, E4, E5. exact Hexp.
Qed.

Lemma plays_expireSession E w r s y past :
  let id := se_UserID (getSession s w) in
  world_ok E w → registered r w → DisconnectedUsers (getRoom r w) !! id = Some y → s ∈ E →
  se_RoomCode (getSession s w) = Code (getRoom r w) → plays Clock w (expireSession r s past w).
Proof.
  intros id Hok Hreg Haw HsE Hsc. pose proof (plays_vacated E w r id y Hok Hreg Haw) as Hp.
  destruct (expired_ok E (E ∖ {[s]}) w r s y Hok Hreg Haw HsE Hsc) as [Hok2 Hreg2]; [set_solver|]. cbv zeta in Hp, Hok2, Hreg2.
  unfold expireSession. fold id in Hok2, Hreg2 |- *. rewrite Haw. change (λ room, forget_user id _) with (vacate id).
  pose proof (roster_coded _ _ (wo_roster _ _ Hok2)) as Hc2.
  destruct (decide (room_empty _ ∧ _)); (etrans; [exact Hp|]); [by apply plays_deleteRoomIfEmpty|by apply plays_announce].
Qed.

Lemma plays_expire_all now l w :
  NoDup l → world_ok (list_to_set l) w → plays Clock w (foldl (expire_one now) w l).
Proof.
  intros Hnd. revert w. induction Hnd as [|s l Hnl _ IH]; intros w Hok; [done|]. cbn [foldl].
  transitivity (expire_one now w s); [|apply IH; by apply expire_one_ok]. pose proof (wo_roster _ _ Hok) as Hro.
  assert (s ∈ (list_to_set (s :: l) : gset SessionRef)) as HsE by set_solver. unfold expire_one.
  destruct (aw_session _ _ (ro_away _ _ Hro) s) as (_ & r & x & Hr & Hd); [by left|]. rewrite Hr.
  destruct (registered_code _ _ Hro _ _ Hr) as [Hreg Hcode]. by eapply plays_expireSession.
Qed.

Lemma plays_cleanupExpired now w : world_ok ∅ w → plays Clock w (cleanupExpiredSessionsOnce now w).
Proof.
  intros Hok. unfold cleanupExpiredSessionsOnce. cbv zeta.
  transitivity (dropSessions (session_expired now) w); [apply plays_dropSessions; reflexivity|].
  apply plays_expire_all; [|by apply drop_expired_ok]. apply NoDup_filter. eapply sessions_nodup. by destruct Hok.
Qed.
End Expiring.

Section Rounds.
Context `{WireFormat, UnicodeTables} (who : actor).

Lemma plays_rounds {A} E (f : World → A → World) l w :
  (∀ w x, world_ok E w → world_ok E (f w x) ∧ plays who w (f w x)) → world_ok E w → plays who w (foldl f w l).
Proof.
  intros Hf. revert w. induction l as [|x l IH]; intros w Hok; cbn; [done|]. destruct (Hf w x Hok). etrans; [done|]. by apply IH.
Qed.

Lemma view_unregistered r f w : coded w → ¬ rooms (w_srv w) !! Code (getRoom r w) = Some r → view (setRoom r f w) = view w.
Proof.
  intros Hco Hn. apply view_ext; [done|]. intros code x Hx. rewrite getRoom_setRoom, decide_False; [done|].
  intros ->. apply Hn. by rewrite (Hco _ _ Hx).
Qed.

Lemma plays_failoverRoom E now w r : who = Clock → world_ok E w → plays who w (failoverRoom now w r).
Proof.
  intros Hwho Hok. pose proof Hok as [Hro Hrooms]. pose proof (roster_coded _ _ Hro) as Hco. unfold failoverRoom.
  destruct (decide (failover_due _ _)) as [Hdue|]; [|done]. destruct (pickDeputy _ w) as [dep|] eqn:Hd; [|done].
  destruct (pickDeputy_Some _ _ _ Hd) as (id & Hx & _). cbv zeta. cbn [assignHostLocked]. apply plays_deliver.
  change (setRoom r (λ room, if decide (OwnerID room = "") then _ else _) w) with (setRoom r own w). rewrite setRoom_setRoom.
  destruct (decide (rooms (w_srv w) !! Code (getRoom r w) = Some r)) as [Hreg|]; [|by apply plays_view, view_unregistered].
  destruct (ro_seat _ _ Hro _ _ _ Hreg Hx) as [Hid _].
  assert (rs_HostID (State (getRoom r w)) ∈ dom (DisconnectedUsers (getRoom r w))) as Haway.
  { pose proof (ho_seat _ _ _ (rk_host _ _ _ (Hrooms r Hreg))) as Hs. unfold failover_due in Hdue. unfold host_seat_ok in Hs.
    destruct (HostDisconnectedAt (getRoom r w)); [|done]. destruct (Host (getRoom r w)); [done|].
    destruct Hs as (s & Hs & _). apply elem_of_dom. by eexists. }
  eapply plays_deed; [done|done|apply (deed_stand_in _ _ id); [exact Hwho|exact Haway|apply elem_of_dom; by eexists]|].
  rewrite hall_with_host. change (clientID dep (setRoom r own w)) with (clientID dep w). rewrite Hid.
  unfold own, hall_of. cbn. by destruct (decide (OwnerID (getRoom r w) = "")).
Qed.

Lemma plays_cleanup_room E now w r : who ≠ Network → world_ok E w → plays who w (cleanup_room now w r).
Proof.
  intros Hwho Hok. unfold cleanup_room. case_decide; [|done]. destruct (EmptySince _); [|plays].
  case_decide; [|done]. apply plays_deleteRoomIfEmpty; [done|]. by apply (roster_coded E), wo_roster.
Qed.

Lemma plays_disconnect E e c w : who ≠ Clock → world_ok E w → plays who w (handleClientDisconnect e c w).
Proof.
  intros Hwho Hok. destruct (currentRoom c w) as [r|] eqn:Hc; [|unfold handleClientDisconnect; by rewrite Hc].
  destruct (room_seated E c r w Hok Hc) as [Hreg Hseat [Htn Htok] Hnaw _].
  unfold handleClientDisconnect, ensure_token. rewrite Hc, decide_False by done. rewrite decide_False by tauto. cbv zeta.
  set (se := mkSession _ _ _ _ _ _). rewrite (surjective_pairing (newSession se w)).
  apply plays_broadcast, plays_setServer; [done|]. apply plays_clearRoom.
  transitivity (newSession se w).2; [apply plays_newSession; reflexivity|].
  eapply (plays_deed who r _ (newSession se w).2); [apply (roster_coded E w), Hok|exact Hreg|apply (deed_lose _ _ (clientID c w) Hwho)|].
  - apply elem_of_dom. by eexists.
  - unfold hall_of, unplug. destruct (bool_decide _); cbn; by rewrite dom_delete_L, dom_insert_L.
Qed.

Lemma plays_removeClient E e c w : who ≠ Clock → world_ok E w → plays who w (removeClient e c w).
Proof.
  intros Hwho Hok. unfold removeClient. set (w1 := setClient c closeSend _).
  assert (world_ok E w1) as Hok1.
  { eapply world_core; [apply setClient_core; intros; apply calm_closeSendWith|]. by apply world_server. }
  assert (plays who w w1) as Hp by (apply plays_setClient, plays_setServer; done). etrans; [exact Hp|].
  destruct (currentRoom c w1) eqn:Hc; [by apply (plays_disconnect E)|].
  rewrite removePendingJoin_room, Hc. by apply (plays_removePendingJoin E).
Qed.
End Rounds.

(** ** Coming back *)

Section Returning.
Context `{WireFormat, UnicodeTables} (who : actor).

Lemma hall_settle id c takes room :
  hall_of (settle id c takes room) =
    mkHall ({[id]} ∪ dom (Clients room)) (dom (DisconnectedUsers room) ∖ {[id]}) (dom (PendingJoins room))
      (if takes then id else rs_HostID (State room)) (if takes then disown id (hall_of room) else OwnerID room).
Proof.
  destruct (settle_fields id c room takes) as (_ & Hcl & Hpj & Haw & _ & _ & How).
  assert (rs_HostID (State (settle id c takes room)) = if takes then id else rs_HostID (State room)) as Hh.
  { unfold settle. destruct takes; [|done]. by destruct (decide (OwnerID _ = id)). }
  unfold hall_of at 1. rewrite Hcl, Hpj, Haw, How, Hh, dom_insert_L, dom_delete_L. by destruct takes.
Qed.
#[local] Opaque settle.

(** The member is back, and takes the host's seat or does not. *)
Lemma plays_settled w w' r id c takes :
  who ≠ Clock → coded w → registered r w → id ∈ dom (DisconnectedUsers (getRoom r w)) →
  (takes = true → rs_HostID (State (getRoom r w)) = id ∨ OwnerID (getRoom r w) = id ∨ rs_HostID (State (getRoom r w)) = "") →
  rooms (w_srv w') = rooms (w_srv w) → (∀ x, x ≠ r → getRoom x w' = getRoom x w) →
  getRoom r w' = settle id c takes (getRoom r w) → plays who w w'.
Proof.
  intros Hwho Hco Hreg Haw Htk Hr Hx Hg. set (h := hall_of (getRoom r w)).
  pose proof (deed_return who h id Hwho Haw) as Hback. set (h1 := mkHall _ _ _ _ _) in Hback.
  destruct takes; [|apply (plays_room who r); try done; by rewrite Hg, hall_settle].
  pose proof (view_room r w w' Hco Hreg Hr Hx) as Hv. rewrite Hg, hall_settle in Hv.
  assert (view w !! Code (getRoom r w) = Some h) as Hh by (rewrite view_lookup; unfold registered in Hreg; by rewrite Hreg).
  apply (rtc_l _ _ (<[Code (getRoom r w) := h1]> (view w))); [by eapply move_deed|]. apply rtc_once.
  rewrite <- (insert_insert_eq (view w) (Code (getRoom r w)) _ h1) in Hv. rewrite Hv. eapply move_deed; [apply lookup_insert_eq|].
  apply (deed_reclaim who h1 id); [done|apply elem_of_union_l, elem_of_singleton_2; done|]. by apply Htk.
Qed.

Lemma plays_unclaim w W s : plays who w W → plays who w (unclaim s W).
Proof. done. Qed.

Lemma plays_finish_reconnect E e c t s w :
  who ≠ Clock → world_ok E w → currentRoom c w = None → plays who w (finish_reconnect e c t s w).
Proof.
  intros Hwho Hok Hcr. unfold finish_reconnect. destruct (rooms (w_srv w) !! _) as [r|] eqn:Hr;
    [|apply plays_unclaim, plays_sendError; by apply plays_setServer]. pose proof (wo_roster _ _ Hok) as Hro.
  destruct (registered_code E w Hro _ _ Hr) as [Hreg _]. unfold resume. cbv zeta. set (id := se_UserID (getSession s w)).
  destruct (decide (_ ∨ _)) as [|Hd]; [by apply plays_unclaim, plays_sendError|].
  assert (id ∈ dom (DisconnectedUsers (getRoom r w))) as Haw by (apply elem_of_dom, not_eq_None_Some; tauto).
  rewrite (trySetRoom_idle c r w Hcr). rewrite decide_False by done.
  pose proof (readmit_world c t s r w) as Hrw. cbv zeta in Hrw. fold id in Hrw.
  destruct (readmit c t s r _) as [change w2]. cbn [snd] in Hrw. destruct Hrw as [Hid2 Hrw].
  eapply plays_core; [apply welcome_back_core|]. rewrite Hid2, Hrw.
  apply (plays_settled w _ r id c (bool_decide (takes_host id c (getRoom r w) w))); try done.
  - by apply (roster_coded E).
  - intros [_ Ht]%bool_decide_eq_true. tauto.
  - intros x Hx. by rewrite getRoom_setRoom, decide_False.
  - by rewrite getRoom_setRoom_eq.
Qed.

Lemma plays_replaceLive E e c t w : who ≠ Clock → world_ok E w → plays who w (replaceLiveSession e c t w).2.
Proof.
  intros Hwho Hok. unfold replaceLiveSession. destruct (list_find _ _) as [[i old]|]; [|done]. cbn.
  apply plays_setClient, plays_setClient. by apply (plays_disconnect who E).
Qed.

Lemma plays_claim e c t w : plays who w (claim e c t w).2.
Proof.
  pose proof (claim_cases e c t w) as Hcs. destruct (claim e c t w) as [[code|s] w']; [by subst|]. destruct Hcs as (_ & -> & _).
  apply plays_setSession. reflexivity.
Qed.

Lemma plays_claimed E e c t w :
  who ≠ Clock → world_ok E w → currentRoom c w = None →
  let '(outcome, w') := claim e c t w in
  plays who w match outcome with inl code => sendError c code (claim_failure code) w' | inr s => finish_reconnect e c t s w' end.
Proof.
  intros Hwho Hok Hcr. pose proof (claim_cases e c t w) as Hcs. destruct (claim e c t w) as [[code|s] w']; [subst; plays|].
  destruct Hcs as (_ & -> & _). etrans; [|apply (plays_finish_reconnect E); [done|by apply claimed_ok|done]]. by apply plays_setSession.
Qed.

Lemma plays_handleReconnect E e c payload w : who ≠ Clock → world_ok E w → plays who w (handleReconnect e c payload w).
Proof.
  intros Hwho Hok. unfold handleReconnect. destruct (decodePayload _ _ _) as [p|]; [|plays]. cbv zeta. set (t := rcn_SessionToken p).
  case_decide; [plays|]. destruct (decide (is_Some (currentRoom c w))) as [|Hcr%eq_None_not_Some]; [plays|]. case_decide; [plays|].
  pose proof (plays_claimed E e c t w Hwho Hok Hcr) as Hfirst. pose proof (claim_cases e c t w) as Hcl.
  destruct (claim e c t w) as [o w'] eqn:Hcw. destruct (decide (o = inl "session_not_found")); [|done]. subst o w'.
  destruct (replaceLiveSession_ok E e c t w Hok) as [Hok' (B1 & _)]. pose proof (plays_replaceLive E e c t w Hwho Hok) as Hp.
  destruct (replaceLiveSession e c t w) as [[] w']; cbn in *; [|by apply plays_sendError]. etrans; [exact Hp|].
  pose proof (plays_claimed E e c t w' Hwho Hok' ltac:(congruence)) as Hagain. by destruct (claim e c t w').
Qed.
End Returning.

(** ** Messages *)

Section Messages.
Context `{WireFormat, UnicodeTables}.

Lemma acts_dispatch E e at' c m payload w :
  world_ok E w → c_ConnOpen (getClient c w) = true → acts (User (clientID c w)) w (dispatch e at' c m payload w).
Proof.
  intros Hok Ho. assert (holder c w) as Hh by by left. assert (User (clientID c w) ≠ Clock) by done. unfold dispatch.
  repeat (case_decide; [eauto using acts_handleCreateRoom, acts_handleApproveJoin, acts_handleKickUser, plays_acts, plays_handleJoinRoom, plays_leaveRoom,
    plays_handleRejectJoin, plays_handlePlaybackAction, plays_handleBufferReady, plays_handleTransferHost,
    plays_handlePing, plays_handleRequestSync, plays_handleReconnect, plays_handleSuggestTrack, plays_handleApproveSuggestion,
    plays_handleRejectSuggestion, plays_handleClientCapabilities|]).
  by apply plays_acts, plays_sendError.
Qed.

Lemma acts_handleMessage E e at' c data w :
  world_ok E w → c_ConnOpen (getClient c w) = true → acts (User (clientID c w)) w (handleMessage e at' c data w).
Proof.
  intros Hok Ho. unfold handleMessage. destruct (decodeProtobuf data) as [[[m payload] id]|[id big]];
    (eapply acts_core; [apply acknowledge_core|]).
  - assert (same_core w (begin_request id c w)) as Hc by (apply setClient_core; intros; by apply calm_quiet).
    assert (clientID c (begin_request id c w) = clientID c w) as Hid by (by apply core_clientID).
    case_decide; [by apply plays_acts, plays_sendError, plays_setClient|].
    unfold acts. rewrite <- Hid, <- (view_core _ _ Hc). apply (acts_dispatch E); [by eapply world_core|].
    unfold begin_request. by rewrite getClient_setClient_eq.
  - apply plays_acts. destruct big; by apply plays_sendError, plays_setClient.
Qed.

(** Everything a connection's message does, it does on behalf of its user. *)
Lemma acts_receive E e at' c data w :
  world_ok E w → c_ConnOpen (getClient c w) = true → acts (User (clientID c w)) w (receive e at' c data w).
Proof.
  intros Hok Ho. unfold receive. pose proof (calm_allowMessage (e_now e) (getClient c w)) as [Hi Hc].
  destruct (allowMessage (e_now e) (getClient c w)) as [ok cl]. cbn in Hi, Hc. pose proof Hc as [= Hco _].
  assert (same_core w (setClient c (λ _, cl) w)) as Hcore by by apply set_core.
  destruct ok; [|apply plays_acts; destruct (shouldNotifyRateLimit _) as [[] cl']; [apply plays_sendError|];
    do 2 apply plays_setClient; reflexivity].
  unfold acts. rewrite <- (core_clientID _ _ c Hcore), <- (view_core _ _ Hcore).
  apply (acts_handleMessage E); [by eapply world_core|]. rewrite getClient_setClient_eq. congruence.
Qed.

Lemma plays_hang_up who E e c w : who ≠ Clock → world_ok E w → plays who w (hang_up e c w).
Proof.
  intros Hwho Hok. unfold hang_up. pose proof (plays_removeClient who E e c w Hwho Hok) as Hp. set (w1 := removeClient e c w) in *.
  destruct (c_connectionSlot _); [|by apply plays_setClient]. apply plays_setServer; [|by apply plays_setClient].
  unfold releaseSource, releaseConnectionSlot. by case_decide.
Qed.
End Messages.

(** ** The simulation *)

Section Simulation.
Context `{WireFormat, UnicodeTables}.

(** Whose step it is: the message of a connection is its user's, the rounds of
    the workers are the clock's, the rest is connections coming and going. *)
Definition does (who : actor) (w w' : World) : Prop :=
  match who with
  | User u => ∃ e receivedAt c data, c ∈ clients (w_srv w) ∧ c_ConnOpen (getClient c w) = true ∧ clientID c w = u ∧
      w' = receive e receivedAt c data w
  | Network => True
  | Clock => ∃ now, w' = cleanupExpiredSessionsOnce now w ∨ w' = cleanupEmptyRoomsOnce now w ∨ w' = failoverHostsOnce now w
  end.

Lemma plays_connect who e rq up w a w' : accounts_ok w → handleWebSocket e rq up w = (a, w') → plays who w w'.
Proof.
  intros Hac Hh. apply plays_view.
  destruct (handleWebSocket_cases e rq up w a w' (ac_sources_ok _ Hac) Hh) as
    [(srv & -> & _ & [= Hrs _] & _)|(cl & srv & _ & _ & -> & _ & _ & _ & _ & _ & [= Hrs _] & _)]; by apply view_ext.
Qed.

Lemma plays_announceRestart who w : plays who w (announceRestart w).
Proof. eapply plays_core; [apply announceRestart_core|]. apply plays_setServer; [done|reflexivity]. Qed.
Lemma plays_cleanupEmpty E now w : world_ok E w → plays Clock w (cleanupEmptyRoomsOnce now w).
Proof. apply plays_rounds. intros. split; [by apply cleanup_room_ok|by apply (plays_cleanup_room Clock E)]. Qed.
Lemma plays_failoverHosts E now w : world_ok E w → plays Clock w (failoverHostsOnce now w).
Proof. apply plays_rounds. intros. split; [by apply failoverRoom_ok|by apply (plays_failoverRoom Clock E)]. Qed.

Lemma plays_network w w' : plays Network w w' → ∃ who, does who w w' ∧ acts who w w'.
Proof. intros. exists Network. split; [done|]. by apply plays_acts. Qed.
Lemma plays_clock now w w' :
  w' = cleanupExpiredSessionsOnce now w ∨ w' = cleanupEmptyRoomsOnce now w ∨ w' = failoverHostsOnce now w →
  plays Clock w w' → ∃ who, does who w w' ∧ acts who w w'.
Proof. intros. exists Clock. split; [by exists now|]. by apply plays_acts. Qed.

Lemma event_acts E taken w w' :
  world_ok E w → accounts_ok w → event taken w w' → ∃ who, does who w w' ∧ acts who w w'.
Proof.
  intros Hok Hac Hev.
  destruct Hev as [e rq up w a w' _ _ _ Hh|e at' c data w Hc Ho _ _ _|e c t w _ _|e c t s w w' Hcl|e c t s w Hrc|e c w _ _
    |c fs cl w _|nano c w|c w|now w|now w|pol w|w|w|w|w].
  - by eapply plays_network, plays_connect.
  - exists (User (clientID c w)). split; [by exists e, at', c, data|]. by apply (acts_receive E).
  - by apply plays_network, (plays_replaceLive Network E).
  - apply plays_network. pose proof (plays_claim Network e c t w) as Hp. by rewrite Hcl in Hp.
  - destruct Hrc as [_ [Hcr _] _ _ _]. by apply plays_network, (plays_finish_reconnect Network E).
  - by apply plays_network, (plays_hang_up Network E).
  - apply plays_network, plays_setClient. reflexivity.
  - apply plays_network, plays_setClient. reflexivity.
  - apply plays_network, plays_setClient. reflexivity.
  - apply (plays_clock now); [by auto|]. by apply (plays_cleanupEmpty E).
  - apply (plays_clock now); [by auto|]. by apply (plays_failoverHosts E).
  - apply plays_network, plays_setServer; [done|reflexivity].
  - apply plays_network, plays_announceRestart.
  - eapply plays_network, plays_core; [apply drainClients_core|]. reflexivity.
  - eapply plays_network, plays_core; [apply closeAllClients_core|]. reflexivity.
  - apply plays_network, plays_setServer; [done|reflexivity].
Qed.

Lemma step_acts w w' : invariant w → step w w' → ∃ who, does who w w' ∧ acts who w w'.
Proof.
  intros Hi Hs. destruct Hs as [W W' He|now W], Hi as [Hok Hac]; [by apply (event_acts ∅ ∅)|]. apply (plays_clock now); [by auto|]. by apply plays_cleanupExpired.
Qed.

(** C1: the server implements the abstract machine of halls.  Seen through
    [view], each step from a world that satisfies the invariant is what the
    machine allows its actor: moves, one new member or one member put out for
    the sender of a message, moves for connections that come and go and for the
    rounds of the workers.  A run of the server is a run of the machine, and it
    starts with no halls. *)
Theorem server_refines_club now w :
  invariant w →
  view (start now) = ∅ ∧
  (∀ w', step w w' → ∃ who, does who w w' ∧ club who (view w) (view w')) ∧
  (∀ w', rtc step w w' → rtc (λ S S', ∃ who, club who S S') (view w) (view w')).
Proof.
  intros Hi. split_and!; [done|by intros w'; apply step_acts|]. intros w' Hr. induction Hr as [|w1 w2 w3 Hs _ IH]; [done|].
  destruct (step_acts _ _ Hi Hs) as (who & _ & Hc). eapply rtc_l; [by exists who|]. apply IH. by eapply step_invariant.
Qed.

(** A user has a seat in the room of a code, taken or reserved. *)
Definition has_seat (id code : string) (w : World) : Prop :=
  ∃ r, rooms (w_srv w) !! code = Some r ∧ is_member id (getRoom r w).
Lemma has_seat_view id code w : has_seat id code w ↔ seated_at id code (view w).
Proof.
  unfold has_seat, seated_at. rewrite view_lookup. unfold is_member. split.
  - intros (r & -> & Hm). eexists. split; [reflexivity|]. unfold h_seats. cbn. rewrite elem_of_union, !elem_of_dom. exact Hm.
  - intros (h & (r & Hr & ->)%fmap_Some & Hin). exists r. split; [exact Hr|]. unfold h_seats in Hin. cbn in Hin.
    by rewrite elem_of_union, !elem_of_dom in Hin.
Qed.
Lemma view_room_of w code h : view w !! code = Some h → ∃ r, rooms (w_srv w) !! code = Some r ∧ h = hall_of (getRoom r w).
Proof. rewrite view_lookup. by intros (r & Hr & ->)%fmap_Some; eauto. Qed.

(** C2: nobody gets into a room but by founding it or by its host's consent.  If
    a step gives a user a seat, it handled a message of an open connection,
    and either the room did not exist and the sender is that user, or the
    sender is the room's recorded host and the user had applied; and nobody
    else gained or lost a seat. *)
Theorem seats_are_granted w w' id code :
  invariant w → step w w' → has_seat id code w' → ¬ has_seat id code w →
  ∃ u, u ≠ "" ∧ does (User u) w w' ∧
    ((rooms (w_srv w) !! code = None ∧ id = u) ∨
     (∃ r, rooms (w_srv w) !! code = Some r ∧ rs_HostID (State (getRoom r w)) = u ∧ is_Some (PendingJoins (getRoom r w) !! id))) ∧
    (∀ id' code', (id', code') ≠ (id, code) → has_seat id' code' w' ↔ has_seat id' code' w).
Proof.
  setoid_rewrite has_seat_view. intros Hi Hs Hin Hout.
  destruct (step_acts _ _ Hi Hs) as (who & Hw & [Hp|u code1 id1 -> Hg|u code1 id1 -> Hk]).
  { by destruct Hout; eapply moves_seats. }
  2: { apply (kick_seats _ _ _ _ _ id code Hk) in Hin. tauto. }
  pose proof (proj1 (grant_seats _ _ _ _ _ id code Hg) Hin) as [?|[E1 E2]]; [done|]. subst code1 id1. exists u.
  assert (∀ id' code', (id', code') ≠ (id, code) → seated_at id' code' (view w') ↔ seated_at id' code' (view w)) as Hrest.
  { intros id' code' Hne. rewrite (grant_seats _ _ _ _ _ id' code' Hg). naive_solver. }
  destruct Hg as [Hne Hno ->|h Hne Hh Hho Hwa _ _]; (split_and!; [done|done| |done]).
  - left. rewrite view_lookup in Hno. by apply fmap_None in Hno.
  - right. apply view_room_of in Hh as (r & Hr & ->). exists r. split_and!; [done|done|by apply elem_of_dom].
Qed.

(** C3: nobody loses a seat but by leaving, by the host, by staying away or with
    the room.  If a step takes a seat of a user, then the room is gone, or it
    handled a message of that user or of the room's recorded host, or it is a
    round of the workers and the user was away; in particular no end of a
    connection, reconnection or admission takes anybody's seat. *)
Theorem seats_are_given_up w w' id code :
  invariant w → step w w' → has_seat id code w → ¬ has_seat id code w' →
  ∃ who r, does who w w' ∧ rooms (w_srv w) !! code = Some r ∧
    match who with
    | User u => u = id ∨ rs_HostID (State (getRoom r w)) = u ∨ rooms (w_srv w') !! code = None
    | Network => False
    | Clock => is_Some (DisconnectedUsers (getRoom r w) !! id) ∨ rooms (w_srv w') !! code = None
    end.
Proof.
  rewrite !has_seat_view. intros Hi Hs Hin Hout. pose proof Hin as (h & (r & Hr & ->)%view_room_of & _).
  destruct (step_acts _ _ Hi Hs) as (who & Hw & [Hp|u code1 id1 -> Hg|u code1 id1 -> Hk]).
  - destruct (moves_unseat _ _ _ _ _ Hp Hin) as [?|[[Hn Hno]|Ht]]; [done|..]; exists who, r; (split_and!; [done|done|]).
    + rewrite view_lookup in Hno. apply fmap_None in Hno. destruct who; [by auto|done|by auto].
    + destruct who as [u| |]; [by left|done|]. left. destruct Ht as (h & (r' & Hr' & ->)%view_room_of & Haw).
      rewrite Hr in Hr'. injection Hr' as ->. by apply elem_of_dom.
  - destruct Hout. apply (grant_seats _ _ _ _ _ id code Hg). by left.
  - exists (User u), r. split_and!; [done|done|].
    destruct (decide (code = code1 ∧ id = id1)) as [[-> ->]|Hne]; [|by destruct Hout; apply (kick_seats _ _ _ _ _ id code Hk)].
    destruct Hk as [k Hne Hk Hho _ _]. apply view_room_of in Hk as (r' & Hr' & ->). right. left. cbn in Hho. congruence.
Qed.

End Simulation.
