(* ===== verification/Tame.v ===== *)
(** Tame: whose hands an identifier is in.

    A member who is away or gone is known by an identifier only.  The lemmas
    follow the handlers once more: none of them gives an identifier that nobody
    goes by and no token leads to ([free]) to anybody, except those that draw a
    new one, and none changes what a session stands for. *)

From S2P Require Import Prelude Protocol Utf8 Validation UAPolicy World Client Pumps Roster Hosts Playback Limits Identifiers Members Rooms Lifecycle RoomOk Safety Preserve PreserveRooms PreserveLife Server Steady Reachable Club Refine.

(** ** Who goes by an identifier *)

(** Nobody takes up the identifier [i], and sessions keep what they stand for. *)
Record tame (i : string) (w w' : World) : Prop := {
  tm_ids d : holder d w' → clientID d w' = i → holder d w ∧ clientID d w = i;
  tm_sessions s : (s < w_next w)%nat → claim_of (getSession s w') = claim_of (getSession s w);
  tm_next : (w_next w ≤ w_next w')%nat
}.
#[export] Instance tame_preorder i : PreOrder (tame i).
Proof.
  split; [by split|]. intros w1 w2 w3 [A1 A2 A3] [B1 B2 B3]. split; [naive_solver| |lia].
  intros s Hs. rewrite B2 by lia. by apply A2.
Qed.

Section Tame.
Context (i : string) (w : World).

Lemma tame_core W W' : same_core W W' → tame i w W → tame i w W'.
Proof.
  intros Hc Ht. etrans; [exact Ht|]. split.
  - intros d Hd. rewrite (core_clientID _ _ _ Hc). split; [by eapply core_holder|done].
  - intros s _. unfold getSession. by rewrite (core_sessions _ _ Hc).
  - by rewrite (core_next _ _ Hc).
Qed.
Lemma tame_setRoom W r f : tame i w W → tame i w (setRoom r f W).
Proof. intros []. by split. Qed.
Lemma tame_setServer W f : tame i w W → tame i w (setServer f W).
Proof. intros []. by split. Qed.
Lemma tame_newRoom W room : tame i w W → tame i w (newRoom room W).2.
Proof. intros [A1 A2 A3]. split; [done|done|]. cbn. lia. Qed.
Lemma tame_newSession W se : tame i w W → tame i w (newSession se W).2.
Proof.
  intros Ht. etrans; [exact Ht|]. split; [done| |cbn; lia]. intros s Hs. unfold getSession. cbn.
  by rewrite lookup_total_insert_ne by lia.
Qed.
Lemma tame_setSession W s f :
  (∀ se, claim_of (f se) = claim_of se) → tame i w W → tame i w (setSession s f W).
Proof.
  intros Hf Ht. etrans; [exact Ht|]. split; [done| |done]. intros x _. rewrite getSession_setSession. by case_decide; subst.
Qed.
(** Writing to a client what does not make it the bearer of [i]. *)
Lemma tame_setClient W c f :
  (c_id (f (getClient c W)) = i → holder c (setClient c f W) → holder c W ∧ clientID c W = i) →
  tame i w W → tame i w (setClient c f W).
Proof.
  intros Hf Ht. etrans; [exact Ht|]. split; [|done|done]. intros d Hd Hid. destruct (decide (d = c)) as [->|Hne].
  - apply Hf; [|done]. unfold clientID in Hid. by rewrite getClient_setClient_eq in Hid.
  - unfold holder, currentRoom, currentPendingRoom, clientID in *. by rewrite getClient_setClient, decide_False in * by done.
Qed.
Lemma tame_place W c f :
  (∀ cl, c_id (f cl) = c_id cl ∧ (c_ConnOpen (f cl) = true → c_ConnOpen cl = true) ∧
    (is_Some (c_room (f cl)) → is_Some (c_room cl)) ∧ (is_Some (c_pendingRoom (f cl)) → is_Some (c_pendingRoom cl))) →
  tame i w W → tame i w (setClient c f W).
Proof.
  intros Hf. apply tame_setClient. destruct (Hf (getClient c W)) as (-> & H1 & H2 & H3). intros Hi. split; [|done].
  unfold holder, currentRoom, currentPendingRoom in *. rewrite getClient_setClient_eq in *. tauto.
Qed.
Lemma tame_holder W c f :
  holder c W → (∀ cl, c_id (f cl) = c_id cl) → tame i w W → tame i w (setClient c f W).
Proof. intros Hh Hf. apply tame_setClient. rewrite Hf. done. Qed.
Lemma tame_rename W c f : (∀ cl, c_id (f cl) ≠ i) → tame i w W → tame i w (setClient c f W).
Proof. intros Hf. apply tame_setClient. by intros ?%Hf. Qed.
Lemma tame_foldl {A} (f : World → A → World) l W :
  (∀ W x, tame i w W → tame i w (f W x)) → tame i w W → tame i w (foldl f W l).
Proof. intros Hf. revert W. induction l; cbn; auto. Qed.
End Tame.

Section Updates.
Context `{WireFormat, UnicodeTables} (i : string) (w W : World).
Lemma tame_sendMessage c m p : tame i w W → tame i w (sendMessage c m p W).
Proof. apply tame_core, sendMessage_core. Qed.
Lemma tame_reply c m p : tame i w W → tame i w (reply c m p W).
Proof. apply tame_core, reply_core. Qed.
Lemma tame_sendError c code m : tame i w W → tame i w (sendError c code m W).
Proof. apply tame_core, sendError_core. Qed.
Lemma tame_broadcast cs m p : tame i w W → tame i w (sendMessageToClients cs m p W).
Proof. apply tame_core, sendMessageToClients_core. Qed.
Lemma tame_snapshot c st : tame i w W → tame i w (sendPolicyQueueSnapshot c st W).
Proof. apply tame_core, sendPolicyQueueSnapshot_core. Qed.
Lemma tame_deliver cs ch : tame i w W → tame i w (deliverHostChange cs ch W).
Proof. apply tame_core, deliverHostChange_core. Qed.
Lemma tame_clearRoom c r : tame i w W → tame i w (clearRoom c r W).
Proof. unfold clearRoom. case_decide; [|done]. apply tame_place. intros cl. cbn. split_and!; [done|done| |done]. by intros []. Qed.
Lemma tame_clearPendingRoom c r : tame i w W → tame i w (clearPendingRoom c r W).
Proof.
  unfold clearPendingRoom. case_decide; [|done]. apply tame_place. intros cl. cbn. split_and!; [done|done|done|]. by intros [].
Qed.
Lemma tame_drop_token t : tame i w W → tame i w (drop_token t W).
Proof. unfold drop_token. case_decide; [done|]. apply tame_setServer. Qed.
Lemma tame_assign r h : tame i w W → tame i w (assignHostLocked r h W).2.
Proof. apply tame_setRoom. Qed.
Lemma tame_queuePong c p : tame i w W → tame i w (queuePong c p W).
Proof.
  apply tame_place. intros cl. cbn. destruct (c_pongs cl); [|by split_and!]. case_decide; by split_and!.
Qed.
End Updates.

Ltac tame_peel :=
  first [simple apply tame_sendMessage|simple apply tame_reply|simple apply tame_sendError|simple apply tame_broadcast
        |simple apply tame_snapshot|simple apply tame_deliver|simple apply tame_clearRoom|simple apply tame_clearPendingRoom
        |simple apply tame_drop_token|simple apply tame_assign|simple apply tame_queuePong|simple apply tame_setRoom
        |simple apply tame_setServer|simple apply tame_newRoom|simple apply tame_newSession].
Ltac tame_step :=
  lazymatch goal with
  | |- tame _ ?w ?w => reflexivity
  | H : tame ?i ?w ?W |- tame ?i ?w ?W => exact H
  | |- tame _ _ (setClient _ _ _) => first [tame_peel|apply tame_place; [intros; cbn; by split_and!|]]
  | |- tame _ _ (setSession _ _ _) => apply tame_setSession; [intros; reflexivity|]
  | |- tame _ _ (foldl _ _ _) => apply tame_foldl; [intros|]
  | |- tame _ _ (if decide _ then _ else _) => case_decide
  | |- tame _ _ (match ?x with _ => _ end) => destruct x
  | |- tame _ _ _ => tame_peel
  end.
Ltac tame := repeat (cbv zeta beta; cbn [fst snd]; tame_step).

(** ** Handlers that leave everybody's identifier alone *)

Section Handlers.
Context `{WireFormat, UnicodeTables} (i : string) (w : World).

Lemma tame_handlePlaybackAction e c payload : tame i w (handlePlaybackAction e c payload w).
Proof.
  destruct (handlePlaybackAction_outcome e c payload w) as [Hc|r p room room' Hr Hh Hs Ha Ht Hc|r p room room' p' Hr Hh Hs Ha Hc];
    (eapply tame_core; [exact Hc|]); tame.
Qed.
Lemma tame_handleBufferReady e c payload : tame i w (handleBufferReady e c payload w).
Proof. unfold handleBufferReady. tame. Qed.
Lemma tame_replace c cl W :
  calm (getClient c W) cl → tame i w W → tame i w (setClient c (λ _, cl) W).
Proof.
  intros Hc. apply tame_core. split; try done. intros d. rewrite getClient_setClient. by case_decide; subst.
Qed.
Lemma calm_allowSync now cl : calm cl (allowSyncResponse now cl).2.
Proof. unfold allowSyncResponse. destruct (c_Send cl); [|done]. do 2 (case_decide; [done|]). by apply calm_quiet. Qed.
Lemma tame_handleRequestSync e c : tame i w (handleRequestSync e c w).
Proof.
  unfold handleRequestSync. pose proof (calm_allowSync (e_now e) (getClient c w)) as Hs.
  destruct (allowSyncResponse _ _) as [a cl]. cbn in Hs. pose proof (tame_replace c cl w Hs ltac:(reflexivity)). tame.
Qed.
Lemma tame_handlePing e at' c payload : tame i w (handlePing e at' c payload w).
Proof.
  unfold handlePing. pose proof (calm_allowSync (e_now e) (getClient c w)) as Hs.
  destruct (allowSyncResponse _ _) as [a cl]. cbn in Hs. pose proof (tame_replace c cl w Hs ltac:(reflexivity)). tame.
Qed.
Lemma tame_handleClientCapabilities c payload : tame i w (handleClientCapabilities c payload w).
Proof. unfold handleClientCapabilities, setFeatures. tame. Qed.
Lemma tame_handleSuggestTrack e c payload : tame i w (handleSuggestTrack e c payload w).
Proof. unfold handleSuggestTrack. tame. Qed.
Lemma tame_handleApproveSuggestion e c payload : tame i w (handleApproveSuggestion e c payload w).
Proof. unfold handleApproveSuggestion. tame. Qed.
Lemma tame_handleRejectSuggestion c payload : tame i w (handleRejectSuggestion c payload w).
Proof. unfold handleRejectSuggestion. tame. Qed.
End Handlers.

Section Moving.
Context `{WireFormat, UnicodeTables} (i : string) (w : World).

Lemma tame_mark c W : tame i w W → tame i w (markAffiliationStarted c W).
Proof. by apply tame_place. Qed.
Lemma mark_holder c W : holder c W → holder c (markAffiliationStarted c W).
Proof. unfold holder, currentRoom, currentPendingRoom, markAffiliationStarted. by rewrite getClient_setClient_eq. Qed.
Lemma tame_trySetRoom c r W : holder c W → tame i w W → tame i w (trySetRoom c r W).2.
Proof.
  intros Hh%mark_holder Ht. pose proof (tame_mark c W Ht). unfold trySetRoom. destruct (currentRoom c _); [done|].
  by apply tame_holder.
Qed.
Lemma tame_trySetPendingRoom c r W : holder c W → tame i w W → tame i w (trySetPendingRoom c r W).2.
Proof.
  intros Hh%mark_holder Ht. pose proof (tame_mark c W Ht). unfold trySetPendingRoom. destruct (currentRoom c W); [done|].
  destruct (currentPendingRoom c _); [done|]. cbn zeta.
  assert (tame i w (setClient c (λ cl, cl <| c_pendingRoom := Some r |>) (markAffiliationStarted c W))) as Hs by by apply tame_holder.
  destruct (currentRoom c _); [|done]. by apply tame_clearPendingRoom.
Qed.
Lemma tame_setUsername c n W : tame i w W → tame i w (setUsername c n W).
Proof. by apply tame_place. Qed.
Lemma tame_setSessionToken c t W : tame i w W → tame i w (setSessionToken c t W).
Proof. by apply tame_place. Qed.
Lemma tame_setClientID c x W : x ≠ i → tame i w W → tame i w (setClientID c x W).
Proof. intros Hx. by apply tame_rename. Qed.

Lemma tame_dropPending r id c W : tame i w W → tame i w (dropPending r id c W).
Proof. intros. unfold dropPending. tame. Qed.
Lemma tame_handleRejectJoin c payload : tame i w (handleRejectJoin c payload w).
Proof. unfold handleRejectJoin, dropPending. tame. Qed.
Lemma tame_handleTransferHost c payload : tame i w (handleTransferHost c payload w).
Proof. unfold handleTransferHost, assignHostLocked. tame. Qed.
Lemma tame_handleKickUser c payload : tame i w (handleKickUser c payload w).
Proof. unfold handleKickUser, kickConnected, kickOffline, dropSessions. tame. Qed.
Lemma tame_closeRoom r reason W : tame i w W → tame i w (closeRoom r reason W).
Proof. intros Ht. unfold closeRoom, unregister, dropSessions, kickMember, rejectPending. tame. Qed.
Lemma tame_deleteRoomIfEmpty r W : tame i w W → tame i w (deleteRoomIfEmpty r W).2.
Proof. intros Ht. unfold deleteRoomIfEmpty, rejectPending. case_decide; tame. Qed.
Lemma tame_announce r elect id name bt W :
  (∀ W, tame i w W → tame i w (bt W)) → tame i w W → tame i w (announce_departure r elect id name bt W).
Proof.
  intros Hbt Ht. unfold announce_departure. destruct elect; cbn [assignHostLocked]; cbv zeta;
    (case_bool_decide; [apply tame_closeRoom|]); apply tame_deliver, tame_broadcast, Hbt; tame.
Qed.
Lemma tame_leaveSeat e c r W : tame i w W → tame i w (leaveSeat e c r W).
Proof.
  intros Ht. unfold leaveSeat. case_decide; [tame|]. cbv zeta. case_decide; [apply tame_deleteRoomIfEmpty; tame|].
  apply tame_announce; [intros; tame|tame].
Qed.
Lemma tame_removePendingJoin c W : tame i w W → tame i w (removePendingJoin c W).
Proof. intros Ht. unfold removePendingJoin. tame. Qed.
Lemma tame_leaveRoom e c : e_userID e ≠ i → tame i w (leaveRoom e c w).
Proof.
  intros He. unfold leaveRoom. destruct (currentRoom c w); [by apply tame_leaveSeat|]. cbv zeta.
  destruct (currentRoom c _); [apply tame_leaveSeat|apply tame_setClientID; [done|]]; by apply tame_removePendingJoin.
Qed.

Lemma tame_handleJoinRoom c payload : holder c w → tame i w (handleJoinRoom c payload w).
Proof.
  intros Hh. unfold handleJoinRoom. destruct (decodePayload _ _ _) as [p|]; [|tame]. cbv zeta. do 6 (case_decide; [tame|]).
  destruct (rooms (w_srv w) !! _) as [r|]; [|tame]. set (w1 := setUsername _ _ w). assert (tame i w w1) as Hw1 by by apply tame_setUsername.
  assert (holder c w1) as Hh1.
  { unfold w1, setUsername, holder, currentRoom, currentPendingRoom in *. by rewrite getClient_setClient_eq. }
  pose proof (tame_trySetPendingRoom c r w1 Hh1 Hw1) as Hp. destruct (trySetPendingRoom c r w1) as [ok w2]. cbn in Hp. tame.
Qed.
End Moving.

(** ** Identifiers in nobody's hands *)

(** An identifier is free when nobody goes by it and it has no seat. *)
Lemma fresh_unseated E w i :
  roster_ok E w →
  fresh_id i w ↔ i ≠ "" ∧ (∀ d, holder d w → clientID d w ≠ i) ∧ (∀ code, ¬ has_seat i code w).
Proof.
  intros Hro. split.
  - intros [F1 F2 F3]. split_and!; [done|done|]. intros code (r & Hr & [[d Hd]|[s Hs]]);
      destruct (registered_code _ _ Hro _ _ Hr) as [Hreg _].
    + destruct (ro_seat _ _ Hro _ _ _ Hreg Hd) as [Hid Hcr]. apply (F2 d); [|done]. right. left. by rewrite Hcr.
    + by rewrite (F3 r Hreg) in Hs.
  - intros (F1 & F2 & F3). split; [done|done|]. intros r Hreg. destruct (DisconnectedUsers (getRoom r w) !! i) as [s|] eqn:Hs; [|done].
    destruct (F3 (Code (getRoom r w))). exists r. split; [exact Hreg|]. right. by eexists.
Qed.

(** Nobody goes by the identifier, and no token leads to it. *)
Record free (i : string) (w : World) : Prop := {
  fr_holder d : holder d w → clientID d w ≠ i;
  fr_token t s : sessions (w_srv w) !! t = Some s → se_UserID (getSession s w) ≠ i
}.
Lemma free_core i w w' : same_core w w' → free i w → free i w'.
Proof.
  intros Hc [F1 F2]. split.
  - intros d Hd. rewrite (core_clientID _ _ _ Hc). by eapply F1, core_holder.
  - intros t s. unfold getSession. rewrite (core_srv _ _ Hc), (core_sessions _ _ Hc). apply F2.
Qed.
Lemma fresh_free E i w : roster_ok E w → fresh_id i w → free i w.
Proof.
  intros Hro [F1 F2 F3]. split; [done|]. intros t s Ht Hi.
  destruct (aw_session _ _ (ro_away _ _ Hro) s) as (_ & r & x & Hr & Hx); [right; eauto|].
  destruct (registered_code _ _ Hro _ _ Hr) as [Hreg _]. rewrite Hi, (F3 r Hreg) in Hx. done.
Qed.
(** A session whose token an expiry took. *)
Lemma pending_free E s w : roster_ok E w → s ∈ E → free (se_UserID (getSession s w)) w.
Proof.
  intros Hro HsE. destruct (aw_session _ _ (ro_away _ _ Hro) s) as (_ & r & x & Hr & Hx); [by left|].
  destruct (registered_code _ _ Hro _ _ Hr) as [Hreg Hcode]. split.
  - intros d Hd Hid. pose proof (ro_id_away _ _ Hro d r Hd Hreg) as Hn. rewrite Hid in Hn. congruence.
  - intros t s' Ht Hid. destruct (aw_session _ _ (ro_away _ _ Hro) s') as (_ & r' & x' & Hr' & Hx'); [right; eauto|].
    destruct (registered_code _ _ Hro _ _ Hr') as [Hreg' Hcode']. rewrite Hid in Hx'.
    pose proof (aw_one _ _ (ro_away _ _ Hro) _ _ _ _ _ Hreg Hreg' Hx Hx') as <-.
    destruct (aw_token _ _ (ro_away _ _ Hro) t t s' Ht Ht) as (_ & Hno & _). apply Hno.
    replace s' with s; [done|]. apply (aw_seat _ _ (ro_away _ _ Hro)); [by left|right; eauto|done|congruence].
Qed.

Section Comings.
Context `{WireFormat, UnicodeTables} (i : string).

Lemma tame_handleApproveJoin E e c payload w : world_ok E w → tame i w (handleApproveJoin e c payload w).
Proof.
  intros Hok. unfold handleApproveJoin. destruct (decodePayload _ _ _) as [p|]; [|tame]. cbv zeta. case_decide; [tame|].
  destruct (currentRoom c w) as [r|] eqn:Hc; [|tame]. destruct (decide (¬ _)) as [|Hh]; [tame|]. apply dec_stable in Hh.
  destruct (host_speaks E w Hok r c Hc Hh) as (Hreg & _). destruct (PendingJoins _ !! _) as [d|] eqn:Hd; [|tame].
  destruct (applicant_out E w Hok r _ d Hreg Hd) as (_ & Hpe & _).
  case_decide; [apply tame_sendError; by apply tame_dropPending|]. case_decide; [tame|].
  assert (holder d w) as Hhd by (right; right; by rewrite Hpe). pose proof (tame_trySetRoom i w d r w Hhd ltac:(reflexivity)) as Ht.
  destruct (trySetRoom d r w) as [ok w1]. cbn in Ht. pose proof (tame_dropPending i w r (ajp_UserID p) d w1 Ht).
  case_decide; [by apply tame_sendError|]. apply tame_broadcast, tame_snapshot, tame_sendMessage, tame_setRoom.
  by apply tame_setSessionToken.
Qed.

Lemma tame_openRoom e c code username w W : holder c W → tame i w W → tame i w (openRoom e c code username W).
Proof.
  intros Hh Ht. unfold openRoom. set (room := fresh_room _ _ _ _ _). rewrite (surjective_pairing (newRoom room W)).
  set (r := (newRoom room W).1). set (w1 := (newRoom room W).2). assert (tame i w w1) as Hw1 by by apply tame_newRoom.
  pose proof (tame_trySetRoom i w c r w1 Hh Hw1) as Hs. destruct (trySetRoom c r w1) as [ok w2]. cbn in Hs. cbn [fst snd].
  unfold setSessionToken, setUsername. tame.
Qed.

Lemma tame_handleCreateRoom e c payload w : holder c w → tame i w (handleCreateRoom e c payload w).
Proof.
  intros Hh. unfold handleCreateRoom. case_decide; [tame|]. destruct (decodePayload _ _ _) as [p|]; [|tame]. cbv zeta.
  do 4 (case_decide; [tame|]). destruct (draw_code _ _ _ _ _ _) as [code ex]. do 2 (case_decide; [tame|]).
  destruct (room_create_allowed _ _ _) as [a w1] eqn:Ha. apply room_create_allowed_same in Ha as (srv & -> & _).
  case_decide; [tame|]. apply tame_openRoom; [done|tame].
Qed.

Lemma tame_disconnect e c w W : tame i w W → tame i w (handleClientDisconnect e c W).
Proof.
  intros Ht. unfold handleClientDisconnect, ensure_token. destruct (currentRoom c W); [|done]. cbv zeta.
  destruct (decide (session c W = "")); (case_decide; [unfold setSessionToken; tame|]);
    (match goal with |- context [newSession ?se ?V] => rewrite (surjective_pairing (newSession se V)) end);
    unfold setSessionToken; tame.
Qed.
Lemma tame_removeClient e c w : tame i w (removeClient e c w).
Proof.
  unfold removeClient. set (w1 := setClient c closeSend _).
  assert (tame i w w1) as Hw1.
  { eapply tame_core; [apply setClient_core; intros; apply calm_closeSendWith|]. tame. }
  destruct (currentRoom c w1); [by apply tame_disconnect|]. cbv zeta. pose proof (tame_removePendingJoin i w c w1 Hw1).
  destruct (currentRoom c _); [by apply tame_disconnect|done].
Qed.
Lemma tame_hang_up e c w : tame i w (hang_up e c w).
Proof.
  unfold hang_up. pose proof (tame_removeClient e c w). cbv zeta.
  assert (tame i w (setClient c (λ cl, cl <| c_ConnOpen := false |>) (removeClient e c w))) by by apply tame_place.
  destruct (c_connectionSlot _); [by apply tame_setServer|done].
Qed.
Lemma tame_replaceLive e c t w : tame i w (replaceLiveSession e c t w).2.
Proof.
  unfold replaceLiveSession. destruct (list_find _ _) as [[k old]|]; [|done]. cbn. apply tame_place; [by intros|].
  eapply tame_core; [apply setClient_core; intros; apply calm_closeSendWith|]. by apply tame_disconnect.
Qed.
End Comings.

(** Whoever loses the connection was somebody else. *)
Lemma free_disconnect `{WireFormat, UnicodeTables} i E e c w : world_ok E w → free i w → free i (handleClientDisconnect e c w).
Proof.
  intros Hok [F1 F2]. pose proof (tame_disconnect i e c w w ltac:(reflexivity)) as Ht.
  split; [intros d Hd Hid; destruct (tm_ids _ _ _ Ht d Hd Hid); by eapply F1|].
  destruct (currentRoom c w) as [r|] eqn:Hc; [|unfold handleClientDisconnect; by rewrite Hc].
  destruct (room_seated E c r w Hok Hc) as [Hreg Hseat [Htn Htok] _ _].
  unfold handleClientDisconnect, ensure_token. rewrite Hc, decide_False by done. rewrite decide_False by tauto. cbv zeta.
  set (se := mkSession _ _ _ _ _ _). rewrite (surjective_pairing (newSession se w)).
  set (w1 := clearRoom c r _). assert (w_srv w1 = w_srv w) as Hsrv by (unfold w1; by rewrite srv_clearRoom).
  assert (w_sessions w1 = <[w_next w := se]> (w_sessions w)) as Hses by (unfold w1, clearRoom; by case_decide).
  match goal with |- context [sendMessageToClients ?cs ?m ?p ?W] => pose proof (sendMessageToClients_core cs m p W) as Hco end.
  intros t s. unfold getSession. rewrite (core_srv _ _ Hco), (core_sessions _ _ Hco). cbn. rewrite Hsrv, Hses.
  assert (clientID c w ≠ i) as Hne by (apply F1; right; left; by rewrite Hc).
  intros [[<- <-]|[_ Hs]]%lookup_insert_Some; [by rewrite lookup_total_insert_eq|].
  destruct (decide (s = w_next w)) as [->|Hx]; [by rewrite lookup_total_insert_eq|].
  rewrite lookup_total_insert_ne by done. by apply (F2 t).
Qed.

Lemma free_replaceLive `{WireFormat, UnicodeTables} i E e c t w : world_ok E w → free i w → free i (replaceLiveSession e c t w).2.
Proof.
  intros Hok Hf. unfold replaceLiveSession. destruct (list_find _ _) as [[k old]|]; [|done]. cbn.
  eapply free_core; [|by apply (free_disconnect i E e old w)]. etrans; [apply setClient_core; intros; apply calm_closeSendWith|].
  apply setClient_core. by split.
Qed.

Section Returns.
Context `{WireFormat, UnicodeTables} (i : string) (E : gset SessionRef).

Lemma tame_finish_reconnect e c t s w :
  world_ok E w → free i w → currentRoom c w = None → tame i w (finish_reconnect e c t s w).
Proof.
  intros Hok Hf Hcr. unfold finish_reconnect, unclaim. destruct (rooms (w_srv w) !! _) as [r|] eqn:Hr; [|tame].
  destruct (registered_code E w (wo_roster _ _ Hok) _ _ Hr) as [Hreg _]. unfold resume, unclaim. cbv zeta.
  set (id := se_UserID (getSession s w)). destruct (decide (_ ∨ _)) as [|Hd]; [tame|].
  assert (id ≠ i) as Hne by (apply (fr_token _ _ Hf t), dec_stable; tauto).
  rewrite (trySetRoom_idle c r w Hcr). rewrite decide_False by done.
  pose proof (readmit_world c t s r w) as Hrw. cbv zeta in Hrw. fold id in Hrw.
  destruct (readmit c t s r _) as [change w2]. cbn [snd] in Hrw. destruct Hrw as [Hid2 Hrw].
  eapply tame_core; [apply welcome_back_core|]. rewrite Hid2, Hrw. apply tame_setRoom, tame_rename; [done|tame].
Qed.

Lemma tame_claim e c t w : tame i w (claim e c t w).2.
Proof.
  pose proof (claim_cases e c t w) as Hcs. destruct (claim e c t w) as [[code|s] w']; [by subst|]. destruct Hcs as (_ & -> & _).
  cbn [snd]. tame.
Qed.

Lemma free_claimed s b w : free i w → free i (setSession s (λ se, se <| se_claimed := b |>) w).
Proof. intros [F1 F2]. split; [done|]. intros t x Hx. rewrite getSession_setSession. case_decide; [subst|]; by apply (F2 t). Qed.

Lemma tame_claimed e c t w :
  world_ok E w → free i w → currentRoom c w = None →
  let '(outcome, w') := claim e c t w in
  tame i w match outcome with inl code => sendError c code (claim_failure code) w' | inr s => finish_reconnect e c t s w' end.
Proof.
  intros Hok Hf Hcr. pose proof (claim_cases e c t w) as Hcs. pose proof (tame_claim e c t w) as Hc.
  destruct (claim e c t w) as [[code|s] w']; [by apply tame_sendError|]. destruct Hcs as (_ & -> & _). cbn [snd] in Hc.
  etrans; [exact Hc|]. apply tame_finish_reconnect; [by apply claimed_ok|by apply free_claimed|done].
Qed.

Lemma tame_handleReconnect e c payload w : world_ok E w → free i w → tame i w (handleReconnect e c payload w).
Proof.
  intros Hok Hf. unfold handleReconnect. destruct (decodePayload _ _ _) as [p|]; [|tame]. cbv zeta. set (t := rcn_SessionToken p).
  case_decide; [tame|]. destruct (decide (is_Some (currentRoom c w))) as [|Hcr%eq_None_not_Some]; [tame|]. case_decide; [tame|].
  pose proof (tame_claimed e c t w Hok Hf Hcr) as Hfirst. pose proof (claim_cases e c t w) as Hcl.
  destruct (claim e c t w) as [o w'] eqn:Hcw. destruct (decide (o = inl "session_not_found")); [|done]. subst o w'.
  destruct (replaceLiveSession_ok E e c t w Hok) as [Hok' (B1 & _)]. pose proof (tame_replaceLive i e c t w) as Hp.
  pose proof (free_replaceLive i E e c t w Hok Hf) as Hf'.
  destruct (replaceLiveSession e c t w) as [[] w']; cbn in *; [|by apply tame_sendError]. etrans; [exact Hp|].
  pose proof (tame_claimed e c t w' Hok' Hf' ltac:(congruence)) as Hagain. by destruct (claim e c t w').
Qed.

Lemma tame_dispatch e at' c m payload w :
  world_ok E w → free i w → holder c w → e_userID e ≠ i → tame i w (dispatch e at' c m payload w).
Proof.
  intros Hok Hf Hh He. unfold dispatch.
  repeat (case_decide; [eauto using tame_handleCreateRoom, tame_handleApproveJoin, tame_handleKickUser, tame_handleJoinRoom,
    tame_leaveRoom, tame_handleRejectJoin, tame_handlePlaybackAction, tame_handleBufferReady, tame_handleTransferHost,
    tame_handlePing, tame_handleRequestSync, tame_handleReconnect, tame_handleSuggestTrack, tame_handleApproveSuggestion,
    tame_handleRejectSuggestion, tame_handleClientCapabilities|]).
  tame.
Qed.

Lemma tame_handleMessage e at' c data w :
  world_ok E w → free i w → c_ConnOpen (getClient c w) = true → e_userID e ≠ i →
  tame i w (handleMessage e at' c data w).
Proof.
  intros Hok Hf Ho He. unfold handleMessage.
  assert (∀ id, same_core w (begin_request id c w)) as Hc by (intros; apply setClient_core; intros; by apply calm_quiet).
  assert (∀ id, tame i w (begin_request id c w)) as Hb by (intros; eapply tame_core; [apply Hc|done]).
  destruct (decodeProtobuf data) as [[[m payload] id]|[id big]]; (eapply tame_core; [apply acknowledge_core|]).
  - case_decide; [by apply tame_sendError|]. etrans; [apply (Hb id)|].
    apply tame_dispatch; [by eapply world_core; [apply Hc|]|by eapply free_core; [apply Hc|]| |done].
    left. unfold begin_request. by rewrite getClient_setClient_eq.
  - destruct big; by apply tame_sendError.
Qed.

Lemma tame_receive e at' c data w :
  world_ok E w → free i w → c_ConnOpen (getClient c w) = true → e_userID e ≠ i →
  tame i w (receive e at' c data w).
Proof.
  intros Hok Hf Ho He. unfold receive. pose proof (calm_allowMessage (e_now e) (getClient c w)) as [Hi Hc].
  destruct (allowMessage (e_now e) (getClient c w)) as [ok cl]. cbn in Hi, Hc. pose proof Hc as [= Hco _].
  assert (same_core w (setClient c (λ _, cl) w)) as Hcore by by apply set_core.
  assert (tame i w (setClient c (λ _, cl) w)) as Ht by by eapply tame_core.
  destruct ok.
  - etrans; [exact Ht|]. apply tame_handleMessage; [by eapply world_core|by eapply free_core| |done].
    rewrite getClient_setClient_eq. congruence.
  - pose proof (shouldNotify_core c (setClient c (λ _, cl) w)) as Hn.
    destruct (shouldNotifyRateLimit _) as [notify cl']. cbn [snd] in Hn.
    assert (tame i w (setClient c (λ _, cl') (setClient c (λ _, cl) w))) by by eapply tame_core. destruct notify; tame.
Qed.
End Returns.
