(* ===== verification/Expiry.v ===== *)
(** Expiry: a round of [cleanupExpiredSessionsOnce] among everything else.

    The source takes the tokens that ran out under the lock of the server,
    lets it go, and then visits the rooms one session at a time.  Here the two
    halves are steps of their own, with the sessions still to be visited as the
    state of the worker, and anything may happen in between.  A session on the
    list keeps its seat until its visit, unless the host puts its user out
    first; then the user's identifier is in nobody's hands, and the visit finds
    nothing to do. *)

From S2P Require Import Prelude Protocol Utf8 Validation UAPolicy World Client Pumps Roster Hosts Playback Limits Identifiers Members Rooms Lifecycle RoomOk Safety Preserve PreserveRooms PreserveLife Server Steady Reachable Club Refine Tame.

(** ** Events *)

Section Events.
Context `{WireFormat, UnicodeTables} (E : gset SessionRef) (taken : gset string).

Lemma tame_connect i e rq up w a w' :
  accounts_ok w → e_userID e ≠ i → handleWebSocket e rq up w = (a, w') → tame i w w'.
Proof.
  intros Hac He Hh. destruct (handleWebSocket_cases e rq up w a w' (ac_sources_ok _ Hac) Hh) as
    [(srv & -> & _)|(cl & srv & _ & _ & -> & -> & _)]; [tame|]. split; [|done|cbn; lia].
  intros d. unfold holder, clientID, currentRoom, currentPendingRoom, getClient. cbn.
  destruct (decide (d = w_next w)) as [->|Hne]; [|by rewrite lookup_total_insert_ne]. by rewrite lookup_total_insert_eq.
Qed.

Lemma event_tame i w w' : world_ok E w → accounts_ok w → free i w → i ∈ taken → event taken w w' → tame i w w'.
Proof.
  intros Hok Hac Hf Hi Hev.
  destruct Hev as [e rq up w a w' _ _ Ht Hh|e at' c data w Hc Ho _ _ Ht|e c t w _ _|e c t s w w' Hcl|e c t s w Hrc|e c w _ _
    |c fs cl w Hw|nano c w|c w|now w|now w|pol w|w|w|w|w].
  - apply (tame_connect i e rq up w a w'); [done|set_solver|done].
  - apply (tame_receive i E); [done|done|done|set_solver].
  - apply tame_replaceLive.
  - pose proof (tame_claim i e c t w) as Hp. by rewrite Hcl in Hp.
  - destruct Hrc as [_ [Hcr _] _ _ _]. by apply (tame_finish_reconnect i E).
  - apply tame_hang_up.
  - apply tame_replace; [by apply (writePump_calm _ _ _ Hw)|reflexivity].
  - eapply tame_core; [|reflexivity]. apply setClient_core. intros cl. unfold pongHandler. repeat case_decide; by apply calm_quiet.
  - apply tame_place; [by intros|reflexivity].
  - apply tame_foldl; [|reflexivity]. intros W r HW. unfold cleanup_room. case_decide; [|done].
    destruct (EmptySince _); [|tame]. case_decide; [by apply tame_deleteRoomIfEmpty|done].
  - apply tame_foldl; [|reflexivity]. intros W r HW. unfold failoverRoom. case_decide; [|done].
    destruct (pickDeputy _ W); [|done]. unfold assignHostLocked. tame.
  - tame.
  - eapply tame_core; [apply announceRestart_core|]. tame.
  - eapply tame_core; [apply drainClients_core|reflexivity].
  - eapply tame_core; [apply closeAllClients_core|reflexivity].
  - tame.
Qed.

(** Nobody who is away from the server gets a seat. *)
Lemma event_seats i code w w' :
  world_ok E w → accounts_ok w → event taken w w' → (∀ d, holder d w → clientID d w ≠ i) →
  has_seat i code w' → has_seat i code w.
Proof.
  intros Hok Hac Hev Hno. rewrite !has_seat_view. pose proof (wo_roster _ _ Hok) as Hro.
  destruct (event_acts E taken w w' Hok Hac Hev) as (who & Hd & [Hp|u code1 id1 -> Hg|u code1 id1 -> Hk]).
  - by apply moves_seats with who.
  - destruct Hd as (e & at' & c & data & _ & Ho & <- & _).
    intros Hs. apply (grant_seats _ _ _ _ _ i code Hg) in Hs as [Hs|[-> ->]]; [done|].
    destruct Hg as [_ _ Hi|h _ Hh _ Hwa _ _]; [by destruct (Hno c); [left|]|]. apply view_room_of in Hh as (r & Hr & ->).
    destruct (registered_code _ _ Hro _ _ Hr) as [Hreg _]. cbn in Hwa. apply elem_of_dom in Hwa as [d Hd].
    destruct (ro_applicant _ _ Hro _ _ _ Hreg Hd) as [Hid Hpe]. destruct (Hno d); [|done]. right. right. by rewrite Hpe.
  - intros Hs. by apply (kick_seats _ _ _ _ _ i code Hk) in Hs as [? _].
Qed.

Lemma event_fresh E' i w w' :
  world_ok E w → accounts_ok w → world_ok E' w' → i ∈ taken → event taken w w' → fresh_id i w → fresh_id i w'.
Proof.
  intros Hok Hac Hok' Hi Hev Hf. pose proof (fresh_free _ _ _ (wo_roster _ _ Hok) Hf) as Hfr.
  pose proof (event_tame i w w' Hok Hac Hfr Hi Hev) as Ht. revert Hf.
  rewrite (fresh_unseated E), (fresh_unseated E') by (by eapply wo_roster). intros (F1 & F2 & F3). split_and!; [done| |].
  - intros d Hd Hid. destruct (tm_ids _ _ _ Ht d Hd Hid). by eapply F2.
  - intros code Hs. apply (F3 code). by eapply event_seats.
Qed.

(** The user of a session that an event made moot is gone from the server. *)
Lemma event_moot E' s w w' :
  world_ok E w → accounts_ok w → world_ok E' w' → s ∈ E → se_UserID (getSession s w) ∈ taken → event taken w w' →
  (∀ r, rooms (w_srv w') !! se_RoomCode (getSession s w) = Some r → ¬ is_member (se_UserID (getSession s w)) (getRoom r w')) →
  fresh_id (se_UserID (getSession s w)) w'.
Proof.
  intros Hok Hac Hok' HsE Hi Hev Hno. pose proof (wo_roster _ _ Hok) as Hro. pose proof (pending_free _ _ _ Hro HsE) as Hfr.
  pose proof (event_tame _ w w' Hok Hac Hfr Hi Hev) as Ht.
  destruct (aw_session _ _ (ro_away _ _ Hro) s) as (_ & r & x & Hr & Hx); [by left|].
  destruct (registered_code _ _ Hro _ _ Hr) as [Hreg Hcode].
  apply (fresh_unseated E'); [by eapply wo_roster|]. split_and!.
  - by eapply (aw_named _ _ (ro_away _ _ Hro)).
  - intros d Hd Hid. destruct (tm_ids _ _ _ Ht d Hd Hid). by eapply (fr_holder _ _ Hfr).
  - intros code Hs. pose proof (event_seats _ _ _ _ Hok Hac Hev (fr_holder _ _ Hfr) Hs) as (r1 & Hr1 & Hm).
    destruct (registered_code _ _ Hro _ _ Hr1) as [Hreg1 Hcode1].
    assert (r1 = r) as ->.
    { destruct Hm as [[d Hd]|[y Hy]]; [|by eapply (aw_one _ _ (ro_away _ _ Hro))].
      destruct (ro_seat _ _ Hro _ _ _ Hreg1 Hd) as [Hid Hcr]. destruct (fr_holder _ _ Hfr d); [|done]. right. left. by rewrite Hcr. }
    destruct Hs as (r2 & Hr2 & Hm2). apply (Hno r2); [congruence|done].
Qed.
End Events.

(** ** The worker *)

(** Where a round of expiry stands: when it began and whom it has yet to visit. *)
Record Sweep := mkSweep { sw_now : Time; sw_todo : list SessionRef }.

(** The first critical section: the sessions that ran out, their tokens gone. *)
Definition collect (now : Time) (w : World) : World * Sweep :=
  (dropSessions (session_expired now) w,
   mkSweep now (filter (λ s, session_expired now (getSession s w)) ((map_to_list (sessions (w_srv w))).*2))).

Definition pending_ids (sw : Sweep) (w : World) : gset string :=
  list_to_set ((λ s, se_UserID (getSession s w)) <$> sw_todo sw).

Section Worker.
Context `{WireFormat, UnicodeTables}.

(** The process with its worker: any event at any moment, the next round when
    the last one is over, and one visit after the other. *)
Inductive interleaved : World * Sweep → World * Sweep → Prop :=
  | il_event w w' sw : event (pending_ids sw w) w w' → interleaved (w, sw) (w', sw)
  | il_collect now w sw : sw_todo sw = [] → interleaved (w, sw) (collect now w)
  | il_visit now w s todo : interleaved (w, mkSweep now (s :: todo)) (expire_one now w s, mkSweep now todo).

Record sweeping (E : gset SessionRef) (w : World) (sw : Sweep) : Prop := {
  sg_world : world_ok E w;
  sg_accounts : accounts_ok w;
  sg_todo s : s ∈ E → s ∈ sw_todo sw;
  sg_once : NoDup (sw_todo sw);
  sg_old s : s ∈ sw_todo sw → (s < w_next w)%nat;
  sg_moot s : s ∈ sw_todo sw → s ∉ E → fresh_id (se_UserID (getSession s w)) w
}.

Lemma sweep_event E w w' sw :
  event (pending_ids sw w) w w' → sweeping E w sw → ∃ E', sweeping E' w' sw.
Proof.
  intros Hev [Hok Hac Htd Hnd Hold Hmo].
  destruct (event_spares E _ w w' Hev Hok Hac) as [(E' & Hsub & Hok' & Hsp) Hac']. exists E'.
  assert (∀ s, s ∈ sw_todo sw → se_UserID (getSession s w) ∈ pending_ids sw w) as Hin.
  { intros s Hs. unfold pending_ids. rewrite elem_of_list_to_set, list_elem_of_fmap. eauto. }
  assert (∀ s, s ∈ sw_todo sw → free (se_UserID (getSession s w)) w) as Hfr.
  { intros s Hs. destruct (decide (s ∈ E)) as [HsE|HsE]; [by eapply pending_free; [eapply wo_roster|]|].
    eapply fresh_free; [by eapply wo_roster|auto]. }
  assert (∀ s, s ∈ sw_todo sw → tame (se_UserID (getSession s w)) w w') as Htm by eauto using event_tame.
  split; try done; [set_solver|intros s Hs; pose proof (tm_next _ _ _ (Htm s Hs)); specialize (Hold s Hs); lia|].
  intros s Hs HsE'. pose proof (tm_sessions _ _ _ (Htm s Hs) s (Hold s Hs)) as Hcl. injection Hcl as -> _ _.
  destruct (decide (s ∈ E)) as [HsE|HsE]; [|by apply (event_fresh E (pending_ids sw w) E' _ w w'); auto].
  apply (event_moot E (pending_ids sw w) E' s w w'); auto.
Qed.

Lemma sweep_collect E w sw now :
  sw_todo sw = [] → sweeping E w sw → ∃ E', sweeping E' (collect now w).1 (collect now w).2.
Proof.
  intros Hno [Hok Hac Htd Hnd Hold Hmo]. rewrite Hno in Htd. assert (E = ∅) as -> by (apply elem_of_equiv_empty_L; set_solver).
  exists (list_to_set (sw_todo (collect now w).2)). pose proof (drop_expired_ok w (session_expired now) Hok) as Hok'.
  split; [exact Hok'|by apply server_accounts|set_solver| | |set_solver].
  - apply NoDup_filter. eapply sessions_nodup, wo_roster, Hok.
  - intros s Hs. apply (aw_session _ _ (ro_away _ _ (wo_roster _ _ Hok')) s). left. by apply elem_of_list_to_set.
Qed.

(** Moves of the machine that give nobody the identifier leave it free. *)
Lemma fresh_plays i E E' who w w' :
  roster_ok E w → roster_ok E' w' → tame i w w' → plays who w w' → fresh_id i w → fresh_id i w'.
Proof.
  intros Hro Hro' Ht Hp. rewrite (fresh_unseated E), (fresh_unseated E') by done. intros (F1 & F2 & F3).
  split_and!; [done| |].
  - intros d Hd Hid. destruct (tm_ids _ _ _ Ht d Hd Hid) as [? ?]. by apply (F2 d).
  - intros code Hs. apply (F3 code). apply has_seat_view in Hs. apply has_seat_view. by eapply moves_seats.
Qed.

Lemma tame_expire_one i now w s : tame i w (expire_one now w s).
Proof.
  unfold expire_one, expireSession. destruct (rooms (w_srv w) !! _); [|done]. cbv zeta.
  destruct (DisconnectedUsers _ !! _); [|done]. case_decide; [apply tame_deleteRoomIfEmpty|apply tame_announce; [done|]]; [|tame].
  destruct (bool_decide _); tame.
Qed.

Lemma sweep_visit E now w s todo :
  sweeping E w (mkSweep now (s :: todo)) → ∃ E', sweeping E' (expire_one now w s) (mkSweep now todo).
Proof.
  intros [Hok Hac Htd Hnd Hold Hmo]. cbn in *. apply NoDup_cons in Hnd as [Hnin Hnd]. pose proof (wo_roster _ _ Hok) as Hro.
  destruct (decide (s ∈ E)) as [HsE|HsE].
  - destruct (aw_session _ _ (ro_away _ _ Hro) s) as (_ & r & x & Hr & Hd); [by left|].
    destruct (registered_code _ _ Hro _ _ Hr) as [Hreg Hcode]. pose proof (tame_expire_one) as Htm.
    assert (expire_one now w s = expireSession r s (bool_decide (past_retention now (w_srv w))) w) as Heq
      by (unfold expire_one; by rewrite Hr).
    assert (world_ok (E ∖ {[s]}) (expire_one now w s)) as Hok'.
    { rewrite Heq. eapply (expireSession_ok E (E ∖ {[s]})); [done|done|done|done|done|]. set_solver. }
    assert (plays Clock w (expire_one now w s)) as Hp by (rewrite Heq; by eapply plays_expireSession).
    exists (E ∖ {[s]}). split; cbn; try done.
    + eapply steady_accounts; [by apply steady_expire_one|done].
    + intros y Hy. specialize (Htd y). set_solver.
    + intros y Hy. pose proof (tm_next _ _ _ (Htm "" now w s)). specialize (Hold y). set_solver by lia.
    + intros y Hy HyE. assert (y ≠ s) by (intros ->; done).
      pose proof (tm_sessions _ _ _ (Htm "" now w s) y ltac:(apply Hold; set_solver)) as Hcl. injection Hcl as -> _ _.
      assert (fresh_id (se_UserID (getSession y w)) w) as Hf by (apply Hmo; set_solver).
      eapply fresh_plays; [exact Hro|apply Hok'|apply Htm|exact Hp|exact Hf].
  - assert (expire_one now w s = w) as ->.
    { unfold expire_one. destruct (rooms (w_srv w) !! _) as [r|] eqn:Hr; [|done].
      destruct (registered_code _ _ Hro _ _ Hr) as [Hreg _]. unfold expireSession.
      rewrite (fi_away _ _ (Hmo s ltac:(set_solver) HsE) r Hreg). done. }
    exists E. split; cbn; try done; intros y Hy; [|apply Hold; set_solver|apply Hmo; set_solver].
    specialize (Htd y Hy). set_solver.
Qed.

(** A round that nothing interrupts is [cleanupExpiredSessionsOnce], so the
    process of [step] is among these. *)
Lemma round_interleaved now w sw :
  sw_todo sw = [] → rtc interleaved (w, sw) (cleanupExpiredSessionsOnce now w, mkSweep now []).
Proof.
  intros Hno. eapply rtc_l; [by apply (il_collect now)|]. unfold collect, cleanupExpiredSessionsOnce. cbv zeta.
  generalize (dropSessions (session_expired now) w). intros W. generalize (filter (λ s, session_expired now (getSession s w))
    ((map_to_list (sessions (w_srv w))).*2)). intros l. revert W. induction l as [|s l IH]; intros W; [done|].
  eapply rtc_l; [apply il_visit|]. apply IH.
Qed.
Lemma steps_interleaved w w' sw :
  rtc step w w' → sw_todo sw = [] → ∃ sw', sw_todo sw' = [] ∧ rtc interleaved (w, sw) (w', sw').
Proof.
  intros Hr. revert sw. induction Hr as [w|w1 w2 w3 Hs _ IH]; intros sw Hno; [by exists sw|]. destruct Hs as [w1 w2 He|now w1].
  - destruct (IH sw Hno) as (sw' & ? & ?). exists sw'. split; [done|]. eapply rtc_l; [|done]. apply il_event.
    unfold pending_ids. by rewrite Hno.
  - destruct (IH (mkSweep now []) eq_refl) as (sw' & ? & ?). exists sw'. split; [done|]. etrans; [by apply round_interleaved|done].
Qed.

Definition idle : Sweep := mkSweep 0 [].

Lemma interleaved_sweeping now p : rtc interleaved (start now, idle) p → ∃ E, sweeping E p.1 p.2.
Proof.
  revert p. apply (rtc_ind_r (λ p, ∃ E, sweeping E p.1 p.2)).
  - destruct (start_invariant now) as [Hok Hac]. exists ∅.
    split; cbn; [done|done|by intros s ?%elem_of_empty|constructor|by intros s ?%elem_of_nil|by intros s ?%elem_of_nil].
  - intros p q _ [w w' sw He|now' w sw Hno|now' w s todo] [E Hs]; cbn in *;
      [by eapply sweep_event|by eapply sweep_collect|by eapply sweep_visit].
Qed.

(** C25: a round of expiry may be interrupted between taking the tokens and any of
    its visits, by anything the server does: at every moment each room is in
    order, a reserved seat has a token or its session is still to be visited, no
    token leads to a session that is to be visited and each leads to a reserved
    seat; between rounds the whole invariant holds. *)
Theorem interleaved_expiry now w sw :
  rtc interleaved (start now, idle) (w, sw) →
  (sw_todo sw = [] → invariant w) ∧
  (∀ code r, rooms (w_srv w) !! code = Some r → room_ok (may_host w) (was_host w) (getRoom r w)) ∧
  (∀ code r id x, rooms (w_srv w) !! code = Some r → DisconnectedUsers (getRoom r w) !! id = Some x →
    ∃ s, se_UserID (getSession s w) = id ∧ se_RoomCode (getSession s w) = code ∧
      (s ∈ sw_todo sw ∨ ∃ t, sessions (w_srv w) !! t = Some s)) ∧
  (∀ t s, sessions (w_srv w) !! t = Some s →
    s ∉ sw_todo sw ∧ ∃ r, rooms (w_srv w) !! se_RoomCode (getSession s w) = Some r ∧
      is_Some (DisconnectedUsers (getRoom r w) !! se_UserID (getSession s w))).
Proof.
  intros Hr. destruct (interleaved_sweeping now _ Hr) as [E [Hok Hac Htd Hnd Hold Hmo]]. cbn [fst snd] in *.
  pose proof (wo_roster _ _ Hok) as Hro. split_and!.
  - intros Hno. rewrite Hno in Htd. assert (E = ∅) as -> by (apply elem_of_equiv_empty_L; set_solver). by split.
  - intros code r [Hreg _]%(registered_code _ _ Hro). by apply (wo_rooms _ _ Hok).
  - intros code r id x Hrm Hx. destruct (registered_code _ _ Hro _ _ Hrm) as [Hreg Hcode].
    destruct (aw_entry _ _ (ro_away _ _ Hro) _ _ _ Hreg Hx) as (Hu & Hc & _ & s & Hi & Hcl). injection Hcl as Hsu Hsc _.
    exists s. split_and!; [congruence|congruence|]. destruct Hi as [?|?]; [left; auto|by right].
  - intros t s Ht. split.
    + intros Hs. destruct (decide (s ∈ E)) as [HsE|HsE].
      * by destruct (aw_token _ _ (ro_away _ _ Hro) t t s Ht Ht) as (_ & ? & _).
      * by apply (fr_token _ _ (fresh_free E _ _ Hro (Hmo s Hs HsE)) t s Ht).
    + destruct (aw_session _ _ (ro_away _ _ Hro) s) as (_ & r & x & Hrm & Hx); [right; eauto|]. exists r. split; [done|by eexists].
Qed.
End Worker.
