(* ===== verification/Revived.v ===== *)
(** Revived: a server restored from a database is in order.

    The rooms [LoadState] rebuilds satisfy every part of the invariant of
    [Safety], although a reserved seat and its token now refer to different
    session objects. *)

From S2P Require Import Prelude Protocol Utf8 Validation UAPolicy World Client Roster Hosts Playback Limits Members Rooms Lifecycle RoomOk Safety Server Steady Reachable Store Persistence Flush Restart.

(** ** Facts about the server that was stored *)

Section Stored.
Context (w : World) (Hok : world_ok ∅ w).
Let Hro : roster_ok ∅ w := wo_roster ∅ w Hok.

(** A member belongs to one room. *)
Lemma member_one id r r' :
  registered r w → registered r' w → is_member id (getRoom r w) → is_member id (getRoom r' w) → r = r'.
Proof.
  intros Hr Hr'.
  assert (∀ x y c, registered x w → registered y w → Clients (getRoom x w) !! id = Some c →
    is_Some (DisconnectedUsers (getRoom y w) !! id) → False) as Hmix.
  { intros x y c Hx Hy Hc [s Hs]. destruct (ro_seat _ _ Hro _ _ _ Hx Hc) as [<- Hcr].
    pose proof (away_free _ _ Hro c y Hy (seated_holder _ _ _ Hcr)). congruence. }
  intros [[c Hc]|Ha] [[c' Hc']|Ha'].
  - destruct (ro_seat _ _ Hro _ _ _ Hr Hc) as [Hi Hcr], (ro_seat _ _ Hro _ _ _ Hr' Hc') as [Hi' Hcr'].
    assert (c = c') as ->; [|congruence].
    apply (ro_id_one _ _ Hro); [by eapply seated_holder|by eapply seated_holder|congruence].
  - by destruct (Hmix r r' c).
  - by destruct (Hmix r' r c').
  - destruct Ha as [s Hs], Ha' as [s' Hs']. by apply (aw_one _ _ (ro_away _ _ Hro) _ _ _ _ _ Hr Hr' Hs Hs').
Qed.

(** A seat is reached by one token. *)
Lemma token_unique t t' id code : token_seat w t id code → token_seat w t' id code → t = t'.
Proof.
  assert (∀ s r c, sessions (w_srv w) !! t = Some s ∨ sessions (w_srv w) !! t' = Some s →
    rooms (w_srv w) !! se_RoomCode (getSession s w) = Some r →
    Clients (getRoom r w) !! se_UserID (getSession s w) = Some c → False) as Hmix.
  { intros s r c Hs Hr Hc. assert (indexed ∅ s w) as Hi by (destruct Hs; right; eauto).
    destruct (aw_session _ _ (ro_away _ _ Hro) s Hi) as (_ & r' & x & Hr' & Hd). rewrite Hr in Hr'. injection Hr' as <-.
    destruct (registered_code _ _ Hro _ _ Hr) as [Hreg _].
    pose proof (mb_apart _ (rk_members _ _ _ (wo_rooms _ _ Hok r Hreg)) _ _ Hc). congruence. }
  intros [s Hs <- <-|r c Hr Hc Ht] [s' Hs' Hu Hc'|r' c' Hr' Hc' Ht'].
  - assert (s = s') as -> by (apply (aw_seat _ _ (ro_away _ _ Hro)); [right; eauto|right; eauto|done|done]).
    by destruct (aw_token _ _ (ro_away _ _ Hro) _ _ _ Hs Hs').
  - by destruct (Hmix s r' c'); auto.
  - subst id code. by destruct (Hmix s' r c); auto.
  - rewrite Hr in Hr'. injection Hr' as <-. congruence.
Qed.

(** A seat of a record, and the token that leads to it. *)
Lemma record_seat_token code r id sess :
  rooms (w_srv w) !! code = Some r → pr_DisconnectedUsers (rr_Room (record_of r w)) !! id = Some sess →
  se_UserID sess = id ∧ se_RoomCode sess = code ∧
  ∃ p, p ∈ rr_Sessions (record_of r w) ∧ pse_UserID p = id ∧ pse_RoomCode p = code ∧ pse_IsHost p = se_IsHost sess.
Proof.
  intros Hr. destruct (registered_code _ _ Hro _ _ Hr) as [Hreg Hcode]. rewrite (record_seats w r id Hreg).
  destruct (Clients (getRoom r w) !! id) as [c|] eqn:Hc.
  - intros [= <-]. cbn. split_and!; [done|done|]. exists (seated_entry w r id c). split_and!; try done.
    apply (record_sessions w Hok _ _ _ Hr). right. eauto.
  - intros (s & Hs & ->)%fmap_Some.
    destruct (aw_entry _ _ (ro_away _ _ Hro) _ _ _ Hreg Hs) as (Hu & Hk & _ & x & [?%elem_of_empty|[t Ht]] & Hx); [done|].
    injection Hx as Hxu Hxc Hxh. split_and!; [done|congruence|]. exists (away_entry w x t). cbn.
    split_and!; [|congruence|congruence|done]. apply (record_sessions w Hok _ _ _ Hr). left. exists t, x.
    split_and!; [done|congruence|done].
Qed.

Lemma record_token_member code r p :
  rooms (w_srv w) !! code = Some r → p ∈ rr_Sessions (record_of r w) →
  is_Some (pr_DisconnectedUsers (rr_Room (record_of r w)) !! pse_UserID p).
Proof.
  intros Hr Hp. destruct (registered_code _ _ Hro _ _ Hr) as [Hreg Hcode]. rewrite (record_seats w r _ Hreg).
  apply (record_sessions w Hok _ _ _ Hr) in Hp as [(t & s & Hs & Hk & ->)|(id & c & Hc & ->)]; cbn; [|by rewrite Hc].
  destruct (aw_session _ _ (ro_away _ _ Hro) s) as (_ & r' & x & Hr' & Hd); [right; eauto|].
  rewrite Hk, Hr in Hr'. injection Hr' as <-. destruct (Clients _ !! _); [done|]. rewrite Hd. by eexists.
Qed.

End Stored.

(** ** The server that was restored *)

Section Revived.
Context `{Json, !JsonLaws}.
Context (e : Env) (since : Time → Time) (offline : Duration) (records : gmap string string) (w w0 w1 : World).
Hypotheses (Hok : world_ok ∅ w) (Henc : encodes records w) (Hutf : utf8_rooms w).
Hypotheses (Hr0 : rooms (w_srv w0) = ∅) (Hs0 : sessions (w_srv w0) = ∅) (Hc0 : w_clients w0 = ∅).
Hypothesis Hall : all_restored e since offline (stored_record w <$> map_to_list records) w0 w1.
Let Hro : roster_ok ∅ w := wo_roster ∅ w Hok.

(** [r2] of the new server stands for [r] of the old one. *)
Definition stands_for (r2 r : RoomRef) : Prop :=
  registered r w ∧ (r2 < w_next w1)%nat ∧ Code (getRoom r2 w1) = Code (getRoom r w) ∧
  room_restored e since offline (rr_Room (json_view (record_of r w))) (disconnect_all (State (getRoom r w)))
    (getRoom r2 w1) w1.

Lemma room_back code r2 :
  rooms (w_srv w1) !! code = Some r2 → ∃ r, rooms (w_srv w) !! code = Some r ∧ stands_for r2 r.
Proof.
  intros Hr2. destruct (restored_only _ _ _ _ _ _ _ Hok Henc Hutf Hr0 Hall _ _ Hr2) as [r Hr]. exists r.
  split; [done|]. destruct (registered_code _ _ Hro _ _ Hr) as [Hreg Hcode].
  assert (is_Some (records !! code)) as [data Hd]
    by (apply elem_of_dom; rewrite (proj1 Henc); apply elem_of_dom; eauto).
  apply elem_of_map_to_list in Hd. destruct (stored_room records w Henc Hutf _ Hd) as (r' & Hr' & Heq & _).
  cbn in Hr'. rewrite Hr in Hr'. injection Hr' as <-. destruct (record_restorable w Hok _ _ Hr) as [_ Hrc].
  destruct (ar_room _ _ _ _ _ _ Hall (stored_record w (code, data)) (disconnect_all (State (getRoom r w))))
    as (r3 & Hr3 & Hlt & Hrr); [by apply list_elem_of_fmap_2|by rewrite Heq|].
  rewrite Heq in Hr3, Hrr. rewrite Hrc, Hr2 in Hr3. injection Hr3 as <-.
  split_and!; [done|done|by apply (rd_code _ _ _ _ _ _ _ Hrr)|done].
Qed.

Lemma registered_back r2 : registered r2 w1 → ∃ r, stands_for r2 r ∧ rooms (w_srv w) !! Code (getRoom r2 w1) = Some r.
Proof. intros Hr2. destruct (room_back _ _ Hr2) as (r & Hr & Hst). eauto. Qed.

Lemma token_back t s :
  sessions (w_srv w1) !! t = Some s → ∃ code r p, rooms (w_srv w) !! code = Some r ∧
    p ∈ rr_Sessions (record_of r w) ∧ pse_Token p = t ∧ (s < w_next w1)%nat ∧ getSession s w1 = restored_session since p.
Proof.
  intros Hs. destruct (decide (t ∈ pse_Token <$> all_tokens (stored_record w <$> map_to_list records)))
    as [(p & -> & Hin)%list_elem_of_fmap|Hn]; [|by rewrite (ar_none _ _ _ _ _ _ Hall), Hs0 in Hs].
  destruct (ar_token _ _ _ _ _ _ Hall _ Hin) as (s' & Hs' & Hlt & Hg). rewrite Hs in Hs'. injection Hs' as <-.
  unfold all_tokens in Hin. apply list_elem_of_join in Hin as (l & Hp & (record & -> & (entry & -> & Hin)%list_elem_of_fmap)%list_elem_of_fmap).
  destruct (stored_room records w Henc Hutf _ Hin) as (r & Hr & Heq & _). rewrite Heq in Hp. by exists entry.1, r, p.
Qed.

Lemma token_forth code r p :
  rooms (w_srv w) !! code = Some r → p ∈ rr_Sessions (record_of r w) →
  ∃ s, sessions (w_srv w1) !! pse_Token p = Some s ∧ (s < w_next w1)%nat ∧ getSession s w1 = restored_session since p.
Proof.
  intros Hr Hp. assert (is_Some (records !! code)) as [data Hd]
    by (apply elem_of_dom; rewrite (proj1 Henc); apply elem_of_dom; eauto).
  apply (ar_token _ _ _ _ _ _ Hall). unfold all_tokens. apply list_elem_of_join.
  exists (rr_Sessions (record_of r w)). split; [done|]. apply list_elem_of_fmap.
  exists (stored_record w (code, data)). unfold stored_record at 1. cbn. rewrite Hr.
  split; [done|]. by apply list_elem_of_fmap_2, elem_of_map_to_list.
Qed.

(** The seats of the restored room. *)
Lemma seat_back r2 r id s :
  stands_for r2 r → DisconnectedUsers (getRoom r2 w1) !! id = Some s →
  ∃ sess, pr_DisconnectedUsers (rr_Room (record_of r w)) !! id = Some sess ∧ (s < w_next w1)%nat ∧
    claim_of (getSession s w1) = claim_of sess.
Proof.
  intros (_ & _ & _ & Hrr) Hs.
  assert (id ∈ dom (pr_DisconnectedUsers (rr_Room (json_view (record_of r w))))) as [sess Hsess]%elem_of_dom
    by (rewrite <- (rd_dom _ _ _ _ _ _ _ Hrr); apply elem_of_dom; eauto).
  destruct (rd_seat _ _ _ _ _ _ _ Hrr _ _ Hsess) as (s' & Hs' & Hlt & Hg). rewrite Hs in Hs'. injection Hs' as <-.
  change ((unclaimed <$> pr_DisconnectedUsers (rr_Room (record_of r w))) !! id = Some sess) in Hsess.
  rewrite lookup_fmap in Hsess. apply fmap_Some in Hsess as (sess0 & Hx & ->). exists sess0.
  split_and!; [done|done|]. by rewrite Hg.
Qed.
Lemma seat_forth r2 r id sess :
  stands_for r2 r → pr_DisconnectedUsers (rr_Room (record_of r w)) !! id = Some sess →
  ∃ s, DisconnectedUsers (getRoom r2 w1) !! id = Some s ∧ claim_of (getSession s w1) = claim_of sess.
Proof.
  intros (_ & _ & _ & Hrr) Hs. destruct (rd_seat _ _ _ _ _ _ _ Hrr id (unclaimed sess)) as (s & Hd & _ & Hg).
  - change ((unclaimed <$> pr_DisconnectedUsers (rr_Room (record_of r w))) !! id = Some (unclaimed sess)).
    by rewrite lookup_fmap, Hs.
  - exists s. split; [done|]. by rewrite Hg.
Qed.

Lemma seats_are_members r2 r id :
  stands_for r2 r → is_Some (DisconnectedUsers (getRoom r2 w1) !! id) ↔ is_member id (getRoom r w).
Proof.
  intros (Hreg & _ & _ & Hrr). apply (sr_members _ _ _ (restored_same_room _ _ _ _ _ _ _ Hok Hreg Hrr)).
Qed.

Lemma nobody_connected c : getClient c w1 = zero_client.
Proof. unfold getClient. by rewrite (kp_clients _ _ (ar_keeps _ _ _ _ _ _ Hall)), Hc0. Qed.

Lemma revived_away : away_ok ∅ w1.
Proof.
  split.
  - intros r2 id s Hr2 Hd. destruct (registered_back _ Hr2) as (r & Hst & Hr).
    destruct (seat_back _ _ _ _ Hst Hd) as (sess & Hsess & Hlt & Hcl).
    destruct (record_seat_token w Hok _ _ _ _ Hr Hsess) as (Hu & Hc & p & Hp & Hpu & Hpc & Hph).
    destruct (token_forth _ _ _ Hr Hp) as (x & Hx & _ & Hgx). injection Hcl as Hcu Hcc Hch.
    split_and!; [congruence|congruence|done|]. exists x. split; [right; eauto|]. rewrite Hgx. unfold claim_of. cbn.
    congruence.
  - intros s [?%elem_of_empty|[t Ht]]; [done|]. destruct (token_back _ _ Ht) as (code & r & p & Hr & Hp & _ & Hlt & Hg).
    split; [done|]. destruct (record_token_member w Hok _ _ _ Hr Hp) as [sess Hsess].
    destruct (record_token_seat w Hok _ _ _ Hr Hp) as (_ & Hk & _).
    destruct (restored_room _ _ _ _ _ _ _ Hok Henc Hutf Hall _ _ Hr) as (r2 & Hr2 & _).
    destruct (room_back _ _ Hr2) as (r' & Hr' & Hst). rewrite Hr in Hr'. injection Hr' as <-.
    destruct (seat_forth _ _ _ _ Hst Hsess) as (x & Hx & _). exists r2, x. rewrite Hg. cbn. by rewrite Hk.
  - intros t t' s Ht Ht'. destruct (token_back _ _ Ht) as (code & r & p & Hr & Hp & <- & _ & Hg).
    destruct (token_back _ _ Ht') as (code' & r' & p' & Hr' & Hp' & <- & _ & Hg').
    destruct (record_token_seat w Hok _ _ _ Hr Hp) as (Hs & _ & Hn), (record_token_seat w Hok _ _ _ Hr' Hp') as (Hs' & _ & _).
    rewrite Hg in Hg'. injection Hg' as Hu _ Hc _ _. split_and!; [|set_solver|done].
    rewrite <- Hu, <- Hc in Hs'. by eapply (token_unique w Hok).
  - intros s s' [?%elem_of_empty|[t Ht]] [?%elem_of_empty|[t' Ht']] Hu Hc; [done..|].
    destruct (token_back _ _ Ht) as (code & r & p & Hr & Hp & Hpt & _ & Hg).
    destruct (token_back _ _ Ht') as (code' & r' & p' & Hr' & Hp' & Hpt' & _ & Hg').
    destruct (record_token_seat w Hok _ _ _ Hr Hp) as (Hs & _ & _), (record_token_seat w Hok _ _ _ Hr' Hp') as (Hs' & _ & _).
    rewrite Hg, Hg' in Hu, Hc. cbn in Hu, Hc. rewrite <- Hu, <- Hc, Hpt' in Hs'. rewrite Hpt in Hs.
    assert (t = t') as -> by by eapply (token_unique w Hok). congruence.
  - intros r2 r2' id s s' Hr2 Hr2' Hd Hd'. destruct (registered_back _ Hr2) as (r & Hst & Hr), (registered_back _ Hr2') as (r' & Hst' & Hr').
    assert (r = r') as <-.
    { apply (member_one w Hok id); [apply Hst|apply Hst'|..].
      - apply (seats_are_members _ _ _ Hst). eauto.
      - apply (seats_are_members _ _ _ Hst'). eauto. }
    unfold registered in Hr2, Hr2'. destruct Hst as (_ & _ & Hk & _), Hst' as (_ & _ & Hk' & _). congruence.
  - intros r2 id s Hr2 Hd ->. destruct (registered_back _ Hr2) as (r & Hst & Hr).
    pose proof Hst as (Hreg & _). pose proof (rk_members _ _ _ (wo_rooms _ _ Hok r Hreg)) as Hm.
    apply (mb_named _ Hm), (mb_users _ Hm), (seats_are_members _ _ _ Hst). eauto.
Qed.

Lemma revived_roster : roster_ok ∅ w1.
Proof.
  assert (∀ c, currentRoom c w1 = None) as Hcr by (intros c; unfold currentRoom; by rewrite nobody_connected).
  assert (∀ c, currentPendingRoom c w1 = None) as Hpr by (intros c; unfold currentPendingRoom; by rewrite nobody_connected).
  assert (∀ c, ¬ holder c w1) as Hh.
  { intros c. unfold holder. rewrite Hcr, Hpr, nobody_connected. intros [?|[[? ?]|[? ?]]]; done. }
  assert (∀ r2, registered r2 w1 → Clients (getRoom r2 w1) = ∅ ∧ PendingJoins (getRoom r2 w1) = ∅) as Hempty.
  { intros r2 Hr2. destruct (registered_back _ Hr2) as (r & (_ & _ & _ & Hrr) & _).
    by destruct (rd_nobody _ _ _ _ _ _ _ Hrr) as (_ & ? & ? & _). }
  split; intros *; rewrite ?Hcr, ?Hpr; try done; try (by intros ?%Hh).
  - intros Hr2. destruct (room_back _ _ Hr2) as (r1 & Hr & _ & Hlt & Hk & _). split; [|done].
    rewrite Hk. by apply (registered_code _ _ Hro).
  - intros Hr2. destruct (Hempty _ Hr2) as [-> _]. by rewrite lookup_empty.
  - intros Hr2. destruct (Hempty _ Hr2) as [_ ->]. by rewrite lookup_empty.
  - exact revived_away.
Qed.

(** *** One restored room *)

Lemma restored_state_fields nowMs st :
  let st' := restored_state nowMs (disconnect_all st) in
  rs_RoomCode st' = rs_RoomCode st ∧ rs_HostID st' = rs_HostID st ∧ rs_Volume st' = rs_Volume st ∧
  rs_CurrentTrack st' = rs_CurrentTrack st ∧ rs_Queue st' = sanitizeQueue (rs_Queue st) ∧
  rs_Users st' = (λ u, u <| ui_IsConnected := false |>) <$> rs_Users st ∧
  (rs_Position st' = rs_Position st ∨ ∃ t, rs_CurrentTrack st = Some t ∧ rs_Position st' = ti_Duration t).
Proof.
  intros st'. unfold st', restored_state. rewrite disconnect_all_idemp. unfold park. cbn.
  destruct (rs_CurrentTrack st) as [t|] eqn:Ht; [|by split_and!; auto]. case_decide; cbn; split_and!; eauto.
Qed.

Lemma stored_queue_utf8 r : registered r w → Forall track_utf8 (rs_Queue (State (getRoom r w))).
Proof.
  intros Hreg. specialize (Hutf _ _ Hreg). apply Forall_forall. intros t Ht. rewrite Forall_forall in Hutf.
  apply Forall_forall. intros x Hx. apply Hutf. unfold record_strings. apply elem_of_app. right. apply elem_of_app. left.
  apply list_elem_of_join. exists (state_strings (disconnect_all (State (getRoom r w)))). split; [|by left].
  unfold state_strings. do 3 right. apply elem_of_app. right. apply list_elem_of_join. exists (track_strings t).
  split; [exact Hx|]. apply list_elem_of_fmap_2, elem_of_app. right. exact Ht.
Qed.

Lemma revived_state r : registered r w → state_ok (restored_state (e_nowMs e) (disconnect_all (State (getRoom r w)))).
Proof.
  intros Hreg. destruct (rk_state _ _ _ (wo_rooms _ _ Hok r Hreg)) as [Hp Hn Hb Hq Ht Hv].
  destruct (restored_state_fields (e_nowMs e) (State (getRoom r w))) as (_ & _ & Fv & Ft & Fq & _ & Fp).
  destruct (sanitizeQueue_ok (rs_Queue (State (getRoom r w)))) as [Hn' Hq'].
  pose proof (sanitize_queue_shrinks 0 _ Hq (stored_queue_utf8 r Hreg)) as Hb'. split.
  - destruct Fp as [->|(t & Htt & ->)]; [done|]. rewrite Htt in Ht. apply Forall_singleton in Ht as [_ ? _]. done.
  - by rewrite Fq.
  - rewrite Fq. unfold sanitizeQueue. lia.
  - by rewrite Fq.
  - by rewrite Ft.
  - by rewrite Fv.
Qed.

Section OneRoom.
Context (r2 r : RoomRef) (Hst : stands_for r2 r).

Let Hreg : registered r w := proj1 Hst.
Let Hrr := proj2 (proj2 (proj2 Hst)).
Let Hrk : room_ok (may_host w) (was_host w) (getRoom r w) := wo_rooms ∅ w Hok r Hreg.

Lemma revived_ids : user_ids (getRoom r2 w1) = user_ids (getRoom r w).
Proof.
  unfold user_ids. rewrite (rd_state _ _ _ _ _ _ _ Hrr).
  destruct (restored_state_fields (e_nowMs e) (State (getRoom r w))) as (_ & _ & _ & _ & _ & -> & _).
  rewrite <- list_fmap_compose. by apply list_fmap_ext.
Qed.

Lemma revived_size : map_len (DisconnectedUsers (getRoom r2 w1)) ≤ roomMembersLocked (getRoom r w).
Proof.
  unfold map_len, roomMembersLocked. rewrite <- !size_dom.
  assert (dom (DisconnectedUsers (getRoom r2 w1)) =
    dom (Clients (getRoom r w)) ∪ dom (DisconnectedUsers (getRoom r w))) as ->.
  { apply set_eq. intros id. rewrite elem_of_union, !elem_of_dom. apply (seats_are_members _ _ _ Hst). }
  rewrite size_union_alt.
  pose proof (subseteq_size (dom (DisconnectedUsers (getRoom r w)) ∖ dom (Clients (getRoom r w)))
    (dom (DisconnectedUsers (getRoom r w))) ltac:(set_solver)). unfold map_len. rewrite <- !size_dom. lia.
Qed.

Lemma revived_members : members_ok (getRoom r2 w1).
Proof.
  destruct (rk_members _ _ _ Hrk) as [Hnd Hus _ _ Hnm Hbd].
  destruct (rd_nobody _ _ _ _ _ _ _ Hrr) as (_ & Hcl & _). split.
  - by rewrite revived_ids.
  - intros id. rewrite revived_ids, Hus, <- (seats_are_members _ _ _ Hst). unfold is_member. rewrite Hcl, lookup_empty.
    split; [by right|]. by intros [[? ?]|?].
  - intros id c. by rewrite Hcl, lookup_empty.
  - intros u Hu. rewrite Hcl, lookup_empty. rewrite (rd_state _ _ _ _ _ _ _ Hrr) in Hu.
    destruct (restored_state_fields (e_nowMs e) (State (getRoom r w))) as (_ & _ & _ & _ & _ & Fu & _).
    rewrite Fu in Hu. apply list_elem_of_fmap in Hu as (u0 & -> & _). symmetry. apply bool_decide_eq_false.
    by intros [? ?].
  - by rewrite revived_ids.
  - pose proof revived_size as Hs. unfold roomMembersLocked at 1. rewrite Hcl.
    change (map_len (∅ : gmap string ClientRef)) with 0. unfold map_len in *. lia.
Qed.

(** A seat that was the host's, or was kept for the owner, still says so. *)
Lemma revived_hosted id s :
  DisconnectedUsers (getRoom r w) !! id = Some s → was_host w s →
  ∃ s2, DisconnectedUsers (getRoom r2 w1) !! id = Some s2 ∧ was_host w1 s2.
Proof.
  intros Hs Hh. assert (Clients (getRoom r w) !! id = None) as Hnc.
  { destruct (Clients (getRoom r w) !! id) eqn:Hc; [|done]. pose proof (mb_apart _ (rk_members _ _ _ Hrk) _ _ Hc). congruence. }
  destruct (seat_forth _ _ id (getSession s w) Hst) as (s2 & Hs2 & Hcl); [by rewrite (record_seats w r id Hreg), Hnc, Hs|].
  exists s2. split; [done|]. injection Hcl as _ _ Hch. unfold was_host in *. congruence.
Qed.

Lemma revived_host_seat : host_seat_ok (may_host w1) (was_host w1) (getRoom r2 w1).
Proof.
  unfold host_seat_ok. destruct (rd_nobody _ _ _ _ _ _ _ Hrr) as (-> & _).
  rewrite (rd_host _ _ _ _ _ _ _ Hrr), (rd_state _ _ _ _ _ _ _ Hrr).
  destruct (restored_state_fields (e_nowMs e) (State (getRoom r w))) as (_ & -> & _).
  pose proof (ho_seat _ _ _ (rk_host _ _ _ Hrk)) as Hseat. unfold host_seat_ok in Hseat.
  change (pr_HostDisconnectedAt (rr_Room (json_view (record_of r w)))) with (HostDisconnectedAt (getRoom r w)).
  change (pr_HostID (rr_Room (json_view (record_of r w)))) with (rs_HostID (State (getRoom r w))).
  change (pr_DisconnectedUsers (rr_Room (json_view (record_of r w)))) with
    (unclaimed <$> pr_DisconnectedUsers (rr_Room (record_of r w))).
  destruct (HostDisconnectedAt (getRoom r w)) as [t|].
  - destruct (Host (getRoom r w)); [done|]. destruct Hseat as (s & Hs & Hh). by apply (revived_hosted _ s).
  - case_decide as Hn; [done|]. destruct (Host (getRoom r w)) as [h|]; [|done]. destruct Hseat as [Hs _].
    pose proof (record_seats w r (rs_HostID (State (getRoom r w))) Hreg) as Hrec. rewrite Hs in Hrec.
    rewrite lookup_fmap, Hrec. cbn. destruct (seat_forth _ _ _ _ Hst Hrec) as (s2 & Hs2 & Hcl). exists s2.
    split; [done|]. injection Hcl as _ _ Hch. unfold was_host. rewrite Hch. by apply bool_decide_eq_true.
Qed.

Lemma revived_extras : extras_ok (getRoom r2 w1).
Proof.
  destruct (rk_extras _ _ _ Hrk) as [Hj Hs Hm Hau Hn].
  pose proof (restored_same_room _ _ _ _ _ _ _ Hok Hreg Hrr) as Hsame. pose proof (sr_suggestions _ _ _ Hsame) as Hsg.
  destruct (rd_nobody _ _ _ _ _ _ _ Hrr) as (_ & _ & Hpj & Hpn). split.
  - rewrite Hpj. by vm_compute.
  - by rewrite Hsg.
  - intros id. unfold suggestions_of. rewrite Hsg. apply Hm.
  - intros k sg. rewrite Hsg. intros Hk. destruct (Hau _ _ Hk) as (Hmem & ? & ?). split_and!; [|done|done].
    right. by apply (seats_are_members _ _ _ Hst).
  - intros id ns. by rewrite Hpn, lookup_empty.
Qed.

Lemma revived_room : room_ok (may_host w1) (was_host w1) (getRoom r2 w1).
Proof.
  destruct (restored_state_fields (e_nowMs e) (State (getRoom r w))) as (Fc & Fh & _ & _ & _ & Fu & _). split.
  - rewrite (rd_state _ _ _ _ _ _ _ Hrr), Fc, (rk_code _ _ _ Hrk). symmetry. apply Hst.
  - exact revived_members.
  - split; [exact revived_host_seat|]. intros u. rewrite (rd_state _ _ _ _ _ _ _ Hrr), Fu, Fh.
    intros (u0 & -> & Hu0)%list_elem_of_fmap. cbn. apply (ho_flags _ _ _ (rk_host _ _ _ Hrk) _ Hu0).
  - unfold owner_ok. rewrite (rd_owner _ _ _ _ _ _ _ Hrr).
    destruct (rk_owner _ _ _ Hrk) as [Ho|(s & Hs & Hh)]; [by left|]. right. by apply (revived_hosted _ s).
  - exact revived_extras.
  - rewrite (rd_state _ _ _ _ _ _ _ Hrr). by apply revived_state.
Qed.

End OneRoom.

Lemma revived_ok : world_ok ∅ w1.
Proof.
  split; [exact revived_roster|].
  intros r2 Hr2. destruct (registered_back _ Hr2) as (r & Hst & _). by eapply revived_room.
Qed.

Lemma revived_accounts : accounts_ok w0 → accounts_ok w1.
Proof.
  apply steady_accounts. destruct (ar_keeps _ _ _ _ _ _ Hall) as [Hn Hc Hg _ _]. split; [|done|done].
  intros c. unfold getClient. by rewrite Hc.
Qed.

End Revived.
