(* ===== verification/Lifetime.v ===== *)
(** Lifetime: a server across flushes, crashes and restarts.

    [step] of [Reachable] is one process.  A deployment is a sequence of
    processes that share a database: at any moment the state may be flushed, a
    handshake may be counted, or the process may end, by a crash or a shutdown,
    and a new one boots from the database.  [lived] collects the states of such
    a deployment; the invariant of the server holds in all of them. *)

From S2P Require Import Prelude Protocol Utf8 Validation UAPolicy World Client Pumps Roster Hosts Playback Limits Members Rooms Lifecycle RoomOk Safety Preserve PreserveRooms PreserveLife Server Steady Reachable Store UserAgents Persistence Flush Restart Texts Revived.

(** ** What one process keeps *)

Section Process.
Context `{WireFormat, UnicodeTables}.

Lemma steady_persisted w w' : steady w w' → persisted (w_srv w') = persisted (w_srv w).
Proof. intros [_ Hg _]. by destruct (gate_eqs _ _ Hg) as (_ & _ & _ & _ & _ & ?). Qed.

Lemma hang_up_persisted e c w : persisted (w_srv (hang_up e c w)) = persisted (w_srv w).
Proof.
  unfold hang_up. set (w1 := setClient c _ (removeClient e c w)).
  transitivity (persisted (w_srv w1)).
  { case_match; [|done]. rewrite w_srv_setServer. unfold releaseSource. by case_decide. }
  exact (steady_persisted _ _ (removeClient_steady e c w)).
Qed.

(** Only flushing and loading write the record of what is stored. *)
Lemma step_persisted w w' : accounts_ok w → step w w' → persisted (w_srv w') = persisted (w_srv w).
Proof.
  intros Hac Hstep.
  destruct Hstep as [W W' [e rq up w a w' _ Hf _ Hh|e at' c data w Hc Ho _ Hf _|e c t w Hc _|e c t s w w' Hcl|e c t s w Hrc|e c w Hc _
    |c fs cl w Hw|nano c w|c w|now w|now w|pol w|w|w|w|w]|now w]; try done.
  - destruct (handleWebSocket_cases e rq up w a w' (ac_sources_ok _ Hac) Hh) as
      [(srv & -> & Hg & _)|(cl & srv & _ & _ & -> & _ & _ & _ & _ & _ & _ & Hg)].
    + by destruct (gate_eqs _ _ Hg) as (_ & _ & _ & _ & _ & ?).
    + by injection Hg.
  - exact (steady_persisted _ _ (steady_receive _ _ _ _ _)).
  - by apply steady_persisted, steady_replaceLive.
  - pose proof (claim_cases e c t w) as Hcs. rewrite Hcl in Hcs. by destruct Hcs as (_ & -> & _).
  - by apply steady_persisted, steady_finish.
  - apply hang_up_persisted.
  - apply steady_persisted, steady_cleanupEmpty.
  - apply steady_persisted, steady_failover.
  - exact (steady_persisted _ _ (proj2 (announceRestart_core w))).
  - exact (steady_persisted _ _ (proj2 (drainClients_core w))).
  - exact (steady_persisted _ _ (proj2 (closeAllClients_core w))).
  - apply steady_persisted, steady_cleanupExpired.
Qed.
End Process.

(** ** A deployment *)

Section Deployment.
Context `{WireFormat, UnicodeTables, Json, !JsonLaws} {DB : Type} `{Store DB, !StoreLaws DB}.

(** No state of the format used before rooms had records of their own. *)
Definition migrated (d : DB) : Prop := bucket d serverStateBucket !! serverStateKey = None.

(** A new process before it loads anything. *)
Definition newborn (policy : uaPolicy) (now : Time) : World := setServer (SetUAPolicy policy) (start now).

(** [lived saved w d]: the server is in state [w], its database is [d], and
    [saved] is the state at the last flush that succeeded. *)
Inductive lived : World → World → DB → Prop :=
  | lived_first now d : bucket d roomsBucket = ∅ → migrated d → lived (start now) (start now) d
  | lived_step saved w d w' : lived saved w d → step w w' → lived saved w' d
  | lived_agent saved w d agent d' :
      lived saved w d → recordUserAgent agent (Some d) = Some (Some d') → lived saved w d'
  | lived_open saved w d Open Chmod path d' :
      lived saved w d → Open path = Some d → openDatabase Open Chmod path = Some d' → lived saved w d'
  | lived_flush saved draw force now w d w' d' :
      lived saved w d → flushState draw force now (Some d) w = (true, Some d', w') → lived w w' d'
  | lived_failed saved draw force now w d w' d' :
      lived saved w d → flushState draw force now (Some d) w = (false, Some d', w') → lived saved w' d'
  | lived_boot saved policy draw e removed w d d' file w' :
      lived saved w d →
      LoadState draw e NoFile removed (Some d) (newborn policy (e_now e)) = (true, Some d', file, w') →
      lived saved w' d'.

Record life_ok (saved w : World) (d : DB) : Prop := {
  lf_inv : invariant w;
  lf_mirror : mirror d w;
  lf_texts : texts w;
  lf_saved : world_ok ∅ saved;
  lf_saved_texts : texts saved;
  lf_stored : encodes (bucket d roomsBucket) saved;
  lf_migrated : migrated d
}.

(** Counting a handshake touches its own bucket only. *)
Lemma agent_bucket agent d d' b :
  recordUserAgent agent (Some d) = Some (Some d') → b ≠ userAgentsBucket → bucket d' b = bucket d b.
Proof.
  intros Hr Hb. unfold recordUserAgent in Hr. case_decide; [by injection Hr as ->|].
  destruct (bucket d userAgentsBucket !! _) as [v|]; case_decide; try done; try (by injection Hr as ->).
  all: apply fmap_Some in Hr as (d2 & Hu & Heq); injection Heq as <-; rewrite (update_bucket _ _ _ b Hu); cbn.
  all: by rewrite decide_False.
Qed.

(** Opening a database leaves what it holds. *)
Lemma open_bucket Open Chmod path d d' b :
  Open path = Some d → openDatabase Open Chmod path = Some d' → bucket d' b = bucket d b.
Proof.
  intros Ho. unfold openDatabase. rewrite Ho. case_decide; [done|]. intros Hu. by rewrite (update_bucket _ _ _ _ Hu).
Qed.

Lemma boot_ok policy draw e removed saved d :
  world_ok ∅ saved → texts saved → encodes (bucket d roomsBucket) saved → migrated d →
  ∃ w, LoadState draw e NoFile removed (Some d) (newborn policy (e_now e)) = (true, Some d, NoFile, w) ∧
    invariant w ∧ mirror d w ∧ texts w.
Proof.
  intros Hok Htx Henc Hm. set (w0 := newborn policy (e_now e)). pose proof (texts_utf8_rooms _ Htx) as Hutf.
  assert (texts w0) as Htx0 by (apply texts_setServer; [done|apply start_texts]).
  pose proof (load_texts draw e removed d saved w0 Htx Henc Hm Htx0) as Htx1.
  destruct (load_restored draw e removed d saved w0 Hok Hutf Henc Hm) as (since & offline & w1 & Hl & Hall).
  rewrite Hl in Htx1. eexists. split; [exact Hl|].
  pose proof (revived_ok e since offline _ saved w0 w1 Hok Henc Hutf eq_refl eq_refl eq_refl Hall) as Hw1.
  pose proof (revived_accounts e since offline _ saved w0 w1 Hall) as Ha1.
  assert (accounts_ok w0) by (apply server_accounts; [apply start_invariant|done]).
  split; [split; [by apply world_server|by apply server_accounts; [apply Ha1|]]|]. split; [|exact Htx1].
  unfold mirror. rewrite w_srv_setServer. cbn. rewrite (ar_persisted _ _ _ _ _ _ Hall). cbn. by rewrite map_union_empty.
Qed.

Lemma flush_ok saved draw force now w d ok w' d' :
  life_ok saved w d → flushState draw force now (Some d) w = (ok, Some d', w') →
  life_ok (if ok then w else saved) w' d'.
Proof.
  intros [[Hok Hac] Hmi Htx Hs Hu Hst Hm] Hf. pose proof (wo_roster _ _ Hok) as Hro.
  destruct (flush_cases ∅ draw force now d w Hro) as [(ok' & Hf' & Hnf)|(records & d2 & He & Hup & Hf')];
    rewrite Hf' in Hf; injection Hf as <- <- <-.
  - destruct ok'; [|by split]. destruct (Hnf eq_refl) as [_ Henc]. split; try done. by rewrite Hmi.
  - assert (bucket d2 roomsBucket = records) as Hb.
    { rewrite (update_bucket _ _ _ _ Hup), flush_writes_rooms, Hmi. apply delta_bucket. intros code data.
      by apply (encodes_full records w). }
    split; [|done| |done|done|by rewrite Hb|].
    + split; [by apply world_server|by apply server_accounts].
    + by apply texts_setServer.
    + unfold migrated. by rewrite (update_bucket _ _ _ _ Hup), flush_writes_other.
Qed.

Lemma lived_ok saved w d : lived saved w d → life_ok saved w d.
Proof.
  induction 1 as [now d Hr Hm|saved w d w' _ IH Hst|saved w d agent d' _ IH Ha|saved w d Open Chmod path d' _ IH Ho Hop
    |saved draw force now w d w' d' _ IH Hf|saved draw force now w d w' d' _ IH Hf
    |saved policy draw e removed w d d' file w' _ IH Hl].
  - pose proof (start_invariant now) as Hi.
    assert (∀ code, rooms (w_srv (start now)) !! code = None) as Hno by (intros; apply lookup_empty). split; [done|by unfold mirror|apply start_texts|apply Hi|apply start_texts|rewrite Hr|done].
    split; [done|]. intros code r. by rewrite Hno.
  - destruct IH as [Hi Hmi Htx]. split; try done; [by eapply step_invariant| |by eapply step_texts].
    unfold mirror. by rewrite (step_persisted _ _ (proj2 Hi) Hst).
  - destruct IH. split; unfold mirror, migrated; rewrite ?(agent_bucket _ _ _ _ Ha); done.
  - destruct IH. split; unfold mirror, migrated; rewrite ?(open_bucket _ _ _ _ _ _ Ho Hop); done.
  - by apply (flush_ok saved draw force now w d true).
  - by apply (flush_ok saved draw force now w d false).
  - destruct IH as [_ _ _ Hs Hu Hst Hm].
    destruct (boot_ok policy draw e removed saved d Hs Hu Hst Hm) as (w2 & Hl2 & Hi & Hmi & Htx).
    rewrite Hl2 in Hl. by injection Hl as <- <- <-.
Qed.

Lemma lived_invariant saved w d : lived saved w d → invariant w.
Proof. intros Hl. apply (lived_ok _ _ _ Hl). Qed.
Lemma lived_texts saved w d : lived saved w d → texts w.
Proof. intros Hl. apply (lived_ok _ _ _ Hl). Qed.

(** Every state a single process reaches is one of a deployment. *)
Lemma lived_steps saved w d w' : rtc step w w' → lived saved w d → lived saved w' d.
Proof. induction 1 as [|w1 w2 w3 Hst _ IH]; [done|]. intros Hl. apply IH. by eapply lived_step. Qed.

Lemma reachable_lived now w d :
  bucket d roomsBucket = ∅ → migrated d → reachable now w → lived (start now) w d.
Proof. intros Hb Hm Hr. by apply (lived_steps _ _ _ _ Hr), lived_first. Qed.

(** The same rooms, and the same tokens leading to the same seats. *)
Definition same_books (w w' : World) : Prop :=
  dom (rooms (w_srv w')) = dom (rooms (w_srv w)) ∧ ∀ t id code, token_seat w' t id code ↔ token_seat w t id code.

#[export] Instance same_books_equiv : Equivalence same_books.
Proof.
  split; [done| |]; [intros w w' [D T]; split; [done|]; intros; by rewrite T|].
  intros w1 w2 w3 [D1 T1] [D2 T2]. split; [congruence|]. intros. by rewrite T2.
Qed.

Lemma lived_loads policy draw e removed saved w (d : DB) :
  lived saved w d →
  ∃ w2, LoadState draw e NoFile removed (Some d) (newborn policy (e_now e)) = (true, Some d, NoFile, w2) ∧
    same_books saved w2.
Proof.
  intros Hl. destruct (lived_ok _ _ _ Hl) as [_ _ _ Hs Hu%texts_utf8_rooms Hst Hm].
  destruct (load_stored draw e removed d saved (newborn policy (e_now e)) Hs Hu Hst Hm eq_refl eq_refl)
    as (w2 & Hload & Hd & _ & Ht & _). by exists w2.
Qed.


End Deployment.
