(* ===== verification/Run.v ===== *)
(** Run: [src/internal/server/run.go].

    Starting the process: the policy, the database, the saved state, the
    routes and the port, each of which can end it; reloading the policy; and
    shutting down: announce, stop the workers, close the listener, drain, save.
    [Run] and the goroutine that shuts down are two threads of a state machine:
    the process ends with [Run], which waits for the other one.  The HTTP
    server, the signals and the deadlines are the environment: between the
    steps of a shutdown the server goes on serving, and the state is saved
    whether or not all connections have ended. *)

From S2P Require Import Prelude Protocol Utf8 Validation UAPolicy World Client Pumps Roster Hosts Playback Limits Identifiers Members Rooms Lifecycle RoomOk Safety Preserve Server Steady Reachable Store UserAgents Persistence Flush Restart Texts Conduct Lifetime.

Definition DefaultDatabaseFile : string := "metroserver.db".

(** The environment variables. *)
Record Config := mkConfig {
  UA_POLICY_FILE : string; DATABASE_FILE : string; UA_ADMIN_TOKEN : string; PORT : string }.

Definition databaseFile (cfg : Config) : string :=
  if decide (DATABASE_FILE cfg = "") then DefaultDatabaseFile else DATABASE_FILE cfg.
Definition port_of (cfg : Config) : string := if decide (PORT cfg = "") then "8080" else PORT cfg.
Definition routes (cfg : Config) : list string :=
  ["/ws"; "/health"] ++ (if decide (UA_ADMIN_TOKEN cfg = "") then [] else ["/uas"]).

Section Run.
Context `{WireFormat, UnicodeTables, PolicyIO, Json} {DB : Type} `{Store DB}.

(** [logger.Fatal] ends the process; the database stays as it is. *)
Inductive Boot :=
  | Fatal (message : string) (d : option DB)
  | Serving (w : World) (d : DB) (port : string) (paths : list string).

Definition Run_boot (Open : string → option DB) (Chmod : string → bool) (draw : ClientRef → string) (e : Env) (file : LegacyFile)
    (removed : bool) (cfg : Config) : Boot :=
  need ua := loadUAPolicy (UA_POLICY_FILE cfg)
    orelse Fatal "Failed to load UA policy" None in
  let w := newborn ua (e_now e) in
  need d := openDatabase Open Chmod (databaseFile cfg)
    orelse Fatal "Failed to open database" None in
  match LoadState draw e file removed (Some d) w with
  | (true, Some d, _, w) =>
    let port := port_of cfg in
    refuse len port = 0 ∨ 5 < len port by Fatal "Invalid port" (Some d) in
    Serving w d port (routes cfg)
  | (_, d, _, _) => Fatal "Failed to load previous state" d
  end.

(** SIGHUP: a policy that does not load changes nothing. *)
Definition Run_reload (cfg : Config) (w : World) : World :=
  match loadUAPolicy (UA_POLICY_FILE cfg) with
  | None => w
  | Some policy => setServer (SetUAPolicy policy) w
  end.

(** What happens to connections while the server waits for them. *)
Inductive drain_step : World → World → Prop :=
  | drain_hang_up e c w : c ∈ clients (w_srv w) → utf8_env e → drain_step w (hang_up e c w)
  | drain_write c frames cl w : writePump (getClient c w) frames cl → drain_step w (setClient c (λ _, cl) w)
  | drain_lost c w : drain_step w (setClient c (λ cl, cl <| c_ConnOpen := false |>) w)
  | drain_close_all w : drain_step w (closeAllClients w).

(** From the signal to the final save, with [R] going on in between. *)
Inductive Run_shutdown (R : World → World → Prop) : World → World → Prop :=
  | shutdown_drained w w0 w1 w2 w3 :
      rtc R w w0 → rtc R (announceRestart w0) w1 → rtc R (setServer Close w1) w2 →
      rtc R (drainClients w2) w3 → Run_shutdown R w w3.

(** ** The threads of a process *)

(** [Run] itself, which waits for the listener and then for the shutdown; and
    the goroutine that waits for the signal and shuts down. *)
Inductive Main := Listening | AwaitDone | Exited | Failed.
Inductive Stopping := AwaitSignal | Announced | Closing | ListenerClosed | Draining | Drained | Done.
Record Proc := mkProc {
  pr_main : Main;
  pr_stop : Stopping;
  pr_world : World;
  pr_db : option DB;
  (** whether the final save succeeded, once it was made *)
  pr_saved : option bool
}.
Definition serving (w : World) (d : DB) : Proc := mkProc Listening AwaitSignal w (Some d) None.
Definition alive_main (m : Main) : Prop := m = Listening ∨ m = AwaitDone.
Definition listener_closed (st : Stopping) : bool :=
  match st with AwaitSignal | Announced | Closing => false | _ => true end.

(** One move of a thread; [R] is what the connections and workers do.  The
    process ends with [Run]: a listener that fails ends it at once, one that
    was closed only after the shutdown is done. *)
Inductive proc (R : World → World → Prop) : Proc → Proc → Prop :=
  | proc_serve m st w d sv w' : alive_main m → R w w' → proc R (mkProc m st w d sv) (mkProc m st w' d sv)
  | proc_signal m w d sv : alive_main m → proc R (mkProc m AwaitSignal w d sv) (mkProc m Announced (announceRestart w) d sv)
  | proc_close m w d sv : alive_main m → proc R (mkProc m Announced w d sv) (mkProc m Closing (setServer Close w) d sv)
  | proc_unlisten m w d sv : alive_main m → proc R (mkProc m Closing w d sv) (mkProc m ListenerClosed w d sv)
  | proc_drain m w d sv : alive_main m → proc R (mkProc m ListenerClosed w d sv) (mkProc m Draining (drainClients w) d sv)
  | proc_drained m w d sv :
      alive_main m → pumps (w_srv w) = 0 → proc R (mkProc m Draining w d sv) (mkProc m Drained w d sv)
  | proc_deadline m w d sv :
      alive_main m → proc R (mkProc m Draining w d sv) (mkProc m Drained (closeAllClients w) d sv)
  | proc_save m w d sv draw now ok d' w' :
      alive_main m → SaveState draw now d w = (ok, d', w') →
      proc R (mkProc m Drained w d sv) (mkProc m Done w' d' (Some ok))
  | proc_closed st w d sv : listener_closed st = true → proc R (mkProc Listening st w d sv) (mkProc AwaitDone st w d sv)
  | proc_exit w d sv : proc R (mkProc AwaitDone Done w d sv) (mkProc Exited Done w d sv)
  | proc_failed st w d sv : listener_closed st = false → proc R (mkProc Listening st w d sv) (mkProc Failed st w d sv).

(** What has been done when the shutdown is at each of its points. *)
Definition progress (R : World → World → Prop) (w : World) (d : DB) (p : Proc) : Prop :=
  match pr_stop p with
  | AwaitSignal => rtc R w (pr_world p) ∧ pr_db p = Some d
  | Announced => pr_db p = Some d ∧ ∃ w0, rtc R w w0 ∧ rtc R (announceRestart w0) (pr_world p)
  | Closing | ListenerClosed => pr_db p = Some d ∧
    ∃ w0 w1, rtc R w w0 ∧ rtc R (announceRestart w0) w1 ∧ rtc R (setServer Close w1) (pr_world p)
  | Draining | Drained => pr_db p = Some d ∧ Run_shutdown R w (pr_world p)
  | Done => ∃ w1 draw now ok d' w', Run_shutdown R w w1 ∧ SaveState draw now (Some d) w1 = (ok, d', w') ∧
    pr_db p = d' ∧ pr_saved p = Some ok
  end ∧ (pr_main p = Exited → pr_stop p = Done).

Lemma shutdown_more R w w1 w2 : Run_shutdown R w w1 → R w1 w2 → Run_shutdown R w w2.
Proof. intros [????? A B C D] E. eapply shutdown_drained; [exact A|exact B|exact C|by eapply rtc_r]. Qed.

Lemma proc_progress R w d p p' : (∀ w, R w (closeAllClients w)) → progress R w d p → proc R p p' → progress R w d p'.
Proof.
  unfold progress. intros Hall [Hp Hx] Hs. destruct Hs as [m st w1 d1 sv w' Hm Hr|m w1 d1 sv Hm|m w1 d1 sv Hm|m w1 d1 sv Hm
    |m w1 d1 sv Hm|m w1 d1 sv Hm _|m w1 d1 sv Hm|m w1 d1 sv draw now ok d' w' Hm Hs|st w1 d1 sv Hl|w1 d1 sv|st w1 d1 sv Hl];
    cbn in *; (split; [|try done; by destruct Hm as [-> | ->]]); try done.
  - destruct st; naive_solver eauto using rtc_r, shutdown_more.
  - naive_solver eauto using rtc_refl.
  - naive_solver eauto using rtc_refl.
  - destruct Hp as (? & w0 & w2 & ? & ? & ?). split; [done|]. by eapply shutdown_drained.
  - naive_solver eauto using shutdown_more.
  - destruct Hp as [-> Hsh]. by exists w1, draw, now, ok, d', w'.
Qed.

Lemma procs_progress R w d p : (∀ w, R w (closeAllClients w)) → rtc (proc R) (serving w d) p → progress R w d p.
Proof.
  intros Hall. revert p. apply rtc_ind_r; [by repeat split|]. intros p p' _ Hs Hp. by eapply proc_progress.
Qed.

Lemma shutdown_sub (R S : World → World → Prop) w w' :
  (∀ x y, R x y → S x y) → Run_shutdown R w w' → Run_shutdown S w w'.
Proof. intros Hsub [????? A B C D]. eapply shutdown_drained; eapply rtc_subrel; eauto. Qed.

(** However the connections behave, the shutdown can be carried through. *)
Definition shut_down (draw : ClientRef → string) (now : Time) (w : World) (d : DB) : Proc :=
  let '(ok, d', w') := SaveState draw now (Some d) (closeAllClients (drainClients (setServer Close (announceRestart w)))) in
  mkProc Exited Done w' d' (Some ok).
Lemma shutdown_ends R draw now w d : rtc (proc R) (serving w d) (shut_down draw now w d).
Proof.
  unfold shut_down. destruct (SaveState _ _ _ _) as [[ok d'] w'] eqn:Hs. unfold serving.
  assert (alive_main Listening) by (by left). assert (alive_main AwaitDone) by (by right).
  do 3 (eapply rtc_l; [by constructor|]). eapply rtc_l; [by apply proc_closed|]. eapply rtc_l; [by apply proc_drain|].
  eapply rtc_l; [by apply proc_deadline|]. eapply rtc_l; [by eapply proc_save|]. apply rtc_once, proc_exit.
Qed.

(** A process that ended by itself has made the final save. *)
Lemma exit_saved R w d p :
  (∀ w, R w (closeAllClients w)) → rtc (proc R) (serving w d) p → pr_main p = Exited → pr_saved p ≠ Some false →
  ∀ d1, pr_db p = Some d1 →
  ∃ w1 draw now w', Run_shutdown R w w1 ∧ SaveState draw now (Some d) w1 = (true, Some d1, w').
Proof.
  intros Hall Hr Hex Hsv d1 Hd. destruct (procs_progress R w d p Hall Hr) as [Hp Hdone]. rewrite (Hdone Hex) in Hp.
  destruct Hp as (w1 & draw & now & ok & d' & w' & Hsh & Hs & Hdb & Hok). rewrite Hd in Hdb. subst d'.
  destruct ok; [|done]. by exists w1, draw, now, w'.
Qed.

(** ** Lemmas: a shutdown keeps rooms and seats *)

Record same_seats (w w' : World) : Prop := {
  sm_rooms : rooms (w_srv w') = rooms (w_srv w);
  sm_seats t id code : token_seat w' t id code ↔ token_seat w t id code
}.
#[local] Instance same_seats_preorder : PreOrder same_seats.
Proof. split; [by split|]. intros w1 w2 w3 [R1 S1] [R2 S2]. split; [congruence|]. intros. by rewrite S2. Qed.

Lemma core_same_seats w w' : same_core w w' → same_seats w w'.
Proof.
  intros Hc. split; [by rewrite (core_srv _ _ Hc)|]. intros. apply token_seat_ext; intros;
    rewrite ?(core_srv _ _ Hc), ?(core_getRoom _ _ _ Hc), ?(core_getSession _ _ _ Hc), ?(core_session _ _ _ Hc); done.
Qed.

Lemma hang_up_rooms e c w : world_ok ∅ w → rooms (w_srv (hang_up e c w)) = rooms (w_srv w).
Proof.
  intros Hok. unfold hang_up. set (w2 := setClient c _ _).
  transitivity (rooms (w_srv w2)).
  { case_match; [|done]. rewrite w_srv_setServer. unfold releaseSource. by case_decide. }
  change (rooms (w_srv w2)) with (rooms (w_srv (removeClient e c w))). unfold removeClient. set (w1 := setClient c closeSend _).
  assert (world_ok ∅ w1) as Hok1.
  { eapply world_core; [apply setClient_core; intros; apply calm_closeSendWith|]. by apply world_server. }
  destruct (currentRoom c w1) as [r|] eqn:Hc; [by rewrite (dc_rooms _ _ _ _ _ (disconnect_spec e c r w1 Hok1 Hc))|].
  rewrite removePendingJoin_room, Hc. unfold removePendingJoin, clearPendingRoom.
  destruct (currentPendingRoom c w1); [|done]. by repeat case_decide.
Qed.

Lemma drain_is_step w w' : drain_step w w' → step w w'.
Proof. intros []; apply step_event; [by apply step_hang_up|by eapply step_write|by apply step_lost|by apply step_close_all]. Qed.

Lemma drain_keeps w w' : drain_step w w' → invariant w → invariant w' ∧ same_seats w w'.
Proof.
  intros Hst Hi. split; [by eapply step_invariant; [apply drain_is_step|]|]. destruct Hst as [e c w Hc _|c fs cl w Hw|c w|w].
  - destruct Hi as [Hok _]. split; [by apply hang_up_rooms|]. intros.
    rewrite <- (removeClient_seats e c w) by done. apply hang_up_seats.
  - apply core_same_seats. destruct (writePump_calm _ _ _ Hw) as [Hcalm _]. split; try done.
    intros d. rewrite getClient_setClient. by case_decide; subst.
  - apply core_same_seats, setClient_core. by split.
  - apply core_same_seats. apply closeAllClients_core.
Qed.

Lemma drains_keep w w' : rtc drain_step w w' → invariant w → invariant w' ∧ same_seats w w'.
Proof.
  induction 1 as [w|w1 w2 w3 Hst _ IH]; intros Hi; [done|]. destruct (drain_keeps _ _ Hst Hi) as [Hi2 Hs].
  destruct (IH Hi2) as [? ?]. split; [done|]. by etrans.
Qed.

(** The steps before and between the waits only deliver. *)
Lemma shutdown_steps w w' : Run_shutdown step w w' → rtc step w w'.
Proof.
  intros [w0 w1 w2 w3 w4 A B C D]. etrans; [exact A|]. eapply rtc_l; [apply step_event, step_restart|]. etrans; [exact B|].
  eapply rtc_l; [apply step_event, step_stop|]. etrans; [exact C|]. eapply rtc_l; [apply step_event, step_drain|exact D].
Qed.

Lemma shutdown_keeps w w' : Run_shutdown drain_step w w' → invariant w → same_seats w w'.
Proof.
  intros [w0 w1 w2 w3 w4 A B C D] I0. destruct (drains_keep _ _ A I0) as [I1 K1].
  pose proof (step_invariant _ _ (step_event _ _ (step_restart _ w1)) I1) as I1'. destruct (drains_keep _ _ B I1') as [I2 K2].
  pose proof (step_invariant _ _ (step_event _ _ (step_stop _ w2)) I2) as I2'. destruct (drains_keep _ _ C I2') as [I3 K3].
  pose proof (step_invariant _ _ (step_event _ _ (step_drain _ w3)) I3) as I3'. destruct (drains_keep _ _ D I3') as [_ K4].
  etrans; [exact K1|]. transitivity (announceRestart w1).
  { etrans; [|apply core_same_seats, announceRestart_core]. split; [done|]. intros. by apply token_seat_ext. }
  etrans; [exact K2|]. transitivity (setServer Close w2); [split; [done|]; intros; by apply token_seat_ext|].
  etrans; [exact K3|]. etrans; [apply core_same_seats, drainClients_core|exact K4].
Qed.

End Run.

Section Graceful.
Context `{WireFormat, UnicodeTables, PolicyIO, Json, !JsonLaws} {DB : Type} `{Store DB, !StoreLaws DB}.

(** C16: a graceful restart loses nobody.  A process that is told to stop while
    it serves and whose final save does not fail ends only after that save; the next
    one starts with the same configuration, serves on the configured port, and
    has exactly the rooms and the seats of every token that the server had when
    it was saved, after its connections were drained; and when all that
    happened meanwhile was that connections ended, in any order or not at all,
    those are the rooms and seats from before the shutdown. *)
Theorem graceful_restart Open Chmod draw e removed cfg policy saved w d p d1 d' :
  lived saved w d → rtc (proc step) (serving w d) p → pr_main p = Exited → pr_saved p ≠ Some false →
  loadUAPolicy (UA_POLICY_FILE cfg) = Some policy → pr_db p = Some d1 → Open (databaseFile cfg) = Some d1 →
  openDatabase Open Chmod (databaseFile cfg) = Some d' → len (PORT cfg) ≤ 5 →
  ∃ w1 w3, Run_shutdown step w w1 ∧
    Run_boot Open Chmod draw e NoFile removed cfg = Serving w3 d' (port_of cfg) (routes cfg) ∧
    same_books w1 w3 ∧ lived w1 w3 d' ∧
    (rtc (proc drain_step) (serving w d) p → same_books w w3).
Proof.
  intros Hl Hr Hex Hsv Hpol Hd1 Hfile Hopen Hport.
  destruct (exit_saved step w d p (λ w, step_event _ _ (step_close_all _ w)) Hr Hex Hsv d1 Hd1) as (w1 & draw1 & now1 & w2 & Hsh & Hsave).
  assert (∀ w1 draw1 now1 w2, Run_shutdown step w w1 → SaveState draw1 now1 (Some d) w1 = (true, Some d1, w2) →
    lived w1 w2 d') as Hkept.
  { intros. eapply lived_open; [|exact Hfile|exact Hopen]. eapply (lived_flush saved); [|done].
    by eapply lived_steps; [apply shutdown_steps|]. }
  destruct (lived_loads policy draw e removed _ _ _ (Hkept _ _ _ _ Hsh Hsave)) as (w3 & Hload & Hbk).
  exists w1, w3. split_and!; [done| |done|by eapply lived_boot; [eapply Hkept|]|].
  - unfold Run_boot. rewrite Hpol, Hopen, Hload. rewrite decide_False; [done|]. unfold port_of.
    case_decide as Hp; [by vm_compute; intros [?|?]|].
    intros [Hz|?]; [|lia]. apply Hp. destruct (PORT cfg); [done|]. unfold len in Hz. cbn in Hz. lia.
  - intros Hq. destruct (exit_saved drain_step w d p drain_close_all Hq Hex Hsv d1 Hd1) as (v1 & draw2 & now2 & v2 & Hsh2 & Hsave2).
    pose proof (Hkept _ _ _ _ (shutdown_sub _ _ _ _ drain_is_step Hsh2) Hsave2) as Hl2.
    destruct (lived_loads policy draw e removed _ _ _ Hl2) as (w3' & Hload' & Hbk2). rewrite Hload in Hload'.
    injection Hload' as <-. rewrite <- Hbk2. destruct (shutdown_keeps _ _ Hsh2 (lived_invariant _ _ _ Hl)) as [Kr Ks].
    split; [by rewrite Kr|exact Ks].
Qed.

End Graceful.
