(* ===== verification/Workers.v ===== *)
(** Workers: the background loops of a process, on a clock.

    [cleanupExpiredSessions] and [cleanupEmptyRooms] of
    [src/internal/server/lifecycle.go] and [runStateFlusher] of
    [persistence.go] each wait for the stop channel or a ticker and do one round
    per tick.  A worker is a function from the case its [select] takes to the
    next state of the process, defined when that case is ready.  Requests,
    handshakes and connections go on between the rounds, and time passes, but
    never beyond a tick that a running worker has yet to receive: what holds of
    such runs holds of a process whose workers keep up with their tickers.

    The theorems: what comes back after a crash is what the server had at most
    one flush interval before; an absent host is replaced at most one check
    interval after the time allowed. *)

From S2P Require Import Prelude Protocol Utf8 Validation UAPolicy World Client Pumps Roster Hosts Playback Limits Identifiers Members Rooms Lifecycle RoomOk Safety Preserve Server Steady Reachable Store UserAgents Persistence Flush Restart Texts Conduct Lifetime.

Definition HostFailoverCheckInterval : Duration := 5 * Second.
Definition SessionCleanupInterval : Duration := Minute.
Definition EmptyRoomCleanupInterval : Duration := 30 * Second.
Definition StateFlushInterval : Duration := 2 * Second.

(** The case a worker's [select] takes. *)
Inductive Ready := OnStop | OnTick | OnFailover.

(** [cleanupEmptyRooms] first lets a delay pass. *)
Inductive Sweep := Delaying (until : Time) | Sweeping (next : Time) | Swept.

(** A worker that runs waits for the next tick of its tickers; [k_missed] counts
    the flushes that failed since one succeeded. *)
Record Process (DB : Type) := mkProcess {
  k_now : Time;
  k_world : World;
  k_db : option DB;
  k_missed : Z;
  k_flusher : option Time;
  k_cleanup : option (Time * Time);
  k_sweep : Sweep
}.
Arguments mkProcess {DB}.
Arguments k_now {DB}. Arguments k_world {DB}. Arguments k_db {DB}. Arguments k_missed {DB}.
Arguments k_flusher {DB}. Arguments k_cleanup {DB}. Arguments k_sweep {DB}.

Section Workers.
Context `{WireFormat, UnicodeTables, Json} {DB : Type} `{Store DB}.

(** A process that has loaded its state. *)
Definition launch (now : Time) (w : World) (d : option DB) : Process DB :=
  mkProcess now w d 0 (Some (now + StateFlushInterval))
    (Some (now + SessionCleanupInterval, now + HostFailoverCheckInterval)) (Delaying (now + EmptyRoomCleanupTimeout)).

Definition with_world (w : World) (p : Process DB) : Process DB :=
  mkProcess (k_now p) w (k_db p) (k_missed p) (k_flusher p) (k_cleanup p) (k_sweep p).
Definition with_cleanup (at' : option (Time * Time)) (p : Process DB) : Process DB :=
  mkProcess (k_now p) (k_world p) (k_db p) (k_missed p) (k_flusher p) at' (k_sweep p).
Definition with_sweep (at' : Sweep) (p : Process DB) : Process DB :=
  mkProcess (k_now p) (k_world p) (k_db p) (k_missed p) (k_flusher p) (k_cleanup p) at'.
Definition with_flusher (at' : option Time) (p : Process DB) : Process DB :=
  mkProcess (k_now p) (k_world p) (k_db p) (k_missed p) at' (k_cleanup p) (k_sweep p).
Definition with_db (d : option DB) (p : Process DB) : Process DB :=
  mkProcess (k_now p) (k_world p) d (k_missed p) (k_flusher p) (k_cleanup p) (k_sweep p).
Definition with_now (now : Time) (p : Process DB) : Process DB :=
  mkProcess now (k_world p) (k_db p) (k_missed p) (k_flusher p) (k_cleanup p) (k_sweep p).
Definition with_missed (n : Z) (p : Process DB) : Process DB :=
  mkProcess (k_now p) (k_world p) (k_db p) n (k_flusher p) (k_cleanup p) (k_sweep p).

Definition stop_closed (p : Process DB) : bool := stopped (w_srv (k_world p)).

Definition cleanupExpiredSessions (ready : Ready) (p : Process DB) : option (Process DB) :=
  match k_cleanup p, ready with
  | None, _ => None
  | Some _, OnStop => if stop_closed p then Some (with_cleanup None p) else None
  | Some (sessions, failover), OnTick =>
    if decide (k_now p = sessions) then
      Some (with_cleanup (Some (sessions + SessionCleanupInterval, failover))
        (with_world (cleanupExpiredSessionsOnce sessions (k_world p)) p))
    else None
  | Some (sessions, failover), OnFailover =>
    if decide (k_now p = failover) then
      Some (with_cleanup (Some (sessions, failover + HostFailoverCheckInterval))
        (with_world (failoverHostsOnce failover (k_world p)) p))
    else None
  end.

Definition cleanupEmptyRooms (ready : Ready) (p : Process DB) : option (Process DB) :=
  match k_sweep p, ready with
  | Swept, _ | _, OnFailover => None
  | _, OnStop => if stop_closed p then Some (with_sweep Swept p) else None
  | Delaying until, OnTick =>
    if decide (k_now p = until) then Some (with_sweep (Sweeping (until + EmptyRoomCleanupInterval)) p) else None
  | Sweeping next, OnTick =>
    if decide (k_now p = next) then
      Some (with_sweep (Sweeping (next + EmptyRoomCleanupInterval)) (with_world (cleanupEmptyRoomsOnce next (k_world p)) p))
    else None
  end.

(** A flush that fails is logged, and tried again at the next tick. *)
Definition runStateFlusher (draw : ClientRef → string) (ready : Ready) (p : Process DB) : option (Process DB) :=
  match k_flusher p, ready with
  | None, _ | _, OnFailover => None
  | Some _, OnStop => if stop_closed p then Some (with_flusher None p) else None
  | Some next, OnTick =>
    if decide (k_now p = next) then
      let '(ok, d, w) := FlushState draw (k_now p) (k_db p) (k_world p) in
      Some (with_flusher (Some (next + StateFlushInterval))
        (with_missed (if ok then 0 else k_missed p + 1) (with_db d (with_world w p))))
    else None
  end.

(** The ticks the running workers have yet to receive. *)
Definition due (p : Process DB) : list Time :=
  option_list (k_flusher p)
  ++ (match k_cleanup p with Some (sessions, failover) => [sessions; failover] | None => [] end)
  ++ (match k_sweep p with Delaying t | Sweeping t => [t] | Swept => [] end).

(** The turns of a process. *)
Inductive turn : Process DB → Process DB → Prop :=
  | turn_flusher draw ready p p' : runStateFlusher draw ready p = Some p' → turn p p'
  | turn_cleanup ready p p' : cleanupExpiredSessions ready p = Some p' → turn p p'
  | turn_sweep ready p p' : cleanupEmptyRooms ready p = Some p' → turn p p'
  | turn_server p w' : step (k_world p) w' → turn p (with_world w' p)
  | turn_agent agent p d' : recordUserAgent agent (k_db p) = Some d' → turn p (with_db d' p)
  | turn_wait p now : k_now p ≤ now → Forall (λ t, now ≤ t) (due p) → turn p (with_now now p).

(** ** Lemmas: the rounds on the clock *)

Lemma flusher_cases draw ready p p' :
  runStateFlusher draw ready p = Some p' →
  (p' = with_flusher None p ∧ stop_closed p = true) ∨
  ∃ ok d w, k_flusher p = Some (k_now p) ∧ FlushState draw (k_now p) (k_db p) (k_world p) = (ok, d, w) ∧
    p' = with_flusher (Some (k_now p + StateFlushInterval))
      (with_missed (if ok then 0 else k_missed p + 1) (with_db d (with_world w p))).
Proof.
  unfold runStateFlusher. destruct (k_flusher p) as [next|] eqn:Hf; [|by intros]. destruct ready; [| |by intros].
  - destruct (stop_closed p); [|by intros]. intros [= <-]. by left.
  - case_decide as Hn; [|by intros]. destruct (FlushState _ _ _ _) as [[ok d] w] eqn:Hfl. intros [= <-].
    right. exists ok, d, w. by subst.
Qed.

(** At its tick the flusher always has a turn. *)
Lemma flusher_ticks draw p :
  k_flusher p = Some (k_now p) →
  ∃ (ok : bool) d w, runStateFlusher draw OnTick p = Some (with_flusher (Some (k_now p + StateFlushInterval))
    (with_missed (if ok then 0 else k_missed p + 1) (with_db d (with_world w p)))).
Proof.
  intros Hf. unfold runStateFlusher. rewrite Hf, decide_True by done. destruct (FlushState _ _ _ _) as [[ok d] w]. eauto.
Qed.

Lemma cleanup_cases ready p p' :
  cleanupExpiredSessions ready p = Some p' →
  ∃ sessions failover, k_cleanup p = Some (sessions, failover) ∧
  ((p' = with_cleanup None p ∧ stop_closed p = true) ∨
   (sessions = k_now p ∧ p' = with_cleanup (Some (k_now p + SessionCleanupInterval, failover))
      (with_world (cleanupExpiredSessionsOnce (k_now p) (k_world p)) p)) ∨
   (failover = k_now p ∧ p' = with_cleanup (Some (sessions, k_now p + HostFailoverCheckInterval))
      (with_world (failoverHostsOnce (k_now p) (k_world p)) p))).
Proof.
  unfold cleanupExpiredSessions. destruct (k_cleanup p) as [[sessions failover]|]; [|by intros]. intros Hr.
  exists sessions, failover. split; [done|]. destruct ready.
  - destruct (stop_closed p); [|done]. injection Hr as <-. by left.
  - case_decide as Hn; [|done]. injection Hr as <-. right. left. by subst.
  - case_decide as Hn; [|done]. injection Hr as <-. do 2 right. by subst.
Qed.

Lemma sweep_cases ready p p' :
  cleanupEmptyRooms ready p = Some p' →
  ∃ at', p' = with_sweep at' p ∨ p' = with_sweep at' (with_world (cleanupEmptyRoomsOnce (k_now p) (k_world p)) p).
Proof.
  unfold cleanupEmptyRooms. intros Hr. destruct (k_sweep p) as [until|next|], ready; try done;
    try (destruct (stop_closed p); [|done]; injection Hr as <-; eexists; by left).
  - case_decide; [|done]. injection Hr as <-. eexists. by left.
  - case_decide as Hn; [|done]. injection Hr as <-. eexists. right. by rewrite Hn.
Qed.

(** Turns between two flushes: a step of the server, a counted handshake, or
    nothing but time, which stops at the flusher's tick. *)
Inductive quiet (p p' : Process DB) : Prop :=
  | quiet_not : k_world p' = k_world p → k_db p' = k_db p → quiet p p'
  | quiet_step : step (k_world p) (k_world p') → k_db p' = k_db p → quiet p p'
  | quiet_agent agent : k_world p' = k_world p → recordUserAgent agent (k_db p) = Some (k_db p') → quiet p p'.

Definition between_flushes (p p' : Process DB) : Prop :=
  quiet p p' ∧ k_missed p' = k_missed p ∧
  (∀ next, k_flusher p' = Some next → k_flusher p = Some next ∧ (k_now p ≤ next → k_now p' ≤ next)).

Definition flushed (draw : ClientRef → string) (ok : bool) (p p' : Process DB) : Prop :=
  ∃ d w, k_flusher p = Some (k_now p) ∧ FlushState draw (k_now p) (k_db p) (k_world p) = (ok, d, w) ∧
    p' = with_flusher (Some (k_now p + StateFlushInterval))
      (with_missed (if ok then 0 else k_missed p + 1) (with_db d (with_world w p))).

Lemma turn_cases p p' : turn p p' → between_flushes p p' ∨ ∃ draw ok, flushed draw ok p p'.
Proof.
  intros [draw ready q q' Hf|ready q q' Hc|ready q q' Hs|q w' Hst|agent q d' Ha|q now Hn Hd].
  - apply flusher_cases in Hf as [[-> _]|(ok & d & w & Hf)]; [|right; exists draw, ok, d, w; exact Hf].
    left. split_and!; [by apply quiet_not|done|by intros].
  - left. apply cleanup_cases in Hc as (s & f & _ & [[-> _]|[[_ ->]|[_ ->]]]); (split_and!; [|done|done]);
      [by apply quiet_not|apply quiet_step; [apply step_expire|done]|apply quiet_step; [apply step_event, step_failover|done]].
  - left. apply sweep_cases in Hs as (at' & [->| ->]); (split_and!; [|done|done]); [by apply quiet_not|].
    apply quiet_step; [apply step_event, step_empty|done].
  - left. split_and!; [by apply quiet_step|done|done].
  - left. split_and!; [by apply (quiet_agent _ _ agent)|done|done].
  - left. split_and!; [by apply quiet_not|done|]. intros next Hnx. split; [done|]. intros _. cbn in Hnx.
    rewrite Forall_forall in Hd. apply Hd. unfold due. rewrite Hnx. cbn. by left.
Qed.

Lemma turn_now p p' : turn p p' → k_now p ≤ k_now p'.
Proof.
  intros [draw ready q q' Hf|ready q q' Hc|ready q q' Hs|q w' Hst|agent q d' Ha|q now Hn Hd]; try done; try lia.
  - apply flusher_cases in Hf as [[-> _]|(ok & d & w & _ & Hf & ->)]; done.
  - apply cleanup_cases in Hc as (s & f & _ & [[-> _]|[[_ ->]|[_ ->]]]); done.
  - apply sweep_cases in Hs as (at' & [->| ->]); done.
Qed.
End Workers.

(** ** A process with its database *)

Section Durability.
Context `{WireFormat, UnicodeTables, Json, !JsonLaws} {DB : Type} `{Store DB, !StoreLaws DB}.
Implicit Types p : Process DB.

Lemma agent_keeps_db agent (d : DB) d' : recordUserAgent agent (Some d) = Some d' → ∃ d2, d' = Some d2.
Proof.
  unfold recordUserAgent. case_decide; [intros [= <-]; eauto|].
  destruct (bucket d userAgentsBucket !! _); case_decide; try done; try (intros [= <-]; eauto);
    intros (d2 & _ & ->)%fmap_Some; eauto.
Qed.

Lemma flush_keeps_db draw now (d : DB) w ok d' w' :
  invariant w → FlushState draw now (Some d) w = (ok, d', w') → ∃ d2, d' = Some d2.
Proof.
  intros [Hok _] Hf. unfold FlushState in Hf.
  destruct (flush_cases ∅ draw false now d w (wo_roster _ _ Hok)) as [(ok' & Hf' & _)|(records & d2 & _ & _ & Hf')];
    rewrite Hf' in Hf; injection Hf as <- <- <-; eauto.
Qed.

Lemma quiet_lived p p' saved d :
  quiet p p' → k_db p = Some d → lived saved (k_world p) d → ∃ d', k_db p' = Some d' ∧ lived saved (k_world p') d'.
Proof.
  intros [Hw Hd|Hst Hd|agent Hw Ha] Hdb Hl.
  - exists d. by rewrite Hw, Hd.
  - exists d. rewrite Hd. split; [done|]. by eapply lived_step.
  - rewrite Hdb in Ha. destruct (agent_keeps_db _ _ _ Ha) as [d2 Hd2]. exists d2. rewrite Hw, Hd2 in *.
    split; [done|]. by eapply lived_agent.
Qed.

Lemma turns_now p p' : rtc turn p p' → k_now p ≤ k_now p'.
Proof. induction 1 as [|p1 p2 p3 Ht _ IH]; [done|]. pose proof (turn_now _ _ Ht). lia. Qed.

(** What the database holds is the state at an earlier moment of the run, as
    old as the flusher's next tick tells. *)
Record durable p0 p p1 saved d : Prop := {
  du_before : rtc turn p0 p1;
  du_after : rtc turn p1 p;
  du_db : k_db p = Some d;
  du_lived : lived saved (k_world p) d;
  du_books : same_books saved (k_world p1);
  du_missed : 0 ≤ k_missed p;
  du_next next : k_flusher p = Some next →
    next = k_now p1 + (k_missed p + 1) * StateFlushInterval ∧ k_now p ≤ next
}.

Lemma durable_turn p0 p p1 saved d p' :
  durable p0 p p1 saved d → turn p p' → ∃ p1' saved' d', durable p0 p' p1' saved' d'.
Proof.
  intros [Hb Ha Hd Hl Hbk Hm Hn] Ht.
  assert (rtc turn p1 p') as Ha' by (by eapply rtc_r).
  destruct (turn_cases _ _ Ht) as [(Hq & Em & Hnx)|(draw & ok & d' & w' & Hf & Hfl & ->)].
  - destruct (quiet_lived _ _ _ _ Hq Hd Hl) as (d' & Hd' & Hl'). exists p1, saved, d'.
    split; try done; [by rewrite Em|]. intros next Hnext. destruct (Hnx next Hnext) as [Hp Hle].
    destruct (Hn next Hp). rewrite Em. eauto.
  - rewrite Hd in Hfl. destruct (flush_keeps_db _ _ _ _ _ _ _ (lived_invariant _ _ _ Hl) Hfl) as [d2 ->].
    unfold FlushState in Hfl. destruct (Hn _ Hf) as [Hnow _]. destruct ok.
    + exists p, (k_world p), d2. split; cbn; try done; try lia; [by etrans|by eapply rtc_once|by eapply lived_flush|].
      intros next [= <-]. assert (0 ≤ StateFlushInterval) by done. lia.
    + exists p1, saved, d2. split; cbn; try done; try lia; [by eapply lived_failed|].
      intros next [= <-]. assert (0 ≤ StateFlushInterval) by done. lia.
Qed.

Lemma durable_run p0 p1 saved d p :
  durable p0 p0 p1 saved d → rtc turn p0 p → ∃ p1' saved' d', durable p0 p p1' saved' d'.
Proof.
  intros Hstart. revert p. apply rtc_ind_r; [eauto|]. intros p p' _ Ht (q & s & d' & Hdu). by eapply durable_turn.
Qed.

(** C13: a crash loses at most a flush interval.  While the flusher of a booted
    process runs, and whatever else happens in between, the database brings
    back, with the rooms and the seats of every token, the state the process
    had at most [StateFlushInterval] ago; every flush in a row that failed
    adds one interval. *)
Theorem crash_window policy draw draw' e e' removed removed' saved w d d1 file w0 p next :
  lived saved w d →
  LoadState draw e NoFile removed (Some d) (newborn policy (e_now e)) = (true, Some d1, file, w0) →
  rtc turn (launch (e_now e) w0 (Some d1)) p → k_flusher p = Some next →
  ∃ p1, rtc turn (launch (e_now e) w0 (Some d1)) p1 ∧ rtc turn p1 p ∧
    k_now p1 ≤ k_now p ≤ k_now p1 + (k_missed p + 1) * StateFlushInterval ∧
    ∃ d2 w2, k_db p = Some d2 ∧
      LoadState draw' e' NoFile removed' (Some d2) (newborn policy (e_now e')) = (true, Some d2, NoFile, w2) ∧
      same_books (k_world p1) w2.
Proof.
  intros Hl Hload Hr Hf. destruct (lived_loads policy draw e removed _ _ _ Hl) as (w0' & Hload' & Hbk0).
  rewrite Hload' in Hload. injection Hload as <- <- <-. set (p0 := launch _ _ _) in *.
  assert (durable p0 p0 p0 saved d) as Hstart.
  { split; cbn; try done; try lia; [by eapply lived_boot|]. intros next' [= <-]. assert (0 ≤ StateFlushInterval) by done. lia. }
  destruct (durable_run _ _ _ _ _ Hstart Hr) as (p1 & saved' & d2 & [Hb Ha Hd Hl2 Hbk Hm Hn]).
  destruct (Hn next Hf) as [-> Hle]. exists p1. split_and!; [done|done|by apply turns_now|done|].
  destruct (lived_loads policy draw' e' removed' _ _ _ Hl2) as (w2 & Hload2 & Hbk2).
  exists d2, w2. split_and!; [done|done|]. by rewrite <- Hbk.
Qed.

(** ** Rounds that come in time *)

Lemma turns_invariant p p' saved d :
  k_db p = Some d → lived saved (k_world p) d → rtc turn p p' → invariant (k_world p').
Proof.
  intros Hd Hl Hr. assert (∃ saved' d', k_db p' = Some d' ∧ lived saved' (k_world p') d') as (s & d' & _ & ?);
    [|by eapply lived_invariant]. revert p' Hr. apply rtc_ind_r; [eauto|].
  intros q q' _ Ht (s & d1 & Hd1 & Hl1). destruct (turn_cases _ _ Ht) as [(Hq & _)|(draw & ok & d2 & w' & _ & Hfl & ->)].
  - destruct (quiet_lived _ _ _ _ Hq Hd1 Hl1) as (d2 & ? & ?). eauto.
  - rewrite Hd1 in Hfl. destruct (flush_keeps_db _ _ _ _ _ _ _ (lived_invariant _ _ _ Hl1) Hfl) as [d3 ->].
    destruct ok; do 2 eexists; (split; [reflexivity|]); [by eapply lived_flush|by eapply lived_failed].
Qed.

Section Rounds.
(** A ticker of a worker, its period, and what a round achieves. *)
Context (next : Process DB → option Time) (period : Duration) (achieved : Time → World → Prop).
Hypothesis round : ∀ p p' t, invariant (k_world p) → turn p p' → next p' = Some t →
  (next p = Some t ∧ (k_now p ≤ t → k_now p' ≤ t)) ∨
  (t = k_now p' + period ∧ achieved (k_now p') (k_world p')).
Hypothesis period_pos : 0 ≤ period.

Lemma rounds_on_time p0 p t saved d :
  k_db p0 = Some d → lived saved (k_world p0) d → next p0 = Some (k_now p0 + period) →
  rtc turn p0 p → next p = Some t →
  k_now p ≤ t ∧ ∃ p1, rtc turn p0 p1 ∧ rtc turn p1 p ∧ t = k_now p1 + period ∧
    (p1 = p0 ∨ achieved (k_now p1) (k_world p1)).
Proof.
  intros Hd Hl Hn0 Hr. revert p Hr t. pose proof (λ q, turns_invariant p0 q saved d Hd Hl) as Hinv.
  apply (rtc_ind_r (λ p, ∀ t, next p = Some t → _)); [intros t Hn|intros p p' Hr Ht IH t Hn].
  - rewrite Hn0 in Hn. injection Hn as <-. split; [lia|]. exists p0. eauto using rtc_refl.
  - destruct (round _ _ _ (Hinv _ Hr) Ht Hn) as [[Hp Hle]|[-> Hach]].
    + destruct (IH t Hp) as (Hnow & p1 & Hb & Ha & Hc). split; [auto|]. exists p1. split_and!; try tauto. by eapply rtc_r.
    + split; [lia|]. exists p'. split_and!; eauto using rtc_refl. by eapply rtc_r.
Qed.
End Rounds.

(** No host is overdue in a room with a member who could take over. *)
Definition relieved (now : Time) (w : World) : Prop :=
  ∀ code r id c, rooms (w_srv w) !! code = Some r → failover_due now (getRoom r w) →
    Clients (getRoom r w) !! id = Some c → ¬ eligible c w.

(** Every reserved seat has a token whose time is not up. *)
Definition within_grace (now : Time) (w : World) : Prop :=
  ∀ code r id x, rooms (w_srv w) !! code = Some r → DisconnectedUsers (getRoom r w) !! id = Some x →
    ∃ t s, sessions (w_srv w) !! t = Some s ∧ sits id code s w ∧ ¬ session_expired now (getSession s w).

(** A turn leaves the tickers of the cleanup worker, or is one of its rounds. *)
Lemma cleanup_round p p' at' :
  invariant (k_world p) → turn p p' → k_cleanup p' = Some at' →
  (k_cleanup p = Some at' ∧ (k_now p ≤ at'.1 → k_now p' ≤ at'.1) ∧ (k_now p ≤ at'.2 → k_now p' ≤ at'.2)) ∨
  k_now p' = k_now p ∧
  ((∃ f, k_cleanup p = Some (k_now p, f) ∧ at' = (k_now p + SessionCleanupInterval, f) ∧
      within_grace (k_now p) (k_world p')) ∨
   (∃ s, k_cleanup p = Some (s, k_now p) ∧ at' = (s, k_now p + HostFailoverCheckInterval) ∧
      relieved (k_now p) (k_world p'))).
Proof.
  intros [Hok _] Ht Hc'. destruct Ht as [draw ready q q' Hf|ready q q' Hc|ready q q' Hs|q w' Hst|agent q d' Ha|q now Hn Hd];
    try (by left).
  - left. apply flusher_cases in Hf as [[-> _]|(ok & d & w & _ & _ & ->)]; done.
  - right. apply cleanup_cases in Hc as (s & f & Hc & [[-> _]|[[-> ->]|[-> ->]]]); [done| |]; (split; [done|]);
      injection Hc' as <-; [left; exists f|right; exists s]; (split_and!; [done|done|]).
    + intros code r id x. by apply cleanup_settles.
    + intros code r id c Hr Hdue. by eapply failover_settles; [apply Hok|exact Hr|].
  - left. apply sweep_cases in Hs as (at'' & [->| ->]); done.
  - left. cbn in Hc'. split; [done|]. rewrite Forall_forall in Hd. unfold due in Hd. rewrite Hc' in Hd. destruct at' as [s f].
    split; intros _; apply Hd; set_solver.
Qed.

End Durability.
