(* ===== verification/ToyJson.v ===== *)
(** ToyJson: an encoding that satisfies the laws of [Json], used to run the
    persistence of a concrete server.

    A record is numbered by a [Countable] instance and the number is spelt in
    binary between braces; every record has an encoding and decoding inverts
    it. *)

From Stdlib Require Import Ascii.
From stdpp Require Import countable.
From S2P Require Import Prelude Protocol Utf8 Validation UAPolicy World Client Playback Members Rooms Lifecycle Store Persistence.

(** ** Records are countable *)

Definition float_code (x : spec_float) : bool + bool + unit + bool * positive * Z :=
  match x with
  | S754_zero s => inl (inl (inl s))
  | S754_infinity s => inl (inl (inr s))
  | S754_nan => inl (inr tt)
  | S754_finite s m e => inr (s, m, e)
  end.
Definition code_float (x : bool + bool + unit + bool * positive * Z) : spec_float :=
  match x with
  | inl (inl (inl s)) => S754_zero s
  | inl (inl (inr s)) => S754_infinity s
  | inl (inr tt) => S754_nan
  | inr (s, m, e) => S754_finite s m e
  end.

Definition track_code (t : TrackInfo) : string * string * string * string * Z * string * string :=
  (ti_ID t, ti_Title t, ti_Artist t, ti_Album t, ti_Duration t, ti_Thumbnail t, ti_SuggestedBy t).
Definition user_code (u : UserInfo) : string * string * bool * bool :=
  (ui_UserID u, ui_Username u, ui_IsHost u, ui_IsConnected u).
Definition session_code (s : Session) : string * string * string * bool * Z * bool :=
  (se_UserID s, se_Username s, se_RoomCode s, se_IsHost s, se_DisconnectAt s, se_claimed s).

#[local] Instance float_eq_dec : EqDecision spec_float.
Proof. solve_decision. Defined.
#[local] Instance float_countable : Countable spec_float.
Proof. apply (inj_countable' float_code code_float). by intros []. Defined.
#[local] Instance track_eq_dec : EqDecision TrackInfo.
Proof. solve_decision. Defined.
#[local] Instance track_countable : Countable TrackInfo.
Proof.
  apply (inj_countable' track_code (λ '(a, b, c, d, e, f, g), mkTrackInfo a b c d e f g)). by intros [].
Defined.
#[local] Instance user_eq_dec : EqDecision UserInfo.
Proof. solve_decision. Defined.
#[local] Instance user_countable : Countable UserInfo.
Proof. apply (inj_countable' user_code (λ '(a, b, c, d), mkUserInfo a b c d)). by intros []. Defined.
#[local] Instance session_eq_dec : EqDecision Session.
Proof. solve_decision. Defined.
#[local] Instance session_countable : Countable Session.
Proof. apply (inj_countable' session_code (λ '(a, b, c, d, e, f), mkSession a b c d e f)). by intros []. Defined.
#[local] Instance state_eq_dec : EqDecision RoomState.
Proof. solve_decision. Defined.
#[local] Instance state_countable : Countable RoomState.
Proof.
  apply (inj_countable'
    (λ s, (rs_RoomCode s, rs_HostID s, rs_Users s, rs_CurrentTrack s, rs_IsPlaying s,
           (rs_Position s, rs_LastUpdate s, rs_Volume s, rs_Queue s, rs_Revision s, rs_QueueTitle s)))
    (λ '(a, b, c, d, e, (f, g, h, i, j, k)), mkRoomState a b c d e f g h i j k)). by intros [].
Defined.
#[local] Instance suggestion_eq_dec : EqDecision PersistentSuggestion.
Proof. solve_decision. Defined.
#[local] Instance suggestion_countable : Countable PersistentSuggestion.
Proof.
  apply (inj_countable' (λ p, (psg_ID p, psg_FromUserID p, psg_FromUsername p, psg_Track p))
    (λ '(a, b, c, d), mkPersistentSuggestion a b c d)). by intros [].
Defined.
#[local] Instance token_eq_dec : EqDecision PersistentSession.
Proof. solve_decision. Defined.
#[local] Instance token_countable : Countable PersistentSession.
Proof.
  apply (inj_countable' (λ p, (pse_Token p, pse_UserID p, pse_Username p, pse_RoomCode p, pse_IsHost p, pse_DisconnectAt p))
    (λ '(a, b, c, d, e, f), mkPersistentSession a b c d e f)). by intros [].
Defined.
#[local] Instance room_eq_dec : EqDecision PersistentRoom.
Proof. solve_decision. Defined.
#[local] Instance room_countable : Countable PersistentRoom.
Proof.
  apply (inj_countable'
    (λ r, (pr_Code r, pr_HostID r, pr_OwnerID r, pr_TrackRevision r,
           (pr_State r, pr_DisconnectedUsers r, pr_PendingSuggestions r, pr_HostDisconnectedAt r)))
    (λ '(a, b, c, d, (e, f, g, h)), mkPersistentRoom a b c d e f g h)). by intros [].
Defined.
#[local] Instance record_eq_dec : EqDecision roomRecord.
Proof. solve_decision. Defined.
#[local] Instance record_countable : Countable roomRecord.
Proof. apply (inj_countable' (λ r, (rr_Room r, rr_Sessions r)) (λ '(a, b), mk_roomRecord a b)). by intros []. Defined.

(** ** Spelling *)

Fixpoint spell (p : positive) : string :=
  match p with
  | xH => "}"
  | xO p => String "0"%char (spell p)
  | xI p => String "1"%char (spell p)
  end.
Fixpoint read (s : string) : option positive :=
  match s with
  | "" => None
  | String "}"%char _ => Some xH
  | String "0"%char s => xO <$> read s
  | String _ s => xI <$> read s
  end.
Lemma read_spell p : read (spell p) = Some p.
Proof. induction p as [p IH|p IH|]; cbn; rewrite ?IH; done. Qed.

#[export] Instance toy_json : Json := {|
  marshal_room record := Some (spell (countable.encode (json_view record)));
  unmarshal_room data := read data ≫= countable.decode;
  unmarshal_state _ := None
|}.
#[export] Instance toy_json_laws : JsonLaws.
Proof.
  split.
  - intros record data _ [= <-]. cbn. rewrite read_spell. cbn. apply countable.decode_encode.
  - intros record data [= <-]. by destruct (countable.encode _).
Qed.
