(* ===== verification/Guarantees.v ===== *)
(** Guarantees: what holds in every state of a deployment, restarts included.

    The invariant of [Lifetime], read out as the promises of the components:
    rooms and their members, hosts, sessions, limits and connections. *)

From S2P Require Import Prelude Protocol Utf8 Validation UAPolicy World Client Pumps Roster Hosts Playback Limits Identifiers Members Rooms Lifecycle RoomOk Safety Server Steady Replies Reachable Scenario Store UserAgents Persistence Flush Restart Texts Lifetime ToyJson.

Section Guarantees.
Context `{WireFormat, UnicodeTables, Json, !JsonLaws} {DB : Type} `{Store DB, !StoreLaws DB}.
Context (saved w : World) (d : DB) (Hr : lived saved w d).

Lemma lived_room code r :
  rooms (w_srv w) !! code = Some r →
  registered r w ∧ Code (getRoom r w) = code ∧ room_ok (may_host w) (was_host w) (getRoom r w).
Proof.
  intros Hx. destruct (lived_invariant saved w d Hr) as [[Hro Hrooms] _].
  destruct (registered_code _ _ Hro _ _ Hx) as [Hreg Hc]. auto.
Qed.

(** C4: the user list of every room names its members, connected or with a
    reserved seat, each exactly once; a user is shown as connected exactly when
    a connection holds the seat, nobody holds both kinds of seat, and the
    seats never exceed [MaxClientsPerRoom]. *)
Theorem users_are_members code r :
  rooms (w_srv w) !! code = Some r →
  let room := getRoom r w in
  NoDup (ui_UserID <$> rs_Users (State room)) ∧
  (∀ id, id ∈ ui_UserID <$> rs_Users (State room) ↔
    is_Some (Clients room !! id) ∨ is_Some (DisconnectedUsers room !! id)) ∧
  (∀ u, u ∈ rs_Users (State room) → ui_IsConnected u = bool_decide (is_Some (Clients room !! ui_UserID u))) ∧
  (∀ id c, Clients room !! id = Some c → DisconnectedUsers room !! id = None) ∧
  roomMembersLocked room ≤ MaxClientsPerRoom.
Proof. intros Hx. destruct (lived_room _ _ Hx) as (_ & _ & [_ [] _ _ _ _]). by split_and!. Qed.


(** C6: the pointers of clients and rooms agree: a client is in a room exactly
    when that room is in the table and seats it under its ID, likewise for
    applications, never both; and an ID belongs to one open connection or one
    reserved seat of one room. *)
Theorem one_seat c r :
  (currentRoom c w = Some r ↔ registered r w ∧ Clients (getRoom r w) !! clientID c w = Some c) ∧
  (currentPendingRoom c w = Some r ↔ registered r w ∧ PendingJoins (getRoom r w) !! clientID c w = Some c) ∧
  (is_Some (currentRoom c w) → currentPendingRoom c w = None) ∧
  (∀ c', holder c w → holder c' w → clientID c w = clientID c' w → c = c') ∧
  (holder c w → registered r w → DisconnectedUsers (getRoom r w) !! clientID c w = None).
Proof.
  destruct (lived_invariant saved w d Hr) as [[Hro _] _]. split_and!.
  - split; [intros Hc; by destruct (ro_room _ _ Hro _ _ Hc) as (? & ? & _)|].
    intros [Hreg Hs]. by destruct (ro_seat _ _ Hro _ _ _ Hreg Hs).
  - split; [apply (ro_pending _ _ Hro)|]. intros [Hreg Hs]. by destruct (ro_applicant _ _ Hro _ _ _ Hreg Hs).
  - intros [x Hx]. by destruct (ro_room _ _ Hro _ _ Hx) as (_ & _ & ?).
  - intros c'. apply (ro_id_one _ _ Hro).
  - intros Hh Hreg. by eapply away_free.
Qed.


(** C8: the limits of a room hold: the queue has at most [MaxQueueSize] tracks
    and [MaxQueueBytes] on the wire with valid IDs, the position and volume
    are in range, and applications, suggestions (in total and per author) and
    kept notices are bounded; authors of suggestions are members. *)
Theorem room_limits code r :
  rooms (w_srv w) !! code = Some r →
  let room := getRoom r w in
  state_ok (State room) ∧
  map_len (PendingJoins room) ≤ MaxPendingJoins ∧ map_len (PendingSuggestions room) ≤ MaxPendingSuggestions ∧
  (∀ id, Z.of_nat (length (suggestions_of id room)) ≤ MaxSuggestionsPerUser) ∧
  (∀ k sg, PendingSuggestions room !! k = Some sg → is_member (sg_FromUserID sg) room) ∧
  (∀ id ns, PendingNotices room !! id = Some ns →
    is_Some (DisconnectedUsers room !! id) ∧ Z.of_nat (length ns) ≤ MaxSuggestionsPerUser).
Proof.
  intros Hx. destruct (lived_room _ _ Hx) as (_ & _ & [_ _ _ _ [] Hst]). split_and!; try done.
  intros k sg Hk. by destruct (ex_authors k sg Hk).
Qed.

(** C9: the accounts of connections are exact: slots and pumps equal the number
    of clients, at most [MaxClients]; each source's counter is the number of
    its clients, at most [MaxConnectionsPerSource]; and no client of a blocked
    agent is among them. *)
Theorem connections_accounted :
  connectionSlots (w_srv w) = client_count (w_srv w) ∧ pumps (w_srv w) = client_count (w_srv w) ∧
  client_count (w_srv w) ≤ MaxClients ∧
  (∀ source, source_count source (w_srv w) = Z.of_nat (size (from_source source w)) ∧
    Z.of_nat (size (from_source source w)) ≤ MaxConnectionsPerSource) ∧
  (∀ c, c ∈ clients (w_srv w) → c_uaTier (getClient c w) ≠ uaBlock).
Proof.
  destruct (lived_invariant saved w d Hr) as [_ [A1 A2 A3 A4 A5 A6]]. split_and!; try done.
  - intros src. split; [done|]. rewrite <- A5. by apply source_count_range.
  - intros c Hc. by destruct (A1 c Hc) as (_ & _ & _ & ?).
Qed.

(** C10: no connection ever panics on its channel: the queue of every client is
    open exactly while the client is not closed, no send or close hit a closed
    channel, the byte counter is the size of the backlog and at most
    [MaxQueuedBytes], and at most 256 messages and 8 pongs wait. *)
Theorem queues_never_panic c :
  c ∈ clients (w_srv w) →
  let cl := getClient c w in
  ∃ ch, c_Send cl = Some ch ∧ ch_panicked ch = false ∧ ch_closed ch = c_closed cl ∧
    c_queuedBytes cl = bytes_of (ch_buf ch) ∧ c_queuedBytes cl ≤ MaxQueuedBytes ∧
    (length (ch_buf ch) ≤ sendQueueSize)%nat ∧ (length (default [] (c_pongs cl)) ≤ pongQueueSize)%nat.
Proof.
  intros Hc. destruct (lived_invariant saved w d Hr) as [_ Hac].
  destruct (ac_client _ Hac c Hc) as (_ & _ & [(ch & Hch & []) _ _ Hp _] & _). exists ch. by split_and!.
Qed.

(** C12: all text the server holds is valid UTF-8: the names, IDs and tokens of
    its clients, the sessions and the tokens that lead to them, and the codes,
    members, tracks, queues and suggestions of its rooms, whatever bytes
    clients send; so every record it writes can be read back. *)
Theorem text_is_utf8 :
  (∀ c, utf8 (clientID c w) ∧ utf8 (userName c w) ∧ utf8 (session c w)) ∧
  (∀ t s, sessions (w_srv w) !! t = Some s →
    utf8 t ∧ utf8 (se_UserID (getSession s w)) ∧ utf8 (se_Username (getSession s w))) ∧
  (∀ code r, rooms (w_srv w) !! code = Some r →
    utf8 code ∧ utf8 (rs_HostID (State (getRoom r w))) ∧ utf8 (rs_QueueTitle (State (getRoom r w))) ∧
    (∀ u, u ∈ rs_Users (State (getRoom r w)) → utf8 (ui_UserID u) ∧ utf8 (ui_Username u)) ∧
    (∀ t, rs_CurrentTrack (State (getRoom r w)) = Some t ∨ t ∈ rs_Queue (State (getRoom r w)) → track_utf8 t) ∧
    (∀ id sg, PendingSuggestions (getRoom r w) !! id = Some sg → utf8 (sg_ID sg) ∧ utf8 (sg_FromUsername sg)) ∧
    (∀ data, marshal_room (record_of r w) = Some data → unmarshal_room data = Some (json_view (record_of r w)))).
Proof.
  pose proof (lived_texts saved w d Hr) as Hw. split_and!.
  - intros c. destruct (tx_client _ Hw c). done.
  - intros t s Hs. destruct (tx_session _ Hw s). split; [by apply (tx_token _ Hw _ _ Hs)|done].
  - intros code r Hx. destruct (lived_room _ _ Hx) as (_ & <- & _).
    destruct (tx_room _ Hw r) as [Hc _ _ _ Hsg [_ Hh Ht Hu Htr Hq]]. rewrite !Forall_forall in *. split_and!; try done.
    + intros u Hin. by destruct (Hu u Hin).
    + intros t [E|Hin]; [by rewrite E in Htr|auto].
    + intros id sg Hs. by destruct (Hsg _ _ Hs).
    + intros data. apply json_roundtrip. by apply record_of_texts.
Qed.


End Guarantees.

(** ** Witnesses *)

Definition empty_store : MapStore := mkMapStore ∅ ∅.
Lemma party_lived : lived (start 0) party_world empty_store.
Proof. by apply reachable_lived; [..|apply party_reachable]. Qed.

Definition party_lookup : rooms (w_srv party_world) !! "AB12CD34" = Some 1%nat := eq_refl.

Lemma users_are_members_witness :
  NoDup (ui_UserID <$> rs_Users (State (getRoom 1 party_world))) ∧
  (ui_UserID <$> rs_Users (State (getRoom 1 party_world))) = ["user_0"; "user_2"].
Proof.
  split; [|by vm_compute]. apply (users_are_members (start 0) party_world empty_store party_lived "AB12CD34" 1 party_lookup).
Defined.


Lemma one_seat_witness :
  currentRoom 2 party_world = Some 1%nat ∧ Clients (getRoom 1 party_world) !! clientID 2 party_world = Some 2%nat.
Proof.
  assert (currentRoom 2 party_world = Some 1%nat) as Hc by by vm_compute.
  split; [exact Hc|]. by apply (one_seat (start 0) party_world empty_store party_lived 2 1).
Defined.

(** Bob's connection ends: his seat is kept for his token. *)
Definition away_world : World := run 7 [HangUp 2] party_world.
Lemma away_lived : lived (start 0) away_world empty_store.
Proof. apply reachable_lived; [done..|]. apply run_reachable; [apply party_reachable|]. by vm_compute. Qed.


Lemma room_limits_witness :
  map_len (PendingSuggestions (getRoom 1 party_world)) = 1 ∧
  map_len (PendingSuggestions (getRoom 1 party_world)) ≤ MaxPendingSuggestions.
Proof.
  split; [by vm_compute|].
  destruct (room_limits (start 0) party_world empty_store party_lived "AB12CD34" 1 party_lookup) as (_ & _ & Hs & _). exact Hs.
Defined.

Lemma connections_accounted_witness :
  pumps (w_srv party_world) = 2 ∧ source_count "10.0.0.1" (w_srv party_world) ≤ MaxConnectionsPerSource.
Proof.
  split; [by vm_compute|]. destruct (connections_accounted (start 0) party_world empty_store party_lived) as (_ & _ & _ & Hs & _).
  destruct (Hs "10.0.0.1") as [-> Hle]. exact Hle.
Defined.

Lemma queues_never_panic_witness :
  ∃ ch, c_Send (getClient 2 party_world) = Some ch ∧ ch_panicked ch = false ∧ (length (ch_buf ch) ≤ 256)%nat.
Proof.
  destruct (queues_never_panic (start 0) party_world empty_store party_lived 2) as (ch & H1 & H2 & _ & _ & _ & H3 & _);
    [apply (bool_decide_eq_true_1 _); vm_compute; reflexivity|].
  exists ch. split_and!; [exact H1|exact H2|exact H3].
Defined.

Lemma text_is_utf8_witness :
  userName 2 party_world = "Bob" ∧ ValidString (userName 2 party_world) = true.
Proof.
  split; [by vm_compute|]. destruct (text_is_utf8 (start 0) party_world empty_store party_lived) as [Hc _].
  destruct (Hc 2%nat) as (_ & Hn & _). exact Hn.
Defined.

(** A visitor who numbers its requests leaves a room it is not in: the server
    has nothing to say and acknowledges. *)
Definition numbering : ClientRef := w_next party_world.
Definition numbered_world : World :=
  run 7 [Connect visitor; Say numbering "client_capabilities request_id"] party_world.
Lemma numbered_lived : lived (start 0) numbered_world empty_store.
Proof. apply reachable_lived; [done..|]. apply run_reachable; [apply party_reachable|]. by vm_compute. Qed.

