(* ===== verification/Witnesses.v ===== *)
(** Witnesses: the hypotheses of the theorems about single components hold in
    concrete cases, most of them taken from the run of [Scenario]. *)

From S2P Require Import Prelude Protocol Utf8 Validation UAPolicy World Client Pumps Roster Hosts Playback Limits Members Rooms Lifecycle RoomOk Safety Server Steady Reachable Scenario.

Lemma setFeatures_negotiates_witness :
  let names := [FeatureRequestID; "unheard_of"; FeatureRequestID] in
  (setFeatures 2 names party_world).1 = [FeatureRequestID] ∧ NoDup (setFeatures 2 names party_world).1.
Proof.
  intros names. split; [by vm_compute|].
  destruct (setFeatures_negotiates 2 names party_world _ _ (surjective_pairing _)) as [Hnd _]. exact Hnd.
Defined.


Lemma writer_delivers_in_order_witness :
  let cl := closeSendWith 1012 "bye" (sendEncoded "hello" (newClient "user_0")) in
  connection (newClient "user_0") ["hello"] [MessageFrame "hello"] (writeNext cl).2 ∧
  ["hello"] = messages [MessageFrame "hello"] ++ backlog (writeNext cl).2.
Proof.
  intros cl. assert (connection (newClient "user_0") ["hello"] [MessageFrame "hello"] (writeNext cl).2) as Hc.
  { apply (conn_write _ ["hello"] [] cl [MessageFrame "hello"]).
    - apply conn_close. change ["hello"] with ([] ++ accepted "hello" (newClient "user_0")). apply conn_send, conn_start.
    - apply (pump_message cl cl _ []); [by apply priority_done|done]. }
  split; [exact Hc|]. apply (writer_delivers_in_order "user_0" _ _ _ Hc).
Defined.

Lemma compensate_bounds_witness :
  compensateActionTransit 5000 1000 4000 0 = 8000 ∧
  5000 ≤ compensateActionTransit 5000 1000 4000 0 ≤ int64_max.
Proof.
  split; [by vm_compute|]. eapply (compensate_bounds 5000 1000 4000 0);
    unfold clock_range, is_int64, int64_max, int64_min; lia.
Defined.

Lemma playback_keeps_limits_witness :
  state_ok (State (getRoom 1 party_world)) ∧
  state_ok (State (getRoom 1 (handlePlaybackAction (env_at 8) 0 "songC" party_world))).
Proof.
  assert (state_ok (State (getRoom 1 party_world))) as Hs.
  { destruct (reachable_invariant 0 party_world party_reachable) as [[_ Hrooms] _].
    assert (registered 1 party_world) as Hreg by (vm_compute; reflexivity).
    exact (rk_state _ _ _ (Hrooms 1%nat Hreg)). }
  split; [exact Hs|]. exact (playback_keeps_limits (env_at 8) 0 "songC" party_world 1 Hs).
Defined.

Lemma broadcast_agrees_witness :
  let room := getRoom 1 party_world in
  let p := zero_action <| pa_Action := ActionPause |> <| pa_Position := 4000 |> in
  ∃ room1 p1, apply_action 9000 0 room p = Applied room1 p1 ∧
    pa_Revision (finish_action 9000 "user_0" room1 p1).2 = rs_Revision (State (finish_action 9000 "user_0" room1 p1).1).
Proof.
  intros room p. destruct (apply_action 9000 0 room p) as [room1 p1| |] eqn:Ha; [|by vm_compute in Ha..].
  exists room1, p1. split; [reflexivity|].
  pose proof (broadcast_agrees 9000 0 "user_0" room p room1 p1 Ha) as Hb.
  destruct (finish_action 9000 "user_0" room1 p1) as [room2 p2]. exact (proj1 Hb).
Defined.
