(* ===== verification/RestartWitness.v ===== *)
(** RestartWitness: the persistence theorems on the party of [Scenario].

    The room of Ann and Bob is saved to an empty database and loaded by a new
    server. *)

From S2P Require Import Prelude Protocol Utf8 Validation UAPolicy World Client Roster Hosts Playback Limits Identifiers Members Rooms Lifecycle RoomOk Safety Server Reachable Scenario Store Persistence Flush Restart Lifetime ToyJson Guarantees.

Definition no_draw : ClientRef → string := λ _, "".
Definition saved : bool * option MapStore * World := SaveState no_draw (100 * Second) (Some empty_store) party_world.

Lemma party_ok : world_ok ∅ party_world.
Proof. exact (proj1 (reachable_invariant _ _ party_reachable)). Qed.

Lemma party_utf8 : utf8_rooms party_world.
Proof.
  intros code r Hr. revert code r Hr.
  change (map_Forall (λ _ r, Forall (λ s, ValidString s = true) (record_strings (record_of r party_world)))
    (rooms (w_srv party_world))).
  apply (bool_decide_eq_true_1 _). vm_compute. reflexivity.
Qed.

Lemma party_saved : ∃ d' w', saved = (true, Some d', w').
Proof.
  assert (saved.1.1 = true) as H1 by (vm_compute; reflexivity).
  assert (is_Some saved.1.2) as [d' H2] by (apply (bool_decide_eq_true_1 _); vm_compute; reflexivity).
  exists d', saved.2. rewrite <- H1, <- H2. by destruct saved as [[? ?] ?].
Qed.

Lemma flush_mirrors_witness :
  ∃ d', saved.1.2 = Some d' ∧ mirror d' saved.2 ∧ encodes (bucket d' roomsBucket) saved.2.
Proof.
  assert (saved.1.1 = true) as Hok by (vm_compute; reflexivity).
  destruct (flush_mirrors ∅ no_draw true (100 * Second) empty_store party_world saved.1.1 saved.1.2 saved.2
    (wo_roster _ _ party_ok)) as (d' & Hd & Hm & He & _).
  - vm_compute. reflexivity.
  - unfold saved, SaveState. by destruct (flushState _ _ _ _ _) as [[? ?] ?].
  - rewrite Hok in He. exists d'. split; [exact Hd|split; [exact Hm|exact He]].
Defined.

Lemma quiet_flush_witness :
  ∃ d', FlushState no_draw (120 * Second) (Some d') saved.2 = (true, Some d', saved.2).
Proof.
  destruct party_saved as (d' & w' & Hs). exists d'.
  assert (Sub (120 * Second) (lastFlush (w_srv saved.2)) < flushHeartbeat) as Hq by (vm_compute; reflexivity).
  rewrite Hs in Hq |- *. unfold saved, SaveState in Hs.
  exact (quiet_flush ∅ no_draw no_draw true (100 * Second) empty_store party_world d' w' (120 * Second)
    (wo_roster _ _ party_ok) Hs Hq).
Defined.

(** Bob was connected when the state was saved; his token leads to his seat. *)
Lemma restart_roundtrip_witness :
  ∃ d' w2, saved.1.2 = Some d' ∧
    LoadState no_draw (env_at 9) NoFile true (Some d') (start (e_now (env_at 9))) = (true, Some d', NoFile, w2) ∧
    token_seat w2 "token_4" "user_2" "AB12CD34".
Proof.
  destruct party_saved as (d' & w' & Hs).
  destruct (restart_roundtrip no_draw no_draw (100 * Second) (env_at 9) true empty_store party_world d' w'
    (start (e_now (env_at 9))) party_ok party_utf8) as (w2 & Hl & _ & _ & Ht & _).
  - vm_compute. reflexivity.
  - vm_compute. reflexivity.
  - unfold saved in Hs. exact Hs.
  - reflexivity.
  - exists d', w2. split; [rewrite Hs; reflexivity|]. split; [exact Hl|]. apply Ht.
    apply (seat_taken _ _ _ _ 1%nat 2%nat); vm_compute; reflexivity.
Defined.

