(* ===== verification/ConductWitness.v ===== *)
(** ConductWitness: the theorems of [Conduct] and [Run] on the party of
    [Scenario]. *)

From S2P Require Import Prelude Protocol Utf8 Validation UAPolicy World Client Roster Hosts Playback Limits Identifiers Members Rooms Lifecycle RoomOk Safety Preserve PreserveRooms PreserveLife Server Reachable Scenario Store UserAgents Persistence Flush Restart Conduct Lifetime Run ToyJson Guarantees RestartWitness.

(** Bob, who is not the host, tries to kick Ann. *)
Lemma only_hosts_command_witness :
  ∃ code message, handleKickUser 2 "user_0" party_world = sendError 2 code message party_world.
Proof.
  apply (only_hosts_command (env_at 8) 2 "user_0" party_world).
  - unfold host_commands. right. right. left.
  - assert (currentRoom 2 party_world = Some 1%nat) as Hc by (vm_compute; reflexivity).
    intros r Hr. rewrite Hc in Hr. injection Hr as <-.
    apply (bool_decide_eq_true_1 _). vm_compute. reflexivity.
Defined.

(** Ann kicks Bob. *)
Lemma kick_revokes_witness :
  Clients (getRoom 1 (handleKickUser 0 "user_2" party_world)) !! "user_2" = None ∧
  ¬ token_seat (handleKickUser 0 "user_2" party_world) "token_4" "user_2" (Code (getRoom 1 party_world)).
Proof.
  destruct (kick_revokes 0 "user_2" (mkKickUserPayload "user_2" "") party_world 1 party_ok) as [Hg Ht].
  - vm_compute. reflexivity.
  - vm_compute. intros H. discriminate H.
  - vm_compute. reflexivity.
  - apply (bool_decide_eq_true_1 _). vm_compute. reflexivity.
  - apply (bool_decide_eq_true_1 _). vm_compute. reflexivity.
  - left. apply (bool_decide_eq_true_1 _). vm_compute. reflexivity.
  - split; [exact (gn_clients _ _ _ _ Hg)|exact (Ht "token_4")].
Defined.

(** Bob's connection ends. *)
Lemma hang_up_keeps_seats_witness : token_seat (hang_up (env_at 7) 2 party_world) "token_4" "user_2" "AB12CD34".
Proof.
  apply (hang_up_keeps_seats (env_at 7) 2 party_world "token_4" "user_2" "AB12CD34" party_ok).
  apply (seat_taken _ _ _ _ 1%nat 2%nat); vm_compute; reflexivity.
Defined.

(** Bob comes back on a new connection. *)
Definition back_world : World := run 8 [Connect visitor] away_world.
Definition newcomer : ClientRef := w_next away_world.
Lemma back_ok : world_ok ∅ back_world.
Proof.
  apply (reachable_invariant 0). apply run_reachable; [|by vm_compute].
  apply run_reachable; [apply party_reachable|]. by vm_compute.
Qed.

Lemma reconnect_resumes_witness :
  currentRoom newcomer (handleReconnect (env_at 9) newcomer "token_4" back_world) = Some 1%nat ∧
  clientID newcomer (handleReconnect (env_at 9) newcomer "token_4" back_world) = "user_2".
Proof.
  destruct (sessions (w_srv back_world) !! "token_4") as [s|] eqn:Hs; [|by vm_compute in Hs].
  destruct (reconnect_resumes (env_at 9) newcomer "token_4" (mkReconnectPayload "token_4") back_world s back_ok)
    as (r & Hr & Hres).
  - vm_compute. reflexivity.
  - vm_compute. intros H. discriminate H.
  - vm_compute. reflexivity.
  - vm_compute. reflexivity.
  - exact Hs.
  - vm_compute in Hs. injection Hs as <-. vm_compute. reflexivity.
  - vm_compute in Hs. injection Hs as <-. apply (bool_decide_eq_true_1 _). vm_compute. reflexivity.
  - intros _. vm_compute. reflexivity.
  - destruct (rs_client _ _ _ _ _ _ _ _ Hres) as (H1 & H2 & _).
    vm_compute in Hs. injection Hs as <-. vm_compute in Hr. injection Hr as <-. split; [exact H1|].
    rewrite H2. vm_compute. reflexivity.
Defined.

(** Bob's new connection has claimed the seat; Ann is sent a message before it
    resumes. *)
Definition claiming_world : World := (claim (env_at 9) newcomer "token_4" back_world).2.
Definition bobs_session : SessionRef := default 0%nat (sessions (w_srv back_world) !! "token_4").
Definition busy_world : World := sendError 0 "too_soon" "Ann is told something" claiming_world.
Lemma busy_ok : world_ok ∅ busy_world.
Proof.
  apply error_ok. unfold claiming_world. pose proof (claim_cases (env_at 9) newcomer "token_4" back_world) as Hcl.
  pose proof back_ok as Hok. destruct (claim _ _ _ _) as [[code|s] w']; cbn [snd]; [by subst|].
  destruct Hcl as (_ & -> & _). by apply claimed_ok.
Qed.


(** Ann's connection ends and she stays away: Bob takes over. *)
Definition hostless_world : World := run 7 [HangUp 0] party_world.
Lemma hostless_ok : world_ok ∅ hostless_world.
Proof. apply (reachable_invariant 0). apply run_reachable; [apply party_reachable|]. by vm_compute. Qed.

Lemma failover_effective_witness :
  ∃ id d, Host (getRoom 1 (failoverHostsOnce (1000 * Second) hostless_world)) = Some d ∧
    rs_HostID (State (getRoom 1 (failoverHostsOnce (1000 * Second) hostless_world))) = id.
Proof.
  destruct (failover_effective (1000 * Second) hostless_world "AB12CD34" 1 hostless_ok)
    as [_ [Hno|(id & d & _ & Hh & _ & Hid)]].
  - vm_compute. reflexivity.
  - apply (bool_decide_eq_true_1 _). vm_compute. reflexivity.
  - exfalso. apply (Hno "user_2" 2%nat); [vm_compute; reflexivity|].
    apply (bool_decide_eq_true_1 _). vm_compute. reflexivity.
  - exists id, d. split; [exact Hh|exact Hid].
Defined.

(** Bob stays away for good. *)
Lemma away_ok_world : world_ok ∅ away_world.
Proof. exact (proj1 (lived_invariant _ _ _ away_lived)). Qed.
Lemma expired_given_up_witness :
  is_Some (sessions (w_srv away_world) !! "token_4") ∧
  sessions (w_srv (cleanupExpiredSessionsOnce (10000 * Second) away_world)) !! "token_4" = None.
Proof.
  split; [apply (bool_decide_eq_true_1 _); vm_compute; reflexivity|].
  destruct (expired_given_up (10000 * Second) away_world away_ok_world) as [Hiff _].
  destruct (sessions (w_srv (cleanupExpiredSessionsOnce (10000 * Second) away_world)) !! "token_4") as [s|] eqn:Hs; [|reflexivity].
  exfalso. apply Hiff in Hs as (Ht & Hn & _). vm_compute in Ht. injection Ht as <-.
  apply Hn. apply (bool_decide_eq_true_1 _). vm_compute. reflexivity.
Defined.

(** The server of the party is shut down before anybody's connection ended,
    and started again. *)
#[local] Instance no_policy_file : PolicyIO := {| read_file _ := None; decode_policy _ := None |}.
Definition plain_config : Config := mkConfig "" "" "" "".
Definition ended : Proc := shut_down no_draw (100 * Second) party_world empty_store.

Lemma ended_saved : ∃ d1, pr_db ended = Some d1.
Proof.
  assert (is_Some (pr_db ended)) as [d1 E] by (apply (bool_decide_eq_true_1 _); vm_compute; reflexivity). by exists d1.
Qed.

Lemma graceful_restart_witness :
  ∃ d1 d' w3, Run_boot (λ _, Some d1) (λ _, true) no_draw (env_at 9) NoFile true plain_config
      = Serving w3 d' "8080" ["/ws"; "/health"] ∧
    token_seat w3 "token_4" "user_2" "AB12CD34".
Proof.
  destruct ended_saved as (d1 & Hd). exists d1, (ms_write d1 (CreateBucketIfNotExists userAgentsBucket)).
  destruct (graceful_restart (λ _, Some d1) (λ _, true) no_draw (env_at 9) true plain_config
    defaultUAPolicy (start 0) party_world empty_store ended d1
    (ms_write d1 (CreateBucketIfNotExists userAgentsBucket)) party_lived) as (w1 & w3 & _ & Hb & _ & _ & Hq).
  - apply shutdown_ends.
  - vm_compute. reflexivity.
  - assert (pr_saved ended = Some true) as E by (vm_compute; reflexivity). rewrite E. intros [=].
  - reflexivity.
  - exact Hd.
  - reflexivity.
  - reflexivity.
  - vm_compute. intros H. discriminate H.
  - exists w3. split; [exact Hb|]. apply (proj2 (Hq (shutdown_ends _ _ _ _ _))).
    apply (seat_taken _ _ _ _ 1%nat 2%nat); vm_compute; reflexivity.
Defined.

(** A visitor connects while everybody is there: it takes Bob's seat over with
    his token, or joins. *)
Definition visited_world : World := run 7 [Connect visitor] party_world.
Definition guest : ClientRef := w_next party_world.
Lemma visited_ok : world_ok ∅ visited_world.
Proof. apply (reachable_invariant 0). apply run_reachable; [apply party_reachable|]. by vm_compute. Qed.

Lemma reconnect_takes_over_witness :
  currentRoom guest (handleReconnect (env_at 8) guest "token_4" visited_world) = Some 1%nat ∧
  currentRoom 2 (handleReconnect (env_at 8) guest "token_4" visited_world) = None.
Proof.
  destruct (reconnect_takes_over (env_at 8) guest "token_4" (mkReconnectPayload "token_4") visited_world 2 1 visited_ok)
    as (H1 & _ & _ & _ & H5).
  - vm_compute. reflexivity.
  - vm_compute. reflexivity.
  - vm_compute. reflexivity.
  - apply (bool_decide_eq_true_1 _). vm_compute. reflexivity.
  - vm_compute. reflexivity.
  - vm_compute. reflexivity.
  - intros _. vm_compute. reflexivity.
  - split; [exact H1|exact H5].
Defined.

Lemma join_then_approve_witness :
  currentRoom guest (handleApproveJoin (env_at 9) 0 "user_7" (handleJoinRoom guest "Cid" visited_world)) = Some 1%nat.
Proof.
  destruct (join_then_approve (env_at 9) 0 guest "Cid" "user_7" (mkJoinRoomPayload "AB12CD34" "Cid")
    (mkApproveJoinPayload "user_7") visited_world 1 visited_ok) as (H1 & _).
  - vm_compute. reflexivity.
  - vm_compute. intros H. discriminate H.
  - vm_compute. intros H. discriminate H.
  - vm_compute. intros H. discriminate H.
  - vm_compute. intros H. discriminate H.
  - left. vm_compute. reflexivity.
  - vm_compute. reflexivity.
  - vm_compute. reflexivity.
  - vm_compute. reflexivity.
  - vm_compute. reflexivity.
  - vm_compute. reflexivity.
  - vm_compute. reflexivity.
  - vm_compute. reflexivity.
  - apply (bool_decide_eq_true_1 _). vm_compute. reflexivity.
  - vm_compute. reflexivity.
  - vm_compute. reflexivity.
  - exact H1.
Defined.
