(* ===== verification/WorkersWitness.v ===== *)
(** WorkersWitness: the theorems on the background loops, on the party of
    [Scenario] and on a room whose host left. *)

From S2P Require Import Prelude Protocol Utf8 Validation UAPolicy World Client Roster Hosts Playback Limits Identifiers Members Rooms Lifecycle RoomOk Safety Server Reachable Scenario Store Persistence Flush Restart Lifetime Workers ToyJson Guarantees RestartWitness ConductWitness.

Lemma wait_turn (now : Time) (p : Process MapStore) :
  k_now p ≤ now → Forall (λ t, now ≤ t) (due p) → rtc turn p (with_now now p).
Proof. intros. by apply rtc_once, turn_wait. Qed.

(** A server boots with the saved party, flushes once and crashes a second
    later. *)
Lemma crash_window_witness :
  ∃ w0 d' p' (p1 : Process MapStore) d2 w2,
    LoadState no_draw (env_at 9) NoFile true (Some d') (newborn defaultUAPolicy (e_now (env_at 9))) = (true, Some d', NoFile, w0) ∧
    runStateFlusher no_draw OnTick (with_now (e_now (env_at 9) + StateFlushInterval) (launch (e_now (env_at 9)) w0 (Some d')))
      = Some p' ∧
    k_now p' + Second ≤ k_now p1 + (k_missed p' + 1) * StateFlushInterval ∧
    LoadState no_draw (env_at 12) NoFile true (Some d2) (newborn defaultUAPolicy (e_now (env_at 12))) = (true, Some d2, NoFile, w2) ∧
    same_books (k_world p1) w2.
Proof.
  destruct party_saved as (d' & w' & Hs).
  assert (lived party_world w' d') as Hl.
  { apply (lived_flush (start 0) no_draw true (100 * Second) party_world empty_store);
      [apply party_lived|unfold saved in Hs; exact Hs]. }
  destruct (lived_loads defaultUAPolicy no_draw (env_at 9) true _ _ _ Hl) as (w0 & Hload & _).
  set (t0 := e_now (env_at 9)) in *. set (p0 := launch t0 w0 (Some d')).
  set (p := with_now (t0 + StateFlushInterval) p0).
  destruct (flusher_ticks no_draw p eq_refl) as (ok & d3 & w3 & Hf). set (p' := with_flusher _ _) in Hf.
  destruct (crash_window defaultUAPolicy no_draw no_draw (env_at 9) (env_at 12) true true party_world w' d' d' NoFile w0
    (with_now (k_now p' + Second) p') (t0 + StateFlushInterval + StateFlushInterval) Hl Hload)
    as (p1 & _ & _ & [_ Hle] & d2 & w2 & _ & Hl2 & Hb).
  - fold t0. fold p0. transitivity p; [|transitivity p'].
    + apply wait_turn; [by vm_compute|]. apply (bool_decide_eq_true_1 _). vm_compute. reflexivity.
    + apply rtc_once. by apply (turn_flusher no_draw OnTick).
    + apply wait_turn; [by vm_compute|]. apply (bool_decide_eq_true_1 _). vm_compute. reflexivity.
  - reflexivity.
  - exists w0, d', p', p1, d2, w2. split_and!; [exact Hload|exact Hf|exact Hle|exact Hl2|exact Hb].
Defined.

(** Ann, the host, hung up long ago: of a server that starts at [t0], flushes
    twice and checks for absent hosts once, six seconds after the start. *)
Lemma hostless_lived : lived (start 0) hostless_world empty_store.
Proof. apply reachable_lived; [done..|]. apply run_reachable; [apply party_reachable|]. by vm_compute. Qed.

Lemma flush_turn (p : Process MapStore) :
  k_flusher p = Some (k_now p) →
  ∃ (ok : bool) d w, rtc turn p (with_flusher (Some (k_now p + StateFlushInterval))
    (with_missed (if ok then 0 else k_missed p + 1) (with_db d (with_world w p)))).
Proof.
  intros Hf. destruct (flusher_ticks no_draw p Hf) as (ok & d & w & Ht). exists ok, d, w.
  by apply rtc_once, (turn_flusher no_draw OnTick).
Qed.

