(* ===== verification/CodecWitness.v ===== *)
(** CodecWitness: an instance of [Protobuf] that satisfies its laws, and the
    theorems of the codec on it.

    Envelopes are spelt in binary; of the payloads only [create_room] has an
    encoding, the name itself; every byte is a field of its own, a queue entry;
    runs of [x] compress. *)

From Stdlib Require Import Ascii.
From stdpp Require Import countable.
From S2P Require Import Prelude Protocol Utf8 Validation UAPolicy World Client Hosts Playback Members Store Codec Persistence ToyJson.

Definition all_x (s : string) : bool := bool_decide (s = implode (replicate (String.length s) 120)).

#[export] Instance toy_protobuf : Protobuf := {|
  Marshal m :=
    match m with
    | pb_Envelope t p c i => Some (spell (countable.encode (t, p, c, i)))
    | pb_CreateRoomPayload u => Some u
    | _ => None
    end;
  Unmarshal k data :=
    match k with
    | 0%nat => '(t, p, c, i) ← read data ≫= countable.decode; Some (pb_Envelope t p c i)
    | 1%nat => Some (pb_CreateRoomPayload data)
    | _ => None
    end;
  gzip data := Some (if all_x data then String "r"%char (spell (Pos.of_succ_nat (String.length data)))
                     else String "u"%char data);
  gunzip z :=
    match z with
    | String "r"%char n => n ← read n; Some (implode (replicate (pred (Pos.to_nat n)) 120), true)
    | String "u"%char data => Some (data, true)
    | _ => None
    end;
  ConsumeTag data := if decide (data = "") then None else Some (6, 2, 1%nat);
  ConsumeFieldValue _ _ _ := Some 0%nat
|}.

#[export] Instance toy_protobuf_laws : ProtobufLaws.
Proof.
  split.
  - intros [] data; try done; intros [= <-]; [|done]. cbn [Unmarshal toy_protobuf kind_of]. rewrite read_spell. cbn [mbind option_bind].
    by rewrite countable.decode_encode.
  - intros [|[|k]] data m; [|by intros [= <-]|done]. cbn. destruct (read data ≫= countable.decode) as [[[[? ?] ?] ?]|]; [|done].
    by intros [= <-].
  - intros t p c i data [= <-] _. by destruct (countable.encode _).
  - intros data z [= <-]. destruct (all_x data) eqn:Hx; cbn; [|done]. rewrite read_spell. cbn.
    apply bool_decide_eq_true in Hx. rewrite SuccNat2Pos.pred_id. congruence.
  - intros data n t k. cbn. case_decide; [done|]. intros [= <- <- <-]. destruct data; [done|cbn; lia].
  - intros n t data k [= <-]. lia.
Qed.

Definition long_name : string := implode (replicate 150 120).

Lemma envelope_roundtrip_witness :
  ∃ data, encodeProtobuf true MsgTypeCreateRoom (Some (Pointer (PCreateRoom (mkCreateRoomPayload long_name)))) 7 = Some data ∧
    (maybe_compress true long_name).2 = true ∧
    decodeProtobuf data = inl (MsgTypeCreateRoom, long_name, 7).
Proof.
  destruct (encodeProtobuf true MsgTypeCreateRoom (Some (Pointer (PCreateRoom (mkCreateRoomPayload long_name)))) 7)
    as [data|] eqn:He; [|by vm_compute in He].
  exists data. split; [reflexivity|]. split; [vm_compute; reflexivity|].
  apply (envelope_roundtrip true MsgTypeCreateRoom (Some (Pointer (PCreateRoom (mkCreateRoomPayload long_name)))) 7 long_name data);
    [done|by vm_compute|done|by vm_compute|by vm_compute|exact He].
Defined.

Lemma decode_bounds_witness :
  let data := default "" (encodeProtobuf false MsgTypeCreateRoom (Some (Pointer (PCreateRoom (mkCreateRoomPayload "Ann")))) 7) in
  len MsgTypeCreateRoom ≤ MaxEnvelopeTypeLength ∧ len "Ann" ≤ MaxDecodedPayloadSize.
Proof. intros data. apply (decode_bounds data MsgTypeCreateRoom "Ann" 7). vm_compute. reflexivity. Defined.

Lemma decoded_type_witness : request_type (PCreateRoom (mkCreateRoomPayload "Ann")) = Some MsgTypeCreateRoom.
Proof. apply (decoded_type MsgTypeCreateRoom "Ann" (PCreateRoom (mkCreateRoomPayload "Ann"))). reflexivity. Defined.

Lemma request_roundtrip_witness :
  fromProtoMessage MsgTypeCreateRoom "Ann" = Some (PCreateRoom (mkCreateRoomPayload "Ann")).
Proof.
  apply (request_roundtrip (PCreateRoom (mkCreateRoomPayload "Ann")) MsgTypeCreateRoom (pb_CreateRoomPayload "Ann") "Ann");
    done.
Defined.

(** Two queue entries are within the limit. *)
Lemma cardinality_exact_witness : ∃ fs, fields "ab" fs ∧ queue_fields fs ≤ MaxQueueInputSize.
Proof. apply (proj2 (cardinality_exact "ab")). vm_compute. reflexivity. Defined.
