(* ===== verification/RefineWitness.v ===== *)
(** RefineWitness: the theorems of [Refine] and [Expiry] on the party of
    [Scenario]. *)

From S2P Require Import Prelude Protocol Utf8 Validation UAPolicy World Client Roster Hosts Playback Limits Identifiers Members Rooms Lifecycle RoomOk Safety Server Steady Reachable Scenario Club Refine Tame Expiry.

(** The party is a run of the machine that starts with no halls; it ends with
    Ann hosting and Bob there. *)
Lemma server_refines_club_witness :
  rtc (λ S S', ∃ who, club who S S') ∅ (view party_world) ∧
  view party_world !! "AB12CD34" = Some (mkHall {["user_0"; "user_2"]} ∅ ∅ "user_0" "").
Proof.
  destruct (server_refines_club 0 (start 0) (start_invariant 0)) as (Hv & _ & Hrun). split.
  - rewrite <- Hv. apply Hrun. exact party_reachable.
  - vm_compute. reflexivity.
Defined.

(** Bob has applied and Ann approves him. *)
Definition applied_world : World := run 0 (take 4 party) (start 0).
Definition approved_world : World := perform 4 (Say 0 "approve_join user_2") applied_world.
Lemma applied_reachable : reachable 0 applied_world.
Proof. apply run_reachable; [apply rtc_refl|]. by vm_compute. Qed.

(** What may be said is a step. *)
Lemma said_step n c data w : allowed n (Say c data) w = true → step w (perform n (Say c data) w).
Proof.
  intros [[Hu%utf8_checked Hf%fresh_checked]%andb_true_iff [Hc%bool_decide_eq_true Ho]%andb_true_iff]%andb_true_iff.
  by apply step_event, step_receive.
Qed.

Lemma seats_are_granted_witness :
  ∃ u, does (User u) applied_world approved_world ∧ rs_HostID (State (getRoom 1 applied_world)) = u.
Proof.
  destruct (seats_are_granted applied_world approved_world "user_2" "AB12CD34" (reachable_invariant _ _ applied_reachable))
    as (u & _ & Hd & [[Hno _]|(r & Hr & Hh & _)] & _).
  - apply said_step. vm_compute. reflexivity.
  - exists 1%nat. split; [vm_compute; reflexivity|]. left. apply (bool_decide_eq_true_1 _). vm_compute. reflexivity.
  - intros (r & Hr & Hm). vm_compute in Hr. injection Hr as <-. revert Hm.
    apply (bool_decide_eq_true_1 (¬ (_ ∨ _))). vm_compute. reflexivity.
  - vm_compute in Hno. discriminate Hno.
  - vm_compute in Hr. injection Hr as <-. exists u. split; [exact Hd|exact Hh].
Defined.

(** Bob leaves. *)
Definition left_world : World := perform 7 (Say 2 "leave_room") party_world.
Lemma seats_are_given_up_witness :
  ∃ who, does who party_world left_world ∧ match who with User _ | Clock => True | Network => False end.
Proof.
  destruct (seats_are_given_up party_world left_world "user_2" "AB12CD34" (reachable_invariant _ _ party_reachable))
    as (who & r & Hd & _ & Hw).
  - apply said_step. vm_compute. reflexivity.
  - exists 1%nat. split; [vm_compute; reflexivity|]. left. apply (bool_decide_eq_true_1 _). vm_compute. reflexivity.
  - intros (r & Hr & Hm). vm_compute in Hr. injection Hr as <-. revert Hm.
    apply (bool_decide_eq_true_1 (¬ (_ ∨ _))). vm_compute. reflexivity.
  - exists who. split; [exact Hd|]. destruct who; [exact I|exact Hw|exact I].
Defined.

(** Bob stays away until his session runs out; its token is taken, and before
    the worker visits the room Ann puts Bob out. *)
Definition overdue_world : World := run 7 [HangUp 2] party_world.
Definition taken_world : World := (collect (10000 * Second) overdue_world).1.
Definition round : Sweep := (collect (10000 * Second) overdue_world).2.
Definition ousted_world : World := perform 8 (Say 0 "kick_user user_2") taken_world.

Lemma ousted_interleaved : rtc interleaved (start 0, idle) (ousted_world, round).
Proof.
  destruct (steps_interleaved (start 0) overdue_world idle) as (sw & Hno & Hr); [|done|].
  { apply run_reachable; [apply party_reachable|]. by vm_compute. }
  eapply rtc_r; [eapply rtc_r; [exact Hr|by apply (il_collect (10000 * Second))]|]. apply (il_event taken_world).
  apply step_receive.
  - apply (bool_decide_eq_true_1 _). vm_compute. reflexivity.
  - vm_compute. reflexivity.
  - apply utf8_checked. vm_compute. reflexivity.
  - apply fresh_checked. vm_compute. reflexivity.
  - apply (bool_decide_eq_true_1 _). vm_compute. reflexivity.
Qed.

Lemma interleaved_expiry_witness :
  length (sw_todo round) = 1%nat ∧ room_ok (may_host ousted_world) (was_host ousted_world) (getRoom 1 ousted_world) ∧
  DisconnectedUsers (getRoom 1 taken_world) !! "user_2" ≠ None ∧ DisconnectedUsers (getRoom 1 ousted_world) !! "user_2" = None.
Proof.
  destruct (interleaved_expiry 0 ousted_world round ousted_interleaved) as (_ & Hrooms & _).
  split; [vm_compute; reflexivity|]. split; [apply (Hrooms "AB12CD34"); vm_compute; reflexivity|].
  split; [vm_compute; intros Hx; discriminate Hx|]. apply (bool_decide_eq_true_1 _). vm_compute. reflexivity.
Defined.
